(** * libet: the software timer queue of [libt.c]

    A shallow embedding of [src/libt.c] and the properties of its timer
    queue.  The C code keeps two intrusive doubly linked lists of
    [struct timer] records, [s.timers] (the pending timers, sorted by
    wakeup time) and [s.tmptimers] (the timers whose callback is running
    during [libt_flush]).  The embedding keeps the records in a heap
    indexed by address, with their [next] and [prev] pointers, and follows
    the pointer surgery of [t_del], [t_add] and [t_add_sorted] statement by
    statement.  Times are IEEE binary64 numbers (Rocq's primitive floats),
    as C's [double]. *)

From Stdlib Require Import ZArith Lia List Bool Sorted Floats.
From stdpp Require Import base option list gmap.

Set Warnings "-inexact-float,-clear-no-such-hyp".
Local Open Scope Z_scope.

(** ** C's [double] *)

Module Double.

Definition isnan (x : float) : bool := PrimFloat.is_nan x.

(** Conversion of a [double] to an integer type: the fractional part is
    discarded (truncation toward zero); NaN and the infinities have no
    integer value. *)
Definition to_Z (x : float) : option Z :=
  match Prim2SF x with
  | S754_zero _ => Some 0
  | S754_finite sg m e =>
      let mag := match e with
                 | Zneg p => Z.shiftr (Zpos m) (Zpos p)
                 | _ => Z.shiftl (Zpos m) e
                 end in
      Some (if sg then - mag else mag)
  | _ => None
  end.

(** Conversion of an integer to [double], rounding to nearest even. *)
Definition of_Z (z : Z) : float :=
  SF2Prim (binary_normalize prec emax z 0 false).

(** [fmod x y] of <math.h>: the remainder [x - n*y], where [n] is
    [x/y] truncated toward zero; it has the sign of [x] and is always
    exactly representable. *)
Definition fmod (x y : float) : float :=
  match Prim2SF x, Prim2SF y with
  | S754_nan, _ | _, S754_nan => nan
  | S754_infinity _, _ => nan
  | _, S754_zero _ => nan
  | S754_zero _, _ => x
  | S754_finite _ _ _, S754_infinity _ => x
  | S754_finite sx mx ex, S754_finite _ my ey =>
      let e := Z.min ex ey in
      let X := Z.shiftl (Zpos mx) (ex - e) in
      let Y := Z.shiftl (Zpos my) (ey - e) in
      let R := Z.rem X Y in
      SF2Prim (binary_normalize prec emax (if sx then - R else R) e sx)
  end.

End Double.

(** ** The data model: [struct timer] and the static [s] *)

(** The two list heads of [s]. *)
Inductive root := TIMERS | TMPTIMERS.

(** A [struct timer *].  [FAKE r] is the pointer [t_fakeelement] crafts
    for the list head [r]: a pointer to [s] itself, of which only the
    [next] member may be used (it is the head pointer). *)
Inductive ptr := NULL | FAKE (r : root) | NODE (a : nat).

Record timer := Timer {
  next : ptr;
  prev : ptr;
  fn : Z;
  dat : Z;
  wakeup : float
}.

(** The program state: the static [s], the allocated records, and what
    the environment has seen: the next fresh address, the addresses
    released by [free], the number of clock readings taken and the
    callbacks invoked so far (callback and argument, oldest first). *)
Record state := State {
  timers : ptr;
  tmptimers : ptr;
  heap : gmap nat timer;
  brk : nat;
  freed : list nat;
  ticks : nat;
  fired : list (Z * Z)
}.

Definition init : state := State NULL NULL ∅ 0 [] 0 [].

(** What a callback does, as far as the library can tell: a sequence of
    calls of the exported functions, each continuing with the value
    returned.  Callbacks do not call [libt_flush]. *)
Inductive prog :=
| Return
| CallAdd (wakeuptime : float) (fn dat : Z) (flags : Z) (k : Z -> prog)
| CallRemove (fn dat : Z) (k : prog)
| CallExist (fn dat : Z) (k : Z -> prog)
| CallNextWakeup (k : float -> prog)
| CallGetWaittime (k : Z -> prog)
| CallNow (k : float -> prog).

(** The world around the library: the monotonic clock, as the sequence
    of its readings, and the code behind each callback pointer. *)
Record world := World {
  clock : nat -> float;
  code : Z -> Z -> prog
}.

(** ** Computations *)

(** A computation ends with a value and a state, or with a memory fault
    (a NULL or dangling pointer is dereferenced, a record is released
    twice, a conversion has no defined value), or it runs out of fuel. *)
Inductive res (St A : Type) :=
| Ok (a : A) (s : St)
| Fault
| Timeout.
Arguments Ok {St A} a s.
Arguments Fault {St A}.
Arguments Timeout {St A}.

Definition ret {St A} (a : A) : St -> res St A := fun s => Ok a s.
Definition bind {St A B} (m : St -> res St A) (f : A -> St -> res St B)
  : St -> res St B :=
  fun s => match m s with
           | Ok a s' => f a s'
           | Fault => Fault
           | Timeout => Timeout
           end.
Definition fault {St A} : St -> res St A := fun _ => Fault.
Definition timeout {St A} : St -> res St A := fun _ => Timeout.

(** Computations of the C program, on its memory. *)
Definition M (A : Type) : Type := state -> res state A.

Declare Scope m_scope.
Delimit Scope m_scope with M.
Notation "x <- m ; k" := (bind m (fun x => k))
  (at level 100, m at next level, right associativity) : m_scope.
Notation "m ;; k" := (bind m (fun _ => k))
  (at level 100, right associativity) : m_scope.
Local Open Scope m_scope.

(** ** Memory accesses *)

Definition is_null (p : ptr) : bool :=
  match p with NULL => true | _ => false end.

(** [p->next], where [p] may be a fake element. *)
Definition nxt (s : state) (p : ptr) : option ptr :=
  match p with
  | NULL => None
  | FAKE TIMERS => Some (timers s)
  | FAKE TMPTIMERS => Some (tmptimers s)
  | NODE a => next <$> heap s !! a
  end.

(** The record [p] points to. *)
Definition cell (s : state) (p : ptr) : option timer :=
  match p with
  | NODE a => heap s !! a
  | _ => None
  end.

Definition set_heap (h : gmap nat timer) (s : state) : state :=
  State (timers s) (tmptimers s) h (brk s) (freed s) (ticks s) (fired s).

Definition load {A} (f : timer -> A) (p : ptr) : M A :=
  fun s => match cell s p with
           | Some t => Ok (f t) s
           | None => Fault
           end.

Definition store (f : timer -> timer) (p : ptr) : M unit :=
  fun s => match p with
           | NODE a =>
               match heap s !! a with
               | Some t => Ok tt (set_heap (<[a := f t]> (heap s)) s)
               | None => Fault
               end
           | _ => Fault
           end.

Definition get_next (p : ptr) : M ptr :=
  fun s => match nxt s p with
           | Some q => Ok q s
           | None => Fault
           end.

Definition set_next (p v : ptr) : M unit :=
  match p with
  | NULL => fault
  | FAKE TIMERS => fun s =>
      Ok tt (State v (tmptimers s) (heap s) (brk s) (freed s) (ticks s) (fired s))
  | FAKE TMPTIMERS => fun s =>
      Ok tt (State (timers s) v (heap s) (brk s) (freed s) (ticks s) (fired s))
  | NODE _ => store (fun t => Timer v (prev t) (fn t) (dat t) (wakeup t)) p
  end.

Definition get_prev : ptr -> M ptr := load prev.
Definition set_prev (p v : ptr) : M unit :=
  store (fun t => Timer (next t) v (fn t) (dat t) (wakeup t)) p.
Definition get_fn : ptr -> M Z := load fn.
Definition set_fn (p : ptr) (v : Z) : M unit :=
  store (fun t => Timer (next t) (prev t) v (dat t) (wakeup t)) p.
Definition get_dat : ptr -> M Z := load dat.
Definition set_dat (p : ptr) (v : Z) : M unit :=
  store (fun t => Timer (next t) (prev t) (fn t) v (wakeup t)) p.
Definition get_wakeup : ptr -> M float := load wakeup.
Definition set_wakeup (p : ptr) (v : float) : M unit :=
  store (fun t => Timer (next t) (prev t) (fn t) (dat t) v) p.

Definition get_timers : M ptr := fun s => Ok (timers s) s.
Definition get_tmptimers : M ptr := fun s => Ok (tmptimers s) s.
Definition get_brk : M nat := fun s => Ok (brk s) s.

(** [malloc] of one record followed by [memset] to zero: a fresh
    address, never handed out before, with an all-zero record.  The
    allocation itself is taken to succeed, as the code does. *)
Definition malloc0 : M ptr :=
  fun s => Ok (NODE (brk s))
              (State (timers s) (tmptimers s)
                     (<[brk s := Timer NULL NULL 0 0 0%float]> (heap s))
                     (S (brk s)) (freed s) (ticks s) (fired s)).

(** [free(t)]: releasing anything but a live record is a fault. *)
Definition free (p : ptr) : M unit :=
  fun s => match p with
           | NODE a =>
               match heap s !! a with
               | Some _ =>
                   Ok tt (State (timers s) (tmptimers s) (delete a (heap s))
                                (brk s) (a :: freed s) (ticks s) (fired s))
               | None => Fault
               end
           | _ => Fault
           end.

(** ** The doubly linked lists *)

(** [t_fakeelement(root)]: [next] is the first member of [struct timer],
    so the fake element of a [struct timer **] is the same address seen
    as a [struct timer *].  A [struct timer **] is therefore kept as the
    (possibly fake) element whose [next] member it addresses. *)
Definition t_fakeelement (root : ptr) : ptr := root.

Definition t_del (t : ptr) : M unit :=
  n <- get_next t;
  (if is_null n then ret tt else p <- get_prev t; set_prev n p);;
  p <- get_prev t;
  (if is_null p then ret tt else n <- get_next t; set_next p n);;
  set_prev t NULL;;
  set_next t NULL.

Definition t_add (t root : ptr) : M unit :=
  t_del t;;
  r <- get_next root;
  set_next t r;;
  n <- get_next t;
  (if is_null n
   then set_prev t (t_fakeelement root)
   else p <- get_prev n; set_prev t p;; set_prev n t);;
  p <- get_prev t;
  set_next p t.

(** The loop of [t_add_sorted]: [root] walks over the [next] members
    until the list ends or a strictly later timer is met. *)
Fixpoint t_scan (fuel : nat) (t root : ptr) : M ptr :=
  match fuel with
  | O => timeout
  | S fuel' =>
      r <- get_next root;
      if is_null r then ret root
      else
        tw <- get_wakeup t;
        rw <- get_wakeup r;
        if (tw <? rw)%float then ret root
        else t_scan fuel' t r
  end.

Definition t_add_sorted (t root : ptr) : M unit :=
  t_del t;;
  n <- get_brk;
  root' <- t_scan (S n) t root;
  t_add t root'.

(** One loop of [t_find], starting at [t]. *)
Fixpoint t_find_from (fuel : nat) (f d : Z) (t : ptr) : M ptr :=
  match fuel with
  | O => timeout
  | S fuel' =>
      if is_null t then ret NULL
      else
        tf <- get_fn t;
        td <- get_dat t;
        if (tf =? f) && (td =? d) then ret t
        else n <- get_next t; t_find_from fuel' f d n
  end.

Definition t_find (f d : Z) : M ptr :=
  n <- get_brk;
  h <- get_timers;
  t <- t_find_from (S n) f d h;
  if is_null t
  then h' <- get_tmptimers; t_find_from (S n) f d h'
  else ret t.

(** ** The exported functions *)

(** Modelled from the spec: the flag bits of [libt.h], which is not part
    of the sources at hand.  The spec names four recognised options of
    the bitset: CREATE ([LIBT_ADD]), UPDATE ([LIBT_MOD]), RELATIVE and
    REPEAT; they are taken as four distinct bits. *)
Definition LIBT_ADD : Z := 1.
Definition LIBT_MOD : Z := 2.
Definition LIBT_RELATIVE : Z := 4.
Definition LIBT_REPEAT : Z := 8.

(** <errno.h> *)
Definition EPERM : Z := 1.
Definition ENOENT : Z := 2.
Definition EINVAL : Z := 22.

Definition INT_MIN : Z := - 2 ^ 31.
Definition INT_MAX : Z := 2 ^ 31 - 1.

(** [(~0U)/4], with a 32-bit [unsigned]. *)
Definition MAXRESULT : Z := (Z.lnot 0 mod 2 ^ 32) / 4.

(** A [double] returned as [int]. *)
Definition int_of_double (x : float) : M Z :=
  match Double.to_Z x with
  | Some z => if (INT_MIN <=? z) && (z <=? INT_MAX) then ret z else fault
  | None => fault
  end.

(** Whether [flags & bits] is non-zero. *)
Definition has (flags bits : Z) : bool := negb (Z.land flags bits =? 0).

Section Library.

Variable W : world.

Definition libt_now : M float :=
  fun s => Ok (clock W (ticks s))
              (State (timers s) (tmptimers s) (heap s) (brk s) (freed s)
                     (S (ticks s)) (fired s)).

(** The body of [libt_add_timeoutx] up to the common tail: either the
    value of an early [return], or the record to (re)insert. *)
Definition add_timeoutx_prepare (wakeuptime : float) (f d : Z) (flags : Z)
  : M (Z + ptr) :=
  if Double.isnan wakeuptime then ret (inl (- EINVAL))
  else
    t <- t_find f d;
    if is_null t then
      if negb (has flags LIBT_ADD) then ret (inl (- ENOENT))
      else
        t <- malloc0;
        set_fn t f;;
        set_dat t d;;
        wakeuptime <- (if has flags (Z.lor LIBT_RELATIVE LIBT_REPEAT)
                       then now <- libt_now; ret (wakeuptime + now)%float
                       else ret wakeuptime);
        set_wakeup t wakeuptime;;
        ret (inr t)
    else
      if negb (has flags LIBT_MOD) then ret (inl (- EPERM))
      else
        (if has flags LIBT_REPEAT then
           now <- libt_now;
           w <- get_wakeup t;
           set_wakeup t (w + wakeuptime)%float;;
           w' <- get_wakeup t;
           if (w' <? now)%float
           then set_wakeup t (now + wakeuptime)%float
           else ret tt
         else if has flags LIBT_RELATIVE then
           now <- libt_now;
           set_wakeup t (wakeuptime + now)%float
         else
           set_wakeup t wakeuptime);;
        ret (inr t).

Definition libt_add_timeoutx (wakeuptime : float) (f d : Z) (flags : Z)
  : M Z :=
  r <- add_timeoutx_prepare wakeuptime f d flags;
  match r with
  | inl e => ret e
  | inr t => t_add_sorted t (FAKE TIMERS);; ret 0
  end.

Definition libt_remove_timeout (f d : Z) : M unit :=
  t <- t_find f d;
  if is_null t then ret tt
  else t_del t;; free t.

Definition libt_timeout_exist (f d : Z) : M Z :=
  t <- t_find f d;
  ret (if is_null t then 0 else 1).

Definition libt_next_wakeup : M float :=
  t <- get_timers;
  if is_null t then ret (-1)%float
  else get_wakeup t.

Definition libt_get_waittime : M Z :=
  t <- get_timers;
  if is_null t then ret (-1)
  else
    w <- get_wakeup t;
    now <- libt_now;
    let tmp := ((w - now) * 1000)%float in
    if (tmp <=? 0)%float then ret 0
    else if (Double.of_Z MAXRESULT <? tmp)%float then ret MAXRESULT
    else int_of_double tmp.

(** A callback at work. *)
Fixpoint run (p : prog) : M unit :=
  match p with
  | Return => ret tt
  | CallAdd w f d flags k => r <- libt_add_timeoutx w f d flags; run (k r)
  | CallRemove f d k => libt_remove_timeout f d;; run k
  | CallExist f d k => r <- libt_timeout_exist f d; run (k r)
  | CallNextWakeup k => r <- libt_next_wakeup; run (k r)
  | CallGetWaittime k => r <- libt_get_waittime; run (k r)
  | CallNow k => r <- libt_now; run (k r)
  end.

(** [t->fn(t->dat)], noted in [fired]. *)
Definition invoke (f d : Z) : M unit :=
  (fun s => Ok tt (State (timers s) (tmptimers s) (heap s) (brk s) (freed s)
                         (ticks s) (fired s ++ [(f, d)])));;
  run (code W f d).

(** The first loop of [libt_flush]. *)
Fixpoint dispatch (fuel : nat) (now : float) (cnt : Z) : M Z :=
  match fuel with
  | O => timeout
  | S fuel' =>
      t <- get_timers;
      if is_null t then ret cnt
      else
        w <- get_wakeup t;
        if (now <? w)%float then ret cnt
        else
          t_add t (FAKE TMPTIMERS);;
          f <- get_fn t;
          d <- get_dat t;
          invoke f d;;
          dispatch fuel' now (cnt + 1)
  end.

(** The second loop of [libt_flush]: clean up the cache. *)
Fixpoint sweep (fuel : nat) : M unit :=
  match fuel with
  | O => timeout
  | S fuel' =>
      t <- get_tmptimers;
      if is_null t then ret tt
      else t_del t;; free t;; sweep fuel'
  end.

(** [libt_flush]; [fuel] bounds the number of callbacks it may invoke. *)
Definition libt_flush (fuel : nat) : M Z :=
  now <- libt_now;
  let now := (now + 0.001)%float in
  cnt <- dispatch (S fuel) now 0;
  n <- get_brk;
  sweep (S n);;
  ret cnt.

(** [libt_cleanup], the destructor. *)
Fixpoint cleanup_timers (fuel : nat) : M unit :=
  match fuel with
  | O => timeout
  | S fuel' =>
      t <- get_timers;
      if is_null t then ret tt
      else n <- get_next t; set_next (FAKE TIMERS) n;; free t;;
           cleanup_timers fuel'
  end.

Fixpoint cleanup_tmptimers (fuel : nat) : M unit :=
  match fuel with
  | O => timeout
  | S fuel' =>
      t <- get_tmptimers;
      if is_null t then ret tt
      else n <- get_next t; set_next (FAKE TMPTIMERS) n;; free t;;
           cleanup_tmptimers fuel'
  end.

Definition libt_cleanup : M unit :=
  n <- get_brk;
  cleanup_timers (S n);;
  cleanup_tmptimers (S n).

(** What the application does between two observations: a call of one
    exported function. *)
Inductive call :=
| Add (wakeuptime : float) (f d : Z) (flags : Z)
| Remove (f d : Z)
| Exist (f d : Z)
| NextWakeup
| GetWaittime
| Now
| Flush (fuel : nat).

Definition do_call (c : call) : M unit :=
  match c with
  | Add w f d flags => libt_add_timeoutx w f d flags;; ret tt
  | Remove f d => libt_remove_timeout f d
  | Exist f d => libt_timeout_exist f d;; ret tt
  | NextWakeup => libt_next_wakeup;; ret tt
  | GetWaittime => libt_get_waittime;; ret tt
  | Now => libt_now;; ret tt
  | Flush fuel => libt_flush fuel;; ret tt
  end.

Fixpoint do_calls (cs : list call) : M unit :=
  match cs with
  | [] => ret tt
  | c :: cs' => do_call c;; do_calls cs'
  end.

End Library.

(** ** Wall time *)

(** A [double] assigned to a [time_t], a 64-bit integer. *)
Definition time_t_of_double (x : float) : option Z :=
  match Double.to_Z x with
  | Some z => if (- 2 ^ 63 <=? z) && (z <? 2 ^ 63) then Some z else None
  | None => None
  end.

(** [libt_timetointerval4].  [gmtoff] is the [tm_gmtoff] that
    [localtime] reports for a [time_t]; [None] is a run that is out of
    fuel or converts a [double] without integer value to [time_t]. *)
Fixpoint libt_timetointerval4 (gmtoff : Z -> Z) (fuel : nat)
    (walltime interval offset pad : float) : option float :=
  match fuel with
  | O => None
  | S fuel' =>
      let pad := if (pad <? 0.001)%float then 0.001%float else pad in
      value ←
        (if (3600 * 1.5 <=? interval)%float then
           lwalltime ← time_t_of_double walltime;
           let off := gmtoff lwalltime in
           let value :=
             (interval
              - Double.fmod (walltime + Double.of_Z off - offset) interval)%float in
           newtime ← time_t_of_double (walltime + value)%float;
           let off' := gmtoff newtime in
           Some (if off' =? off then value
                 else (value + Double.of_Z off - Double.of_Z off')%float)
         else
           Some (interval - Double.fmod (walltime - offset) interval)%float);
      if (value <? pad)%float then
        more ← libt_timetointerval4 gmtoff fuel'
                 (walltime + value + pad)%float interval offset pad;
        Some (value + pad + more)%float
      else Some value
  end.

(** ** The queue seen as two lists

    What the linked records amount to: the pending timers and the timers
    in flight, each as the list of its records in link order.  The
    functions below redo the exported functions on this view; the
    refinement lemmas further down show that the C code, on the heap,
    computes exactly this. *)

Record entry := Entry {
  e_addr : nat;
  e_fn : Z;
  e_dat : Z;
  e_wakeup : float
}.

Record queue := Queue {
  q_pending : list entry;
  q_inflight : list entry;
  q_brk : nat;
  q_freed : list nat;
  q_ticks : nat;
  q_fired : list (Z * Z)
}.

Definition MQ (A : Type) : Type := queue -> res queue A.

Definition same_id (f d : Z) (e : entry) : bool :=
  (e_fn e =? f) && (e_dat e =? d).

Definition q_find (f d : Z) (q : queue) : option entry :=
  List.find (same_id f d) (q_pending q ++ q_inflight q).

(** The list without the record at address [a]. *)
Definition drop (a : nat) (l : list entry) : list entry :=
  filter (fun e => e_addr e ≠ a) l.

(** [t_add_sorted] on a list: before the first strictly later timer. *)
Fixpoint insert_sorted (e : entry) (l : list entry) : list entry :=
  match l with
  | [] => [e]
  | x :: l' =>
      if (e_wakeup e <? e_wakeup x)%float then e :: l
      else x :: insert_sorted e l'
  end.

Definition with_wakeup (w : float) (e : entry) : entry :=
  Entry (e_addr e) (e_fn e) (e_dat e) w.

Section QueueLibrary.

Variable W : world.

Definition q_now : MQ float :=
  fun q => Ok (clock W (q_ticks q))
              (Queue (q_pending q) (q_inflight q) (q_brk q) (q_freed q)
                     (S (q_ticks q)) (q_fired q)).

(** Put [e], detached, at its sorted place among the pending timers. *)
Definition q_arm (e : entry) : MQ unit :=
  fun q => Ok tt (Queue (insert_sorted e (drop (e_addr e) (q_pending q)))
                        (drop (e_addr e) (q_inflight q))
                        (q_brk q) (q_freed q) (q_ticks q) (q_fired q)).

Definition q_alloc : MQ nat :=
  fun q => Ok (q_brk q)
              (Queue (q_pending q) (q_inflight q) (S (q_brk q)) (q_freed q)
                     (q_ticks q) (q_fired q)).

Definition q_add_timeoutx (wakeuptime : float) (f d : Z) (flags : Z)
  : MQ Z :=
  if Double.isnan wakeuptime then ret (- EINVAL)
  else fun q =>
    match q_find f d q with
    | None =>
        if negb (has flags LIBT_ADD) then Ok (- ENOENT) q
        else
          (a <- q_alloc;
           w <- (if has flags (Z.lor LIBT_RELATIVE LIBT_REPEAT)
                 then now <- q_now; ret (wakeuptime + now)%float
                 else ret wakeuptime);
           q_arm (Entry a f d w);;
           ret 0) q
    | Some e =>
        if negb (has flags LIBT_MOD) then Ok (- EPERM) q
        else
          (w <- (if has flags LIBT_REPEAT then
                   now <- q_now;
                   let w' := (e_wakeup e + wakeuptime)%float in
                   ret (if (w' <? now)%float
                        then (now + wakeuptime)%float else w')
                 else if has flags LIBT_RELATIVE then
                   now <- q_now; ret (wakeuptime + now)%float
                 else ret wakeuptime);
           q_arm (with_wakeup w e);;
           ret 0) q
    end.

Definition q_remove_timeout (f d : Z) : MQ unit :=
  fun q =>
    match q_find f d q with
    | None => Ok tt q
    | Some e =>
        Ok tt (Queue (drop (e_addr e) (q_pending q))
                     (drop (e_addr e) (q_inflight q))
                     (q_brk q) (e_addr e :: q_freed q) (q_ticks q)
                     (q_fired q))
    end.

Definition q_timeout_exist (f d : Z) : MQ Z :=
  fun q => Ok (match q_find f d q with Some _ => 1 | None => 0 end) q.

Definition q_next_wakeup : MQ float :=
  fun q => Ok (match q_pending q with
               | [] => (-1)%float
               | e :: _ => e_wakeup e
               end) q.

Definition q_get_waittime : MQ Z :=
  fun q =>
    match q_pending q with
    | [] => Ok (-1) q
    | e :: _ =>
        (now <- q_now;
         let tmp := ((e_wakeup e - now) * 1000)%float in
         if (tmp <=? 0)%float then ret 0
         else if (Double.of_Z MAXRESULT <? tmp)%float then ret MAXRESULT
         else match Double.to_Z tmp with
              | Some z =>
                  if (INT_MIN <=? z) && (z <=? INT_MAX) then ret z
                  else fault
              | None => fault
              end) q
    end.

Fixpoint q_run (p : prog) : MQ unit :=
  match p with
  | Return => ret tt
  | CallAdd w f d flags k => r <- q_add_timeoutx w f d flags; q_run (k r)
  | CallRemove f d k => q_remove_timeout f d;; q_run k
  | CallExist f d k => r <- q_timeout_exist f d; q_run (k r)
  | CallNextWakeup k => r <- q_next_wakeup; q_run (k r)
  | CallGetWaittime k => r <- q_get_waittime; q_run (k r)
  | CallNow k => r <- q_now; q_run (k r)
  end.

(** The head of the pending timers goes to the head of those in flight
    and its callback is invoked. *)
Definition q_fire (e : entry) : MQ unit :=
  (fun q => Ok tt (Queue (drop (e_addr e) (q_pending q))
                         (e :: drop (e_addr e) (q_inflight q))
                         (q_brk q) (q_freed q) (q_ticks q)
                         (q_fired q ++ [(e_fn e, e_dat e)])));;
  q_run (code W (e_fn e) (e_dat e)).

Fixpoint q_dispatch (fuel : nat) (now : float) (cnt : Z) : MQ Z :=
  match fuel with
  | O => timeout
  | S fuel' => fun q =>
      match q_pending q with
      | [] => Ok cnt q
      | e :: _ =>
          if (now <? e_wakeup e)%float then Ok cnt q
          else (q_fire e;; q_dispatch fuel' now (cnt + 1)) q
      end
  end.

Definition q_sweep : MQ unit :=
  fun q => Ok tt (Queue (q_pending q) [] (q_brk q)
                        (rev (e_addr <$> q_inflight q) ++ q_freed q)
                        (q_ticks q) (q_fired q)).

Definition q_flush (fuel : nat) : MQ Z :=
  now <- q_now;
  let now := (now + 0.001)%float in
  cnt <- q_dispatch (S fuel) now 0;
  q_sweep;;
  ret cnt.

Definition q_do_call (c : call) : MQ unit :=
  match c with
  | Add w f d flags => q_add_timeoutx w f d flags;; ret tt
  | Remove f d => q_remove_timeout f d
  | Exist f d => q_timeout_exist f d;; ret tt
  | NextWakeup => q_next_wakeup;; ret tt
  | GetWaittime => q_get_waittime;; ret tt
  | Now => q_now;; ret tt
  | Flush fuel => q_flush fuel;; ret tt
  end.

Fixpoint q_do_calls (cs : list call) : MQ unit :=
  match cs with
  | [] => ret tt
  | c :: cs' => q_do_call c;; q_do_calls cs'
  end.

End QueueLibrary.

Definition q_init : queue := Queue [] [] 0 [] 0 [].

(** ** From the heap to the lists *)

(** The records linked from [p] on, following [next]. *)
Fixpoint walk (s : state) (fuel : nat) (p : ptr) : list entry :=
  match fuel with
  | O => []
  | S fuel' =>
      match cell s p with
      | Some t =>
          match p with
          | NODE a => Entry a (fn t) (dat t) (wakeup t) :: walk s fuel' (next t)
          | _ => []
          end
      | None => []
      end
  end.

(** The Pending collection and the InFlight collection of a state. *)
Definition pending (s : state) : list entry := walk s (brk s) (timers s).
Definition inflight (s : state) : list entry := walk s (brk s) (tmptimers s).

Definition view (s : state) : queue :=
  Queue (pending s) (inflight s) (brk s) (freed s) (ticks s) (fired s).

(** ** The shape of the heap *)

Global Instance root_eq_dec : EqDecision root.
Proof. solve_decision. Defined.
Global Instance ptr_eq_dec : EqDecision ptr.
Proof. solve_decision. Defined.

Definition prv (s : state) (a : nat) : option ptr := prev <$> heap s !! a.
Definition pay (s : state) (a : nat) : option (Z * Z * float) :=
  (fun t => (fn t, dat t, wakeup t)) <$> heap s !! a.
Definition e_pay (e : entry) : Z * Z * float := (e_fn e, e_dat e, e_wakeup e).
Definition e_ptr (e : entry) : ptr := NODE (e_addr e).

(** The records [l] are linked one after the other behind [p], [next]
    forth and [prev] back, and the last one ends the list. *)
Fixpoint chain (s : state) (p : ptr) (l : list entry) : Prop :=
  match l with
  | [] => nxt s p = Some NULL
  | e :: l' =>
      nxt s p = Some (e_ptr e) /\
      prv s (e_addr e) = Some p /\
      pay s (e_addr e) = Some (e_pay e) /\
      chain s (e_ptr e) l'
  end.

(** A record in no list. *)
Definition detached (s : state) (e : entry) : Prop :=
  nxt s (e_ptr e) = Some NULL /\
  prv s (e_addr e) = Some NULL /\
  pay s (e_addr e) = Some (e_pay e).

Definition head_ptr (l : list entry) : ptr :=
  match l with
  | [] => NULL
  | e :: _ => e_ptr e
  end.

(** The element whose [next] member follows the records [l] behind [q]. *)
Fixpoint last_ptr (q : ptr) (l : list entry) : ptr :=
  match l with
  | [] => q
  | e :: l' => last_ptr (e_ptr e) l'
  end.

(** The records [l] are linked behind [p], whatever follows the last. *)
Fixpoint links (s : state) (p : ptr) (l : list entry) : Prop :=
  match l with
  | [] => True
  | e :: l' =>
      nxt s p = Some (e_ptr e) /\
      prv s (e_addr e) = Some p /\
      pay s (e_addr e) = Some (e_pay e) /\
      links s (e_ptr e) l'
  end.

(** The payload of the record at [a] after it went through [g]. *)
Definition pay_with (g : Z * Z * float -> Z * Z * float) (s : state) (a b : nat)
  : option (Z * Z * float) :=
  if decide (b = a) then g <$> pay s a else pay s b.

(** The heap holds the pending timers [P], the timers in flight [I] and
    the records [D] that are in neither list, and nothing else. *)
Record rep (s : state) (P I D : list entry) : Prop := Rep {
  rep_P : chain s (FAKE TIMERS) P;
  rep_I : chain s (FAKE TMPTIMERS) I;
  rep_D : Forall (detached s) D;
  rep_nodup : NoDup (e_addr <$> (P ++ I ++ D));
  rep_dom : forall a, is_Some (heap s !! a) -> a ∈ e_addr <$> (P ++ I ++ D);
  rep_brk : forall a, a ∈ e_addr <$> (P ++ I ++ D) -> (a < brk s)%nat
}.

(** The statements of [t_add] after its [t_del]. *)
Definition t_link (t root : ptr) : M unit :=
  r0 <- get_next root;
  set_next t r0;;
  n <- get_next t;
  (if is_null n
   then set_prev t (t_fakeelement root)
   else p <- get_prev n; set_prev t p;; set_prev n t);;
  p <- get_prev t;
  set_next p t.

(** The statements of [t_add_sorted] after its [t_del]. *)
Definition t_place (t root : ptr) : M unit :=
  n <- get_brk;
  root' <- t_scan (S n) t root;
  t_add t root'.

(** The pointer [t_find] returns for what [List.find] finds. *)
Definition found (o : option entry) : ptr :=
  match o with
  | Some e => e_ptr e
  | None => NULL
  end.

(** The record at address [a] gets the wakeup time [w]. *)
Definition retime (a : nat) (w : float) (l : list entry) : list entry :=
  (fun e => if decide (e_addr e = a) then with_wakeup w e else e) <$> l.

Definition aux (s : state) : nat * list nat * nat * list (Z * Z) :=
  (brk s, freed s, ticks s, fired s).
Definition q_aux (q : queue) : nat * list nat * nat * list (Z * Z) :=
  (q_brk q, q_freed q, q_ticks q, q_fired q).

(** The state [s] of the C program holds the queue [q]. *)
Definition holds (s : state) (q : queue) : Prop :=
  rep s (q_pending q) (q_inflight q) [] /\ aux s = q_aux q.

(** The C computation [m] does what [mq] does on the lists. *)
Definition refines {A} (m : M A) (mq : MQ A) : Prop :=
  forall s q, holds s q ->
    match mq q with
    | Ok a q' => exists s', m s = Ok a s' /\ holds s' q'
    | Fault => m s = Fault
    | Timeout => m s = Timeout
    end.

(** ** Properties of a queue *)

(** No timer comes after a strictly later one. *)
Definition later (e1 e2 : entry) : Prop :=
  (e_wakeup e2 <? e_wakeup e1)%float = false.
Definition sorted (l : list entry) : Prop := StronglySorted later l.

(** With wakeup times that are numbers, that is [<=] along the list. *)
Definition no_nan (l : list entry) : Prop :=
  Forall (fun e => Double.isnan (e_wakeup e) = false) l.
Definition sorted_le (l : list entry) : Prop :=
  StronglySorted (fun e1 e2 => (e_wakeup e1 <=? e_wakeup e2)%float = true) l.

Definition e_id (e : entry) : Z * Z := (e_fn e, e_dat e).

(** One timer per identity, addresses in use and not released. *)
Record good (q : queue) : Prop := Good {
  good_ids : NoDup (e_id <$> (q_pending q ++ q_inflight q));
  good_addrs : NoDup (e_addr <$> (q_pending q ++ q_inflight q));
  good_brk : Forall (fun e => (e_addr e < q_brk q)%nat) (q_pending q ++ q_inflight q);
  good_freed : Forall (fun a => (a < q_brk q)%nat /\
                                a ∉ e_addr <$> (q_pending q ++ q_inflight q))
                      (q_freed q);
  good_freed_nodup : NoDup (q_freed q);
  good_sorted : sorted (q_pending q)
}.

(** ** Vocabulary of the statements *)

(** The timers of a queue, pending or in flight. *)
Definition live (q : queue) : list entry := q_pending q ++ q_inflight q.

(** The heap of [s] is two well-linked lists of records, and the queue
    they form is [good]. *)
Definition wf (s : state) : Prop := holds s (view s) /\ good (view s).

(** The wakeup time REPEAT gives a timer due at [old], at time [now]. *)
Definition repeat_time (now old w : float) : float :=
  let w' := (old + w)%float in
  if (w' <? now)%float then (now + w)%float else w'.

(** The wakeup time a successful call with [flags] and [w] stores, for a
    timer that was due at [old] or did not exist; [now] is the clock. *)
Definition new_wakeup (flags : Z) (w now : float) (old : option float) : float :=
  match old with
  | None =>
      if has flags (Z.lor LIBT_RELATIVE LIBT_REPEAT) then (w + now)%float else w
  | Some o =>
      if has flags LIBT_REPEAT then repeat_time now o w
      else if has flags LIBT_RELATIVE then (w + now)%float
      else w
  end.

(** Whether that call reads the clock. *)
Definition reads_clock (flags : Z) (old : option float) : bool :=
  match old with
  | None => has flags (Z.lor LIBT_RELATIVE LIBT_REPEAT)
  | Some _ => has flags LIBT_REPEAT || has flags LIBT_RELATIVE
  end.

(** The number of clock readings taken, one more if [b]. *)
Definition tick (b : bool) (t : nat) : nat := if b then S t else t.

(** A world whose clock stands at [now] and whose callbacks do nothing. *)
Definition W_idle (now : float) : world := World (fun _ => now) (fun _ _ => Return).

(** The state after the calls [cs], from the initial one. *)
Definition after (W : world) (cs : list call) : state :=
  match do_calls W cs init with
  | Ok _ s => s
  | _ => init
  end.

(** Three timers due at t=1, t=2 and t=3. *)
Definition three_calls : list call :=
  [Add 1 101 0 LIBT_ADD; Add 2 102 0 LIBT_ADD; Add 3 103 0 LIBT_ADD].

Definition three_timers : state := after (W_idle 2.5) three_calls.

(** The timers of [l] due at the reference time [ref], and the others. *)
Definition due (ref : float) (l : list entry) : list entry :=
  List.filter (fun e => (e_wakeup e <=? ref)%float) l.

Definition not_due (ref : float) (l : list entry) : list entry :=
  List.filter (fun e => negb (e_wakeup e <=? ref)%float) l.

(** The first timer of [l], if any, is later than [ref]. *)
Definition head_later (ref : float) (l : list entry) : Prop :=
  match l with
  | [] => True
  | x :: _ => (ref <? e_wakeup x)%float = true
  end.

(** A callback that changes no timer: it returns, or asks the library
    whether a timer exists, for the next wakeup time or for the time. *)
Inductive quiet : prog -> Prop :=
| quiet_return : quiet Return
| quiet_exist f d k : (forall r, quiet (k r)) -> quiet (CallExist f d k)
| quiet_next_wakeup k : (forall r, quiet (k r)) -> quiet (CallNextWakeup k)
| quiet_now k : (forall r, quiet (k r)) -> quiet (CallNow k).

(** The timers at the head of [l] up to the first one that is later than
    [ref], by the test of [libt_flush], and the timers from that one on. *)
Fixpoint ready (ref : float) (l : list entry) : list entry :=
  match l with
  | [] => []
  | e :: l' => if (ref <? e_wakeup e)%float then [] else e :: ready ref l'
  end.

Fixpoint waiting (ref : float) (l : list entry) : list entry :=
  match l with
  | [] => []
  | e :: l' => if (ref <? e_wakeup e)%float then l else waiting ref l'
  end.

(** A world at a fixed clock reading in which the callback of timer 101
    cancels timer 102. *)
Definition W_kill (now : float) : world :=
  World (fun _ => now)
        (fun f _ => if (f =? 101)%Z then CallRemove 102 0 Return else Return).

(** The callback of [e] does nothing, or cancels its own timer and
    returns. *)
Definition cancels_itself (W : world) (e : entry) : Prop :=
  code W (e_fn e) (e_dat e) = CallRemove (e_fn e) (e_dat e) Return.

Definition tame (W : world) (e : entry) : Prop :=
  code W (e_fn e) (e_dat e) = Return \/ cancels_itself W e.

(** A world whose callback 101 cancels its own timer. *)
Definition W_cancel (now : float) : world :=
  World (fun _ => now)
        (fun f d => if f =? 101 then CallRemove f d Return else Return).

(** The callback of [e] calls [libt_add_timeoutx] with [w] and [flags] on
    its own identity and returns. *)
Definition rearms_itself (W : world) (e : entry) (w : float) (flags : Z) : Prop :=
  code W (e_fn e) (e_dat e) = CallAdd w (e_fn e) (e_dat e) flags (fun _ => Return).

(** The timers of [s], pending or in flight, with the identity of [e]. *)
Definition timers_of (e : entry) (s : state) : list entry :=
  filter (fun x => e_id x = e_id e) (pending s ++ inflight s).

(** A world whose clock stands at [now] and whose callbacks schedule
    their own timer again, 5 seconds on. *)
Definition W_repeat (now : float) : world :=
  World (fun _ => now)
        (fun f d => CallAdd 5 f d (Z.lor LIBT_MOD LIBT_REPEAT) (fun _ => Return)).

(** One timer, due at 5.0005. *)
Definition one_call : list call := [Add 5.0005 7 0 LIBT_ADD].

Definition one_timer : state := after (W_idle 0) one_call.

(** A world whose clock stands at [now] and in which the callback of
    timer 102 schedules it again, 5 seconds on; the other callbacks
    return. *)
Definition W_rearm (now : float) : world :=
  World (fun _ => now)
        (fun f d => if (f =? 102)%Z
                    then CallAdd 5 f d (Z.lor LIBT_MOD LIBT_REPEAT) (fun _ => Return)
                    else Return).

(** What [libt_get_waittime] returns for the value [tmp]. *)
Definition waittime_of (tmp : float) : option Z :=
  if (tmp <=? 0)%float then Some 0
  else if (Double.of_Z MAXRESULT <? tmp)%float then Some MAXRESULT
  else Double.to_Z tmp.

(** One timer, due at 0.0019. *)
Definition soon_call : list call := [Add 0.0019 7 0 LIBT_ADD].

Definition soon_timer : state := after (W_idle 0) soon_call.

(** ** Vocabulary of the further properties *)

(** The state in which the flush of the three timers at 2.5 ends. *)
Definition three_flushed : state :=
  match libt_flush (W_idle 2.5) 3 three_timers with
  | Ok _ s => s
  | _ => init
  end.

(** A callback that does not call [libt_get_waittime]. *)
Inductive no_waittime : prog -> Prop :=
| nw_return : no_waittime Return
| nw_add w f d flags k :
    (forall r, no_waittime (k r)) -> no_waittime (CallAdd w f d flags k)
| nw_remove f d k : no_waittime k -> no_waittime (CallRemove f d k)
| nw_exist f d k : (forall r, no_waittime (k r)) -> no_waittime (CallExist f d k)
| nw_next_wakeup k : (forall r, no_waittime (k r)) -> no_waittime (CallNextWakeup k)
| nw_now k : (forall r, no_waittime (k r)) -> no_waittime (CallNow k).

(** The computation [m] on the lists never ends in a fault. *)
Definition safe {A} (m : MQ A) : Prop := forall q, m q <> Fault.

(** The records [l], each live, follow one another by their [next]
    members from the pointer [h] on, and NULL ends them. *)
Fixpoint follows (s : state) (h : ptr) (l : list entry) : Prop :=
  match l with
  | [] => h = NULL
  | e :: l' =>
      h = e_ptr e /\
      exists t, heap s !! (e_addr e) = Some t /\ follows s (next t) l'
  end.

(** What a loop of [libt_cleanup] leaves of the memory. *)
Definition released (l : list entry) (h : gmap nat timer) : gmap nat timer :=
  foldl (fun m e => delete (e_addr e) m) h l.

(** The addresses of the timers of a queue and the released ones. *)
Definition ledger (q : queue) : list nat :=
  (e_addr <$> (q_pending q ++ q_inflight q)) ++ q_freed q.

(** Every address handed out so far belongs to exactly one timer, pending
    or in flight, or was released, once. *)
Definition accounted (q : queue) : Prop := ledger q ≡ₚ seq 0 (q_brk q).

(** The two invariants together. *)
Definition sound (q : queue) : Prop := good q /\ accounted q.

(** One timer, at infinity. *)
Definition inf_call : list call := [Add infinity 7 0 LIBT_ADD].

Definition inf_timer : state := after (W_idle 0) inf_call.

(** That timer, after LIBT_REPEAT with the opposite infinity. *)
Definition nan_calls : list call :=
  [Add infinity 7 0 LIBT_ADD; Add neg_infinity 7 0 (Z.lor LIBT_MOD LIBT_REPEAT)].

Definition nan_timer : state := after (W_idle 0) nan_calls.

(** [libt_walltime].  [tv] is what [gettimeofday] gives, the seconds and
    the microseconds, or nothing when it fails. *)
Definition libt_walltime (tv : option (Z * Z)) : float :=
  match tv with
  | None => nan
  | Some (sec, usec) =>
      (Double.of_Z sec + Double.of_Z (Z.rem usec 1000000) / 1e6)%float
  end.

(** A world whose callbacks schedule their own timer again with LIBT_ADD
    only. *)
Definition W_add_only (now : float) : world :=
  World (fun _ => now) (fun f d => CallAdd 5 f d LIBT_ADD (fun _ => Return)).

(** A world whose callback 7 schedules the timer 8 for the time 6. *)
Definition W_spawn (now : float) : world :=
  World (fun _ => now)
        (fun f d => if f =? 7 then CallAdd 6 8 0 LIBT_ADD (fun _ => Return)
                    else Return).

(** * Proofs *)
Local Open Scope m_scope.
(** ** Running computations *)

Lemma bind_ok {St A B} (m : St -> res St A) (f : A -> St -> res St B) s a s' :
  m s = Ok a s' -> bind m f s = f a s'.
Proof. unfold bind. intros ->. reflexivity. Qed.

Lemma bind_inv {St A B} (m : St -> res St A) (f : A -> St -> res St B) s b s2 :
  bind m f s = Ok b s2 -> exists a s1, m s = Ok a s1 /\ f a s1 = Ok b s2.
Proof.
  unfold bind. destruct (m s) as [a s1| |]; intros H; try discriminate.
  exists a, s1. split; [reflexivity | exact H].
Qed.

Ltac mstep H := rewrite (bind_ok _ _ _ _ _ H); cbv beta.

(** ** Loads and stores *)

Lemma prv_pay s a : is_Some (prv s a) <-> is_Some (pay s a).
Proof. unfold prv, pay. rewrite !fmap_is_Some. reflexivity. Qed.

Lemma nxt_pay s a : is_Some (nxt s (NODE a)) <-> is_Some (pay s a).
Proof. unfold pay. simpl. rewrite !fmap_is_Some. reflexivity. Qed.

Lemma heap_pay s a : is_Some (heap s !! a) <-> is_Some (pay s a).
Proof. unfold pay. rewrite fmap_is_Some. reflexivity. Qed.

Lemma get_next_ok s p q : nxt s p = Some q -> get_next p s = Ok q s.
Proof. unfold get_next. intros ->. reflexivity. Qed.

Lemma get_prev_ok s a p : prv s a = Some p -> get_prev (NODE a) s = Ok p s.
Proof.
  unfold get_prev, load, prv. simpl. destruct (heap s !! a); simpl; [|discriminate].
  intros [= <-]. reflexivity.
Qed.

Lemma get_fn_ok s a y : pay s a = Some y -> get_fn (NODE a) s = Ok y.1.1 s.
Proof.
  unfold get_fn, load, pay. simpl. destruct (heap s !! a); simpl; [|discriminate].
  intros [= <-]. reflexivity.
Qed.

Lemma get_dat_ok s a y : pay s a = Some y -> get_dat (NODE a) s = Ok y.1.2 s.
Proof.
  unfold get_dat, load, pay. simpl. destruct (heap s !! a); simpl; [|discriminate].
  intros [= <-]. reflexivity.
Qed.

Lemma get_wakeup_ok s a y : pay s a = Some y -> get_wakeup (NODE a) s = Ok y.2 s.
Proof.
  unfold get_wakeup, load, pay. simpl. destruct (heap s !! a); simpl; [|discriminate].
  intros [= <-]. reflexivity.
Qed.

Lemma set_prev_spec s a v :
  is_Some (pay s a) ->
  exists s', set_prev (NODE a) v s = Ok tt s' /\
    (forall x, nxt s' x = nxt s x) /\
    (forall b, prv s' b = if decide (b = a) then Some v else prv s b) /\
    (forall b, pay s' b = pay s b) /\
    aux s' = aux s.
Proof.
  intros Hs. apply heap_pay in Hs as [t Ht].
  unfold set_prev, store. rewrite Ht. eexists. split; [reflexivity|].
  split; [|split; [|split]]; try reflexivity.
  - intros [|[]|b]; simpl; try reflexivity.
    destruct (decide (b = a)) as [->|Hne].
    + rewrite lookup_insert_eq, Ht. reflexivity.
    + rewrite lookup_insert_ne by congruence. reflexivity.
  - intros b. unfold prv. simpl. destruct (decide (b = a)) as [->|Hne].
    + rewrite lookup_insert_eq. reflexivity.
    + rewrite lookup_insert_ne by congruence. reflexivity.
  - intros b. unfold pay. simpl. destruct (decide (b = a)) as [->|Hne].
    + rewrite lookup_insert_eq, Ht. reflexivity.
    + rewrite lookup_insert_ne by congruence. reflexivity.
Qed.

Lemma set_next_spec s p v :
  is_Some (nxt s p) ->
  exists s', set_next p v s = Ok tt s' /\
    (forall x, nxt s' x = if decide (x = p) then Some v else nxt s x) /\
    (forall b, prv s' b = prv s b) /\
    (forall b, pay s' b = pay s b) /\
    aux s' = aux s.
Proof.
  intros Hs. destruct p as [|[]|a]; simpl in *.
  - destruct Hs; discriminate.
  - eexists. split; [reflexivity|]. repeat split.
    intros [|[]|b]; reflexivity.
  - eexists. split; [reflexivity|]. repeat split.
    intros [|[]|b]; reflexivity.
  - apply fmap_is_Some in Hs as [t Ht].
    unfold store. rewrite Ht. eexists. split; [reflexivity|].
    split; [|split; [|split]]; try reflexivity.
    + intros [|[]|b]; simpl; try reflexivity.
      destruct (decide (NODE b = NODE a)) as [[= ->]|Hne].
      * rewrite lookup_insert_eq. reflexivity.
      * rewrite lookup_insert_ne by congruence. reflexivity.
    + intros b. unfold prv. simpl. destruct (decide (b = a)) as [->|Hne].
      * rewrite lookup_insert_eq, Ht. reflexivity.
      * rewrite lookup_insert_ne by congruence. reflexivity.
    + intros b. unfold pay. simpl. destruct (decide (b = a)) as [->|Hne].
      * rewrite lookup_insert_eq, Ht. reflexivity.
      * rewrite lookup_insert_ne by congruence. reflexivity.
Qed.

Lemma store_pay_spec s a f g :
  is_Some (pay s a) ->
  (forall t, next (f t) = next t /\ prev (f t) = prev t /\
             (fn (f t), dat (f t), wakeup (f t)) = g (fn t, dat t, wakeup t)) ->
  exists s', store f (NODE a) s = Ok tt s' /\
    (forall x, nxt s' x = nxt s x) /\
    (forall b, prv s' b = prv s b) /\
    (forall b, pay s' b = pay_with g s a b) /\
    aux s' = aux s.
Proof.
  intros Hs Hf. apply heap_pay in Hs as [t Ht].
  destruct (Hf t) as (Hn & Hp & Hy).
  unfold store. rewrite Ht. eexists. split; [reflexivity|].
  split; [|split; [|split]]; try reflexivity.
  - intros [|[]|b]; simpl; try reflexivity.
    destruct (decide (b = a)) as [->|Hne].
    + rewrite lookup_insert_eq, Ht. simpl. congruence.
    + rewrite lookup_insert_ne by congruence. reflexivity.
  - intros b. unfold prv. simpl. destruct (decide (b = a)) as [->|Hne].
    + rewrite lookup_insert_eq, Ht. simpl. congruence.
    + rewrite lookup_insert_ne by congruence. reflexivity.
  - intros b. unfold pay_with, pay. simpl. destruct (decide (b = a)) as [->|Hne].
    + rewrite lookup_insert_eq, Ht. simpl. congruence.
    + rewrite lookup_insert_ne by congruence. reflexivity.
Qed.

Lemma set_fn_spec s a v :
  is_Some (pay s a) ->
  exists s', set_fn (NODE a) v s = Ok tt s' /\
    (forall x, nxt s' x = nxt s x) /\
    (forall b, prv s' b = prv s b) /\
    (forall b, pay s' b = pay_with (fun y => (v, y.1.2, y.2)) s a b) /\
    aux s' = aux s.
Proof. intros Hs. apply store_pay_spec; [exact Hs|]. intros t. auto. Qed.

Lemma set_dat_spec s a v :
  is_Some (pay s a) ->
  exists s', set_dat (NODE a) v s = Ok tt s' /\
    (forall x, nxt s' x = nxt s x) /\
    (forall b, prv s' b = prv s b) /\
    (forall b, pay s' b = pay_with (fun y => (y.1.1, v, y.2)) s a b) /\
    aux s' = aux s.
Proof. intros Hs. apply store_pay_spec; [exact Hs|]. intros t. auto. Qed.

Lemma set_wakeup_spec s a v :
  is_Some (pay s a) ->
  exists s', set_wakeup (NODE a) v s = Ok tt s' /\
    (forall x, nxt s' x = nxt s x) /\
    (forall b, prv s' b = prv s b) /\
    (forall b, pay s' b = pay_with (fun y => (y.1.1, y.1.2, v)) s a b) /\
    aux s' = aux s.
Proof. intros Hs. apply store_pay_spec; [exact Hs|]. intros t. auto. Qed.

(** [t_del], pointer by pointer: the record before [a] now points to the
    one after it and back, and [a] points nowhere. *)
Lemma t_del_spec s a n p :
  nxt s (NODE a) = Some n ->
  prv s a = Some p ->
  (n = NULL \/ exists c, n = NODE c /\ c <> a /\ is_Some (pay s c)) ->
  (p = NULL \/ (p <> NODE a /\ is_Some (nxt s p))) ->
  exists s', t_del (NODE a) s = Ok tt s' /\
    (forall x, x <> NULL ->
       nxt s' x = if decide (x = NODE a) then Some NULL
                  else if decide (x = p) then Some n else nxt s x) /\
    (forall b, prv s' b = if decide (b = a) then Some NULL
                          else if decide (n = NODE b) then Some p
                          else prv s b) /\
    (forall b, pay s' b = pay s b) /\
    aux s' = aux s.
Proof.
  intros Hn Hp Hnn Hpp.
  assert (Ha : is_Some (pay s a)) by (apply prv_pay; eauto).
  unfold t_del. mstep (get_next_ok _ _ _ Hn).
  (* t->next->prev = t->prev *)
  assert (exists s1, (if is_null n then ret tt
                      else p0 <- get_prev (NODE a); set_prev n p0) s = Ok tt s1 /\
            (forall x, nxt s1 x = nxt s x) /\
            (forall b, prv s1 b = if decide (n = NODE b) then Some p else prv s b) /\
            (forall b, pay s1 b = pay s b) /\ aux s1 = aux s)
    as (s1 & R1 & N1 & P1 & Y1 & A1).
  { destruct Hnn as [->|(c & -> & Hca & Hc)].
    - exists s. simpl. repeat split. 
    - simpl. mstep (get_prev_ok _ _ _ Hp).
      destruct (set_prev_spec s c p Hc) as (s1 & R1 & N1 & P1 & Y1 & A1).
      exists s1. repeat split; try assumption.
      intros b. rewrite P1. destruct (decide (b = c)) as [->|Hne].
      + rewrite decide_True by reflexivity. reflexivity.
      + rewrite decide_False by congruence. reflexivity. }
  mstep R1.
  assert (Hp1 : prv s1 a = Some p).
  { rewrite P1. destruct Hnn as [->|(c & -> & Hca & Hc)].
    - rewrite decide_False by discriminate. exact Hp.
    - rewrite decide_False by congruence. exact Hp. }
  mstep (get_prev_ok _ _ _ Hp1).
  (* t->prev->next = t->next *)
  assert (exists s2, (if is_null p then ret tt
                      else n0 <- get_next (NODE a); set_next p n0) s1 = Ok tt s2 /\
            (forall x, x <> NULL ->
               nxt s2 x = if decide (x = p) then Some n else nxt s x) /\
            (forall b, prv s2 b = prv s1 b) /\
            (forall b, pay s2 b = pay s b) /\ aux s2 = aux s)
    as (s2 & R2 & N2 & P2 & Y2 & A2).
  { destruct Hpp as [->|(Hpa & Hps)].
    - exists s1. simpl. repeat split; try assumption.
      intros x Hx. rewrite decide_False by assumption. apply N1.
    - assert (is_null p = false) as -> by (destruct p; [destruct Hps; discriminate|reflexivity..]).
      assert (Hn1 : nxt s1 (NODE a) = Some n) by (rewrite N1; exact Hn).
      mstep (get_next_ok _ _ _ Hn1).
      destruct (set_next_spec s1 p n) as (s2 & R2 & N2 & P2 & Y2 & A2).
      { rewrite N1. exact Hps. }
      exists s2. split; [exact R2|]. split; [|split; [|split]].
      + intros x _. rewrite N2. destruct (decide (x = p)); [reflexivity|apply N1].
      + exact P2.
      + intros b. rewrite Y2. apply Y1.
      + congruence. }
  mstep R2.
  assert (Ha2 : is_Some (pay s2 a)) by (rewrite Y2; exact Ha).
  destruct (set_prev_spec s2 a NULL Ha2) as (s3 & R3 & N3 & P3 & Y3 & A3).
  mstep R3.
  destruct (set_next_spec s3 (NODE a) NULL) as (s4 & R4 & N4 & P4 & Y4 & A4).
  { apply nxt_pay. rewrite Y3. exact Ha2. }
  exists s4. split; [exact R4|]. repeat split.
  - intros x Hx. rewrite N4. destruct (decide (x = NODE a)); [reflexivity|].
    rewrite N3. apply N2. exact Hx.
  - intros b. rewrite P4, P3. destruct (decide (b = a)); [reflexivity|].
    rewrite P2. apply P1.
  - intros b. rewrite Y4, Y3. apply Y2.
  - congruence.
Qed.

(** The rest of [t_add], after its [t_del]: [a] is linked in behind [q],
    before the record [r] that followed [q]. *)
Lemma t_link_spec s a q r :
  is_Some (pay s a) ->
  q <> NODE a ->
  nxt s q = Some r ->
  (r = NULL \/ exists c, r = NODE c /\ c <> a /\ prv s c = Some q) ->
  exists s',
    (r0 <- get_next q;
     set_next (NODE a) r0;;
     n <- get_next (NODE a);
     (if is_null n
      then set_prev (NODE a) (t_fakeelement q)
      else p <- get_prev n; set_prev (NODE a) p;; set_prev n (NODE a));;
     p <- get_prev (NODE a);
     set_next p (NODE a)) s = Ok tt s' /\
    (forall x, nxt s' x = if decide (x = NODE a) then Some r
                          else if decide (x = q) then Some (NODE a)
                          else nxt s x) /\
    (forall b, prv s' b = if decide (b = a) then Some q
                          else if decide (r = NODE b) then Some (NODE a)
                          else prv s b) /\
    (forall b, pay s' b = pay s b) /\
    aux s' = aux s.
Proof.
  intros Ha Hqa Hq Hr.
  mstep (get_next_ok _ _ _ Hq).
  destruct (set_next_spec s (NODE a) r) as (s1 & R1 & N1 & P1 & Y1 & A1).
  { apply nxt_pay. exact Ha. }
  mstep R1.
  assert (Hn1 : nxt s1 (NODE a) = Some r).
  { rewrite N1. rewrite decide_True by reflexivity. reflexivity. }
  mstep (get_next_ok _ _ _ Hn1).
  assert (exists s2, (if is_null r
                      then set_prev (NODE a) (t_fakeelement q)
                      else p <- get_prev r; set_prev (NODE a) p;;
                           set_prev r (NODE a)) s1 = Ok tt s2 /\
            (forall x, nxt s2 x = nxt s1 x) /\
            (forall b, prv s2 b = if decide (b = a) then Some q
                                  else if decide (r = NODE b) then Some (NODE a)
                                  else prv s b) /\
            (forall b, pay s2 b = pay s b) /\ aux s2 = aux s)
    as (s2 & R2 & N2 & P2 & Y2 & A2).
  { destruct Hr as [->|(c & -> & Hca & Hc)].
    - simpl. destruct (set_prev_spec s1 a q) as (s2 & R2 & N2 & P2 & Y2 & A2).
      { rewrite Y1. exact Ha. }
      exists s2. split; [exact R2|]. split; [exact N2|]. split; [|split].
      + intros b. rewrite P2. destruct (decide (b = a)); [reflexivity|].
        apply P1.
      + intros b. rewrite Y2. apply Y1.
      + congruence.
    - simpl. assert (Hc1 : prv s1 c = Some q) by (rewrite P1; exact Hc).
      mstep (get_prev_ok _ _ _ Hc1).
      destruct (set_prev_spec s1 a q) as (s2 & R2 & N2 & P2 & Y2 & A2).
      { rewrite Y1. exact Ha. }
      mstep R2.
      destruct (set_prev_spec s2 c (NODE a)) as (s3 & R3 & N3 & P3 & Y3 & A3).
      { rewrite Y2, Y1. apply prv_pay. eauto. }
      exists s3. split; [exact R3|]. split; [|split; [|split]].
      + intros x. rewrite N3. apply N2.
      + intros b. rewrite P3. destruct (decide (b = c)) as [->|Hbc].
        * rewrite decide_False by congruence.
          rewrite decide_True by reflexivity. reflexivity.
        * rewrite P2. destruct (decide (b = a)); [reflexivity|].
          rewrite decide_False by congruence. apply P1.
      + intros b. rewrite Y3, Y2. apply Y1.
      + congruence. }
  mstep R2.
  assert (Hp2 : prv s2 a = Some q).
  { rewrite P2. rewrite decide_True by reflexivity. reflexivity. }
  mstep (get_prev_ok _ _ _ Hp2).
  destruct (set_next_spec s2 q (NODE a)) as (s3 & R3 & N3 & P3 & Y3 & A3).
  { rewrite N2, N1. rewrite decide_False by congruence. eauto. }
  exists s3. split; [exact R3|]. split; [|split; [|split]].
  - intros x. rewrite N3. destruct (decide (x = q)) as [->|Hxq].
    + rewrite decide_False by exact Hqa. reflexivity.
    + rewrite N2, N1. destruct (decide (x = NODE a)); reflexivity.
  - intros b. rewrite P3. apply P2.
  - intros b. rewrite Y3. apply Y2.
  - congruence.
Qed.

(** ** Chains *)

Lemma last_ptr_app q l1 l2 : last_ptr q (l1 ++ l2) = last_ptr (last_ptr q l1) l2.
Proof. revert q. induction l1 as [|x l1 IH]; intros q; simpl; [reflexivity|apply IH]. Qed.

Lemma last_ptr_in q (l : list entry) : last_ptr q l = q \/ last_ptr q l ∈ e_ptr <$> l.
Proof.
  revert q. induction l as [|x l IH]; intros q; simpl; [left; reflexivity|].
  right. destruct (IH (e_ptr x)) as [->|H].
  - apply list_elem_of_here.
  - apply list_elem_of_further. exact H.
Qed.

Lemma e_ptr_in e (l : list entry) : e_ptr e ∈ e_ptr <$> l <-> e_addr e ∈ e_addr <$> l.
Proof.
  rewrite !list_elem_of_fmap. split; intros (x & Hx & Hin); exists x; split; auto.
  - unfold e_ptr in Hx. congruence.
  - unfold e_ptr. congruence.
Qed.

Lemma node_in a (l : list entry) : NODE a ∈ e_ptr <$> l <-> a ∈ e_addr <$> l.
Proof. apply (e_ptr_in (Entry a 0 0 0%float)). Qed.

Lemma chain_head s q l : chain s q l -> nxt s q = Some (head_ptr l).
Proof. destruct l; simpl; [auto|]. intros (H & _). exact H. Qed.

Lemma chain_frame s s' q l :
  chain s q l ->
  (forall x, x = q \/ x ∈ e_ptr <$> l -> nxt s' x = nxt s x) ->
  (forall b, b ∈ e_addr <$> l -> prv s' b = prv s b /\ pay s' b = pay s b) ->
  chain s' q l.
Proof.
  revert q. induction l as [|e l IH]; intros q Hc HN HB; simpl in *.
  - rewrite HN by auto. exact Hc.
  - destruct Hc as (H1 & H2 & H3 & H4).
    destruct (HB (e_addr e)) as [HB1 HB2]; [apply list_elem_of_here|].
    split; [rewrite HN by auto; exact H1|].
    split; [congruence|]. split; [congruence|].
    apply IH; [exact H4| |].
    + intros x [->|Hx]; apply HN; right;
        [apply list_elem_of_here|apply list_elem_of_further; exact Hx].
    + intros b Hb. apply HB. apply list_elem_of_further. exact Hb.
Qed.

Lemma chain_pay s q l e : chain s q l -> e ∈ l -> pay s (e_addr e) = Some (e_pay e).
Proof.
  revert q. induction l as [|x l IH]; intros q Hc Hin.
  - inversion Hin.
  - destruct Hc as (_ & _ & H3 & H4). apply elem_of_cons in Hin as [->|Hin]; eauto.
Qed.

Lemma chain_split s q l1 l2 :
  chain s q (l1 ++ l2) <-> links s q l1 /\ chain s (last_ptr q l1) l2.
Proof.
  revert q. induction l1 as [|x l1 IH]; intros q; simpl.
  - tauto.
  - rewrite IH. tauto.
Qed.

Lemma links_frame s s' q l :
  links s q l ->
  (forall x, x = q \/ x ∈ e_ptr <$> l -> x <> last_ptr q l -> nxt s' x = nxt s x) ->
  (forall b, b ∈ e_addr <$> l -> prv s' b = prv s b /\ pay s' b = pay s b) ->
  NoDup (q :: (e_ptr <$> l)) ->
  links s' q l.
Proof.
  revert q. induction l as [|e l IH]; intros q Hc HN HB Hnd; simpl in *; [exact I|].
  destruct Hc as (H1 & H2 & H3 & H4).
  destruct (HB (e_addr e)) as [HB1 HB2]; [apply list_elem_of_here|].
  apply NoDup_cons in Hnd as [Hq Hnd].
  split.
  { rewrite HN; [exact H1|auto|].
    intros Heq. apply Hq. rewrite Heq.
    destruct (last_ptr_in (e_ptr e) l) as [->|Hin];
      [apply list_elem_of_here|apply list_elem_of_further; exact Hin]. }
  split; [congruence|]. split; [congruence|].
  apply IH; [exact H4| | |exact Hnd].
  - intros x Hx Hl. apply HN; [|exact Hl].
    right. destruct Hx as [->|Hx];
      [apply list_elem_of_here|apply list_elem_of_further; exact Hx].
  - intros b Hb. apply HB. apply list_elem_of_further. exact Hb.
Qed.

Lemma chain_not_null s q l : chain s q l -> q <> NULL.
Proof. intros H%chain_head ->. discriminate. Qed.

(** What [t_del] does to the chain its record is on. *)
Lemma chain_del s s' q l1 e l2 :
  chain s q (l1 ++ e :: l2) ->
  NoDup (q :: (e_ptr <$> (l1 ++ e :: l2))) ->
  (forall x, x <> NULL ->
     nxt s' x = if decide (x = e_ptr e) then Some NULL
                else if decide (x = last_ptr q l1) then Some (head_ptr l2)
                else nxt s x) ->
  (forall b, prv s' b = if decide (b = e_addr e) then Some NULL
                        else if decide (head_ptr l2 = NODE b)
                             then Some (last_ptr q l1)
                        else prv s b) ->
  (forall b, pay s' b = pay s b) ->
  chain s' q (l1 ++ l2).
Proof.
  intros Hc Hnd HN HP HY.
  pose proof (chain_not_null _ _ _ Hc) as Hq0.
  apply chain_split in Hc as [Hl Hc]. simpl in Hc.
  destruct Hc as (Hc1 & Hc2 & Hc3 & Hc4).
  rewrite fmap_app, fmap_cons in Hnd.
  apply NoDup_cons in Hnd as [Hq Hnd].
  apply NoDup_app in Hnd as (Hnd1 & Hdisj & Hnd2).
  apply NoDup_cons in Hnd2 as [He Hnd2].
  assert (Hp : last_ptr q l1 <> e_ptr e).
  { destruct (last_ptr_in q l1) as [->|Hin].
    - intros ->. apply Hq. set_solver.
    - intros Heq. rewrite Heq in Hin. apply (Hdisj _ Hin). set_solver. }
  assert (Hp0 : last_ptr q l1 <> NULL) by (intros Heq; rewrite Heq in Hc1; discriminate).
  assert (Hpl2 : last_ptr q l1 ∉ e_ptr <$> l2).
  { destruct (last_ptr_in q l1) as [->|Hin].
    - set_solver.
    - intros Hin2. apply (Hdisj _ Hin). set_solver. }
  apply chain_split. split.
  - apply (links_frame s); [exact Hl| | |].
    + intros x Hx Hxl. rewrite HN.
      * rewrite decide_False.
        { rewrite decide_False by exact Hxl. reflexivity. }
        destruct Hx as [->|Hx]; [set_solver|].
        intros ->. apply (Hdisj _ Hx). set_solver.
      * destruct Hx as [->|Hx]; [exact Hq0|]. intros ->.
        apply list_elem_of_fmap in Hx as (y & Hy & _). discriminate.
    + intros b Hb. split; [|apply HY]. rewrite HP.
      apply node_in in Hb.
      rewrite decide_False.
      * rewrite decide_False; [reflexivity|].
        intros Heq. destruct l2 as [|c l2]; [discriminate|]. simpl in Heq.
        rewrite <- Heq in Hb. apply (Hdisj _ Hb). set_solver.
      * intros ->. apply (Hdisj _ Hb). set_solver.
    + apply NoDup_cons. split; [set_solver|exact Hnd1].
  - destruct l2 as [|c l2]; cbn [chain head_ptr] in *.
    + rewrite HN by exact Hp0. rewrite decide_False by exact Hp.
      rewrite decide_True by reflexivity. reflexivity.
    + destruct Hc4 as (Hd1 & Hd2 & Hd3 & Hd4).
      rewrite fmap_cons in Hnd2, He, Hpl2.
      apply NoDup_cons in Hnd2 as [Hc Hnd2].
      assert (Hce : e_addr c <> e_addr e).
      { intros Heq. apply He. unfold e_ptr. rewrite Heq. set_solver. }
      split; [|split; [|split]].
      * rewrite HN by exact Hp0. rewrite decide_False by exact Hp.
        rewrite decide_True by reflexivity. reflexivity.
      * rewrite HP. rewrite decide_False by exact Hce.
        rewrite decide_True by reflexivity. reflexivity.
      * rewrite HY. exact Hd3.
      * apply (chain_frame s); [exact Hd4| |].
        -- intros x Hx. rewrite HN.
           ++ rewrite decide_False.
              { rewrite decide_False; [reflexivity|].
                intros ->. apply Hpl2. set_solver. }
              intros ->. apply He. set_solver.
           ++ destruct Hx as [->|Hx]; [discriminate|]. intros ->.
              apply list_elem_of_fmap in Hx as (y & Hy & _). discriminate.
        -- intros b Hb. split; [|apply HY]. rewrite HP.
           apply node_in in Hb.
           rewrite decide_False.
           ++ rewrite decide_False; [reflexivity|].
              intros Heq. apply Hc. rewrite Heq. exact Hb.
           ++ intros ->. apply He. set_solver.
Qed.

(** What linking a record in does to the chain. *)
Lemma chain_link s s' q l1 e l2 :
  chain s q (l1 ++ l2) ->
  NoDup (q :: (e_ptr <$> (l1 ++ e :: l2))) ->
  pay s (e_addr e) = Some (e_pay e) ->
  (forall x, nxt s' x = if decide (x = e_ptr e) then Some (head_ptr l2)
                        else if decide (x = last_ptr q l1) then Some (e_ptr e)
                        else nxt s x) ->
  (forall b, prv s' b = if decide (b = e_addr e) then Some (last_ptr q l1)
                        else if decide (head_ptr l2 = NODE b) then Some (e_ptr e)
                        else prv s b) ->
  (forall b, pay s' b = pay s b) ->
  chain s' q (l1 ++ e :: l2).
Proof.
  intros Hc Hnd Hpay HN HP HY.
  apply chain_split in Hc as [Hl Hc].
  rewrite fmap_app, fmap_cons in Hnd.
  apply NoDup_cons in Hnd as [Hq Hnd].
  apply NoDup_app in Hnd as (Hnd1 & Hdisj & Hnd2).
  apply NoDup_cons in Hnd2 as [He Hnd2].
  assert (Hp : last_ptr q l1 <> e_ptr e).
  { destruct (last_ptr_in q l1) as [->|Hin].
    - intros ->. apply Hq. set_solver.
    - intros Heq. rewrite Heq in Hin. apply (Hdisj _ Hin). set_solver. }
  assert (Hpl2 : last_ptr q l1 ∉ e_ptr <$> l2).
  { destruct (last_ptr_in q l1) as [->|Hin].
    - set_solver.
    - intros Hin2. apply (Hdisj _ Hin). set_solver. }
  apply chain_split. split.
  - apply (links_frame s); [exact Hl| | |].
    + intros x Hx Hxl. rewrite HN.
      rewrite decide_False.
      { rewrite decide_False by exact Hxl. reflexivity. }
      destruct Hx as [->|Hx]; [set_solver|].
      intros ->. apply (Hdisj _ Hx). set_solver.
    + intros b Hb. split; [|apply HY]. rewrite HP.
      apply node_in in Hb.
      rewrite decide_False.
      * rewrite decide_False; [reflexivity|].
        intros Heq. rewrite <- Heq in Hb.
        destruct l2 as [|c l2]; [discriminate|].
        apply (Hdisj _ Hb). set_solver.
      * intros ->. apply (Hdisj _ Hb). set_solver.
    + apply NoDup_cons. split; [set_solver|exact Hnd1].
  - cbn [chain]. split; [|split; [|split]].
    + rewrite HN. rewrite decide_False by exact Hp.
      rewrite decide_True by reflexivity. reflexivity.
    + rewrite HP. rewrite decide_True by reflexivity. reflexivity.
    + rewrite HY. exact Hpay.
    + destruct l2 as [|c l2]; cbn [chain head_ptr] in *.
      * rewrite HN. rewrite decide_True by reflexivity. reflexivity.
      * destruct Hc as (Hd1 & Hd2 & Hd3 & Hd4).
        rewrite fmap_cons in Hnd2, He, Hpl2.
        apply NoDup_cons in Hnd2 as [Hc Hnd2].
        assert (Hce : e_addr c <> e_addr e).
        { intros Heq. apply He. unfold e_ptr. rewrite Heq. set_solver. }
        split; [|split; [|split]].
        -- rewrite HN. rewrite decide_True by reflexivity. reflexivity.
        -- rewrite HP. rewrite decide_False by exact Hce.
           rewrite decide_True by reflexivity. reflexivity.
        -- rewrite HY. exact Hd3.
        -- apply (chain_frame s); [exact Hd4| |].
           ++ intros x Hx. rewrite HN.
              rewrite decide_False.
              { rewrite decide_False; [reflexivity|].
                intros ->. apply Hpl2. set_solver. }
              intros ->. apply He. set_solver.
           ++ intros b Hb. split; [|apply HY]. rewrite HP.
              apply node_in in Hb.
              rewrite decide_False.
              ** rewrite decide_False; [reflexivity|].
                 intros Heq. apply Hc. rewrite Heq. exact Hb.
              ** intros ->. apply He. set_solver.
Qed.

(** A chain that the change of some other records leaves alone. *)
Lemma chain_other s s' q l (a : nat) (p n : ptr) :
  chain s q l ->
  a ∉ e_addr <$> l -> q <> NODE a ->
  p <> q -> p ∉ e_ptr <$> l ->
  n ∉ e_ptr <$> l ->
  (forall x, x <> NULL -> x <> NODE a -> x <> p -> nxt s' x = nxt s x) ->
  (forall b, b <> a -> n <> NODE b -> prv s' b = prv s b) ->
  (forall b, pay s' b = pay s b) ->
  chain s' q l.
Proof.
  intros Hc Ha Hqa Hpq Hpl Hnl HN HP HY.
  pose proof (chain_not_null _ _ _ Hc) as Hq0.
  apply (chain_frame s); [exact Hc| |].
  - intros x [->|Hx].
    + apply HN; auto.
    + apply HN.
      * intros ->. apply list_elem_of_fmap in Hx as (y & Hy & _). discriminate.
      * intros ->. apply Ha. apply node_in. exact Hx.
      * intros ->. apply Hpl. exact Hx.
  - intros b Hb. split; [|apply HY]. apply HP.
    + intros ->. apply Ha. exact Hb.
    + intros ->. apply Hnl. apply node_in. exact Hb.
Qed.

(** ** The lists of the queue under [t_del] and [t_add] *)

Lemma detached_frame s s' e :
  detached s e ->
  nxt s' (e_ptr e) = nxt s (e_ptr e) ->
  prv s' (e_addr e) = prv s (e_addr e) ->
  pay s' (e_addr e) = pay s (e_addr e) ->
  detached s' e.
Proof. unfold detached. intros (H1 & H2 & H3) -> -> ->. auto. Qed.

Lemma chain_at s q l1 e l2 :
  chain s q (l1 ++ e :: l2) ->
  nxt s (last_ptr q l1) = Some (e_ptr e) /\
  prv s (e_addr e) = Some (last_ptr q l1) /\
  pay s (e_addr e) = Some (e_pay e) /\
  nxt s (e_ptr e) = Some (head_ptr l2) /\
  chain s (e_ptr e) l2.
Proof.
  intros Hc. apply chain_split in Hc as [_ Hc]. cbn [chain] in Hc.
  destruct Hc as (H1 & H2 & H3 & H4). repeat split; try assumption.
  eapply chain_head. exact H4.
Qed.

Lemma last_ptr_cases r (l : list entry) :
  last_ptr (FAKE r) l = FAKE r \/
  exists b, last_ptr (FAKE r) l = NODE b /\ b ∈ e_addr <$> l.
Proof.
  destruct (last_ptr_in (FAKE r) l) as [H|H]; [left; exact H|right].
  apply list_elem_of_fmap in H as (y & Hy & Hin).
  exists (e_addr y). split; [exact Hy|]. apply list_elem_of_fmap. eauto.
Qed.

Lemma head_ptr_cases (l : list entry) :
  head_ptr l = NULL \/ exists c, head_ptr l = NODE c /\ c ∈ e_addr <$> l.
Proof.
  destruct l as [|c l]; [left; reflexivity|right].
  exists (e_addr c). split; [reflexivity|]. rewrite fmap_cons. apply list_elem_of_here.
Qed.

Lemma NoDup_ptrs r (l : list entry) :
  NoDup (e_addr <$> l) -> NoDup (FAKE r :: (e_ptr <$> l)).
Proof.
  intros H. apply NoDup_cons. split.
  - intros (y & Hy & _)%list_elem_of_fmap. discriminate.
  - replace (e_ptr <$> l) with (NODE <$> (e_addr <$> l)).
    + apply NoDup_fmap_2; [|exact H]. intros x y [=]. assumption.
    + rewrite <- list_fmap_compose. reflexivity.
Qed.

Ltac nodup_facts H :=
  rewrite ?fmap_app, ?fmap_cons in H;
  repeat match goal with
         | H' : NoDup (_ ++ _) |- _ => apply NoDup_app in H' as (? & ? & ?)
         | H' : NoDup (_ :: _) |- _ => apply NoDup_cons in H' as (? & ?)
         end.

(** Membership goals, with only the membership facts at hand. *)
Ltac prune :=
  repeat match goal with
         | H : forall x : ptr, _ |- _ => clear H
         | H : forall b : nat, _ = _ |- _ => clear H
         | H : chain _ _ _ |- _ => clear H
         | H : links _ _ _ |- _ => clear H
         | H : Forall _ _ |- _ => clear H
         | H : nxt _ _ = _ |- _ => clear H
         | H : prv _ _ = _ |- _ => clear H
         | H : pay _ _ = _ |- _ => clear H
         | H : aux _ = _ |- _ => clear H
         | H : _ = Ok _ _ |- _ => clear H
         | H : NoDup _ |- _ => clear H
         end.
Ltac absfmap :=
  repeat match goal with
         | |- context [fmap ?f ?l] =>
             is_var l; let L := fresh "L" in set (L := fmap f l) in *; clearbody L
         | H : context [fmap ?f ?l] |- _ =>
             is_var l; let L := fresh "L" in set (L := fmap f l) in *; clearbody L
         end.
Ltac ndsolve :=
  prune; rewrite ?fmap_app, ?fmap_cons in *; absfmap; set_solver.

(** [t_del] of a record on the list of [r]; [r'] is the other list. *)
Lemma t_del_chain s r r' l1 e l2 l' D :
  r <> r' ->
  chain s (FAKE r) (l1 ++ e :: l2) ->
  chain s (FAKE r') l' ->
  Forall (detached s) D ->
  NoDup (e_addr <$> ((l1 ++ e :: l2) ++ l' ++ D)) ->
  exists s', t_del (e_ptr e) s = Ok tt s' /\
    chain s' (FAKE r) (l1 ++ l2) /\
    chain s' (FAKE r') l' /\
    Forall (detached s') (e :: D) /\
    (forall b, pay s' b = pay s b) /\
    aux s' = aux s.
Proof.
  intros Hrr Hc Hc' HD Hnd.
  destruct (chain_at _ _ _ _ _ Hc) as (A1 & A2 & A3 & A4 & A5).
  assert (Hnd1 : NoDup (FAKE r :: (e_ptr <$> (l1 ++ e :: l2)))).
  { apply NoDup_ptrs. rewrite fmap_app in Hnd. apply NoDup_app in Hnd as [H _]. exact H. }
  revert Hnd1. nodup_facts Hnd. intros Hnd1.
  destruct (t_del_spec s (e_addr e) (head_ptr l2) (last_ptr (FAKE r) l1))
    as (s' & R & HN & HP & HY & HA); try assumption.
  { destruct l2 as [|c l2]; [left; reflexivity|right].
    exists (e_addr c). split; [reflexivity|].
    destruct A5 as (_ & B1 & B2 & _).
    split; [|apply prv_pay; eauto]. ndsolve. }
  { right. split; [|eauto].
    destruct (last_ptr_cases r l1) as [->|(b & -> & Hb)]; [discriminate|].
    intros [= ->]. ndsolve. }
  exists s'. split; [exact R|].
  split; [|split; [|split; [|split]]]; try assumption.
  - apply (chain_del s s' (FAKE r) l1 e l2); assumption.
  - apply (chain_other s _ _ _ (e_addr e) (last_ptr (FAKE r) l1) (head_ptr l2));
      try assumption.
    + ndsolve.
    + discriminate.
    + destruct (last_ptr_cases r l1) as [->|(b & -> & Hb)]; congruence.
    + destruct (last_ptr_cases r l1) as [->|(b & -> & Hb)].
      * intros (y & Hy & _)%list_elem_of_fmap. discriminate.
      * intros Hin%node_in. ndsolve.
    + destruct (head_ptr_cases l2) as [->|(c & -> & Hc2)].
      * intros (y & Hy & _)%list_elem_of_fmap. discriminate.
      * intros Hin%node_in. ndsolve.
    + intros x Hx Hxa Hxp. rewrite HN by exact Hx.
      rewrite decide_False by exact Hxa. rewrite decide_False by exact Hxp. reflexivity.
    + intros b Hb Hnb. rewrite HP. rewrite decide_False by exact Hb.
      rewrite decide_False by exact Hnb. reflexivity.
  - apply Forall_cons. split.
    + unfold detached. rewrite HN by discriminate. rewrite HP, HY.
      rewrite !decide_True by reflexivity. auto.
    + apply Forall_forall. intros d Hd.
      assert (Hda : e_addr d ∈ e_addr <$> D) by (apply list_elem_of_fmap; eauto).
      apply (detached_frame s); [eapply Forall_forall; eauto| | |apply HY].
      * rewrite HN by discriminate.
        rewrite decide_False by (intros [= Heq]; rewrite Heq in Hda; ndsolve).
        rewrite decide_False; [reflexivity|].
        destruct (last_ptr_cases r l1) as [->|(b & -> & Hb)]; [discriminate|].
        intros [= Heq]. rewrite Heq in Hda. ndsolve.
      * rewrite HP.
        rewrite decide_False by (intros Heq; rewrite Heq in Hda; ndsolve).
        rewrite decide_False; [reflexivity|].
        destruct (head_ptr_cases l2) as [->|(c & -> & Hc2)]; [discriminate|].
        intros [= Heq]. rewrite <- Heq in Hda. ndsolve.
Qed.

Lemma chain_same s s' q l :
  chain s q l ->
  (forall x, x <> NULL -> nxt s' x = nxt s x) ->
  (forall b, prv s' b = prv s b) ->
  (forall b, pay s' b = pay s b) ->
  chain s' q l.
Proof.
  intros Hc HN HP HY. pose proof (chain_not_null _ _ _ Hc) as Hq.
  apply (chain_frame s); [exact Hc| |].
  - intros x [->|Hx]; apply HN; [exact Hq|].
    intros ->. apply list_elem_of_fmap in Hx as (y & Hy & _). discriminate.
  - intros b _. split; [apply HP|apply HY].
Qed.

(** [t_del] of a record that is on no list changes nothing. *)
Lemma t_del_detached s q q' l l' e D :
  chain s q l ->
  chain s q' l' ->
  Forall (detached s) (e :: D) ->
  exists s', t_del (e_ptr e) s = Ok tt s' /\
    chain s' q l /\
    chain s' q' l' /\
    Forall (detached s') (e :: D) /\
    (forall b, pay s' b = pay s b) /\
    aux s' = aux s.
Proof.
  intros Hc Hc' HD.
  assert (He : detached s e) by (apply Forall_cons in HD as [H _]; exact H).
  destruct He as (E1 & E2 & E3).
  destruct (t_del_spec s (e_addr e) NULL NULL) as (s' & R & HN & HP & HY & HA);
    try assumption; auto.
  assert (HN' : forall x, x <> NULL -> nxt s' x = nxt s x).
  { intros x Hx. rewrite HN by exact Hx.
    destruct (decide (x = NODE (e_addr e))) as [->|Hne]; [symmetry; exact E1|].
    rewrite decide_False by exact Hx. reflexivity. }
  assert (HP' : forall b, prv s' b = prv s b).
  { intros b. rewrite HP.
    destruct (decide (b = e_addr e)) as [->|Hne]; [symmetry; exact E2|].
    rewrite decide_False by discriminate. reflexivity. }
  exists s'. split; [exact R|].
  split; [|split; [|split; [|split]]]; try assumption.
  - apply (chain_same s); assumption.
  - apply (chain_same s); assumption.
  - apply Forall_forall. intros d Hd.
    apply (detached_frame s); [eapply Forall_forall; eauto| | |apply HY].
    + apply HN'. discriminate.
    + apply HP'.
Qed.

(** The rest of [t_add] links a record that is on no list in behind the
    records [l1] of the list of [r]. *)
Lemma t_link_chain s r r' l1 e l2 l' D :
  r <> r' ->
  chain s (FAKE r) (l1 ++ l2) ->
  chain s (FAKE r') l' ->
  Forall (detached s) (e :: D) ->
  NoDup (e_addr <$> ((l1 ++ e :: l2) ++ l' ++ D)) ->
  exists s',
    (r0 <- get_next (last_ptr (FAKE r) l1);
     set_next (e_ptr e) r0;;
     n <- get_next (e_ptr e);
     (if is_null n
      then set_prev (e_ptr e) (t_fakeelement (last_ptr (FAKE r) l1))
      else p <- get_prev n; set_prev (e_ptr e) p;; set_prev n (e_ptr e));;
     p <- get_prev (e_ptr e);
     set_next p (e_ptr e)) s = Ok tt s' /\
    chain s' (FAKE r) (l1 ++ e :: l2) /\
    chain s' (FAKE r') l' /\
    Forall (detached s') D /\
    (forall b, pay s' b = pay s b) /\
    aux s' = aux s.
Proof.
  intros Hrr Hc Hc' HD Hnd.
  apply Forall_cons in HD as [(E1 & E2 & E3) HD].
  assert (Hnd1 : NoDup (FAKE r :: (e_ptr <$> (l1 ++ e :: l2)))).
  { apply NoDup_ptrs. rewrite fmap_app in Hnd. apply NoDup_app in Hnd as [H _]. exact H. }
  revert Hnd1. nodup_facts Hnd. intros Hnd1.
  assert (Hsplit := Hc). apply chain_split in Hsplit as [Hl Hc2].
  pose proof (chain_head _ _ _ Hc2) as Hq.
  destruct (t_link_spec s (e_addr e) (last_ptr (FAKE r) l1) (head_ptr l2))
    as (s' & R & HN & HP & HY & HA); try assumption.
  { rewrite E3. eauto. }
  { destruct (last_ptr_cases r l1) as [->|(b & -> & Hb)]; [discriminate|].
    intros [= ->]. ndsolve. }
  { destruct l2 as [|c l2]; [left; reflexivity|right].
    exists (e_addr c). split; [reflexivity|].
    destruct Hc2 as (_ & B1 & _).
    split; [|exact B1]. ndsolve. }
  exists s'. split; [exact R|].
  split; [|split; [|split; [|split]]]; try assumption.
  - apply (chain_link s); assumption.
  - apply (chain_other s _ _ _ (e_addr e) (last_ptr (FAKE r) l1) (head_ptr l2));
      try assumption.
    + ndsolve.
    + discriminate.
    + destruct (last_ptr_cases r l1) as [->|(b & -> & Hb)]; congruence.
    + destruct (last_ptr_cases r l1) as [->|(b & -> & Hb)].
      * intros (y & Hy & _)%list_elem_of_fmap. discriminate.
      * intros Hin%node_in. ndsolve.
    + destruct (head_ptr_cases l2) as [->|(c & -> & Hc3)].
      * intros (y & Hy & _)%list_elem_of_fmap. discriminate.
      * intros Hin%node_in. ndsolve.
    + intros x Hx Hxa Hxp. rewrite HN.
      rewrite decide_False by exact Hxa. rewrite decide_False by exact Hxp. reflexivity.
    + intros b Hb Hnb. rewrite HP. rewrite decide_False by exact Hb.
      rewrite decide_False by exact Hnb. reflexivity.
  - apply Forall_forall. intros d Hd.
    assert (Hda : e_addr d ∈ e_addr <$> D) by (apply list_elem_of_fmap; eauto).
    apply (detached_frame s); [eapply Forall_forall; eauto| | |apply HY].
    + rewrite HN.
      rewrite decide_False by (intros [= Heq]; rewrite Heq in Hda; ndsolve).
      rewrite decide_False; [reflexivity|].
      destruct (last_ptr_cases r l1) as [->|(b & -> & Hb)]; [discriminate|].
      intros [= Heq]. rewrite Heq in Hda. ndsolve.
    + rewrite HP.
      rewrite decide_False by (intros Heq; rewrite Heq in Hda; ndsolve).
      rewrite decide_False; [reflexivity|].
      destruct (head_ptr_cases l2) as [->|(c & -> & Hc3)]; [discriminate|].
      intros [= Heq]. rewrite <- Heq in Hda. ndsolve.
Qed.

(** ** The representation invariant under the list operations *)

Lemma NoDup_bounded (l : list nat) (n : nat) :
  NoDup l -> (forall x, x ∈ l -> (x < n)%nat) -> (length l <= n)%nat.
Proof.
  intros Hnd Hlt.
  assert (H : l ⊆+ seq 0 n).
  { apply NoDup_submseteq; [exact Hnd|].
    intros x Hx. apply elem_of_seq. specialize (Hlt x Hx). lia. }
  apply submseteq_length in H. rewrite length_seq in H. exact H.
Qed.

Lemma rep_length_P s P I D : rep s P I D -> (length P <= brk s)%nat.
Proof.
  intros [_ _ _ Hnd _ Hbrk].
  rewrite <- (length_fmap e_addr). apply NoDup_bounded.
  - rewrite fmap_app in Hnd. apply NoDup_app in Hnd as [H _]. exact H.
  - intros x Hx. apply Hbrk. rewrite fmap_app. apply elem_of_app. left. exact Hx.
Qed.

Lemma rep_length_I s P I D : rep s P I D -> (length I <= brk s)%nat.
Proof.
  intros [_ _ _ Hnd _ Hbrk].
  rewrite <- (length_fmap e_addr). apply NoDup_bounded.
  - rewrite !fmap_app in Hnd. apply NoDup_app in Hnd as (_ & _ & H).
    apply NoDup_app in H as [H _]. exact H.
  - intros x Hx. apply Hbrk. rewrite !fmap_app. apply elem_of_app. right.
    apply elem_of_app. left. exact Hx.
Qed.

(** The invariant carries over to a state with the same records, linked
    as the lists [P'], [I'] and [D']. *)
Lemma rep_transfer s s' P I D P' I' D' :
  rep s P I D ->
  chain s' (FAKE TIMERS) P' ->
  chain s' (FAKE TMPTIMERS) I' ->
  Forall (detached s') D' ->
  e_addr <$> (P' ++ I' ++ D') ≡ₚ e_addr <$> (P ++ I ++ D) ->
  (forall b, is_Some (pay s' b) -> is_Some (pay s b)) ->
  brk s' = brk s ->
  rep s' P' I' D'.
Proof.
  intros [HP HI HD Hnd Hdom Hbrk] HP' HI' HD' Hperm Hlive Hb.
  split; try assumption.
  - rewrite Hperm. exact Hnd.
  - intros a Ha. rewrite Hperm. apply Hdom. apply heap_pay, Hlive, heap_pay, Ha.
  - intros a Ha. rewrite Hb. apply Hbrk. rewrite <- Hperm. exact Ha.
Qed.

Lemma aux_brk s s' : aux s' = aux s -> brk s' = brk s.
Proof. unfold aux. intros [= -> _ _ _]. reflexivity. Qed.

Lemma pay_live s s' :
  (forall b, pay s' b = pay s b) -> forall b, is_Some (pay s' b) -> is_Some (pay s b).
Proof. intros H b. rewrite H. auto. Qed.

Lemma rep_del_P s l1 e l2 I D :
  rep s (l1 ++ e :: l2) I D ->
  exists s', t_del (e_ptr e) s = Ok tt s' /\
    rep s' (l1 ++ l2) I (e :: D) /\
    (forall b, pay s' b = pay s b) /\ aux s' = aux s.
Proof.
  intros Hrep. destruct (t_del_chain s TIMERS TMPTIMERS l1 e l2 I D)
    as (s' & R & C1 & C2 & C3 & HY & HA);
    try (apply Hrep); [discriminate|].
  exists s'. split; [exact R|]. split; [|auto].
  eapply rep_transfer; eauto using pay_live, aux_brk.
  apply fmap_Permutation. rewrite <- !Permutation_middle. reflexivity.
Qed.

Lemma rep_del_I s P l1 e l2 D :
  rep s P (l1 ++ e :: l2) D ->
  exists s', t_del (e_ptr e) s = Ok tt s' /\
    rep s' P (l1 ++ l2) (e :: D) /\
    (forall b, pay s' b = pay s b) /\ aux s' = aux s.
Proof.
  intros Hrep. destruct (t_del_chain s TMPTIMERS TIMERS l1 e l2 P D)
    as (s' & R & C1 & C2 & C3 & HY & HA);
    try (apply Hrep); [discriminate| |].
  { destruct Hrep as [_ _ _ Hnd _ _]. revert Hnd.
    apply NoDup_Permutation_proper. apply fmap_Permutation.
    apply Permutation_app_swap_app. }
  exists s'. split; [exact R|]. split; [|auto].
  eapply rep_transfer; eauto using pay_live, aux_brk.
  apply fmap_Permutation.
  rewrite (Permutation_app_swap_app P (l1 ++ l2)).
  rewrite (Permutation_app_swap_app P (l1 ++ e :: l2)).
  rewrite <- !Permutation_middle. reflexivity.
Qed.

Lemma rep_del_D s P I e D :
  rep s P I (e :: D) ->
  exists s', t_del (e_ptr e) s = Ok tt s' /\
    rep s' P I (e :: D) /\
    (forall b, pay s' b = pay s b) /\ aux s' = aux s.
Proof.
  intros Hrep. destruct (t_del_detached s (FAKE TIMERS) (FAKE TMPTIMERS) P I e D)
    as (s' & R & C1 & C2 & C3 & HY & HA); try (apply Hrep).
  exists s'. split; [exact R|]. split; [|auto].
  eapply rep_transfer; eauto using pay_live, aux_brk.
Qed.

Lemma t_add_unfold t root : t_add t root = (t_del t;; t_link t root).
Proof. reflexivity. Qed.

Lemma rep_link_P s l1 e l2 I D :
  rep s (l1 ++ l2) I (e :: D) ->
  exists s', t_link (e_ptr e) (last_ptr (FAKE TIMERS) l1) s = Ok tt s' /\
    rep s' (l1 ++ e :: l2) I D /\
    (forall b, pay s' b = pay s b) /\ aux s' = aux s.
Proof.
  intros Hrep.
  destruct (t_link_chain s TIMERS TMPTIMERS l1 e l2 I D)
    as (s' & R & C1 & C2 & C3 & HY & HA);
    try (apply Hrep); [discriminate| |].
  { destruct Hrep as [_ _ _ Hnd _ _]. revert Hnd.
    apply NoDup_Permutation_proper. apply fmap_Permutation.
    rewrite <- !Permutation_middle. reflexivity. }
  exists s'. split; [exact R|]. split; [|auto].
  eapply rep_transfer; eauto using pay_live, aux_brk.
  apply fmap_Permutation. rewrite <- !Permutation_middle. reflexivity.
Qed.

Lemma rep_link_I s P e I D :
  rep s P I (e :: D) ->
  exists s', t_link (e_ptr e) (FAKE TMPTIMERS) s = Ok tt s' /\
    rep s' P (e :: I) D /\
    (forall b, pay s' b = pay s b) /\ aux s' = aux s.
Proof.
  intros Hrep.
  destruct (t_link_chain s TMPTIMERS TIMERS [] e I P D)
    as (s' & R & C1 & C2 & C3 & HY & HA);
    try (apply Hrep); [discriminate| |].
  { destruct Hrep as [_ _ _ Hnd _ _]. revert Hnd.
    apply NoDup_Permutation_proper. apply fmap_Permutation.
    rewrite (Permutation_app_swap_app P I). simpl.
    rewrite <- !Permutation_middle. reflexivity. }
  exists s'. split; [exact R|]. split; [|auto].
  eapply rep_transfer; eauto using pay_live, aux_brk.
  apply fmap_Permutation. simpl. rewrite <- !Permutation_middle. reflexivity.
Qed.

(** [t_add] as [libt_flush] uses it: from the pending timers to the head
    of the timers in flight. *)
Lemma rep_move s l1 e l2 I D :
  rep s (l1 ++ e :: l2) I D ->
  exists s', t_add (e_ptr e) (FAKE TMPTIMERS) s = Ok tt s' /\
    rep s' (l1 ++ l2) (e :: I) D /\
    (forall b, pay s' b = pay s b) /\ aux s' = aux s.
Proof.
  intros Hrep.
  destruct (rep_del_P _ _ _ _ _ _ Hrep) as (s1 & R1 & Hrep1 & HY1 & HA1).
  destruct (rep_link_I _ _ _ _ _ Hrep1) as (s' & R & Hrep' & HY & HA).
  exists s'. split; [|split; [exact Hrep'|split]].
  - rewrite t_add_unfold. mstep R1. exact R.
  - intros b. rewrite HY. apply HY1.
  - congruence.
Qed.

(** [t_add] of a record on no list, behind the pending timers [l1]. *)
Lemma rep_add_P s l1 e l2 I D :
  rep s (l1 ++ l2) I (e :: D) ->
  exists s', t_add (e_ptr e) (last_ptr (FAKE TIMERS) l1) s = Ok tt s' /\
    rep s' (l1 ++ e :: l2) I D /\
    (forall b, pay s' b = pay s b) /\ aux s' = aux s.
Proof.
  intros Hrep.
  destruct (rep_del_D _ _ _ _ _ Hrep) as (s1 & R1 & Hrep1 & HY1 & HA1).
  destruct (rep_link_P _ _ _ _ _ _ Hrep1) as (s' & R & Hrep' & HY & HA).
  exists s'. split; [|split; [exact Hrep'|split]].
  - rewrite t_add_unfold. mstep R1. exact R.
  - intros b. rewrite HY. apply HY1.
  - congruence.
Qed.

(** The loop of [t_add_sorted] stops where [insert_sorted] inserts. *)
Lemma t_scan_spec s e q l fuel :
  chain s q l ->
  pay s (e_addr e) = Some (e_pay e) ->
  (length l < fuel)%nat ->
  exists l1 l2, l = l1 ++ l2 /\
    insert_sorted e l = l1 ++ e :: l2 /\
    t_scan fuel (e_ptr e) q s = Ok (last_ptr q l1) s.
Proof.
  revert q fuel. induction l as [|x l IH]; intros q fuel Hc He Hf.
  - exists [], []. split; [reflexivity|]. split; [reflexivity|].
    destruct fuel as [|fuel]; [simpl in Hf; lia|]. simpl.
    mstep (get_next_ok _ _ _ Hc). reflexivity.
  - destruct fuel as [|fuel]; [simpl in Hf; lia|].
    destruct Hc as (H1 & H2 & H3 & H4). simpl.
    mstep (get_next_ok _ _ _ H1). simpl.
    mstep (get_wakeup_ok _ _ _ He).
    mstep (get_wakeup_ok _ _ _ H3). simpl.
    destruct (e_wakeup e <? e_wakeup x)%float eqn:Hlt.
    + exists [], (x :: l). auto.
    + destruct (IH (e_ptr x) fuel H4 He) as (l1 & l2 & -> & Hins & R).
      { simpl in Hf. lia. }
      exists (x :: l1), l2. split; [reflexivity|]. split.
      * rewrite Hins. reflexivity.
      * exact R.
Qed.

Lemma t_add_sorted_unfold t root : t_add_sorted t root = (t_del t;; t_place t root).
Proof. reflexivity. Qed.

Lemma rep_place s P I e D :
  rep s P I (e :: D) ->
  exists s', t_place (e_ptr e) (FAKE TIMERS) s = Ok tt s' /\
    rep s' (insert_sorted e P) I D /\
    (forall b, pay s' b = pay s b) /\ aux s' = aux s.
Proof.
  intros Hrep.
  unfold t_place. unfold get_brk at 1. unfold bind at 1.
  assert (He : pay s (e_addr e) = Some (e_pay e)).
  { destruct Hrep as [_ _ HD _ _ _]. apply Forall_cons in HD as [(_ & _ & H) _]. exact H. }
  destruct (t_scan_spec s e (FAKE TIMERS) P (S (brk s))) as (l1 & l2 & -> & Hins & R2).
  { apply Hrep. } { exact He. }
  { pose proof (rep_length_P _ _ _ _ Hrep). lia. }
  mstep R2. rewrite Hins. apply rep_add_P. exact Hrep.
Qed.

(** [t_add_sorted] of a pending timer, of a timer in flight, of a record
    on no list. *)
Lemma rep_arm_P s l1 e l2 I D :
  rep s (l1 ++ e :: l2) I D ->
  exists s', t_add_sorted (e_ptr e) (FAKE TIMERS) s = Ok tt s' /\
    rep s' (insert_sorted e (l1 ++ l2)) I D /\
    (forall b, pay s' b = pay s b) /\ aux s' = aux s.
Proof.
  intros Hrep.
  destruct (rep_del_P _ _ _ _ _ _ Hrep) as (s1 & R1 & Hrep1 & HY1 & HA1).
  destruct (rep_place _ _ _ _ _ Hrep1) as (s' & R & Hrep' & HY & HA).
  exists s'. split; [|split; [exact Hrep'|split]].
  - rewrite t_add_sorted_unfold. mstep R1. exact R.
  - intros b. rewrite HY. apply HY1.
  - congruence.
Qed.

Lemma rep_arm_I s P l1 e l2 D :
  rep s P (l1 ++ e :: l2) D ->
  exists s', t_add_sorted (e_ptr e) (FAKE TIMERS) s = Ok tt s' /\
    rep s' (insert_sorted e P) (l1 ++ l2) D /\
    (forall b, pay s' b = pay s b) /\ aux s' = aux s.
Proof.
  intros Hrep.
  destruct (rep_del_I _ _ _ _ _ _ Hrep) as (s1 & R1 & Hrep1 & HY1 & HA1).
  destruct (rep_place _ _ _ _ _ Hrep1) as (s' & R & Hrep' & HY & HA).
  exists s'. split; [|split; [exact Hrep'|split]].
  - rewrite t_add_sorted_unfold. mstep R1. exact R.
  - intros b. rewrite HY. apply HY1.
  - congruence.
Qed.

Lemma rep_arm_D s P I e D :
  rep s P I (e :: D) ->
  exists s', t_add_sorted (e_ptr e) (FAKE TIMERS) s = Ok tt s' /\
    rep s' (insert_sorted e P) I D /\
    (forall b, pay s' b = pay s b) /\ aux s' = aux s.
Proof.
  intros Hrep.
  destruct (rep_del_D _ _ _ _ _ Hrep) as (s1 & R1 & Hrep1 & HY1 & HA1).
  destruct (rep_place _ _ _ _ _ Hrep1) as (s' & R & Hrep' & HY & HA).
  exists s'. split; [|split; [exact Hrep'|split]].
  - rewrite t_add_sorted_unfold. mstep R1. exact R.
  - intros b. rewrite HY. apply HY1.
  - congruence.
Qed.

(** ** Payload stores *)

Lemma chain_pay_other s s' q l a g :
  chain s q l ->
  a ∉ e_addr <$> l ->
  (forall x, nxt s' x = nxt s x) ->
  (forall b, prv s' b = prv s b) ->
  (forall b, pay s' b = pay_with g s a b) ->
  chain s' q l.
Proof.
  intros Hc Ha HN HP HY. apply (chain_frame s); [exact Hc|auto|].
  intros b Hb. split; [apply HP|]. rewrite HY. unfold pay_with.
  rewrite decide_False; [reflexivity|]. intros ->. exact (Ha Hb).
Qed.

Lemma chain_pay_at s s' q l1 e e' l2 g :
  chain s q (l1 ++ e :: l2) ->
  NoDup (e_addr <$> (l1 ++ e :: l2)) ->
  e_addr e' = e_addr e ->
  g (e_pay e) = e_pay e' ->
  (forall x, nxt s' x = nxt s x) ->
  (forall b, prv s' b = prv s b) ->
  (forall b, pay s' b = pay_with g s (e_addr e) b) ->
  chain s' q (l1 ++ e' :: l2).
Proof.
  revert q. induction l1 as [|x l1 IH]; intros q Hc Hnd Ha Hg HN HP HY.
  - simpl in *. destruct Hc as (H1 & H2 & H3 & H4).
    apply NoDup_cons in Hnd as [Hnd _].
    unfold e_ptr in *. rewrite Ha.
    split; [rewrite HN; exact H1|]. split; [rewrite HP; exact H2|]. split.
    + rewrite HY. unfold pay_with. rewrite decide_True by reflexivity.
      rewrite H3. simpl. congruence.
    + eapply chain_pay_other; eauto.
  - simpl in *. destruct Hc as (H1 & H2 & H3 & H4).
    apply NoDup_cons in Hnd as [Hx Hnd].
    split; [rewrite HN; exact H1|]. split; [rewrite HP; exact H2|]. split.
    + rewrite HY. unfold pay_with. rewrite decide_False; [exact H3|].
      intros Heq. apply Hx. rewrite Heq. rewrite fmap_app, fmap_cons.
      apply elem_of_app. right. apply list_elem_of_here.
    + apply IH; assumption.
Qed.

Lemma detached_pay_other s s' d a g :
  detached s d ->
  e_addr d <> a ->
  (forall x, nxt s' x = nxt s x) ->
  (forall b, prv s' b = prv s b) ->
  (forall b, pay s' b = pay_with g s a b) ->
  detached s' d.
Proof.
  intros (H1 & H2 & H3) Hne HN HP HY. unfold detached.
  rewrite HN, HP, HY. unfold pay_with. rewrite decide_False by exact Hne. auto.
Qed.

Lemma detached_pay_at s s' e e' g :
  detached s e ->
  e_addr e' = e_addr e ->
  g (e_pay e) = e_pay e' ->
  (forall x, nxt s' x = nxt s x) ->
  (forall b, prv s' b = prv s b) ->
  (forall b, pay s' b = pay_with g s (e_addr e) b) ->
  detached s' e'.
Proof.
  intros (H1 & H2 & H3) Ha Hg HN HP HY. unfold detached, e_ptr in *.
  rewrite Ha, HN, HP, HY. unfold pay_with. rewrite decide_True by reflexivity.
  rewrite H3. simpl. rewrite Hg. auto.
Qed.

Lemma pay_with_live g s a b :
  is_Some (pay_with g s a b) -> is_Some (pay s b).
Proof.
  unfold pay_with. destruct (decide (b = a)) as [->|]; [|auto].
  rewrite fmap_is_Some. auto.
Qed.

Section PayStore.
Variables (s s' : state) (e e' : entry) (g : Z * Z * float -> Z * Z * float).
Hypothesis Ha : e_addr e' = e_addr e.
Hypothesis Hg : g (e_pay e) = e_pay e'.
Hypothesis HN : forall x, nxt s' x = nxt s x.
Hypothesis HP : forall b, prv s' b = prv s b.
Hypothesis HY : forall b, pay s' b = pay_with g s (e_addr e) b.
Hypothesis HA : aux s' = aux s.

Lemma pay_store_live b : is_Some (pay s' b) -> is_Some (pay s b).
Proof. rewrite HY. apply pay_with_live. Qed.

Lemma rep_pay_P l1 l2 I D :
  rep s (l1 ++ e :: l2) I D -> rep s' (l1 ++ e' :: l2) I D.
Proof.
  intros Hrep. assert (Hnd := rep_nodup _ _ _ _ Hrep).
  rewrite !fmap_app, fmap_cons in Hnd.
  assert (Hnd1 : NoDup (e_addr <$> (l1 ++ e :: l2))).
  { rewrite fmap_app, fmap_cons. apply NoDup_app in Hnd as [H _]. exact H. }
  revert Hnd1. nodup_facts Hnd. intros Hnd1.
  eapply rep_transfer; eauto using pay_store_live, aux_brk.
  - apply (chain_pay_at s s' _ l1 e e' l2 g); try assumption; first [exact (rep_P _ _ _ _ Hrep)|exact (rep_I _ _ _ _ Hrep)].
  - apply (chain_pay_other s s' _ _ (e_addr e) g); try assumption; [first [exact (rep_P _ _ _ _ Hrep)|exact (rep_I _ _ _ _ Hrep)]|]. ndsolve.
  - apply Forall_forall. intros d Hd.
    assert (Hda : e_addr d ∈ e_addr <$> D) by (apply list_elem_of_fmap; eauto).
    apply (detached_pay_other s s' d (e_addr e) g); try assumption.
    + eapply Forall_forall; [exact (rep_D _ _ _ _ Hrep)|exact Hd].
    + intros Heq. rewrite Heq in Hda. ndsolve.
  - rewrite !fmap_app, !fmap_cons, Ha. reflexivity.
Qed.

Lemma rep_pay_I P l1 l2 D :
  rep s P (l1 ++ e :: l2) D -> rep s' P (l1 ++ e' :: l2) D.
Proof.
  intros Hrep. assert (Hnd := rep_nodup _ _ _ _ Hrep).
  rewrite !fmap_app, fmap_cons in Hnd.
  assert (Hnd1 : NoDup (e_addr <$> (l1 ++ e :: l2))).
  { rewrite fmap_app, fmap_cons. apply NoDup_app in Hnd as (_ & _ & H).
    apply NoDup_app in H as [H _]. exact H. }
  revert Hnd1. nodup_facts Hnd. intros Hnd1.
  eapply rep_transfer; eauto using pay_store_live, aux_brk.
  - apply (chain_pay_other s s' _ _ (e_addr e) g); try assumption; [first [exact (rep_P _ _ _ _ Hrep)|exact (rep_I _ _ _ _ Hrep)]|]. ndsolve.
  - apply (chain_pay_at s s' _ l1 e e' l2 g); try assumption; first [exact (rep_P _ _ _ _ Hrep)|exact (rep_I _ _ _ _ Hrep)].
  - apply Forall_forall. intros d Hd.
    assert (Hda : e_addr d ∈ e_addr <$> D) by (apply list_elem_of_fmap; eauto).
    apply (detached_pay_other s s' d (e_addr e) g); try assumption.
    + eapply Forall_forall; [exact (rep_D _ _ _ _ Hrep)|exact Hd].
    + intros Heq. rewrite Heq in Hda. ndsolve.
  - rewrite !fmap_app, !fmap_cons, Ha. reflexivity.
Qed.

Lemma rep_pay_D P I D :
  rep s P I (e :: D) -> rep s' P I (e' :: D).
Proof.
  intros Hrep. assert (Hnd := rep_nodup _ _ _ _ Hrep).
  rewrite !fmap_app, fmap_cons in Hnd.
  assert (HD := rep_D _ _ _ _ Hrep). apply Forall_cons in HD as [He HD].
  nodup_facts Hnd.
  eapply rep_transfer; eauto using pay_store_live, aux_brk.
  - apply (chain_pay_other s s' _ _ (e_addr e) g); try assumption; [first [exact (rep_P _ _ _ _ Hrep)|exact (rep_I _ _ _ _ Hrep)]|]. ndsolve.
  - apply (chain_pay_other s s' _ _ (e_addr e) g); try assumption; [first [exact (rep_P _ _ _ _ Hrep)|exact (rep_I _ _ _ _ Hrep)]|]. ndsolve.
  - apply Forall_cons. split; [apply (detached_pay_at s s' e e' g); assumption|].
    apply Forall_forall. intros d Hd.
    assert (Hda : e_addr d ∈ e_addr <$> D) by (apply list_elem_of_fmap; eauto).
    apply (detached_pay_other s s' d (e_addr e) g); try assumption.
    + eapply Forall_forall; [exact HD|exact Hd].
    + intros Heq. rewrite Heq in Hda. ndsolve.
  - rewrite !fmap_app, !fmap_cons, Ha. reflexivity.
Qed.
End PayStore.

Lemma rep_live s P I D e :
  rep s P I D -> e ∈ P ++ I ++ D -> pay s (e_addr e) = Some (e_pay e).
Proof.
  intros Hrep Hin. rewrite !elem_of_app in Hin. destruct Hin as [H|[H|H]].
  - eapply chain_pay; [exact (rep_P _ _ _ _ Hrep)|exact H].
  - eapply chain_pay; [exact (rep_I _ _ _ _ Hrep)|exact H].
  - assert (Hd : detached s e) by (eapply Forall_forall; [exact (rep_D _ _ _ _ Hrep)|exact H]).
    apply Hd.
Qed.

(** [malloc] and [free] *)

Lemma malloc0_spec s P I D :
  rep s P I D ->
  exists s', malloc0 s = Ok (NODE (brk s)) s' /\
    rep s' P I (Entry (brk s) 0 0 0%float :: D) /\
    aux s' = (S (brk s), freed s, ticks s, fired s).
Proof.
  intros Hrep. eexists. split; [reflexivity|]. split; [|reflexivity].
  set (s' := State _ _ _ _ _ _ _).
  assert (Hfresh : heap s !! brk s = None).
  { destruct (heap s !! brk s) eqn:E; [|reflexivity].
    pose proof (rep_brk _ _ _ _ Hrep (brk s) (rep_dom _ _ _ _ Hrep _ (mk_is_Some _ _ E))). lia. }
  assert (HN : forall x, x <> NODE (brk s) -> nxt s' x = nxt s x).
  { intros [|[]|b] Hx; simpl; try reflexivity.
    rewrite lookup_insert_ne by congruence. reflexivity. }
  assert (HP : forall b, b <> brk s -> prv s' b = prv s b).
  { intros b Hb. unfold prv. simpl. rewrite lookup_insert_ne by congruence. reflexivity. }
  assert (HY : forall b, b <> brk s -> pay s' b = pay s b).
  { intros b Hb. unfold pay. simpl. rewrite lookup_insert_ne by congruence. reflexivity. }
  assert (Hlt : forall a, a ∈ e_addr <$> (P ++ I ++ D) -> a <> brk s).
  { intros a Ha%(rep_brk _ _ _ _ Hrep). lia. }
  assert (Hch : forall q l, q <> NODE (brk s) ->
            (forall a, a ∈ e_addr <$> l -> a ∈ e_addr <$> (P ++ I ++ D)) ->
            chain s q l -> chain s' q l).
  { intros q l Hq Hl Hc. apply (chain_frame s); [exact Hc| |].
    - intros x [->|Hx]; apply HN; [exact Hq|].
      apply list_elem_of_fmap in Hx as (y & -> & Hy). intros [= Heq].
      apply (Hlt (e_addr y)); [|exact Heq]. apply Hl. apply list_elem_of_fmap. eauto.
    - intros b Hb. split; [apply HP|apply HY]; apply Hlt, Hl, Hb. }
  split.
  - apply Hch; [discriminate| |exact (rep_P _ _ _ _ Hrep)].
    intros a Ha. rewrite fmap_app. apply elem_of_app. left. exact Ha.
  - apply Hch; [discriminate| |exact (rep_I _ _ _ _ Hrep)].
    intros a Ha. rewrite !fmap_app. apply elem_of_app. right.
    apply elem_of_app. left. exact Ha.
  - apply Forall_cons. split.
    + unfold detached, prv, pay. simpl. rewrite lookup_insert_eq. simpl. auto.
    + apply Forall_forall. intros d Hd.
      assert (Hda : e_addr d <> brk s).
      { apply Hlt. rewrite !fmap_app. apply elem_of_app. right. apply elem_of_app. right.
        apply list_elem_of_fmap. eauto. }
      apply (detached_frame s); [eapply Forall_forall; [exact (rep_D _ _ _ _ Hrep)|exact Hd]| | |].
      * apply HN. unfold e_ptr. congruence.
      * apply HP. exact Hda.
      * apply HY. exact Hda.
  - assert (Hnd := rep_nodup _ _ _ _ Hrep).
    assert (Hperm : e_addr <$> (P ++ I ++ Entry (brk s) 0 0 0%float :: D)
                    ≡ₚ brk s :: (e_addr <$> (P ++ I ++ D))).
    { rewrite <- !Permutation_middle. reflexivity. }
    rewrite Hperm. apply NoDup_cons. split; [|exact Hnd].
    intros Hin. apply (Hlt _ Hin). reflexivity.
  - intros a Ha.
    assert (Hperm : e_addr <$> (P ++ I ++ Entry (brk s) 0 0 0%float :: D)
                    ≡ₚ brk s :: (e_addr <$> (P ++ I ++ D))).
    { rewrite <- !Permutation_middle. reflexivity. }
    rewrite Hperm. apply elem_of_cons.
    destruct (decide (a = brk s)) as [->|Hne]; [left; reflexivity|right].
    apply (rep_dom _ _ _ _ Hrep). simpl in Ha. rewrite lookup_insert_ne in Ha by congruence.
    exact Ha.
  - intros a Ha.
    assert (Hperm : e_addr <$> (P ++ I ++ Entry (brk s) 0 0 0%float :: D)
                    ≡ₚ brk s :: (e_addr <$> (P ++ I ++ D))).
    { rewrite <- !Permutation_middle. reflexivity. }
    rewrite Hperm in Ha. apply elem_of_cons in Ha as [->|Ha]; simpl; [lia|].
    apply (rep_brk _ _ _ _ Hrep) in Ha. lia.
Qed.

Lemma free_spec s P I e D :
  rep s P I (e :: D) ->
  exists s', free (e_ptr e) s = Ok tt s' /\
    rep s' P I D /\
    aux s' = (brk s, e_addr e :: freed s, ticks s, fired s) /\
    pay s' (e_addr e) = None /\
    (forall b, b <> e_addr e -> pay s' b = pay s b).
Proof.
  intros Hrep.
  assert (Hlive : is_Some (heap s !! e_addr e)).
  { apply heap_pay. rewrite (rep_live s P I (e :: D) e Hrep); [eauto|].
    rewrite !elem_of_app. right. right. apply list_elem_of_here. }
  destruct Hlive as [t Ht]. unfold free. simpl. rewrite Ht.
  eexists. split; [reflexivity|]. set (s' := State _ _ _ _ _ _ _).
  assert (HN : forall x, x <> e_ptr e -> nxt s' x = nxt s x).
  { intros [|[]|b] Hx; simpl; try reflexivity.
    rewrite lookup_delete_ne by (unfold e_ptr in Hx; congruence). reflexivity. }
  assert (HP : forall b, b <> e_addr e -> prv s' b = prv s b).
  { intros b Hb. unfold prv. simpl. rewrite lookup_delete_ne by congruence. reflexivity. }
  assert (HY : forall b, b <> e_addr e -> pay s' b = pay s b).
  { intros b Hb. unfold pay. simpl. rewrite lookup_delete_ne by congruence. reflexivity. }
  assert (Hnd := rep_nodup _ _ _ _ Hrep).
  assert (Hperm : e_addr <$> (P ++ I ++ e :: D) ≡ₚ e_addr e :: (e_addr <$> (P ++ I ++ D))).
  { rewrite <- !Permutation_middle. reflexivity. }
  rewrite Hperm in Hnd. apply NoDup_cons in Hnd as [He Hnd].
  assert (Hch : forall q l, q <> e_ptr e ->
            (forall a, a ∈ e_addr <$> l -> a ∈ e_addr <$> (P ++ I ++ D)) ->
            chain s q l -> chain s' q l).
  { intros q l Hq Hl Hc. apply (chain_frame s); [exact Hc| |].
    - intros x [->|Hx]; apply HN; [exact Hq|].
      apply list_elem_of_fmap in Hx as (y & -> & Hy). intros [= Heq].
      apply He. rewrite <- Heq. apply Hl. apply list_elem_of_fmap. eauto.
    - intros b Hb.
      assert (b <> e_addr e) by (intros ->; apply He, Hl, Hb).
      split; [apply HP|apply HY]; assumption. }
  split; [|split; [reflexivity|split; [|exact HY]]].
  - split.
    + apply Hch; [discriminate| |exact (rep_P _ _ _ _ Hrep)].
      intros a Ha. rewrite fmap_app. apply elem_of_app. left. exact Ha.
    + apply Hch; [discriminate| |exact (rep_I _ _ _ _ Hrep)].
      intros a Ha. rewrite !fmap_app. apply elem_of_app. right.
      apply elem_of_app. left. exact Ha.
    + assert (HD := rep_D _ _ _ _ Hrep). apply Forall_cons in HD as [_ HD].
      apply Forall_forall. intros d Hd.
      assert (Hda : e_addr d <> e_addr e).
      { intros Heq. apply He. rewrite <- Heq. rewrite !fmap_app.
        apply elem_of_app. right. apply elem_of_app. right.
        apply list_elem_of_fmap. eauto. }
      apply (detached_frame s); [eapply Forall_forall; [exact HD|exact Hd]| | |].
      * apply HN. unfold e_ptr. congruence.
      * apply HP. exact Hda.
      * apply HY. exact Hda.
    + exact Hnd.
    + intros a Ha. simpl in Ha.
      destruct (decide (a = e_addr e)) as [->|Hne].
      * rewrite lookup_delete_eq in Ha. destruct Ha; discriminate.
      * rewrite lookup_delete_ne in Ha by congruence.
        apply (rep_dom _ _ _ _ Hrep) in Ha. rewrite Hperm in Ha.
        apply elem_of_cons in Ha as [Ha|Ha]; [congruence|exact Ha].
    + intros a Ha. simpl. apply (rep_brk _ _ _ _ Hrep). rewrite Hperm.
      apply elem_of_cons. right. exact Ha.
  - unfold pay. simpl. rewrite lookup_delete_eq. reflexivity.
Qed.

(** ** [t_find] *)

Lemma t_find_from_spec s q l f d fuel :
  chain s q l ->
  (length l < fuel)%nat ->
  t_find_from fuel f d (head_ptr l) s = Ok (found (List.find (same_id f d) l)) s.
Proof.
  revert q fuel. induction l as [|x l IH]; intros q fuel Hc Hf.
  - destruct fuel as [|fuel]; [simpl in Hf; lia|]. reflexivity.
  - destruct fuel as [|fuel]; [simpl in Hf; lia|].
    destruct Hc as (H1 & H2 & H3 & H4). simpl.
    mstep (get_fn_ok _ _ _ H3). mstep (get_dat_ok _ _ _ H3). simpl.
    unfold same_id at 1. destruct ((e_fn x =? f) && (e_dat x =? d)); [reflexivity|].
    mstep (get_next_ok _ _ _ (chain_head _ _ _ H4)).
    apply (IH (e_ptr x)); [exact H4|]. simpl in Hf. lia.
Qed.

Lemma find_app {A} (p : A -> bool) (l1 l2 : list A) :
  List.find p (l1 ++ l2) =
  match List.find p l1 with Some x => Some x | None => List.find p l2 end.
Proof.
  induction l1 as [|x l1 IH]; simpl; [reflexivity|].
  destruct (p x); [reflexivity|exact IH].
Qed.

Lemma rep_timers s P I D : rep s P I D -> timers s = head_ptr P.
Proof. intros H. pose proof (chain_head _ _ _ (rep_P _ _ _ _ H)) as E. simpl in E. congruence. Qed.

Lemma rep_tmptimers s P I D : rep s P I D -> tmptimers s = head_ptr I.
Proof. intros H. pose proof (chain_head _ _ _ (rep_I _ _ _ _ H)) as E. simpl in E. congruence. Qed.

Lemma found_null o : is_null (found o) = match o with Some _ => false | None => true end.
Proof. destruct o; reflexivity. Qed.

Lemma t_find_spec s P I D f d :
  rep s P I D ->
  t_find f d s = Ok (found (List.find (same_id f d) (P ++ I))) s.
Proof.
  intros Hrep. unfold t_find, get_brk, get_timers, get_tmptimers.
  unfold bind at 1. unfold bind at 1.
  rewrite (rep_timers _ _ _ _ Hrep).
  rewrite (bind_ok _ _ _ _ _ (t_find_from_spec s _ P f d (S (brk s)) (rep_P _ _ _ _ Hrep)
             ltac:(pose proof (rep_length_P _ _ _ _ Hrep); lia))).
  rewrite found_null, find_app.
  destruct (List.find (same_id f d) P); [reflexivity|].
  unfold bind at 1. rewrite (rep_tmptimers _ _ _ _ Hrep).
  apply (t_find_from_spec s _ I f d (S (brk s)) (rep_I _ _ _ _ Hrep)).
  pose proof (rep_length_I _ _ _ _ Hrep). lia.
Qed.

(** ** Lists without, or with a retimed, record *)

Lemma drop_notin a (l : list entry) : a ∉ e_addr <$> l -> drop a l = l.
Proof.
  induction l as [|x l IH]; intros Ha; [reflexivity|].
  rewrite fmap_cons in Ha. apply not_elem_of_cons in Ha as [Hx Hl].
  unfold drop in *. rewrite filter_cons_True by congruence. rewrite IH by exact Hl.
  reflexivity.
Qed.

Lemma drop_at l1 e l2 :
  NoDup (e_addr <$> (l1 ++ e :: l2)) -> drop (e_addr e) (l1 ++ e :: l2) = l1 ++ l2.
Proof.
  intros Hnd. rewrite fmap_app, fmap_cons in Hnd.
  apply NoDup_app in Hnd as (_ & Hd & Hnd). apply NoDup_cons in Hnd as [He _].
  unfold drop. rewrite filter_app, filter_cons_False by (intros H; apply H; reflexivity).
  fold (drop (e_addr e) l1). fold (drop (e_addr e) l2).
  rewrite !drop_notin; [reflexivity|exact He|].
  intros H. apply (Hd _ H). apply list_elem_of_here.
Qed.

Lemma retime_addr a w l : e_addr <$> retime a w l = e_addr <$> l.
Proof.
  unfold retime. rewrite <- list_fmap_compose. apply list_fmap_ext.
  intros i x _. simpl. destruct (decide (e_addr x = a)); reflexivity.
Qed.

Lemma retime_notin a w (l : list entry) : a ∉ e_addr <$> l -> retime a w l = l.
Proof.
  induction l as [|x l IH]; intros Ha; [reflexivity|].
  rewrite fmap_cons in Ha. apply not_elem_of_cons in Ha as [Hx Hl].
  unfold retime in *. rewrite fmap_cons, IH by exact Hl.
  rewrite decide_False by congruence. reflexivity.
Qed.

Lemma retime_at w l1 e l2 :
  NoDup (e_addr <$> (l1 ++ e :: l2)) ->
  retime (e_addr e) w (l1 ++ e :: l2) = l1 ++ with_wakeup w e :: l2.
Proof.
  intros Hnd. rewrite fmap_app, fmap_cons in Hnd.
  apply NoDup_app in Hnd as (_ & Hd & Hnd). apply NoDup_cons in Hnd as [He _].
  unfold retime. rewrite fmap_app, fmap_cons. rewrite decide_True by reflexivity.
  fold (retime (e_addr e) w l1). fold (retime (e_addr e) w l2).
  rewrite !retime_notin; [reflexivity|exact He|].
  intros H. apply (Hd _ H). apply list_elem_of_here.
Qed.

Lemma drop_retime a w l : drop a (retime a w l) = drop a l.
Proof.
  induction l as [|x l IH]; [reflexivity|].
  unfold drop, retime in *. rewrite fmap_cons.
  destruct (decide (e_addr x = a)) as [Hx|Hx].
  - rewrite !filter_cons_False by (simpl; intros H; apply H; exact Hx). exact IH.
  - rewrite !filter_cons_True by exact Hx. rewrite IH. reflexivity.
Qed.

(** Where a record of the queue is. *)
Lemma rep_where s P I e :
  rep s P I [] -> e ∈ P ++ I ->
  (exists l1 l2, P = l1 ++ e :: l2 /\ e_addr e ∉ e_addr <$> I) \/
  (exists l1 l2, I = l1 ++ e :: l2 /\ e_addr e ∉ e_addr <$> P).
Proof.
  intros Hrep Hin. assert (Hnd := rep_nodup _ _ _ _ Hrep).
  rewrite app_nil_r, fmap_app in Hnd. apply NoDup_app in Hnd as (_ & Hd & _).
  apply elem_of_app in Hin as [H|H].
  - left. apply list_elem_of_split in H as (l1 & l2 & ->). exists l1, l2.
    split; [reflexivity|]. apply Hd. rewrite fmap_app, fmap_cons.
    apply elem_of_app. right. apply list_elem_of_here.
  - right. apply list_elem_of_split in H as (l1 & l2 & ->). exists l1, l2.
    split; [reflexivity|]. intros Hp. apply (Hd _ Hp). rewrite fmap_app, fmap_cons.
    apply elem_of_app. right. apply list_elem_of_here.
Qed.

Lemma rep_nodup_P s P I D : rep s P I D -> NoDup (e_addr <$> P).
Proof.
  intros H. assert (Hnd := rep_nodup _ _ _ _ H). rewrite fmap_app in Hnd.
  apply NoDup_app in Hnd as [Hn _]. exact Hn.
Qed.

Lemma rep_nodup_I s P I D : rep s P I D -> NoDup (e_addr <$> I).
Proof.
  intros H. assert (Hnd := rep_nodup _ _ _ _ H). rewrite !fmap_app in Hnd.
  apply NoDup_app in Hnd as (_ & _ & Hn). apply NoDup_app in Hn as [Hn _]. exact Hn.
Qed.

(** [t_add_sorted] of a record of the queue. *)
Lemma rep_arm s P I e :
  rep s P I [] -> e ∈ P ++ I ->
  exists s', t_add_sorted (e_ptr e) (FAKE TIMERS) s = Ok tt s' /\
    rep s' (insert_sorted e (drop (e_addr e) P)) (drop (e_addr e) I) [] /\
    aux s' = aux s.
Proof.
  intros Hrep Hin.
  destruct (rep_where _ _ _ _ Hrep Hin) as [(l1 & l2 & -> & Hn)|(l1 & l2 & -> & Hn)].
  - rewrite (drop_at _ _ _ (rep_nodup_P _ _ _ _ Hrep)), (drop_notin _ _ Hn).
    destruct (rep_arm_P _ _ _ _ _ _ Hrep) as (s' & R & Hrep' & _ & HA). eauto.
  - rewrite (drop_at _ _ _ (rep_nodup_I _ _ _ _ Hrep)), (drop_notin _ _ Hn).
    destruct (rep_arm_I _ _ _ _ _ _ Hrep) as (s' & R & Hrep' & _ & HA). eauto.
Qed.

(** [t->wakeup = w] for a record of the queue. *)
Lemma rep_retime s P I e w :
  rep s P I [] -> e ∈ P ++ I ->
  exists s', set_wakeup (e_ptr e) w s = Ok tt s' /\
    rep s' (retime (e_addr e) w P) (retime (e_addr e) w I) [] /\
    with_wakeup w e ∈ retime (e_addr e) w P ++ retime (e_addr e) w I /\
    aux s' = aux s.
Proof.
  intros Hrep Hin.
  destruct (set_wakeup_spec s (e_addr e) w) as (s' & R & HN & HP & HY & HA).
  { rewrite (rep_live _ _ _ _ _ Hrep); [eauto|]. rewrite app_nil_r. exact Hin. }
  exists s'. split; [exact R|].
  destruct (rep_where _ _ _ _ Hrep Hin) as [(l1 & l2 & -> & Hn)|(l1 & l2 & -> & Hn)].
  - rewrite (retime_at _ _ _ _ (rep_nodup_P _ _ _ _ Hrep)), (retime_notin _ _ _ Hn).
    split; [|split; [|exact HA]].
    + apply (rep_pay_P s s' e (with_wakeup w e) (fun y => (y.1.1, y.1.2, w))); auto.
    + rewrite !elem_of_app. left. right. apply list_elem_of_here.
  - rewrite (retime_at _ _ _ _ (rep_nodup_I _ _ _ _ Hrep)), (retime_notin _ _ _ Hn).
    split; [|split; [|exact HA]].
    + apply (rep_pay_I s s' e (with_wakeup w e) (fun y => (y.1.1, y.1.2, w))); auto.
    + rewrite !elem_of_app. right. right. apply list_elem_of_here.
Qed.

(** ** The exported functions compute on the lists *)

Lemma bind_bind {St A B C} (m : St -> res St A) (f : A -> St -> res St B)
    (g : B -> St -> res St C) s :
  bind (bind m f) g s = bind m (fun a => bind (f a) g) s.
Proof. unfold bind. destruct (m s); reflexivity. Qed.

Lemma bind_ret {St A B} (a : A) (f : A -> St -> res St B) s :
  bind (ret a) f s = f a s.
Proof. reflexivity. Qed.

Lemma refines_ret {A} (a : A) : refines (ret a) (ret a).
Proof. intros s q H. simpl. eauto. Qed.

Lemma refines_bind {A B} (m : M A) (mq : MQ A) (f : A -> M B) (fq : A -> MQ B) :
  refines m mq -> (forall a, refines (f a) (fq a)) ->
  refines (bind m f) (bind mq fq).
Proof.
  intros Hm Hf s q H. specialize (Hm s q H). unfold bind at 1.
  destruct (mq q) as [a q'| |].
  - destruct Hm as (s' & R & H'). mstep R. apply Hf. exact H'.
  - unfold bind. rewrite Hm. reflexivity.
  - unfold bind. rewrite Hm. reflexivity.
Qed.

Lemma rep_ext s s' P I D :
  heap s' = heap s -> timers s' = timers s -> tmptimers s' = tmptimers s ->
  brk s' = brk s ->
  rep s P I D -> rep s' P I D.
Proof.
  intros Hh Ht Htt Hb Hrep.
  assert (HN : forall x, nxt s' x = nxt s x).
  { intros [|[]|a]; simpl; congruence. }
  assert (HP : forall b, prv s' b = prv s b) by (intros b; unfold prv; congruence).
  assert (HY : forall b, pay s' b = pay s b) by (intros b; unfold pay; congruence).
  eapply rep_transfer; eauto using pay_live.
  - apply (chain_same s); auto. apply Hrep.
  - apply (chain_same s); auto. exact (rep_I _ _ _ _ Hrep).
  - apply Forall_forall. intros d Hd. apply (detached_frame s); auto.
    eapply Forall_forall; [exact (rep_D _ _ _ _ Hrep)|exact Hd].
Qed.

Section Refinement.

Variable W : world.

Lemma now_spec s P I D :
  rep s P I D ->
  exists s', libt_now W s = Ok (clock W (ticks s)) s' /\
    rep s' P I D /\
    aux s' = (brk s, freed s, S (ticks s), fired s).
Proof.
  intros Hrep. eexists. split; [reflexivity|]. split; [|reflexivity].
  eapply rep_ext; [..|exact Hrep]; reflexivity.
Qed.

Lemma refines_now : refines (libt_now W) (q_now W).
Proof.
  intros s q [Hrep Haux]. unfold q_now.
  destruct (now_spec _ _ _ _ Hrep) as (s' & R & Hrep' & HA).
  injection Haux as Hb Hf Ht Hfi.
  exists s'. rewrite <- Ht. split; [exact R|]. split; [exact Hrep'|].
  rewrite HA. unfold q_aux. simpl. congruence.
Qed.

Lemma rep_set_fn_D s P I e D v :
  rep s P I (e :: D) ->
  exists s', set_fn (e_ptr e) v s = Ok tt s' /\
    rep s' P I (Entry (e_addr e) v (e_dat e) (e_wakeup e) :: D) /\
    aux s' = aux s.
Proof.
  intros Hrep.
  destruct (set_fn_spec s (e_addr e) v) as (s' & R & HN & HP & HY & HA).
  { rewrite (rep_live _ _ _ _ e Hrep); [eauto|].
    rewrite !elem_of_app. right. right. apply list_elem_of_here. }
  exists s'. split; [exact R|]. split; [|exact HA].
  apply (rep_pay_D s s' e _ (fun y => (v, y.1.2, y.2))); auto.
Qed.

Lemma rep_set_dat_D s P I e D v :
  rep s P I (e :: D) ->
  exists s', set_dat (e_ptr e) v s = Ok tt s' /\
    rep s' P I (Entry (e_addr e) (e_fn e) v (e_wakeup e) :: D) /\
    aux s' = aux s.
Proof.
  intros Hrep.
  destruct (set_dat_spec s (e_addr e) v) as (s' & R & HN & HP & HY & HA).
  { rewrite (rep_live _ _ _ _ e Hrep); [eauto|].
    rewrite !elem_of_app. right. right. apply list_elem_of_here. }
  exists s'. split; [exact R|]. split; [|exact HA].
  apply (rep_pay_D s s' e _ (fun y => (y.1.1, v, y.2))); auto.
Qed.

Lemma rep_set_wakeup_D s P I e D v :
  rep s P I (e :: D) ->
  exists s', set_wakeup (e_ptr e) v s = Ok tt s' /\
    rep s' P I (with_wakeup v e :: D) /\
    aux s' = aux s.
Proof.
  intros Hrep.
  destruct (set_wakeup_spec s (e_addr e) v) as (s' & R & HN & HP & HY & HA).
  { rewrite (rep_live _ _ _ _ e Hrep); [eauto|].
    rewrite !elem_of_app. right. right. apply list_elem_of_here. }
  exists s'. split; [exact R|]. split; [|exact HA].
  apply (rep_pay_D s s' e _ (fun y => (y.1.1, y.1.2, v))); auto.
Qed.

Lemma find_in f d l e : List.find (same_id f d) l = Some e -> e ∈ l.
Proof. intros H. apply find_some in H as [H _]. apply list_elem_of_In. exact H. Qed.

Lemma retime_retime a w1 w2 l : retime a w2 (retime a w1 l) = retime a w2 l.
Proof.
  unfold retime. rewrite <- list_fmap_compose. apply list_fmap_ext.
  intros i x _. simpl. destruct (decide (e_addr x = a)) as [Hx|Hx]; simpl.
  - rewrite decide_True by exact Hx. reflexivity.
  - rewrite decide_False by exact Hx. reflexivity.
Qed.

Lemma rep_fresh s P I D (l : list entry) :
  rep s P I D -> (forall x, x ∈ l -> x ∈ P ++ I ++ D) -> brk s ∉ e_addr <$> l.
Proof.
  intros Hrep Hl Hin. apply list_elem_of_fmap in Hin as (y & Hy & Hin).
  assert (e_addr y < brk s)%nat; [|lia].
  apply (rep_brk _ _ _ _ Hrep). apply list_elem_of_fmap. eauto.
Qed.

(** The tail of [libt_add_timeoutx] for a timer that exists: the record
    [e], with its new wakeup time [w] already stored, is sorted in. *)
Lemma arm_existing s q e w :
  rep s (retime (e_addr e) w (q_pending q)) (retime (e_addr e) w (q_inflight q)) [] ->
  e ∈ q_pending q ++ q_inflight q ->
  aux s = q_aux q ->
  exists s', (t_add_sorted (e_ptr e) (FAKE TIMERS);; ret 0) s = Ok 0 s' /\
    holds s' (Queue (insert_sorted (with_wakeup w e) (drop (e_addr e) (q_pending q)))
                    (drop (e_addr e) (q_inflight q))
                    (q_brk q) (q_freed q) (q_ticks q) (q_fired q)).
Proof.
  intros Hrep Hin Haux.
  assert (Hin' : with_wakeup w e ∈ retime (e_addr e) w (q_pending q)
                                   ++ retime (e_addr e) w (q_inflight q)).
  { unfold retime. rewrite <- fmap_app. apply list_elem_of_fmap.
    exists e. split; [|exact Hin]. rewrite decide_True by reflexivity. reflexivity. }
  destruct (rep_arm _ _ _ _ Hrep Hin') as (s' & R & Hrep' & HA).
  exists s'. split; [change (e_ptr e) with (e_ptr (with_wakeup w e)); mstep R; reflexivity|].
  simpl in Hrep'. rewrite !drop_retime in Hrep'.
  split; [exact Hrep'|]. rewrite HA. exact Haux.
Qed.

Lemma refines_add_new s q w f d flags :
  holds s q ->
  q_find f d q = None ->
  has flags LIBT_ADD = true ->
  match (a <- q_alloc;
         w' <- (if has flags (Z.lor LIBT_RELATIVE LIBT_REPEAT)
                then now <- q_now W; ret (w + now)%float
                else ret w);
         q_arm (Entry a f d w');; ret 0) q with
  | Ok r q' =>
      exists s',
        (t <- malloc0;
         r0 <- (set_fn t f;;
                set_dat t d;;
                wakeuptime <- (if has flags (Z.lor LIBT_RELATIVE LIBT_REPEAT)
                               then now <- libt_now W; ret (w + now)%float
                               else ret w);
                set_wakeup t wakeuptime;;
                ret (inr t));
         match r0 with
         | inl e => ret e
         | inr t => t_add_sorted t (FAKE TIMERS);; ret 0
         end) s = Ok r s' /\ holds s' q'
  | _ => False
  end.
Proof.
  intros [Hrep Haux] Hfind Hadd.
  injection Haux as Hb Hf Ht Hfi.
  destruct (malloc0_spec _ _ _ _ Hrep) as (s1 & R1 & Hrep1 & HA1).
  mstep R1. set (e0 := Entry (brk s) 0 0 0%float) in *.
  destruct (rep_set_fn_D _ _ _ _ _ f Hrep1) as (s2 & R2 & Hrep2 & HA2).
  rewrite ?bind_bind. mstep R2.
  destruct (rep_set_dat_D _ _ _ _ _ d Hrep2) as (s3 & R3 & Hrep3 & HA3).
  rewrite ?bind_bind. mstep R3. simpl in Hrep3.
  assert (Hfresh1 : brk s ∉ e_addr <$> q_pending q).
  { apply (rep_fresh _ _ _ _ _ Hrep). intros x Hx. apply elem_of_app. auto. }
  assert (Hfresh2 : brk s ∉ e_addr <$> q_inflight q).
  { apply (rep_fresh _ _ _ _ _ Hrep). intros x Hx. rewrite !elem_of_app. auto. }
  unfold q_alloc. unfold bind at 1.
  destruct (has flags (Z.lor LIBT_RELATIVE LIBT_REPEAT)).
  - destruct (now_spec _ _ _ _ Hrep3) as (s4 & R4 & Hrep4 & HA4).
    rewrite ?bind_bind. mstep R4. rewrite ?bind_ret.
    destruct (rep_set_wakeup_D _ _ _ _ _ (w + clock W (ticks s3))%float Hrep4)
      as (s5 & R5 & Hrep5 & HA5).
    rewrite ?bind_bind. mstep R5. rewrite ?bind_ret.
    destruct (rep_arm_D _ _ _ _ _ Hrep5) as (s6 & R6 & Hrep6 & _ & HA6).
    mstep R6. unfold with_wakeup in Hrep6. simpl in Hrep6.
    assert (Ht3 : ticks s3 = q_ticks q).
    { unfold aux in *. congruence. }
    rewrite Ht3 in *.
    simpl. rewrite <- Hb. rewrite !drop_notin by assumption.
    eexists. split; [reflexivity|]. split; [exact Hrep6|].
    rewrite HA6, HA5, HA4. unfold q_aux, aux in *. simpl. congruence.
  - rewrite ?bind_bind, ?bind_ret.
    destruct (rep_set_wakeup_D _ _ _ _ _ w Hrep3) as (s5 & R5 & Hrep5 & HA5).
    rewrite ?bind_bind. mstep R5. rewrite ?bind_ret.
    destruct (rep_arm_D _ _ _ _ _ Hrep5) as (s6 & R6 & Hrep6 & _ & HA6).
    mstep R6. unfold with_wakeup in Hrep6. simpl in Hrep6.
    simpl. rewrite <- Hb. rewrite !drop_notin by assumption.
    eexists. split; [reflexivity|]. split; [exact Hrep6|].
    rewrite HA6, HA5. unfold q_aux, aux in *. simpl. congruence.
Qed.

Lemma refines_add_existing s q e w flags :
  holds s q ->
  e ∈ q_pending q ++ q_inflight q ->
  match (w' <- (if has flags LIBT_REPEAT then
                  now <- q_now W;
                  let w' := (e_wakeup e + w)%float in
                  ret (if (w' <? now)%float then (now + w)%float else w')
                else if has flags LIBT_RELATIVE then
                  now <- q_now W; ret (w + now)%float
                else ret w);
         q_arm (with_wakeup w' e);; ret 0) q with
  | Ok r q' =>
      exists s',
        (r0 <- ((if has flags LIBT_REPEAT then
                   now <- libt_now W;
                   w0 <- get_wakeup (e_ptr e);
                   set_wakeup (e_ptr e) (w0 + w)%float;;
                   w' <- get_wakeup (e_ptr e);
                   if (w' <? now)%float
                   then set_wakeup (e_ptr e) (now + w)%float
                   else ret tt
                 else if has flags LIBT_RELATIVE then
                   now <- libt_now W;
                   set_wakeup (e_ptr e) (w + now)%float
                 else
                   set_wakeup (e_ptr e) w);;
                ret (inr (e_ptr e)));
         match r0 with
         | inl e => ret e
         | inr t => t_add_sorted t (FAKE TIMERS);; ret 0
         end) s = Ok r s' /\ holds s' q'
  | _ => False
  end.
Proof.
  intros [Hrep Haux] Hin.
  assert (Haux0 := Haux). injection Haux as Hb Hf Ht Hfi.
  destruct (has flags LIBT_REPEAT); [|destruct (has flags LIBT_RELATIVE)].
  - destruct (now_spec _ _ _ _ Hrep) as (s1 & R1 & Hrep1 & HA1).
    assert (Hq : forall k : float -> MQ Z,
               (w' <- (now <- q_now W;
                       ret (if (e_wakeup e + w <? now)%float
                            then (now + w)%float else (e_wakeup e + w)%float));
                k w') q
               = k (if (e_wakeup e + w <? clock W (ticks s))%float
                    then (clock W (ticks s) + w)%float else (e_wakeup e + w)%float)
                   (Queue (q_pending q) (q_inflight q) (q_brk q) (q_freed q)
                          (S (ticks s)) (q_fired q))).
    { intros k. rewrite Ht. reflexivity. }
    rewrite Hq. clear Hq.
    rewrite ?bind_bind. mstep R1.
    assert (Hpay : pay s1 (e_addr e) = Some (e_pay e)).
    { apply (rep_live _ _ _ _ _ Hrep1). rewrite app_nil_r. exact Hin. }
    rewrite ?bind_bind. mstep (get_wakeup_ok _ _ _ Hpay).
    change ((e_pay e).2) with (e_wakeup e).
    destruct (rep_retime _ _ _ _ (e_wakeup e + w)%float Hrep1 Hin)
      as (s2 & R2 & Hrep2 & Hin2 & HA2).
    rewrite ?bind_bind. mstep R2.
    assert (Hpay2 : pay s2 (e_addr e)
                    = Some (e_pay (with_wakeup (e_wakeup e + w)%float e))).
    { apply (rep_live _ _ _ _ (with_wakeup (e_wakeup e + w)%float e) Hrep2).
      rewrite app_nil_r. exact Hin2. }
    rewrite ?bind_bind. mstep (get_wakeup_ok _ _ _ Hpay2).
    change ((e_pay (with_wakeup (e_wakeup e + w)%float e)).2)
      with (e_wakeup e + w)%float.
    destruct (e_wakeup e + w <? clock W (ticks s))%float.
    + destruct (rep_retime _ _ _ _ (clock W (ticks s) + w)%float Hrep2 Hin2)
        as (s3 & R3 & Hrep3 & Hin3 & HA3).
      change (e_addr (with_wakeup (e_wakeup e + w)%float e)) with (e_addr e) in Hrep3.
      change (e_ptr (with_wakeup (e_wakeup e + w)%float e)) with (e_ptr e) in R3.
      rewrite !retime_retime in Hrep3.
      rewrite ?bind_bind. mstep R3. rewrite ?bind_ret.
      destruct (arm_existing s3
                  (Queue (q_pending q) (q_inflight q) (q_brk q) (q_freed q)
                         (S (ticks s)) (q_fired q)) e _ Hrep3 Hin)
        as (s4 & R4 & H4).
      { rewrite HA3, HA2, HA1. unfold q_aux. simpl. congruence. }
      exists s4. split; [exact R4|exact H4].
    + rewrite ?bind_bind, ?bind_ret.
      destruct (arm_existing s2
                  (Queue (q_pending q) (q_inflight q) (q_brk q) (q_freed q)
                         (S (ticks s)) (q_fired q)) e _ Hrep2 Hin)
        as (s4 & R4 & H4).
      { rewrite HA2, HA1. unfold q_aux. simpl. congruence. }
      exists s4. split; [exact R4|exact H4].
  - destruct (now_spec _ _ _ _ Hrep) as (s1 & R1 & Hrep1 & HA1).
    assert (Hq : forall k : float -> MQ Z,
               (w' <- (now <- q_now W; ret (w + now)%float); k w') q
               = k (w + clock W (ticks s))%float
                   (Queue (q_pending q) (q_inflight q) (q_brk q) (q_freed q)
                          (S (ticks s)) (q_fired q))).
    { intros k. rewrite Ht. reflexivity. }
    rewrite Hq. clear Hq.
    rewrite ?bind_bind. mstep R1.
    destruct (rep_retime _ _ _ _ (w + clock W (ticks s))%float Hrep1 Hin)
      as (s2 & R2 & Hrep2 & Hin2 & HA2).
    mstep R2. rewrite ?bind_ret.
    destruct (arm_existing s2
                (Queue (q_pending q) (q_inflight q) (q_brk q) (q_freed q)
                       (S (ticks s)) (q_fired q)) e _ Hrep2 Hin)
      as (s4 & R4 & H4).
    { rewrite HA2, HA1. unfold q_aux. simpl. congruence. }
    exists s4. split; [exact R4|exact H4].
  - rewrite ?(bind_ret w).
    destruct (rep_retime _ _ _ _ w Hrep Hin) as (s2 & R2 & Hrep2 & Hin2 & HA2).
    rewrite ?bind_bind. mstep R2. rewrite ?bind_ret.
    destruct (arm_existing s2 q e _ Hrep2 Hin) as (s4 & R4 & H4).
    { rewrite HA2. exact Haux0. }
    exists s4. split; [exact R4|exact H4].
Qed.

Lemma refines_add w f d flags :
  refines (libt_add_timeoutx W w f d flags) (q_add_timeoutx W w f d flags).
Proof.
  intros s q Hh. assert (Hrep := proj1 Hh).
  unfold libt_add_timeoutx, add_timeoutx_prepare, q_add_timeoutx.
  destruct (Double.isnan w); [simpl; eauto|].
  rewrite ?bind_bind. mstep (t_find_spec _ _ _ _ f d Hrep).
  unfold q_find. destruct (List.find _ _) as [e|] eqn:Hfind; simpl.
  - destruct (has flags LIBT_MOD); simpl; [|eauto].
    pose proof (refines_add_existing s q e w flags Hh (find_in _ _ _ _ Hfind)) as H.
    revert H.
    match goal with
    | |- match ?x with _ => _ end -> _ => destruct x; [intros H; exact H|intros []..]
    end.
  - destruct (has flags LIBT_ADD) eqn:Hadd; simpl; [|eauto].
    pose proof (refines_add_new s q w f d flags Hh Hfind Hadd) as H.
    revert H.
    match goal with
    | |- match ?x with _ => _ end -> _ => destruct x; [intros H|intros []..]
    end.
    destruct H as (s' & R & H'). exists s'. split; [|exact H'].
    rewrite bind_bind. exact R.
Qed.

Lemma refines_remove f d :
  refines (libt_remove_timeout f d) (q_remove_timeout f d).
Proof.
  intros s q [Hrep Haux]. unfold libt_remove_timeout, q_remove_timeout.
  mstep (t_find_spec _ _ _ _ f d Hrep). unfold q_find.
  destruct (List.find _ _) as [e|] eqn:Hfind; simpl; [|exists s; split; [reflexivity|split; assumption]].
  apply find_in in Hfind.
  injection Haux as Hb Hf Ht Hfi.
  destruct (rep_where _ _ _ _ Hrep Hfind) as [(l1 & l2 & HP & Hn)|(l1 & l2 & HI & Hn)].
  - rewrite HP in Hrep. rewrite HP.
    rewrite (drop_at _ _ _ (rep_nodup_P _ _ _ _ Hrep)), (drop_notin _ _ Hn).
    destruct (rep_del_P _ _ _ _ _ _ Hrep) as (s1 & R1 & Hrep1 & _ & HA1).
    mstep R1.
    destruct (free_spec _ _ _ _ _ Hrep1) as (s2 & R2 & Hrep2 & HA2 & _).
    exists s2. split; [exact R2|]. split; [exact Hrep2|].
    rewrite HA2. unfold q_aux, aux in *. simpl. congruence.
  - rewrite HI in Hrep. rewrite HI.
    rewrite (drop_at _ _ _ (rep_nodup_I _ _ _ _ Hrep)), (drop_notin _ _ Hn).
    destruct (rep_del_I _ _ _ _ _ _ Hrep) as (s1 & R1 & Hrep1 & _ & HA1).
    mstep R1.
    destruct (free_spec _ _ _ _ _ Hrep1) as (s2 & R2 & Hrep2 & HA2 & _).
    exists s2. split; [exact R2|]. split; [exact Hrep2|].
    rewrite HA2. unfold q_aux, aux in *. simpl. congruence.
Qed.

Lemma refines_exist f d :
  refines (libt_timeout_exist f d) (q_timeout_exist f d).
Proof.
  intros s q [Hrep Haux]. unfold libt_timeout_exist, q_timeout_exist.
  mstep (t_find_spec _ _ _ _ f d Hrep). unfold q_find, ret.
  exists s. rewrite found_null.
  destruct (List.find _ _); (split; [reflexivity|split; assumption]).
Qed.

Lemma refines_next_wakeup : refines libt_next_wakeup q_next_wakeup.
Proof.
  intros s q [Hrep Haux]. unfold libt_next_wakeup, q_next_wakeup.
  mstep (eq_refl : get_timers s = Ok (timers s) s). rewrite (rep_timers _ _ _ _ Hrep).
  destruct (q_pending q) as [|e P] eqn:HP; simpl.
  - exists s. split; [reflexivity|]. split; [rewrite HP; exact Hrep|exact Haux].
  - exists s. split.
    + apply (get_wakeup_ok s (e_addr e) (e_pay e)).
      apply (rep_live _ _ _ _ _ Hrep). apply list_elem_of_here.
    + split; [rewrite HP; exact Hrep|exact Haux].
Qed.

Lemma refines_get_waittime : refines (libt_get_waittime W) (q_get_waittime W).
Proof.
  intros s q [Hrep Haux]. unfold libt_get_waittime, q_get_waittime.
  mstep (eq_refl : get_timers s = Ok (timers s) s). rewrite (rep_timers _ _ _ _ Hrep).
  destruct (q_pending q) as [|e P] eqn:HP.
  - simpl. exists s. split; [reflexivity|]. split; [rewrite HP; exact Hrep|exact Haux].
  - cbn [head_ptr is_null e_ptr].
    assert (Hpay : pay s (e_addr e) = Some (e_pay e)).
    { apply (rep_live _ _ _ _ _ Hrep). apply list_elem_of_here. }
    mstep (get_wakeup_ok _ _ _ Hpay). change ((e_pay e).2) with (e_wakeup e).
    assert (Hh : holds s q) by (split; [rewrite HP; exact Hrep|exact Haux]).
    pose proof (refines_now s q Hh) as Hnow. unfold q_now in Hnow.
    destruct Hnow as (s1 & R1 & H1).
    mstep R1. unfold q_now. unfold bind at 1.
    destruct ((e_wakeup e - clock W (q_ticks q)) * 1000 <=? 0)%float;
      [exists s1; split; [reflexivity|exact H1]|].
    destruct (Double.of_Z MAXRESULT <? (e_wakeup e - clock W (q_ticks q)) * 1000)%float;
      [exists s1; split; [reflexivity|exact H1]|].
    unfold int_of_double.
    destruct (Double.to_Z _) as [z|]; [|reflexivity].
    destruct ((INT_MIN <=? z) && (z <=? INT_MAX)); [|reflexivity].
    exists s1. split; [reflexivity|exact H1].
Qed.

Lemma refines_run p : refines (run W p) (q_run W p).
Proof.
  induction p as [|w f d flags k IH|f d k IH|f d k IH|k IH|k IH|k IH]; simpl.
  - apply refines_ret.
  - apply refines_bind; [apply refines_add|exact IH].
  - apply refines_bind; [apply refines_remove|intros _; exact IH].
  - apply refines_bind; [apply refines_exist|exact IH].
  - apply refines_bind; [apply refines_next_wakeup|exact IH].
  - apply refines_bind; [apply refines_get_waittime|exact IH].
  - apply refines_bind; [apply refines_now|exact IH].
Qed.

Lemma refines_fire s q e P :
  holds s q ->
  q_pending q = e :: P ->
  match q_fire W e q with
  | Ok a q' =>
      exists s',
        (t_add (e_ptr e) (FAKE TMPTIMERS);;
         f <- get_fn (e_ptr e);
         d <- get_dat (e_ptr e);
         invoke W f d) s = Ok a s' /\ holds s' q'
  | Fault =>
      (t_add (e_ptr e) (FAKE TMPTIMERS);;
       f <- get_fn (e_ptr e);
       d <- get_dat (e_ptr e);
       invoke W f d) s = Fault
  | Timeout =>
      (t_add (e_ptr e) (FAKE TMPTIMERS);;
       f <- get_fn (e_ptr e);
       d <- get_dat (e_ptr e);
       invoke W f d) s = Timeout
  end.
Proof.
  intros [Hrep Haux] HP. rewrite HP in Hrep.
  assert (Hn : e_addr e ∉ e_addr <$> q_inflight q).
  { assert (Hnd := rep_nodup _ _ _ _ Hrep). rewrite app_nil_r, fmap_app in Hnd.
    apply NoDup_app in Hnd as (_ & Hd & _). apply Hd. rewrite fmap_cons.
    apply list_elem_of_here. }
  destruct (rep_move s [] e P _ _ Hrep) as (s1 & R1 & Hrep1 & HY1 & HA1).
  mstep R1.
  assert (Hpay : pay s1 (e_addr e) = Some (e_pay e)).
  { apply (rep_live _ _ _ _ _ Hrep1). rewrite !elem_of_app. right. left.
    apply list_elem_of_here. }
  mstep (get_fn_ok _ _ _ Hpay). mstep (get_dat_ok _ _ _ Hpay).
  change ((e_pay e).1.1) with (e_fn e). change ((e_pay e).1.2) with (e_dat e).
  set (s2 := State (timers s1) (tmptimers s1) (heap s1) (brk s1) (freed s1)
                   (ticks s1) (fired s1 ++ [(e_fn e, e_dat e)])).
  set (q2 := Queue (drop (e_addr e) (q_pending q))
                   (e :: drop (e_addr e) (q_inflight q))
                   (q_brk q) (q_freed q) (q_ticks q)
                   (q_fired q ++ [(e_fn e, e_dat e)])).
  change (invoke W (e_fn e) (e_dat e) s1) with (run W (code W (e_fn e) (e_dat e)) s2).
  change (q_fire W e q) with (q_run W (code W (e_fn e) (e_dat e)) q2).
  apply (refines_run _ s2 q2). split.
  - unfold q2. cbn [q_pending q_inflight]. rewrite HP.
    change (e :: P) with ([] ++ e :: P).
    rewrite (drop_at [] e P (rep_nodup_P _ _ _ _ Hrep)), (drop_notin _ _ Hn).
    eapply rep_ext; [..|exact Hrep1]; reflexivity.
  - injection Haux as Hb Hf Ht Hfi. injection HA1 as Hb1 Hf1 Ht1 Hfi1.
    unfold aux, q_aux. simpl. congruence.
Qed.

Lemma refines_bind_at {A B} (m : M A) (mq : MQ A) (f : A -> M B) (fq : A -> MQ B) s q :
  match mq q with
  | Ok a q' => exists s', m s = Ok a s' /\ holds s' q'
  | Fault => m s = Fault
  | Timeout => m s = Timeout
  end ->
  (forall a, refines (f a) (fq a)) ->
  match bind mq fq q with
  | Ok b q' => exists s', bind m f s = Ok b s' /\ holds s' q'
  | Fault => bind m f s = Fault
  | Timeout => bind m f s = Timeout
  end.
Proof.
  intros Hm Hf. unfold bind at 1.
  destruct (mq q) as [a q'| |].
  - destruct Hm as (s' & R & H'). mstep R. apply Hf. exact H'.
  - unfold bind. rewrite Hm. reflexivity.
  - unfold bind. rewrite Hm. reflexivity.
Qed.

Lemma dispatch_step s q e P (k : M Z) (kq : MQ Z) :
  holds s q ->
  q_pending q = e :: P ->
  refines k kq ->
  match (q_fire W e;; kq) q with
  | Ok a q' =>
      exists s',
        (t_add (e_ptr e) (FAKE TMPTIMERS);;
         f <- get_fn (e_ptr e);
         d <- get_dat (e_ptr e);
         invoke W f d;; k) s = Ok a s' /\ holds s' q'
  | Fault =>
      (t_add (e_ptr e) (FAKE TMPTIMERS);;
       f <- get_fn (e_ptr e);
       d <- get_dat (e_ptr e);
       invoke W f d;; k) s = Fault
  | Timeout =>
      (t_add (e_ptr e) (FAKE TMPTIMERS);;
       f <- get_fn (e_ptr e);
       d <- get_dat (e_ptr e);
       invoke W f d;; k) s = Timeout
  end.
Proof.
  intros Hh HP Hk.
  assert (E : (t_add (e_ptr e) (FAKE TMPTIMERS);;
               f <- get_fn (e_ptr e);
               d <- get_dat (e_ptr e);
               invoke W f d;; k) s
              = ((t_add (e_ptr e) (FAKE TMPTIMERS);;
                  f <- get_fn (e_ptr e);
                  d <- get_dat (e_ptr e);
                  invoke W f d);; k) s).
  { unfold bind.
    destruct (t_add _ _ s) as [? s2| |]; try reflexivity.
    destruct (get_fn _ s2) as [? s3| |]; try reflexivity.
    destruct (get_dat _ s3) as [? s4| |]; reflexivity. }
  rewrite E.
  apply (refines_bind_at _ (q_fire W e) (fun _ => k) (fun _ => kq)).
  - exact (refines_fire s q e P Hh HP).
  - intros _. exact Hk.
Qed.

Lemma refines_dispatch fuel now cnt :
  refines (dispatch W fuel now cnt) (q_dispatch W fuel now cnt).
Proof.
  revert cnt. induction fuel as [|fuel IH]; intros cnt s q Hh; [reflexivity|].
  assert (Hrep := proj1 Hh). cbn [dispatch q_dispatch].
  mstep (eq_refl : get_timers s = Ok (timers s) s).
  rewrite (rep_timers _ _ _ _ Hrep).
  destruct (q_pending q) as [|e P] eqn:HP; [simpl; eauto|].
  cbn [head_ptr is_null e_ptr].
  assert (Hpay : pay s (e_addr e) = Some (e_pay e)).
  { apply (rep_live _ _ _ _ _ Hrep). rewrite ?HP. apply list_elem_of_here. }
  mstep (get_wakeup_ok _ _ _ Hpay). change ((e_pay e).2) with (e_wakeup e).
  destruct (now <? e_wakeup e)%float; [simpl; eauto|].
  exact (dispatch_step s q e P _ _ Hh HP (IH (cnt + 1))).
Qed.

Lemma sweep_spec fuel s P I :
  rep s P I [] ->
  (length I < fuel)%nat ->
  exists s', sweep fuel s = Ok tt s' /\
    rep s' P [] [] /\
    aux s' = (brk s, rev (e_addr <$> I) ++ freed s, ticks s, fired s).
Proof.
  revert s I. induction fuel as [|fuel IH]; intros s I Hrep Hf; [lia|].
  cbn [sweep]. mstep (eq_refl : get_tmptimers s = Ok (tmptimers s) s).
  rewrite (rep_tmptimers _ _ _ _ Hrep).
  destruct I as [|e I].
  - simpl. exists s. split; [reflexivity|]. split; [exact Hrep|reflexivity].
  - cbn [head_ptr is_null e_ptr].
    destruct (rep_del_I s P [] e I [] Hrep) as (s1 & R1 & Hrep1 & _ & HA1).
    mstep R1.
    destruct (free_spec _ _ _ _ _ Hrep1) as (s2 & R2 & Hrep2 & HA2 & _).
    mstep R2.
    destruct (IH s2 I Hrep2) as (s3 & R3 & Hrep3 & HA3); [simpl in Hf; lia|].
    exists s3. split; [exact R3|]. split; [exact Hrep3|].
    rewrite HA3. injection HA2 as Hb2 Hf2 Ht2 Hfi2. injection HA1 as Hb1 Hf1 Ht1 Hfi1.
    rewrite fmap_cons. simpl. rewrite <- app_assoc. simpl.
    congruence.
Qed.

Lemma refines_flush fuel : refines (libt_flush W fuel) (q_flush W fuel).
Proof.
  unfold libt_flush, q_flush.
  apply refines_bind; [apply refines_now|]. intros now.
  apply refines_bind; [apply refines_dispatch|]. intros cnt.
  intros s q [Hrep Haux]. unfold get_brk. unfold bind at 2.
  destruct (sweep_spec (S (brk s)) s _ _ Hrep) as (s1 & R1 & Hrep1 & HA1).
  { pose proof (rep_length_I _ _ _ _ Hrep). lia. }
  simpl. exists s1. split; [mstep R1; reflexivity|]. split; [exact Hrep1|].
  rewrite HA1. injection Haux as Hb Hf Ht Hfi. unfold q_aux. simpl. congruence.
Qed.

Lemma refines_do_call c : refines (do_call W c) (q_do_call W c).
Proof.
  destruct c; simpl.
  - apply refines_bind; [apply refines_add|intros; apply refines_ret].
  - apply refines_remove.
  - apply refines_bind; [apply refines_exist|intros; apply refines_ret].
  - apply refines_bind; [apply refines_next_wakeup|intros; apply refines_ret].
  - apply refines_bind; [apply refines_get_waittime|intros; apply refines_ret].
  - apply refines_bind; [apply refines_now|intros; apply refines_ret].
  - apply refines_bind; [apply refines_flush|intros; apply refines_ret].
Qed.

Lemma refines_do_calls cs : refines (do_calls W cs) (q_do_calls W cs).
Proof.
  induction cs as [|c cs IH]; simpl.
  - apply refines_ret.
  - apply refines_bind; [apply refines_do_call|intros; exact IH].
Qed.

End Refinement.

Lemma holds_init : holds init q_init.
Proof.
  split; [|reflexivity]. split; simpl; try reflexivity.
  - apply Forall_nil. exact I.
  - apply NoDup_nil. exact I.
  - intros a [t Ht]. simpl in Ht. rewrite lookup_empty in Ht. discriminate.
  - intros a Ha. inversion Ha.
Qed.

(** ** The lists read back from the heap *)

Lemma walk_spec s q l fuel :
  chain s q l -> (length l <= fuel)%nat -> walk s fuel (head_ptr l) = l.
Proof.
  revert q fuel. induction l as [|e l IH]; intros q fuel Hc Hf.
  - destruct fuel; reflexivity.
  - destruct fuel as [|fuel]; [simpl in Hf; lia|].
    destruct Hc as (H1 & H2 & H3 & H4). simpl.
    unfold pay in H3. destruct (heap s !! e_addr e) as [t|] eqn:E; [|discriminate].
    injection H3 as Hfn Hdat Hw.
    pose proof (chain_head _ _ _ H4) as Hn. simpl in Hn. rewrite E in Hn.
    injection Hn as Hn. rewrite Hn, Hfn, Hdat, Hw.
    rewrite (IH (e_ptr e) fuel H4) by (simpl in Hf; lia).
    destruct e; reflexivity.
Qed.

Lemma holds_view s q : holds s q -> view s = q.
Proof.
  intros [Hrep Haux]. unfold view, pending, inflight.
  rewrite (rep_timers _ _ _ _ Hrep), (rep_tmptimers _ _ _ _ Hrep).
  rewrite (walk_spec s _ _ _ (rep_P _ _ _ _ Hrep) (rep_length_P _ _ _ _ Hrep)).
  rewrite (walk_spec s _ _ _ (rep_I _ _ _ _ Hrep) (rep_length_I _ _ _ _ Hrep)).
  injection Haux as -> -> -> ->. destruct q; reflexivity.
Qed.

(** ** Order on [double] *)

Ltac cmp_cases :=
  repeat match goal with
         | |- context [Z.compare ?a ?b] => destruct (Z.compare_spec a b)
         | |- context [PosDef.Pos.compare_cont Eq ?a ?b] =>
             change (PosDef.Pos.compare_cont Eq a b) with (Pos.compare a b);
             destruct (Pos.compare_spec a b)
         end;
  simpl; intros; subst; try discriminate; try reflexivity; try lia.

Lemma SFcompare_lt_trans x y z :
  SFcompare x y = Some Lt -> SFcompare y z = Some Lt -> SFcompare x z = Some Lt.
Proof.
  destruct x as [sx|sx| |sx mx ex], y as [sy|sy| |sy my ey], z as [sz|sz| |sz mz ez];
    simpl; try discriminate;
    try (destruct sx); try (destruct sy); try (destruct sz);
    try discriminate; try reflexivity; cmp_cases.
Qed.

Lemma SFcompare_lt_asym x y :
  SFcompare x y = Some Lt -> SFcompare y x = Some Gt.
Proof.
  destruct x as [sx|sx| |sx mx ex], y as [sy|sy| |sy my ey];
    simpl; try discriminate;
    try (destruct sx); try (destruct sy);
    try discriminate; try reflexivity; cmp_cases.
Qed.

Lemma ltb_trans (x y z : float) :
  (x <? y)%float = true -> (y <? z)%float = true -> (x <? z)%float = true.
Proof.
  rewrite !ltb_spec. unfold SFltb.
  destruct (SFcompare (Prim2SF x) (Prim2SF y)) as [[]|] eqn:E1; try discriminate.
  destruct (SFcompare (Prim2SF y) (Prim2SF z)) as [[]|] eqn:E2; try discriminate.
  rewrite (SFcompare_lt_trans _ _ _ E1 E2). reflexivity.
Qed.

Lemma ltb_asym (x y : float) :
  (x <? y)%float = true -> (y <? x)%float = false.
Proof.
  rewrite !ltb_spec. unfold SFltb.
  destruct (SFcompare (Prim2SF x) (Prim2SF y)) as [[]|] eqn:E1; try discriminate.
  rewrite (SFcompare_lt_asym _ _ E1). reflexivity.
Qed.

Lemma isnan_spec (x : float) : Double.isnan x = true <-> Prim2SF x = S754_nan.
Proof.
  unfold Double.isnan, is_nan. rewrite FloatAxioms.eqb_spec. unfold SFeqb.
  destruct (Prim2SF x) as [s|s| |s m e]; simpl.
  - split; discriminate.
  - destruct s; split; discriminate.
  - split; reflexivity.
  - destruct s.
    + rewrite Z.compare_refl.
      change (PosDef.Pos.compare_cont Eq m m) with (Pos.compare m m).
      rewrite Pos.compare_refl. simpl. split; discriminate.
    + rewrite Z.compare_refl.
      change (PosDef.Pos.compare_cont Eq m m) with (Pos.compare m m).
      rewrite Pos.compare_refl. simpl. split; discriminate.
Qed.

Lemma SFcompare_total x y :
  x <> S754_nan -> y <> S754_nan -> exists c, SFcompare x y = Some c.
Proof.
  destruct x, y; simpl; try congruence; eauto.
Qed.

Lemma SFcompare_antisym x y c :
  SFcompare x y = Some c -> SFcompare y x = Some (CompOpp c).
Proof.
  destruct x as [sx|sx| |sx mx ex], y as [sy|sy| |sy my ey];
    simpl; try discriminate;
    try (destruct sx); try (destruct sy);
    try (intros [= <-]; reflexivity).
  - rewrite (Z.compare_antisym ex ey).
    change (PosDef.Pos.compare_cont Eq my mx) with (Pos.compare my mx).
    change (PosDef.Pos.compare_cont Eq mx my) with (Pos.compare mx my).
    rewrite (Pos.compare_antisym mx my).
    intros [= <-]. destruct (ex ?= ey), (mx ?= my)%positive; reflexivity.
  - rewrite (Z.compare_antisym ex ey).
    change (PosDef.Pos.compare_cont Eq my mx) with (Pos.compare my mx).
    change (PosDef.Pos.compare_cont Eq mx my) with (Pos.compare mx my).
    rewrite (Pos.compare_antisym mx my).
    intros [= <-]. destruct (ex ?= ey), (mx ?= my)%positive; reflexivity.
Qed.

(** For numbers, [<=] is the negation of [>]. *)
Lemma leb_not_gt (x y : float) :
  Double.isnan x = false -> Double.isnan y = false ->
  (x <=? y)%float = negb (y <? x)%float.
Proof.
  intros Hx Hy. rewrite leb_spec, ltb_spec. unfold SFleb, SFltb.
  assert (Hx' : Prim2SF x <> S754_nan).
  { intros H. apply isnan_spec in H. congruence. }
  assert (Hy' : Prim2SF y <> S754_nan).
  { intros H. apply isnan_spec in H. congruence. }
  destruct (SFcompare_total _ _ Hx' Hy') as [c Hc].
  rewrite Hc, (SFcompare_antisym _ _ _ Hc). destruct c; reflexivity.
Qed.

Lemma ltb_nan_l (x y : float) : Double.isnan x = true -> (x <? y)%float = false.
Proof.
  intros H%isnan_spec. rewrite ltb_spec. unfold SFltb. rewrite H. reflexivity.
Qed.

Lemma ltb_nan_r (x y : float) : Double.isnan y = true -> (x <? y)%float = false.
Proof.
  intros H%isnan_spec. rewrite ltb_spec. unfold SFltb. rewrite H.
  destruct (Prim2SF x); reflexivity.
Qed.

(** ** Sorted insertion *)

Lemma insert_sorted_perm e l : insert_sorted e l ≡ₚ e :: l.
Proof.
  induction l as [|x l IH]; simpl; [reflexivity|].
  destruct (e_wakeup e <? e_wakeup x)%float; [reflexivity|].
  rewrite IH. apply Permutation_swap.
Qed.

(** [insert_sorted] puts the record behind every record that is not
    strictly later, and before the first that is. *)
Lemma insert_sorted_split e l :
  exists l1 l2, l = l1 ++ l2 /\
    insert_sorted e l = l1 ++ e :: l2 /\
    Forall (fun x => (e_wakeup e <? e_wakeup x)%float = false) l1 /\
    match l2 with
    | [] => True
    | x :: _ => (e_wakeup e <? e_wakeup x)%float = true
    end.
Proof.
  induction l as [|x l (l1 & l2 & -> & Hins & Hall & Hhd)]; simpl.
  - exists [], []. repeat split. apply Forall_nil. exact I.
  - destruct (e_wakeup e <? e_wakeup x)%float eqn:E.
    + exists [], (x :: l1 ++ l2). repeat split; [apply Forall_nil; exact I|exact E].
    + exists (x :: l1), l2. rewrite Hins. repeat split; [|exact Hhd].
      apply Forall_cons. split; [exact E|exact Hall].
Qed.

Lemma sorted_cons e l :
  sorted (e :: l) <-> Forall (later e) l /\ sorted l.
Proof.
  unfold sorted. split.
  - intros H. inversion H; subst. split; assumption.
  - intros [H1 H2]. constructor; assumption.
Qed.

Lemma insert_sorted_sorted e l : sorted l -> sorted (insert_sorted e l).
Proof.
  induction l as [|x l IH]; intros Hs; simpl.
  - apply sorted_cons. split; [apply Forall_nil; exact I|exact Hs].
  - apply sorted_cons in Hs as [Hx Hl].
    destruct (e_wakeup e <? e_wakeup x)%float eqn:E.
    + apply sorted_cons. split; [|apply sorted_cons; split; assumption].
      apply Forall_cons. split.
      * unfold later. apply ltb_asym. exact E.
      * eapply Forall_impl; [exact Hx|]. intros z Hz. unfold later in *. simpl in *.
        destruct (e_wakeup z <? e_wakeup e)%float eqn:E2; [|reflexivity].
        rewrite (ltb_trans _ _ _ E2 E) in Hz. discriminate.
    + apply sorted_cons. split; [|apply IH; exact Hl].
      rewrite (insert_sorted_perm e l). apply Forall_cons. split; [exact E|exact Hx].
Qed.

Lemma drop_sorted a l : sorted l -> sorted (drop a l).
Proof.
  induction l as [|x l IH]; intros Hs; [exact Hs|].
  apply sorted_cons in Hs as [Hx Hl]. unfold drop in *.
  destruct (decide (e_addr x <> a)) as [Hd|Hd].
  - rewrite filter_cons_True by exact Hd. apply sorted_cons. split; [|apply IH; exact Hl].
    apply Forall_forall. intros z Hz. apply list_elem_of_filter in Hz as [_ Hz].
    eapply Forall_forall in Hx; [exact Hx|exact Hz].
  - rewrite filter_cons_False by exact Hd. apply IH. exact Hl.
Qed.

Lemma drop_app a l1 l2 : drop a (l1 ++ l2) = drop a l1 ++ drop a l2.
Proof. apply filter_app. Qed.

Lemma drop_perm e l :
  NoDup (e_addr <$> l) -> e ∈ l -> l ≡ₚ e :: drop (e_addr e) l.
Proof.
  intros Hnd Hin. apply list_elem_of_split in Hin as (l1 & l2 & ->).
  rewrite (drop_at _ _ _ Hnd). symmetry. apply Permutation_middle.
Qed.

Lemma drop_sub a l x : x ∈ drop a l -> x ∈ l.
Proof. unfold drop. rewrite list_elem_of_filter. tauto. Qed.

Lemma drop_addr a l : a ∉ e_addr <$> drop a l.
Proof.
  intros (x & Hx & Hin)%list_elem_of_fmap. unfold drop in Hin.
  apply list_elem_of_filter in Hin as [Hne _]. congruence.
Qed.

Lemma find_none_id f d l :
  List.find (same_id f d) l = None -> (f, d) ∉ e_id <$> l.
Proof.
  intros H (x & Hx & Hin)%list_elem_of_fmap.
  apply list_elem_of_In in Hin. pose proof (find_none _ _ H x Hin) as Hn.
  unfold same_id, e_id in *. injection Hx as -> ->.
  rewrite !Z.eqb_refl in Hn. discriminate.
Qed.

Lemma find_some_id f d l e :
  List.find (same_id f d) l = Some e -> e ∈ l /\ e_id e = (f, d).
Proof.
  intros H. apply find_some in H as [Hin Hid]. split; [apply list_elem_of_In; exact Hin|].
  unfold same_id in Hid. apply andb_true_iff in Hid as [H1 H2].
  apply Z.eqb_eq in H1, H2. unfold e_id. congruence.
Qed.

(** ** What every queue keeps *)

Lemma good_init : good q_init.
Proof.
  split; simpl; try (apply NoDup_nil; exact I); try (apply Forall_nil; exact I).
  constructor.
Qed.

Lemma good_ticks q t fi :
  good q ->
  good (Queue (q_pending q) (q_inflight q) (q_brk q) (q_freed q) t fi).
Proof. intros [H1 H2 H3 H4 H5 H6]. split; assumption. Qed.

Lemma good_arm_existing q e w t fi :
  good q -> e ∈ live q ->
  good (Queue (insert_sorted (with_wakeup w e) (drop (e_addr e) (q_pending q)))
              (drop (e_addr e) (q_inflight q)) (q_brk q) (q_freed q) t fi).
Proof.
  intros [H1 H2 H3 H4 H5 H6] Hin. unfold live in Hin.
  assert (Hperm : insert_sorted (with_wakeup w e) (drop (e_addr e) (q_pending q))
                  ++ drop (e_addr e) (q_inflight q)
                  ≡ₚ with_wakeup w e :: drop (e_addr e) (q_pending q ++ q_inflight q)).
  { rewrite insert_sorted_perm, drop_app. reflexivity. }
  assert (Hold := drop_perm e _ H2 Hin).
  split; simpl.
  - rewrite Hperm, fmap_cons. change (e_id (with_wakeup w e)) with (e_id e).
    rewrite <- fmap_cons, <- Hold. exact H1.
  - rewrite Hperm, fmap_cons. change (e_addr (with_wakeup w e)) with (e_addr e).
    rewrite <- fmap_cons, <- Hold. exact H2.
  - rewrite Hperm. rewrite Hold in H3. apply Forall_cons in H3 as [Ha Hr].
    apply Forall_cons. split; assumption.
  - eapply Forall_impl; [exact H4|]. intros a [Ha Hn]. split; [exact Ha|].
    rewrite Hperm, fmap_cons. change (e_addr (with_wakeup w e)) with (e_addr e).
    rewrite <- fmap_cons, <- Hold. exact Hn.
  - exact H5.
  - apply insert_sorted_sorted, drop_sorted. exact H6.
Qed.

Lemma good_arm_new q f d w t fi :
  good q -> (f, d) ∉ e_id <$> live q ->
  good (Queue (insert_sorted (Entry (q_brk q) f d w) (drop (q_brk q) (q_pending q)))
              (drop (q_brk q) (q_inflight q)) (S (q_brk q)) (q_freed q) t fi).
Proof.
  intros [H1 H2 H3 H4 H5 H6] Hid. unfold live in Hid.
  assert (Hfresh : q_brk q ∉ e_addr <$> (q_pending q ++ q_inflight q)).
  { intros (x & Hx & Hin)%list_elem_of_fmap.
    eapply Forall_forall in H3; [|exact Hin]. simpl in H3. lia. }
  assert (Hperm : insert_sorted (Entry (q_brk q) f d w) (drop (q_brk q) (q_pending q))
                  ++ drop (q_brk q) (q_inflight q)
                  ≡ₚ Entry (q_brk q) f d w :: (q_pending q ++ q_inflight q)).
  { rewrite insert_sorted_perm. simpl. rewrite <- drop_app, (drop_notin _ _ Hfresh).
    reflexivity. }
  split; simpl.
  - rewrite Hperm, fmap_cons. apply NoDup_cons. split; assumption.
  - rewrite Hperm, fmap_cons. apply NoDup_cons. split; assumption.
  - rewrite Hperm. apply Forall_cons. split; [simpl; lia|].
    eapply Forall_impl; [exact H3|]. intros x Hx. simpl in *. lia.
  - eapply Forall_impl; [exact H4|]. intros a [Ha Hn]. split; [lia|].
    rewrite Hperm, fmap_cons. apply not_elem_of_cons. split; [simpl; lia|exact Hn].
  - exact H5.
  - apply insert_sorted_sorted, drop_sorted. exact H6.
Qed.

Lemma good_remove q e t fi :
  good q -> e ∈ live q ->
  good (Queue (drop (e_addr e) (q_pending q)) (drop (e_addr e) (q_inflight q))
              (q_brk q) (e_addr e :: q_freed q) t fi).
Proof.
  intros [H1 H2 H3 H4 H5 H6] Hin. unfold live in Hin.
  assert (Hold := drop_perm e _ H2 Hin).
  assert (H1' := H1). assert (H2' := H2). assert (H3' := H3).
  rewrite Hold, fmap_cons in H1'. rewrite Hold, fmap_cons in H2'. rewrite Hold in H3'.
  apply NoDup_cons in H1' as [_ H1']. apply NoDup_cons in H2' as [Hne H2'].
  apply Forall_cons in H3' as [Hlt H3'].
  split; simpl; rewrite <- ?drop_app; try assumption.
  - apply Forall_cons. split; [split; assumption|].
    eapply Forall_impl; [exact H4|]. intros a [Ha Hn]. split; [exact Ha|].
    intros (x & Hx & Hx')%list_elem_of_fmap. apply Hn. apply list_elem_of_fmap.
    exists x. split; [exact Hx|]. eapply drop_sub. exact Hx'.
  - apply NoDup_cons. split; [|exact H5].
    intros Hf. eapply Forall_forall in H4; [|exact Hf]. destruct H4 as [_ Hn].
    apply Hn. apply list_elem_of_fmap. eauto.
  - apply drop_sorted. exact H6.
Qed.

Lemma good_fire q e P t fi :
  good q -> q_pending q = e :: P ->
  good (Queue (drop (e_addr e) (q_pending q)) (e :: drop (e_addr e) (q_inflight q))
              (q_brk q) (q_freed q) t fi).
Proof.
  intros [H1 H2 H3 H4 H5 H6] HP.
  assert (Hin : e ∈ q_pending q ++ q_inflight q).
  { rewrite HP. apply list_elem_of_here. }
  assert (Hold := drop_perm e _ H2 Hin).
  assert (Hperm : drop (e_addr e) (q_pending q) ++ e :: drop (e_addr e) (q_inflight q)
                  ≡ₚ q_pending q ++ q_inflight q).
  { rewrite <- Permutation_middle, <- drop_app. symmetry. exact Hold. }
  split; simpl; rewrite ?Hperm; try assumption.
  - eapply Forall_impl; [exact H4|]. intros a [Ha Hn]. split; [exact Ha|].
    rewrite Hperm. exact Hn.
  - apply drop_sorted. exact H6.
Qed.

Lemma elem_of_rev {A} (x : A) (l : list A) : x ∈ rev l <-> x ∈ l.
Proof. rewrite <- (Permutation_rev l). reflexivity. Qed.

Lemma NoDup_rev_2 {A} (l : list A) : NoDup l -> NoDup (rev l).
Proof. rewrite <- (Permutation_rev l). auto. Qed.

Lemma good_sweep q :
  good q ->
  good (Queue (q_pending q) [] (q_brk q)
              (rev (e_addr <$> q_inflight q) ++ q_freed q) (q_ticks q) (q_fired q)).
Proof.
  intros [H1 H2 H3 H4 H5 H6].
  rewrite fmap_app in H1. rewrite fmap_app in H2. apply NoDup_app in H1 as (H1 & _ & _).
  apply NoDup_app in H2 as (H2 & Hd & H2I).
  apply Forall_app in H3 as [H3 H3I].
  split; simpl; rewrite ?app_nil_r; try assumption.
  - apply Forall_app. split.
    + apply Forall_forall. intros a Ha. rewrite elem_of_rev in Ha.
      split.
      * apply list_elem_of_fmap in Ha as (x & -> & Hx).
        eapply Forall_forall in H3I; [exact H3I|exact Hx].
      * intros Hp. exact (Hd _ Hp Ha).
    + eapply Forall_impl; [exact H4|]. intros a [Ha Hn]. split; [exact Ha|].
      intros Hp. apply Hn. rewrite fmap_app. apply elem_of_app. left. exact Hp.
  - apply NoDup_app. split; [apply NoDup_rev_2; exact H2I|]. split; [|exact H5].
    intros a Ha Hf. rewrite elem_of_rev in Ha.
    eapply Forall_forall in H4; [|exact Hf]. destruct H4 as [_ Hn].
    apply Hn. rewrite fmap_app. apply elem_of_app. right. exact Ha.
Qed.

Section QueueInvariant.

Variable W : world.

Lemma q_add_good w f d flags q r q' :
  good q -> q_add_timeoutx W w f d flags q = Ok r q' -> good q'.
Proof.
  intros Hg. unfold q_add_timeoutx.
  destruct (Double.isnan w); [intros [= <- <-]; exact Hg|].
  unfold q_find. destruct (List.find _ _) as [e|] eqn:Hfind.
  - apply find_some_id in Hfind as [Hin Hid].
    destruct (negb (has flags LIBT_MOD)); [intros [= <- <-]; exact Hg|].
    destruct (has flags LIBT_REPEAT); [|destruct (has flags LIBT_RELATIVE)];
      intros [= <- <-]; apply good_arm_existing; assumption.
  - apply find_none_id in Hfind.
    destruct (negb (has flags LIBT_ADD)); [intros [= <- <-]; exact Hg|].
    destruct (has flags (Z.lor LIBT_RELATIVE LIBT_REPEAT));
      intros [= <- <-]; apply (good_arm_new q); assumption.
Qed.

Lemma q_remove_good f d q r q' :
  good q -> q_remove_timeout f d q = Ok r q' -> good q'.
Proof.
  intros Hg. unfold q_remove_timeout, q_find.
  destruct (List.find _ _) as [e|] eqn:Hfind; [|intros [= <- <-]; exact Hg].
  apply find_some_id in Hfind as [Hin Hid].
  intros [= <- <-]. apply good_remove; assumption.
Qed.

Lemma q_get_waittime_good q r q' :
  good q -> q_get_waittime W q = Ok r q' -> good q'.
Proof.
  intros Hg. unfold q_get_waittime.
  destruct (q_pending q) as [|e P]; [intros [= <- <-]; exact Hg|].
  unfold q_now. unfold bind. simpl.
  destruct (_ <=? 0)%float; [intros [= <- <-]; apply good_ticks; exact Hg|].
  destruct (_ <? _)%float; [intros [= <- <-]; apply good_ticks; exact Hg|].
  destruct (Double.to_Z _) as [z|]; [|discriminate].
  destruct (_ && _); [|discriminate].
  intros [= <- <-]. apply good_ticks. exact Hg.
Qed.

Lemma q_run_good p q r q' : good q -> q_run W p q = Ok r q' -> good q'.
Proof.
  revert q. induction p as [|w f d flags k IH|f d k IH|f d k IH|k IH|k IH|k IH];
    intros q Hg; simpl.
  - intros [= <- <-]. exact Hg.
  - intros (a & q1 & H1 & H2)%bind_inv. eapply IH; [|exact H2].
    eapply q_add_good; eauto.
  - intros (a & q1 & H1 & H2)%bind_inv. eapply IH; [|exact H2].
    eapply q_remove_good; eauto.
  - intros (a & q1 & H1 & H2)%bind_inv. eapply IH; [|exact H2].
    injection H1 as <- <-. exact Hg.
  - intros (a & q1 & H1 & H2)%bind_inv. eapply IH; [|exact H2].
    injection H1 as <- <-. exact Hg.
  - intros (a & q1 & H1 & H2)%bind_inv. eapply IH; [|exact H2].
    eapply q_get_waittime_good; eauto.
  - intros (a & q1 & H1 & H2)%bind_inv. eapply IH; [|exact H2].
    injection H1 as <- <-. apply good_ticks. exact Hg.
Qed.

Lemma q_fire_good e P q r q' :
  good q -> q_pending q = e :: P -> q_fire W e q = Ok r q' -> good q'.
Proof.
  intros Hg HP. unfold q_fire.
  intros (a & q1 & H1 & H2)%bind_inv. injection H1 as <- <-.
  eapply q_run_good; [|exact H2]. eapply good_fire; eauto.
Qed.

Lemma q_dispatch_good fuel now cnt q r q' :
  good q -> q_dispatch W fuel now cnt q = Ok r q' -> good q'.
Proof.
  revert cnt q. induction fuel as [|fuel IH]; intros cnt q Hg; [discriminate|].
  simpl. destruct (q_pending q) as [|e P] eqn:HP; [intros [= <- <-]; exact Hg|].
  destruct (now <? e_wakeup e)%float; [intros [= <- <-]; exact Hg|].
  intros (a & q1 & H1 & H2)%bind_inv. eapply IH; [|exact H2].
  eapply q_fire_good; eauto.
Qed.

Lemma q_flush_good fuel q r q' :
  good q -> q_flush W fuel q = Ok r q' -> good q'.
Proof.
  intros Hg. unfold q_flush.
  intros (now & q1 & H1 & H2)%bind_inv. injection H1 as <- <-.
  apply bind_inv in H2 as (cnt & q2 & H2 & H3).
  apply bind_inv in H3 as (u & q3 & H3 & H4).
  injection H3 as <- <-. injection H4 as <- <-.
  apply good_sweep. eapply q_dispatch_good; [|exact H2].
  apply good_ticks. exact Hg.
Qed.

Lemma q_do_call_good c q r q' :
  good q -> q_do_call W c q = Ok r q' -> good q'.
Proof.
  intros Hg. destruct c; simpl.
  - intros (a & q1 & H1 & H2)%bind_inv. injection H2 as <- <-. eapply q_add_good; eauto.
  - apply q_remove_good. exact Hg.
  - intros (a & q1 & H1 & H2)%bind_inv. injection H2 as <- <-.
    injection H1 as <- <-. exact Hg.
  - intros (a & q1 & H1 & H2)%bind_inv. injection H2 as <- <-.
    injection H1 as <- <-. exact Hg.
  - intros (a & q1 & H1 & H2)%bind_inv. injection H2 as <- <-.
    eapply q_get_waittime_good; eauto.
  - intros (a & q1 & H1 & H2)%bind_inv. injection H2 as <- <-.
    injection H1 as <- <-. apply good_ticks. exact Hg.
  - intros (a & q1 & H1 & H2)%bind_inv. injection H2 as <- <-.
    eapply q_flush_good; eauto.
Qed.

Lemma q_do_calls_good cs q r q' :
  good q -> q_do_calls W cs q = Ok r q' -> good q'.
Proof.
  revert q. induction cs as [|c cs IH]; intros q Hg; simpl.
  - intros [= <- <-]. exact Hg.
  - intros (a & q1 & H1 & H2)%bind_inv. eapply IH; [|exact H2].
    eapply q_do_call_good; eauto.
Qed.

End QueueInvariant.

Lemma SFcompare_lt_le_trans a b c :
  SFcompare a b = Some Lt ->
  c <> S754_nan ->
  SFcompare c b <> Some Lt ->
  SFcompare a c = Some Lt.
Proof.
  destruct a as [sa|sa| |sa ma ea], b as [sb|sb| |sb mb eb], c as [sc|sc| |sc mc ec];
    simpl; try discriminate; try congruence;
    try (destruct sa); try (destruct sb); try (destruct sc);
    try discriminate; try congruence; try reflexivity; cmp_cases;
    try congruence.
Qed.

Lemma ltb_le_trans (a b c : float) :
  (a <? b)%float = true -> (c <? b)%float = false -> Double.isnan c = false ->
  (a <? c)%float = true.
Proof.
  rewrite !ltb_spec. unfold SFltb. intros H1 H2 Hc.
  destruct (SFcompare (Prim2SF a) (Prim2SF b)) as [[]|] eqn:E1; try discriminate.
  assert (Hc' : Prim2SF c <> S754_nan).
  { intros H. apply isnan_spec in H. congruence. }
  rewrite (SFcompare_lt_le_trans _ _ _ E1 Hc'); [reflexivity|].
  intros E. rewrite E in H2. discriminate.
Qed.

Lemma ltb_not_nan_l (a b : float) : (a <? b)%float = true -> Double.isnan a = false.
Proof.
  intros H. destruct (Double.isnan a) eqn:E; [|reflexivity].
  rewrite (ltb_nan_l _ _ E) in H. discriminate.
Qed.

Lemma ltb_not_nan_r (a b : float) : (a <? b)%float = true -> Double.isnan b = false.
Proof.
  intros H. destruct (Double.isnan b) eqn:E; [|reflexivity].
  rewrite (ltb_nan_r _ _ E) in H. discriminate.
Qed.

(** With numbers only, [sorted] is [<=] along the list. *)
Lemma sorted_sorted_le l : sorted l -> no_nan l -> sorted_le l.
Proof.
  unfold sorted, sorted_le, no_nan. induction 1 as [|e l Hs IH Hall]; intros Hn.
  - constructor.
  - apply Forall_cons in Hn as [He Hn]. constructor; [apply IH; exact Hn|].
    apply Forall_forall. intros x Hx.
    rewrite leb_not_gt; [|exact He|eapply Forall_forall in Hn; [exact Hn|exact Hx]].
    eapply Forall_forall in Hall; [|exact Hx]. unfold later in Hall. rewrite Hall.
    reflexivity.
Qed.

(** ** Well-formed states *)

Lemma wf_init : wf init.
Proof.
  unfold wf. rewrite (holds_view _ _ holds_init). split; [exact holds_init|exact good_init].
Qed.

Lemma holds_wf s q : holds s q -> good q -> wf s.
Proof. intros H Hg. unfold wf. rewrite (holds_view _ _ H). split; assumption. Qed.

(** A computation that refines one on the lists, run in a well-formed
    state: the lists decide the outcome. *)
Lemma via_view {A} (m : M A) (mq : MQ A) s :
  refines m mq -> wf s ->
  match mq (view s) with
  | Ok a q' => exists s', m s = Ok a s' /\ view s' = q' /\ holds s' q'
  | Fault => m s = Fault
  | Timeout => m s = Timeout
  end.
Proof.
  intros Hr [Hh _]. specialize (Hr s (view s) Hh).
  destruct (mq (view s)) as [a q'| |]; try exact Hr.
  destruct Hr as (s' & R & H'). exists s'. split; [exact R|].
  split; [apply holds_view; exact H'|exact H'].
Qed.

Lemma via_view_inv {A} (m : M A) (mq : MQ A) s a s' :
  refines m mq -> wf s -> m s = Ok a s' ->
  mq (view s) = Ok a (view s') /\ holds s' (view s').
Proof.
  intros Hr Hw R. pose proof (via_view m mq s Hr Hw) as H.
  destruct (mq (view s)) as [a' q'| |]; try congruence.
  destruct H as (s'' & R' & Hv & Hh). rewrite R in R'. injection R' as <- <-.
  rewrite Hv. split; [reflexivity|exact Hh].
Qed.

Section WellFormed.

Variable W : world.

Lemma wf_do_calls cs s a s' : wf s -> do_calls W cs s = Ok a s' -> wf s'.
Proof.
  intros Hw R. destruct (via_view_inv _ _ _ _ _ (refines_do_calls W cs) Hw R) as [Hq Hh].
  split; [exact Hh|]. eapply q_do_calls_good; [|exact Hq]. apply Hw.
Qed.

Lemma wf_do_call c s a s' : wf s -> do_call W c s = Ok a s' -> wf s'.
Proof.
  intros Hw R. destruct (via_view_inv _ _ _ _ _ (refines_do_call W c) Hw R) as [Hq Hh].
  split; [exact Hh|]. eapply q_do_call_good; [|exact Hq]. apply Hw.
Qed.

Lemma wf_run p s a s' : wf s -> run W p s = Ok a s' -> wf s'.
Proof.
  intros Hw R. destruct (via_view_inv _ _ _ _ _ (refines_run W p) Hw R) as [Hq Hh].
  split; [exact Hh|]. eapply q_run_good; [|exact Hq]. apply Hw.
Qed.

Lemma wf_add w f d flags s a s' :
  wf s -> libt_add_timeoutx W w f d flags s = Ok a s' -> wf s'.
Proof.
  intros Hw R.
  destruct (via_view_inv _ _ _ _ _ (refines_add W w f d flags) Hw R) as [Hq Hh].
  split; [exact Hh|]. eapply q_add_good; [|exact Hq]. apply Hw.
Qed.

Lemma wf_flush fuel s a s' : wf s -> libt_flush W fuel s = Ok a s' -> wf s'.
Proof.
  intros Hw R. destruct (via_view_inv _ _ _ _ _ (refines_flush W fuel) Hw R) as [Hq Hh].
  split; [exact Hh|]. eapply q_flush_good; [|exact Hq]. apply Hw.
Qed.

(** Every state the application can bring about is well-formed. *)
Lemma wf_reach cs s : do_calls W cs init = Ok tt s -> wf s.
Proof. apply wf_do_calls. exact wf_init. Qed.

End WellFormed.

Lemma wf_remove f d s a s' : wf s -> libt_remove_timeout f d s = Ok a s' -> wf s'.
Proof.
  intros Hw R. destruct (via_view_inv _ _ _ _ _ (refines_remove f d) Hw R) as [Hq Hh].
  split; [exact Hh|]. eapply q_remove_good; [|exact Hq]. apply Hw.
Qed.

(** ** [libt_add_timeoutx] on the lists, case by case *)

Lemma q_add_nan W w f d flags q :
  Double.isnan w = true -> q_add_timeoutx W w f d flags q = Ok (- EINVAL) q.
Proof. intros H. unfold q_add_timeoutx. rewrite H. reflexivity. Qed.

Lemma q_add_eperm W w f d flags q e :
  Double.isnan w = false -> q_find f d q = Some e -> has flags LIBT_MOD = false ->
  q_add_timeoutx W w f d flags q = Ok (- EPERM) q.
Proof. intros H1 H2 H3. unfold q_add_timeoutx. rewrite H1, H2, H3. reflexivity. Qed.

Lemma q_add_enoent W w f d flags q :
  Double.isnan w = false -> q_find f d q = None -> has flags LIBT_ADD = false ->
  q_add_timeoutx W w f d flags q = Ok (- ENOENT) q.
Proof. intros H1 H2 H3. unfold q_add_timeoutx. rewrite H1, H2, H3. reflexivity. Qed.

Lemma q_add_update W w f d flags q e :
  Double.isnan w = false -> q_find f d q = Some e -> has flags LIBT_MOD = true ->
  q_add_timeoutx W w f d flags q =
  Ok 0 (Queue (insert_sorted
                 (with_wakeup (new_wakeup flags w (clock W (q_ticks q)) (Some (e_wakeup e))) e)
                 (drop (e_addr e) (q_pending q)))
              (drop (e_addr e) (q_inflight q)) (q_brk q) (q_freed q)
              (tick (reads_clock flags (Some (e_wakeup e))) (q_ticks q)) (q_fired q)).
Proof.
  intros H1 H2 H3. unfold q_add_timeoutx. rewrite H1, H2, H3. simpl.
  unfold new_wakeup, reads_clock, repeat_time.
  destruct (has flags LIBT_REPEAT); [reflexivity|].
  destruct (has flags LIBT_RELATIVE); reflexivity.
Qed.

Lemma q_add_create W w f d flags q :
  Double.isnan w = false -> q_find f d q = None -> has flags LIBT_ADD = true ->
  q_add_timeoutx W w f d flags q =
  Ok 0 (Queue (insert_sorted
                 (Entry (q_brk q) f d (new_wakeup flags w (clock W (q_ticks q)) None))
                 (drop (q_brk q) (q_pending q)))
              (drop (q_brk q) (q_inflight q)) (S (q_brk q)) (q_freed q)
              (tick (reads_clock flags None) (q_ticks q)) (q_fired q)).
Proof.
  intros H1 H2 H3. unfold q_add_timeoutx. rewrite H1, H2, H3. simpl.
  unfold new_wakeup, reads_clock.
  destruct (has flags (Z.lor LIBT_RELATIVE LIBT_REPEAT)); reflexivity.
Qed.

(** A call that returns 0 has put a record of that identity in its
    sorted place. *)
Lemma q_add_ok W w f d flags q q' :
  q_add_timeoutx W w f d flags q = Ok 0 q' ->
  exists e, e_id e = (f, d) /\
    q_pending q' = insert_sorted e (drop (e_addr e) (q_pending q)) /\
    q_inflight q' = drop (e_addr e) (q_inflight q).
Proof.
  destruct (Double.isnan w) eqn:Hn.
  { rewrite (q_add_nan _ _ _ _ _ _ Hn). discriminate. }
  destruct (q_find f d q) as [e|] eqn:Hf.
  - destruct (has flags LIBT_MOD) eqn:Hm.
    + rewrite (q_add_update _ _ _ _ _ _ _ Hn Hf Hm). intros [= <-].
      apply find_some_id in Hf as [_ Hid].
      exists (with_wakeup (new_wakeup flags w (clock W (q_ticks q)) (Some (e_wakeup e))) e).
      split; [exact Hid|split; reflexivity].
    + rewrite (q_add_eperm _ _ _ _ _ _ _ Hn Hf Hm). discriminate.
  - destruct (has flags LIBT_ADD) eqn:Ha.
    + rewrite (q_add_create _ _ _ _ _ _ Hn Hf Ha). intros [= <-].
      exists (Entry (q_brk q) f d (new_wakeup flags w (clock W (q_ticks q)) None)).
      split; [reflexivity|split; reflexivity].
    + rewrite (q_add_enoent _ _ _ _ _ _ Hn Hf Ha). discriminate.
Qed.

Lemma find_id_iff f d l :
  is_Some (List.find (same_id f d) l) <-> (f, d) ∈ e_id <$> l.
Proof.
  split.
  - intros [e He]. apply find_some_id in He as [Hin Hid].
    apply list_elem_of_fmap. eauto.
  - intros Hin. destruct (List.find (same_id f d) l) eqn:E; [eauto|].
    apply find_none_id in E. contradiction.
Qed.

Lemma view_pending s : q_pending (view s) = pending s.
Proof. reflexivity. Qed.
Lemma view_inflight s : q_inflight (view s) = inflight s.
Proof. reflexivity. Qed.

(** ** Examples *)

Lemma three_timers_reach : do_calls (W_idle 2.5) three_calls init = Ok tt three_timers.
Proof. vm_compute. reflexivity. Qed.

(** * The claims *)

Lemma filter_unique {A B} `{EqDecision B} (g : A -> B) (l : list A) (x : A) :
  NoDup (g <$> l) -> x ∈ l -> filter (fun y => g y = g x) l = [x].
Proof.
  induction l as [|y l IH]; intros Hnd Hin; [inversion Hin|].
  rewrite fmap_cons in Hnd. apply NoDup_cons in Hnd as [Hy Hnd].
  assert (Hnone : forall z, g z ∉ g <$> l -> filter (fun y => g y = g z) l = []).
  { clear. intros z Hz. induction l as [|y l IH]; [reflexivity|].
    rewrite fmap_cons in Hz. apply not_elem_of_cons in Hz as [H1 H2].
    rewrite filter_cons_False by congruence. apply IH. exact H2. }
  apply elem_of_cons in Hin as [->|Hin].
  - rewrite filter_cons_True by reflexivity. rewrite Hnone by exact Hy. reflexivity.
  - rewrite filter_cons_False; [apply IH; assumption|].
    intros Heq. apply Hy. rewrite Heq. apply list_elem_of_fmap. eauto.
Qed.

(** C2.  After every sequence of calls of the exported functions the
    pending timers are sorted by wakeup time: no timer comes after a
    strictly later one, which for wakeup times that are numbers is
    non-decreasing order.  A call that schedules a timer puts it behind
    every pending timer that is not strictly later, those of equal wakeup
    time included, and before the first strictly later one; the other
    timers keep their order. *)
Theorem pending_sorted (W : world) (cs : list call) (s : state) :
  do_calls W cs init = Ok tt s ->
  sorted (pending s) /\
  (no_nan (pending s) -> sorted_le (pending s)) /\
  forall w f d flags s',
    libt_add_timeoutx W w f d flags s = Ok 0 s' ->
    exists e l1 l2,
      e_id e = (f, d) /\
      pending s' = l1 ++ e :: l2 /\
      l1 ++ l2 = drop (e_addr e) (pending s) /\
      Forall (fun x => (e_wakeup e <? e_wakeup x)%float = false) l1 /\
      match l2 with
      | [] => True
      | x :: _ => (e_wakeup e <? e_wakeup x)%float = true
      end.
Proof.
  intros Hreach. pose proof (wf_reach W cs s Hreach) as Hw.
  assert (Hs : sorted (pending s)) by apply Hw.
  split; [exact Hs|]. split; [apply sorted_sorted_le; exact Hs|].
  intros w f d flags s' R.
  destruct (via_view_inv _ _ _ _ _ (refines_add W w f d flags) Hw R) as [Hq _].
  apply q_add_ok in Hq as (e & Hid & HP & _).
  rewrite !view_pending in HP.
  destruct (insert_sorted_split e (drop (e_addr e) (pending s)))
    as (l1 & l2 & Hl & Hins & Hall & Hhd).
  exists e, l1, l2. rewrite HP, Hins. auto.
Qed.

Lemma pending_sorted_witness :
  do_calls (W_idle 2.5) three_calls init = Ok tt three_timers /\
  sorted (pending three_timers).
Proof.
  split; [exact three_timers_reach|].
  exact (proj1 (pending_sorted (W_idle 2.5) three_calls three_timers three_timers_reach)).
Defined.

(** C3.  In every well-formed state (every state the application can
    bring about is one, [wf_reach], and so is every state a callback
    leaves) no two timers, pending or in flight, have the same callback
    and argument; the lookup [libt_timeout_exist] spans both lists; a call
    of [libt_add_timeoutx] with LIBT_ADD and LIBT_MOD succeeds and leaves
    exactly one timer of that identity: where one existed it is the same
    record, moved to its new place, and the number of timers is
    unchanged. *)
Theorem one_timer_per_identity (W : world) (s : state) :
  wf s ->
  NoDup (e_id <$> (pending s ++ inflight s)) /\
  (forall f d,
     libt_timeout_exist f d s =
     Ok (if bool_decide ((f, d) ∈ e_id <$> (pending s ++ inflight s)) then 1 else 0) s) /\
  (forall w f d flags,
     has flags LIBT_ADD = true -> has flags LIBT_MOD = true ->
     Double.isnan w = false ->
     exists s' e,
       libt_add_timeoutx W w f d flags s = Ok 0 s' /\
       wf s' /\
       filter (fun x => e_id x = (f, d)) (pending s' ++ inflight s') = [e] /\
       e ∈ pending s' /\
       forall e0, e0 ∈ pending s ++ inflight s -> e_id e0 = (f, d) ->
         e_addr e = e_addr e0 /\ brk s' = brk s /\
         length (pending s' ++ inflight s') = length (pending s ++ inflight s)) /\
  (forall c s', do_call W c s = Ok tt s' -> wf s') /\
  (forall p s', run W p s = Ok tt s' -> wf s').
Proof.
  intros Hw. assert (Hg : good (view s)) by apply Hw.
  split; [apply Hg|]. split; [|split; [|split]].
  - intros f d. unfold libt_timeout_exist.
    rewrite (bind_ok _ _ _ _ _ (t_find_spec _ _ _ _ f d (proj1 (proj1 Hw)))).
    unfold ret. rewrite found_null. rewrite !view_pending, !view_inflight.
    destruct (List.find _ _) as [e|] eqn:E.
    + rewrite bool_decide_eq_true_2; [reflexivity|]. apply find_id_iff. eauto.
    + rewrite bool_decide_eq_false_2; [reflexivity|]. apply find_none_id. exact E.
  - intros w f d flags Ha Hm Hn.
    pose proof (via_view _ _ s (refines_add W w f d flags) Hw) as H.
    destruct (q_find f d (view s)) as [e0|] eqn:Hf.
    + rewrite (q_add_update _ _ _ _ _ _ _ Hn Hf Hm) in H.
      destruct H as (s' & R & Hv & Hh).
      set (e := with_wakeup (new_wakeup flags w (clock W (q_ticks (view s)))
                               (Some (e_wakeup e0))) e0) in *.
      assert (Hw' : wf s') by (eapply wf_add; eauto).
      assert (HP : pending s' = insert_sorted e (drop (e_addr e0) (pending s))).
      { rewrite <- view_pending, Hv. reflexivity. }
      assert (HI : inflight s' = drop (e_addr e0) (inflight s)).
      { rewrite <- view_inflight, Hv. reflexivity. }
      apply find_some_id in Hf as [Hin0 Hid0].
      assert (Hin : e ∈ pending s').
      { rewrite HP, insert_sorted_perm. apply list_elem_of_here. }
      exists s', e. split; [exact R|]. split; [exact Hw'|]. split; [|split; [exact Hin|]].
      * rewrite <- Hid0. change (e_id e0) with (e_id e).
        apply filter_unique; [apply Hw'|]. apply elem_of_app. left. exact Hin.
      * intros e1 Hin1 Hid1.
        assert (e1 = e0).
        { assert (Hnd : NoDup (e_id <$> (pending s ++ inflight s))) by apply Hg.
          assert (H1 := filter_unique e_id _ e0 Hnd Hin0).
          assert (H2 := filter_unique e_id _ e1 Hnd Hin1).
          rewrite Hid0 in H1. rewrite Hid1 in H2. congruence. }
        subst e1. split; [reflexivity|]. split.
        -- change (brk s') with (q_brk (view s')). rewrite Hv. reflexivity.
        -- rewrite HP, HI. rewrite length_app, (Permutation_length (insert_sorted_perm _ _)).
           simpl. rewrite <- length_app, <- drop_app.
           assert (Hperm := drop_perm e0 _ (good_addrs _ Hg) Hin0).
           change (q_pending (view s) ++ q_inflight (view s))
             with (pending s ++ inflight s) in Hperm.
           rewrite Hperm at 2. reflexivity.
    + rewrite (q_add_create _ _ _ _ _ _ Hn Hf Ha) in H.
      destruct H as (s' & R & Hv & Hh).
      set (e := Entry (q_brk (view s)) f d
                      (new_wakeup flags w (clock W (q_ticks (view s))) None)) in *.
      assert (Hw' : wf s') by (eapply wf_add; eauto).
      assert (HP : pending s' = insert_sorted e (drop (e_addr e) (pending s))).
      { rewrite <- view_pending, Hv. reflexivity. }
      assert (Hin : e ∈ pending s').
      { rewrite HP, insert_sorted_perm. apply list_elem_of_here. }
      exists s', e. split; [exact R|]. split; [exact Hw'|]. split; [|split; [exact Hin|]].
      * change (f, d) with (e_id e).
        apply filter_unique; [apply Hw'|]. apply elem_of_app. left. exact Hin.
      * intros e1 Hin1 Hid1. exfalso.
        apply find_none_id in Hf. apply Hf. apply list_elem_of_fmap. eauto.
  - intros c s'. apply wf_do_call. exact Hw.
  - intros p s'. apply wf_run. exact Hw.
Qed.

Lemma one_timer_per_identity_witness :
  wf three_timers /\ NoDup (e_id <$> (pending three_timers ++ inflight three_timers)).
Proof.
  pose proof (wf_reach _ _ _ three_timers_reach) as Hw.
  split; [exact Hw|].
  exact (proj1 (one_timer_per_identity (W_idle 2.5) three_timers Hw)).
Defined.

Lemma three_timers_pending :
  pending three_timers = [Entry 0 101 0 1; Entry 1 102 0 2; Entry 2 103 0 3].
Proof. vm_compute. reflexivity. Qed.

Lemma three_timers_inflight : inflight three_timers = [].
Proof. vm_compute. reflexivity. Qed.

(** C7, as the code has it.  [libt_add_timeoutx] returns -EINVAL for a
    NaN; otherwise -EPERM when a timer of that identity exists and
    LIBT_MOD is not set, and -ENOENT when none exists and LIBT_ADD is not
    set; on each of these the state is unchanged.  In every other case it
    returns 0.  (A request with only LIBT_ADD has no LIBT_MOD, one with
    only LIBT_MOD has no LIBT_ADD.) *)
Theorem schedule_errors (W : world) (s : state) (w : float) (f d flags : Z) :
  wf s ->
  has LIBT_ADD LIBT_MOD = false /\ has LIBT_MOD LIBT_ADD = false /\
  exists r s',
    libt_add_timeoutx W w f d flags s = Ok r s' /\
    if Double.isnan w then r = - EINVAL /\ s' = s
    else if bool_decide ((f, d) ∈ e_id <$> (pending s ++ inflight s)) then
      if has flags LIBT_MOD then r = 0 else r = - EPERM /\ s' = s
    else
      if has flags LIBT_ADD then r = 0 else r = - ENOENT /\ s' = s.
Proof.
  intros Hw. split; [reflexivity|]. split; [reflexivity|].
  assert (Hrep := proj1 (proj1 Hw)).
  destruct (Double.isnan w) eqn:Hn.
  { exists (- EINVAL), s. unfold libt_add_timeoutx, add_timeoutx_prepare.
    rewrite Hn. split; [reflexivity|auto]. }
  pose proof (via_view _ _ s (refines_add W w f d flags) Hw) as H.
  destruct (q_find f d (view s)) as [e0|] eqn:Hf.
  - rewrite bool_decide_eq_true_2 by (apply find_id_iff; unfold q_find in Hf; eauto).
    destruct (has flags LIBT_MOD) eqn:Hm.
    + rewrite (q_add_update _ _ _ _ _ _ _ Hn Hf Hm) in H.
      destruct H as (s' & R & _). eauto.
    + exists (- EPERM), s. split; [|auto].
      unfold libt_add_timeoutx, add_timeoutx_prepare. rewrite Hn.
      rewrite bind_bind. rewrite (bind_ok _ _ _ _ _ (t_find_spec _ _ _ _ f d Hrep)).
      unfold q_find in Hf. rewrite Hf. simpl. rewrite Hm. reflexivity.
  - rewrite bool_decide_eq_false_2 by (apply find_none_id; exact Hf).
    destruct (has flags LIBT_ADD) eqn:Ha.
    + rewrite (q_add_create _ _ _ _ _ _ Hn Hf Ha) in H.
      destruct H as (s' & R & _). eauto.
    + exists (- ENOENT), s. split; [|auto].
      unfold libt_add_timeoutx, add_timeoutx_prepare. rewrite Hn.
      rewrite bind_bind. rewrite (bind_ok _ _ _ _ _ (t_find_spec _ _ _ _ f d Hrep)).
      unfold q_find in Hf. rewrite Hf. simpl. rewrite Ha. reflexivity.
Qed.

Lemma schedule_errors_witness :
  wf three_timers /\
  exists r s',
    libt_add_timeoutx (W_idle 2.5) 5 101 0 LIBT_ADD three_timers = Ok r s' /\
    r = - EPERM /\ s' = three_timers.
Proof.
  pose proof (wf_reach _ _ _ three_timers_reach) as Hw.
  split; [exact Hw|].
  destruct (schedule_errors (W_idle 2.5) three_timers 5 101 0 LIBT_ADD Hw)
    as (_ & _ & r & s' & R & H).
  exists r, s'. split; [exact R|].
  change (Double.isnan 5) with false in H.
  rewrite three_timers_pending, three_timers_inflight in H.
  exact H.
Defined.

(** C7 as stated fails: a request that is neither "only CREATE" nor
    "only UPDATE" and carries no NaN, here one with just LIBT_RELATIVE, for
    an identity that does not exist, does not succeed: it returns
    -ENOENT. *)
Lemma schedule_errors_counterexample :
  Double.isnan 1 = false /\
  LIBT_RELATIVE <> LIBT_ADD /\ LIBT_RELATIVE <> LIBT_MOD /\
  libt_add_timeoutx (W_idle 0) 1 7 0 LIBT_RELATIVE init = Ok (- ENOENT) init.
Proof.
  split; [reflexivity|]. split; [discriminate|]. split; [discriminate|].
  vm_compute. reflexivity.
Qed.

(** C10, as the code has it.  With no pending timer [libt_next_wakeup]
    returns -1; otherwise it returns the wakeup time of the first pending
    timer, which no pending timer precedes: none is strictly earlier, and
    with wakeup times that are numbers it is the minimum. *)
Theorem next_wakeup_head (s : state) :
  wf s ->
  (pending s = [] -> libt_next_wakeup s = Ok (-1)%float s) /\
  (forall e P, pending s = e :: P ->
     libt_next_wakeup s = Ok (e_wakeup e) s /\
     Forall (fun x => (e_wakeup x <? e_wakeup e)%float = false) P /\
     (no_nan (pending s) ->
      Forall (fun x => (e_wakeup e <=? e_wakeup x)%float = true) P)).
Proof.
  intros Hw. assert (Hrep := proj1 (proj1 Hw)). rewrite view_pending in Hrep.
  assert (Hs : sorted (pending s)) by apply Hw.
  split.
  - intros HP. unfold libt_next_wakeup.
    rewrite (bind_ok _ _ _ _ _ (eq_refl : get_timers s = Ok (timers s) s)).
    rewrite (rep_timers _ _ _ _ Hrep), HP. reflexivity.
  - intros e P HP. split; [|split].
    + unfold libt_next_wakeup.
      rewrite (bind_ok _ _ _ _ _ (eq_refl : get_timers s = Ok (timers s) s)).
      rewrite (rep_timers _ _ _ _ Hrep), HP. simpl.
      apply (get_wakeup_ok s (e_addr e) (e_pay e)).
      apply (rep_live _ _ _ _ _ Hrep). rewrite HP. apply list_elem_of_here.
    + rewrite HP in Hs. apply sorted_cons in Hs as [Hs _]. exact Hs.
    + intros Hn. apply sorted_sorted_le in Hs; [|exact Hn]. rewrite HP in Hs.
      inversion Hs; subst. assumption.
Qed.

Lemma next_wakeup_head_witness :
  wf three_timers /\ libt_next_wakeup three_timers = Ok 1%float three_timers.
Proof.
  pose proof (wf_reach _ _ _ three_timers_reach) as Hw.
  split; [exact Hw|].
  exact (proj1 (proj2 (next_wakeup_head three_timers Hw)
                  (Entry 0 101 0 1) _ three_timers_pending)).
Defined.

(** C10 as stated fails: a wakeup time is the number the caller gave, and
    a timer scheduled for the absolute time -1 makes [libt_next_wakeup]
    return -1 with a timer pending. *)
Lemma next_wakeup_counterexample :
  exists s e,
    libt_add_timeoutx (W_idle 0) (-1) 7 0 LIBT_ADD init = Ok 0 s /\
    pending s = [e] /\
    libt_next_wakeup s = Ok (-1)%float s.
Proof.
  eexists. eexists. split; [vm_compute; reflexivity|].
  split; vm_compute; reflexivity.
Qed.

(** ** A flush whose callbacks leave the queue alone *)

Lemma due_none ref e l :
  sorted (e :: l) -> no_nan (e :: l) ->
  (ref <? e_wakeup e)%float = true ->
  due ref (e :: l) = [] /\ not_due ref (e :: l) = e :: l.
Proof.
  intros Hs Hn Hlt.
  assert (Hall : Forall (fun x => (e_wakeup x <=? ref)%float = false) (e :: l)).
  { apply sorted_cons in Hs as [Hs _]. apply Forall_cons. split.
    - rewrite leb_not_gt, Hlt; [reflexivity| |eapply ltb_not_nan_l; eauto].
      apply Forall_cons in Hn as [Hn _]. exact Hn.
    - apply Forall_cons in Hn as [_ Hn]. apply Forall_forall. intros x Hx.
      assert (Hxn : Double.isnan (e_wakeup x) = false).
      { eapply Forall_forall in Hn; [exact Hn|exact Hx]. }
      rewrite leb_not_gt; [|exact Hxn|eapply ltb_not_nan_l; eauto].
      eapply Forall_forall in Hs; [|exact Hx]. unfold later in Hs.
      rewrite (ltb_le_trans _ _ _ Hlt Hs Hxn). reflexivity. }
  unfold due, not_due. clear -Hall. generalize dependent (e :: l). clear.
  intros k Hall. induction Hall as [|x k Hx Hall [IH1 IH2]].
  - split; reflexivity.
  - simpl. rewrite Hx. simpl. rewrite IH1, IH2. split; reflexivity.
Qed.

Lemma q_dispatch_inert W ref fuel P :
  Double.isnan ref = false ->
  sorted P -> no_nan P ->
  Forall (fun e => code W (e_fn e) (e_dat e) = Return) (due ref P) ->
  (length (due ref P) < fuel)%nat ->
  forall I b fr t fi cnt,
    NoDup (e_addr <$> (P ++ I)) ->
    q_dispatch W fuel ref cnt (Queue P I b fr t fi) =
    Ok (cnt + Z.of_nat (length (due ref P)))
       (Queue (not_due ref P) (rev (due ref P) ++ I) b fr t
              (fi ++ (e_id <$> due ref P))).
Proof.
  intros Href. revert fuel. induction P as [|e P IH]; intros fuel Hs Hn Hcode Hfuel I b fr t fi cnt Hnd.
  - destruct fuel as [|fuel]; [simpl in Hfuel; lia|]. simpl.
    rewrite Z.add_0_r, app_nil_r. reflexivity.
  - destruct fuel as [|fuel]; [lia|]. cbn [q_dispatch q_pending].
    destruct (ref <? e_wakeup e)%float eqn:Hlt.
    + destruct (due_none ref e P Hs Hn Hlt) as [-> ->]. simpl.
      rewrite Z.add_0_r, app_nil_r. reflexivity.
    + assert (Hdue : (e_wakeup e <=? ref)%float = true).
      { rewrite leb_not_gt, Hlt; [reflexivity| |exact Href].
        apply Forall_cons in Hn as [Hn _]. exact Hn. }
      assert (Hd : due ref (e :: P) = e :: due ref P).
      { unfold due. simpl. rewrite Hdue. reflexivity. }
      assert (Hnd' : not_due ref (e :: P) = not_due ref P).
      { unfold not_due. simpl. rewrite Hdue. reflexivity. }
      rewrite Hd in Hcode, Hfuel |- *. rewrite Hnd'.
      apply Forall_cons in Hcode as [Hc Hcode].
      apply sorted_cons in Hs as [_ Hs]. apply Forall_cons in Hn as [_ Hn].
      unfold bind at 1. unfold q_fire. unfold bind at 1. cbn [q_pending q_inflight q_brk q_freed q_ticks q_fired].
      rewrite Hc. cbn [q_run]. unfold ret.
      change ((e :: P) ++ I) with (e :: (P ++ I)) in Hnd. rewrite fmap_cons in Hnd.
      apply NoDup_cons in Hnd as [Ha Hnd].
      assert (HndP : NoDup (e_addr <$> ([] ++ e :: P))).
      { change ([] ++ e :: P) with (e :: P). rewrite fmap_cons. apply NoDup_cons.
        rewrite fmap_app in Ha. rewrite fmap_app in Hnd.
        apply not_elem_of_app in Ha as [HaP _]. apply NoDup_app in Hnd as [H _].
        split; assumption. }
      rewrite fmap_app in Ha. apply not_elem_of_app in Ha as [HaP HaI].
      change (e :: P) with ([] ++ e :: P).
      rewrite (drop_at _ _ _ HndP).
      rewrite (drop_notin _ _ HaI). simpl app.
      rewrite (IH fuel Hs Hn Hcode ltac:(simpl in Hfuel; lia)).
      * f_equal; [simpl length; lia|]. f_equal.
        -- simpl. rewrite <- app_assoc. reflexivity.
        -- rewrite <- app_assoc. reflexivity.
      * assert (Hperm : e_addr <$> (P ++ e :: I) ≡ₚ e_addr e :: (e_addr <$> (P ++ I))).
        { rewrite <- Permutation_middle. reflexivity. }
        rewrite Hperm. apply NoDup_cons. split; [|exact Hnd].
        rewrite fmap_app. apply not_elem_of_app. split; assumption.
Qed.

Lemma insert_head_later ref e l :
  (ref <? e_wakeup e)%float = true -> head_later ref l ->
  head_later ref (insert_sorted e l).
Proof.
  intros He Hl. destruct l as [|x l]; simpl; [exact He|].
  destruct (e_wakeup e <? e_wakeup x)%float; simpl; assumption.
Qed.

Lemma q_dispatch_stop W ref fuel cnt q :
  head_later ref (q_pending q) -> q_dispatch W (S fuel) ref cnt q = Ok cnt q.
Proof.
  intros H. simpl. destruct (q_pending q) as [|x l]; [reflexivity|].
  simpl in H. rewrite H. reflexivity.
Qed.

(** ** [libt_flush] with arbitrary callbacks *)

Section FlushAnyCallback.

Variable W : world.

Lemma q_add_fired w f d flags q r q' :
q_add_timeoutx W w f d flags q = Ok r q' -> q_fired q' = q_fired q.
Proof.
unfold q_add_timeoutx.
destruct (Double.isnan w); [intros [= <- <-]; reflexivity|].
destruct (q_find f d q) as [e|].
- destruct (negb (has flags LIBT_MOD)); [intros [= <- <-]; reflexivity|].
  destruct (has flags LIBT_REPEAT); [|destruct (has flags LIBT_RELATIVE)];
    intros [= <- <-]; reflexivity.
- destruct (negb (has flags LIBT_ADD)); [intros [= <- <-]; reflexivity|].
  destruct (has flags (Z.lor LIBT_RELATIVE LIBT_REPEAT));
    intros [= <- <-]; reflexivity.
Qed.

Lemma q_remove_fired f d q r q' :
q_remove_timeout f d q = Ok r q' -> q_fired q' = q_fired q.
Proof.
unfold q_remove_timeout. destruct (q_find f d q); intros [= <- <-]; reflexivity.
Qed.

Lemma q_get_waittime_fired q r q' :
q_get_waittime W q = Ok r q' -> q_fired q' = q_fired q.
Proof.
unfold q_get_waittime.
destruct (q_pending q) as [|e P]; [intros [= <- <-]; reflexivity|].
unfold q_now. unfold bind. simpl.
destruct (_ <=? 0)%float; [intros [= <- <-]; reflexivity|].
destruct (_ <? _)%float; [intros [= <- <-]; reflexivity|].
destruct (Double.to_Z _) as [z|]; [|discriminate].
destruct (_ && _); [|discriminate].
intros [= <- <-]. reflexivity.
Qed.

(** A callback invokes no callback. *)
Lemma q_run_fired p q r q' : q_run W p q = Ok r q' -> q_fired q' = q_fired q.
Proof.
revert q. induction p as [|w f d flags k IH|f d k IH|f d k IH|k IH|k IH|k IH];
  intros q; simpl.
- intros [= <- <-]. reflexivity.
- intros (a & q1 & H1 & H2)%bind_inv. rewrite (IH _ _ H2). eapply q_add_fired; eauto.
- intros (a & q1 & H1 & H2)%bind_inv. rewrite (IH _ H2). eapply q_remove_fired; eauto.
- intros (a & q1 & H1 & H2)%bind_inv. rewrite (IH _ _ H2).
  injection H1 as <- <-. reflexivity.
- intros (a & q1 & H1 & H2)%bind_inv. rewrite (IH _ _ H2).
  unfold q_next_wakeup in H1. destruct (q_pending q); injection H1 as <- <-; reflexivity.
- intros (a & q1 & H1 & H2)%bind_inv. rewrite (IH _ _ H2).
  eapply q_get_waittime_fired; eauto.
- intros (a & q1 & H1 & H2)%bind_inv. rewrite (IH _ _ H2).
  injection H1 as <- <-. reflexivity.
Qed.

(** When the first loop of [libt_flush] ends, no timer is pending or the
  first one is later than the reference time, and the count has grown
  by the number of callbacks invoked. *)
Lemma q_dispatch_settles fuel ref cnt q cnt' q' :
q_dispatch W fuel ref cnt q = Ok cnt' q' ->
head_later ref (q_pending q') /\
exists n : nat,
  cnt' = cnt + Z.of_nat n /\
  length (q_fired q') = (length (q_fired q) + n)%nat.
Proof.
revert cnt q. induction fuel as [|fuel IH]; intros cnt q; [discriminate|].
simpl. destruct (q_pending q) as [|e P] eqn:HP.
- intros [= <- <-]. rewrite HP. split; [exact I|]. exists 0%nat. split; lia.
- destruct (ref <? e_wakeup e)%float eqn:Hlt.
  + intros [= <- <-]. rewrite HP. split; [exact Hlt|]. exists 0%nat. split; lia.
  + intros (a & q1 & H1 & H2)%bind_inv.
    destruct (IH _ _ H2) as (Hl & n & Hc & Hf). split; [exact Hl|].
    unfold q_fire in H1. apply bind_inv in H1 as (u & q0 & H0 & H1).
    injection H0 as <- <-. apply q_run_fired in H1.
    cbn [q_fired] in H1. exists (S n). split; [lia|].
    rewrite Hf, H1, length_app. simpl. lia.
Qed.

End FlushAnyCallback.

(** ** A pass of [libt_flush] over callbacks that only ask *)

Lemma ready_waiting ref l : l = ready ref l ++ waiting ref l.
Proof.
  induction l as [|e l IH]; [reflexivity|]. simpl.
  destruct (ref <? e_wakeup e)%float; [reflexivity|]. simpl. rewrite <- IH. reflexivity.
Qed.

Lemma waiting_head ref l : head_later ref (waiting ref l).
Proof.
  induction l as [|e l IH]; [exact I|]. simpl.
  destruct (ref <? e_wakeup e)%float eqn:E; [exact E|exact IH].
Qed.

Lemma ready_all ref l :
  Forall (fun e => (ref <? e_wakeup e)%float = false) (ready ref l).
Proof.
  induction l as [|e l IH]; [apply Forall_nil; exact I|]. simpl.
  destruct (ref <? e_wakeup e)%float eqn:E; [apply Forall_nil; exact I|].
  apply Forall_cons. split; assumption.
Qed.

Lemma ready_app ref r u :
  Forall (fun e => (ref <? e_wakeup e)%float = false) r -> head_later ref u ->
  ready ref (r ++ u) = r /\ waiting ref (r ++ u) = u.
Proof.
  intros Hr Hu. induction r as [|e r IH]; simpl.
  - destruct u as [|x u]; [split; reflexivity|]. simpl in *. rewrite Hu.
    split; reflexivity.
  - apply Forall_cons in Hr as [He Hr]. rewrite He.
    destruct (IH Hr) as [-> ->]. split; reflexivity.
Qed.

(** In a sorted list of wakeup times that are numbers, these are the
    timers whose wakeup time is at most [ref], and the others. *)
Lemma ready_due ref l :
  sorted l -> no_nan l -> Double.isnan ref = false ->
  ready ref l = due ref l /\ waiting ref l = not_due ref l.
Proof.
  intros Hs Hn Href. induction l as [|e l IH]; [split; reflexivity|].
  simpl ready. simpl waiting.
  destruct (ref <? e_wakeup e)%float eqn:Hlt.
  - destruct (due_none ref e l Hs Hn Hlt) as [-> ->]. split; reflexivity.
  - assert (Hdue : (e_wakeup e <=? ref)%float = true).
    { rewrite leb_not_gt, Hlt; [reflexivity| |exact Href].
      apply Forall_cons in Hn as [Hn _]. exact Hn. }
    apply sorted_cons in Hs as [_ Hs]. apply Forall_cons in Hn as [_ Hn].
    destruct (IH Hs Hn) as [-> ->]. unfold due, not_due. simpl. rewrite Hdue.
    split; reflexivity.
Qed.

Section QuietPass.

Variable W : world.

Lemma q_run_quiet p :
quiet p ->
forall P I b fr t fi,
exists t', (t <= t')%nat /\
  q_run W p (Queue P I b fr t fi) = Ok tt (Queue P I b fr t' fi).
Proof.
induction 1 as [|f d k _ IH|k _ IH|k _ IH]; intros P I b fr t fi; simpl.
- exists t. split; [lia|reflexivity].
- unfold bind, q_timeout_exist. apply IH.
- unfold bind, q_next_wakeup. cbn [q_pending].
  destruct P as [|e P]; apply IH.
- unfold bind, q_now. cbn [q_pending q_inflight q_brk q_freed q_ticks q_fired].
  destruct (IH (clock W t) P I b fr (S t) fi) as (t' & Ht & R).
  exists t'. split; [lia|exact R].
Qed.

(** The first loop of [libt_flush] over timers that are not later than
  the reference time and whose callbacks are quiet. *)
Lemma q_dispatch_pass ref l1 :
Forall (fun e => (ref <? e_wakeup e)%float = false) l1 ->
Forall (fun e => quiet (code W (e_fn e) (e_dat e))) l1 ->
forall R I b fr t fi cnt fuel,
  NoDup (e_addr <$> (l1 ++ R ++ I)) ->
  exists t', (t <= t')%nat /\
    (Forall (fun e => code W (e_fn e) (e_dat e) = Return) l1 -> t' = t) /\
    q_dispatch W (length l1 + fuel) ref cnt (Queue (l1 ++ R) I b fr t fi) =
    q_dispatch W fuel ref (cnt + Z.of_nat (length l1))
               (Queue R (rev l1 ++ I) b fr t' (fi ++ (e_id <$> l1))).
Proof.
induction l1 as [|e l1 IH]; intros Hl Hq R I b fr t fi cnt fuel Hnd.
- exists t. split; [lia|]. split; [reflexivity|].
  simpl. rewrite Z.add_0_r, app_nil_r. reflexivity.
- apply Forall_cons in Hl as [Hlt Hl]. apply Forall_cons in Hq as [Hqe Hq].
  change (length (e :: l1) + fuel)%nat with (S (length l1 + fuel)).
  remember (length l1 + fuel)%nat as n eqn:En.
  cbn [q_dispatch q_pending app]. rewrite Hlt.
  unfold bind at 1. unfold q_fire. unfold bind at 1.
  cbn [q_ticks q_pending q_inflight q_brk q_freed q_fired].
  change ((e :: l1) ++ R ++ I) with (e :: (l1 ++ R ++ I)) in Hnd.
  rewrite fmap_cons in Hnd. apply NoDup_cons in Hnd as [Ha Hnd].
  assert (HaP : e_addr e ∉ e_addr <$> (l1 ++ R)).
  { intros H. apply Ha. rewrite app_assoc, fmap_app. apply elem_of_app. left. exact H. }
  assert (HaI : e_addr e ∉ e_addr <$> I).
  { intros H. apply Ha. rewrite app_assoc, fmap_app. apply elem_of_app. right. exact H. }
  assert (HdP : drop (e_addr e) (e :: l1 ++ R) = l1 ++ R).
  { unfold drop. rewrite filter_cons_False by (intros H; apply H; reflexivity).
    apply drop_notin. exact HaP. }
  rewrite HdP, (drop_notin _ _ HaI).
  destruct (q_run_quiet _ Hqe (l1 ++ R) (e :: I) b fr t (fi ++ [(e_fn e, e_dat e)]))
    as (t1 & Ht1 & R1).
  subst n.
  destruct (IH Hl Hq R (e :: I) b fr t1 (fi ++ [(e_fn e, e_dat e)]) (cnt + 1) fuel)
    as (t' & Ht' & Hpin & R2).
  { assert (Hperm : e_addr <$> (l1 ++ R ++ e :: I)
                    ≡ₚ e_addr e :: (e_addr <$> (l1 ++ R ++ I))).
    { rewrite !app_assoc. rewrite <- Permutation_middle. reflexivity. }
    rewrite Hperm. apply NoDup_cons. split; assumption. }
  exists t'. split; [lia|]. split.
  { intros Hret. apply Forall_cons in Hret as [Hc Hret].
    rewrite (Hpin Hret). rewrite Hc in R1. cbn [q_run] in R1.
    injection R1 as <-. reflexivity. }
  rewrite R1, R2.
  f_equal; [simpl length; lia|]. f_equal.
  + simpl. rewrite <- app_assoc. reflexivity.
  + rewrite fmap_cons, <- app_assoc. reflexivity.
Qed.

(** [libt_flush] when the callbacks of the ready timers are quiet. *)
Lemma q_flush_quiet fuel P I b fr t fi :
Forall (fun e => quiet (code W (e_fn e) (e_dat e)))
       (ready (clock W t + 0.001)%float P) ->
(length (ready (clock W t + 0.001)%float P) <= fuel)%nat ->
NoDup (e_addr <$> (P ++ I)) ->
exists t', (t < t')%nat /\
  q_flush W fuel (Queue P I b fr t fi) =
  Ok (Z.of_nat (length (ready (clock W t + 0.001)%float P)))
     (Queue (waiting (clock W t + 0.001)%float P) [] b
            (rev (e_addr <$> (rev (ready (clock W t + 0.001)%float P) ++ I)) ++ fr)
            t' (fi ++ (e_id <$> ready (clock W t + 0.001)%float P))).
Proof.
intros Hq Hfuel Hnd. set (ref := (clock W t + 0.001)%float) in *.
unfold q_flush, q_now. unfold bind at 1.
cbn [q_ticks q_pending q_inflight q_brk q_freed q_fired]. fold ref.
unfold bind at 1.
replace (S fuel) with (length (ready ref P) + S (fuel - length (ready ref P)))%nat by lia.
assert (E : Queue P I b fr (S t) fi =
            Queue (ready ref P ++ waiting ref P) I b fr (S t) fi).
{ rewrite <- ready_waiting. reflexivity. }
rewrite E.
destruct (q_dispatch_pass ref (ready ref P) (ready_all ref P) Hq (waiting ref P) I b fr
            (S t) fi 0 (S (fuel - length (ready ref P)))) as (t' & Ht' & _ & R).
{ rewrite app_assoc, <- ready_waiting. exact Hnd. }
rewrite R. rewrite q_dispatch_stop by apply waiting_head.
exists t'. split; [lia|]. reflexivity.
Qed.

End QuietPass.

Lemma rep_holds s P I :
  rep s P I [] -> view s = Queue P I (brk s) (freed s) (ticks s) (fired s).
Proof.
  intros Hrep. apply holds_view. split; [exact Hrep|reflexivity].
Qed.

Lemma fmap_rev {A B} (f : A -> B) (l : list A) : f <$> rev l = rev (f <$> l).
Proof.
  induction l as [|x l IH]; [reflexivity|].
  simpl. rewrite fmap_app, IH. reflexivity.
Qed.

Lemma wf_rep s : wf s -> rep s (pending s) (inflight s) [].
Proof. intros Hw. exact (proj1 (proj1 Hw)). Qed.

(** One turn of the first loop of [libt_flush], whatever the callback
    does: the first pending timer, when it is not later than the
    reference time, is moved to the head of the timers in flight, and then
    its callback is invoked. *)
Lemma dispatch_turn W s e P n ref cnt :
  wf s -> pending s = e :: P ->
  (ref <? e_wakeup e)%float = false ->
  exists s1,
    t_add (e_ptr e) (FAKE TMPTIMERS) s = Ok tt s1 /\
    pending s1 = P /\ inflight s1 = e :: inflight s /\
    aux s1 = aux s /\ wf s1 /\
    dispatch W (S n) ref cnt s =
    (invoke W (e_fn e) (e_dat e);; dispatch W n ref (cnt + 1)) s1.
Proof.
  intros Hw HP Hlt. assert (Hrep := wf_rep s Hw). rewrite HP in Hrep.
  destruct (rep_move s [] e P _ _ Hrep) as (s1 & R1 & Hrep1 & HY1 & HA1).
  simpl app in Hrep1.
  assert (Hv := rep_holds _ _ _ Hrep1).
  assert (Hg1 : good (view s1)).
  { rewrite Hv. injection HA1 as -> -> -> _.
    pose proof (good_fire (view s) e P (ticks s) (fired s1) (proj2 Hw) HP) as Hg.
    cbn [view q_pending q_inflight q_brk q_freed] in Hg. rewrite HP in Hg.
    change (e :: P) with ([] ++ e :: P) in Hg.
    rewrite (drop_at [] e P (rep_nodup_P _ _ _ _ Hrep)) in Hg.
    rewrite drop_notin in Hg; [exact Hg|].
    assert (Hnd := rep_nodup _ _ _ _ Hrep). rewrite app_nil_r, fmap_app in Hnd.
    apply NoDup_app in Hnd as (_ & Hd & _). apply Hd. rewrite fmap_cons.
    apply list_elem_of_here. }
  exists s1. split; [exact R1|].
  split; [rewrite <- view_pending, Hv; reflexivity|].
  split; [rewrite <- view_inflight, Hv; reflexivity|].
  split; [exact HA1|]. split.
  { split; [|exact Hg1]. rewrite Hv. split; [exact Hrep1|reflexivity]. }
  cbn [dispatch].
  rewrite (bind_ok _ _ _ _ _ (eq_refl : get_timers s = Ok (timers s) s)).
  rewrite (rep_timers _ _ _ _ Hrep). cbn [head_ptr is_null e_ptr].
  assert (Hpay : pay s (e_addr e) = Some (e_pay e)).
  { apply (rep_live _ _ _ _ _ Hrep). apply list_elem_of_here. }
  rewrite (bind_ok _ _ _ _ _ (get_wakeup_ok _ _ _ Hpay)).
  change ((e_pay e).2) with (e_wakeup e). rewrite Hlt.
  rewrite (bind_ok _ _ _ _ _ R1).
  assert (Hpay1 : pay s1 (e_addr e) = Some (e_pay e)) by (rewrite HY1; exact Hpay).
  rewrite (bind_ok _ _ _ _ _ (get_fn_ok _ _ _ Hpay1)).
  rewrite (bind_ok _ _ _ _ _ (get_dat_ok _ _ _ Hpay1)).
  reflexivity.
Qed.

(** The first loop of [libt_flush] ends when no timer is pending or the
    first one is later than the reference time. *)
Lemma dispatch_stop W s n ref cnt :
  wf s -> head_later ref (pending s) ->
  dispatch W (S n) ref cnt s = Ok cnt s.
Proof.
  intros Hw Hl. assert (Hrep := wf_rep s Hw). cbn [dispatch].
  rewrite (bind_ok _ _ _ _ _ (eq_refl : get_timers s = Ok (timers s) s)).
  rewrite (rep_timers _ _ _ _ Hrep).
  destruct (pending s) as [|e P] eqn:HP; [reflexivity|].
  cbn [head_ptr is_null e_ptr].
  assert (Hpay : pay s (e_addr e) = Some (e_pay e)).
  { apply (rep_live _ _ _ _ _ Hrep). apply list_elem_of_here. }
  rewrite (bind_ok _ _ _ _ _ (get_wakeup_ok _ _ _ Hpay)).
  change ((e_pay e).2) with (e_wakeup e). simpl in Hl. rewrite Hl. reflexivity.
Qed.

(** What holds when [libt_flush] returns, whatever the callbacks did. *)
Lemma flush_post W fuel s n s' :
  wf s -> libt_flush W fuel s = Ok n s' ->
  inflight s' = [] /\
  head_later (clock W (ticks s) + 0.001)%float (pending s') /\
  Z.of_nat (length (fired s')) = Z.of_nat (length (fired s)) + n /\
  wf s'.
Proof.
  intros Hw R.
  assert (Hw' : wf s') by (eapply wf_flush; eauto).
  destruct (via_view_inv _ _ _ _ _ (refines_flush W fuel) Hw R) as [Hq _].
  remember (view s') as v eqn:Ev.
  unfold q_flush in Hq.
  apply bind_inv in Hq as (now & q1 & H1 & H2). injection H1 as <- <-.
  apply bind_inv in H2 as (cnt & q2 & H2 & H3).
  apply bind_inv in H3 as (u & q3 & H3 & H4).
  injection H3 as <- <-. injection H4 as -> Hv. subst v.
  apply q_dispatch_settles in H2 as (Hl & k & Hc & Hf).
  cbn [q_fired view q_ticks] in Hf, Hl.
  split; [rewrite <- view_inflight, <- Hv; reflexivity|].
  split; [rewrite <- view_pending, <- Hv; exact Hl|].
  split; [|exact Hw'].
  change (fired s') with (q_fired (view s')). rewrite <- Hv. cbn [q_fired].
  rewrite Hf. lia.
Qed.

(** [libt_flush] on the memory of the C program when the callbacks of the
    ready timers only ask. *)
Lemma flush_quiet W fuel s :
  wf s ->
  Forall (fun e => quiet (code W (e_fn e) (e_dat e)))
         (ready (clock W (ticks s) + 0.001)%float (pending s)) ->
  (length (ready (clock W (ticks s) + 0.001)%float (pending s)) <= fuel)%nat ->
  exists s',
    libt_flush W fuel s =
    Ok (Z.of_nat (length (ready (clock W (ticks s) + 0.001)%float (pending s)))) s' /\
    fired s' = fired s ++ (e_id <$> ready (clock W (ticks s) + 0.001)%float (pending s)) /\
    pending s' = waiting (clock W (ticks s) + 0.001)%float (pending s) /\
    inflight s' = [] /\
    freed s' = rev (e_addr <$> inflight s)
               ++ (e_addr <$> ready (clock W (ticks s) + 0.001)%float (pending s))
               ++ freed s /\
    brk s' = brk s /\
    wf s'.
Proof.
  intros Hw Hq Hfuel.
  pose proof (via_view _ _ s (refines_flush W fuel) Hw) as H.
  destruct (q_flush_quiet W fuel (pending s) (inflight s) (brk s) (freed s) (ticks s)
              (fired s) Hq Hfuel (good_addrs _ (proj2 Hw))) as (t' & _ & R).
  unfold view in H at 1. rewrite R in H. destruct H as (s' & R' & Hv & Hh).
  exists s'. split; [exact R'|].
  split; [change (fired s') with (q_fired (view s')); rewrite Hv; reflexivity|].
  split; [rewrite <- view_pending, Hv; reflexivity|].
  split; [rewrite <- view_inflight, Hv; reflexivity|].
  split.
  { change (freed s') with (q_freed (view s')). rewrite Hv. cbn [q_freed].
    rewrite fmap_app, rev_app_distr, fmap_rev, <- app_assoc.
    rewrite rev_involutive. reflexivity. }
  split; [change (brk s') with (q_brk (view s')); rewrite Hv; reflexivity|].
  eapply wf_flush; eauto.
Qed.

(** C1.  [libt_flush] takes [now + 0.001] as its reference time.  Each
    turn of its first loop takes the first pending timer, stops if there
    is none or if it is later than the reference time, and otherwise
    moves it to the timers in flight and only then runs its callback,
    whatever the callback does.  Whatever the callbacks do, when
    [libt_flush] returns [n], no timer is left in flight, no timer is
    pending or the first pending one is later than the reference time,
    and [n] callbacks were invoked.  When the callbacks of the ready
    timers (the pending timers before the first one that is later than
    the reference time) only ask the library, [libt_flush] returns, given
    fuel for that many callbacks: it invokes exactly the callbacks of the
    ready timers, in queue order, returns their number, leaves the other
    timers pending and releases the records of the timers it fired.  When
    the wakeup times and the reference time are numbers, the ready timers
    are the pending timers whose wakeup time is at most the reference
    time.  With timers due at 1, 2 and 3 and the clock at 2.5, the
    callbacks of the first two are invoked, in that order, and
    [libt_next_wakeup] then returns 3. *)
Theorem flush_fires_due (W : world) (s : state) :
  wf s ->
  let ref0 := (clock W (ticks s) + 0.001)%float in
  (forall e P n ref cnt,
     pending s = e :: P -> (ref <? e_wakeup e)%float = false ->
     exists s1,
       t_add (e_ptr e) (FAKE TMPTIMERS) s = Ok tt s1 /\
       pending s1 = P /\ inflight s1 = e :: inflight s /\
       dispatch W (S n) ref cnt s =
       (run W (code W (e_fn e) (e_dat e));; dispatch W n ref (cnt + 1))
         (State (timers s1) (tmptimers s1) (heap s1) (brk s1) (freed s1) (ticks s1)
                (fired s ++ [(e_fn e, e_dat e)]))) /\
  (forall n ref cnt,
     head_later ref (pending s) -> dispatch W (S n) ref cnt s = Ok cnt s) /\
  (forall fuel n s',
     libt_flush W fuel s = Ok n s' ->
     inflight s' = [] /\
     head_later ref0 (pending s') /\
     Z.of_nat (length (fired s')) = Z.of_nat (length (fired s)) + n /\
     wf s') /\
  (forall fuel,
     Forall (fun e => quiet (code W (e_fn e) (e_dat e))) (ready ref0 (pending s)) ->
     (length (ready ref0 (pending s)) <= fuel)%nat ->
     exists s',
       libt_flush W fuel s = Ok (Z.of_nat (length (ready ref0 (pending s)))) s' /\
       fired s' = fired s ++ (e_id <$> ready ref0 (pending s)) /\
       pending s' = waiting ref0 (pending s) /\
       inflight s' = [] /\
       freed s' = rev (e_addr <$> inflight s)
                  ++ (e_addr <$> ready ref0 (pending s)) ++ freed s /\
       wf s') /\
  (no_nan (pending s) -> Double.isnan ref0 = false ->
   ready ref0 (pending s) = due ref0 (pending s) /\
   waiting ref0 (pending s) = not_due ref0 (pending s)) /\
  (exists s2,
     libt_flush (W_idle 2.5) 3 three_timers = Ok 2 s2 /\
     fired s2 = [(101, 0); (102, 0)] /\
     libt_next_wakeup s2 = Ok 3%float s2).
Proof.
  intros Hw ref0. split; [|split; [|split; [|split; [|split]]]].
  - intros e P n ref cnt HP Hlt.
    destruct (dispatch_turn W s e P n ref cnt Hw HP Hlt)
      as (s1 & R1 & H1 & H2 & HA & _ & H3).
    exists s1. split; [exact R1|]. split; [exact H1|]. split; [exact H2|].
    rewrite H3. unfold aux in HA. injection HA as _ _ _ Hfi. rewrite <- Hfi.
    reflexivity.
  - intros n ref cnt Hl. apply dispatch_stop; assumption.
  - intros fuel n s' R. exact (flush_post W fuel s n s' Hw R).
  - intros fuel Hq Hfuel.
    destruct (flush_quiet W fuel s Hw Hq Hfuel) as (s' & R & H1 & H2 & H3 & H4 & _ & H5).
    exists s'. repeat (split; [assumption|]). assumption.
  - intros Hn Href. apply ready_due; [|exact Hn|exact Href].
    pose proof (good_sorted _ (proj2 Hw)) as Hs. rewrite view_pending in Hs. exact Hs.
  - eexists. split; [vm_compute; reflexivity|].
    split; vm_compute; reflexivity.
Qed.

Lemma flush_fires_due_witness :
  wf three_timers /\
  exists s',
    libt_flush (W_idle 2.5) 3 three_timers = Ok 2 s' /\
    fired s' = [(101, 0); (102, 0)] /\
    pending s' = [Entry 2 103 0 3].
Proof.
  pose proof (wf_reach _ _ _ three_timers_reach) as Hw.
  split; [exact Hw|].
  destruct (flush_fires_due (W_idle 2.5) three_timers Hw) as (_ & _ & _ & H & _).
  destruct (H 3%nat) as (s' & R & Hfi & Hp & _).
  - apply Forall_forall. intros x _. apply quiet_return.
  - rewrite three_timers_pending. vm_compute. lia.
  - exists s'. rewrite three_timers_pending in R, Hfi, Hp.
    split; [exact R|]. split; [|exact Hp].
    rewrite Hfi. vm_compute. reflexivity.
Defined.

(** C1 as stated fails: timers 101 and 102, due at 1 and 2, are both
    pending and both due at 2.5, yet a flush at 2.5 invokes one callback
    only and returns 1: the callback of 101 cancels 102, which is never
    fired. *)
Lemma flush_fires_due_counterexample :
  pending three_timers = [Entry 0 101 0 1; Entry 1 102 0 2; Entry 2 103 0 3] /\
  due (2.5 + 0.001)%float (pending three_timers) = [Entry 0 101 0 1; Entry 1 102 0 2] /\
  exists s',
    libt_flush (W_kill 2.5) 3 three_timers = Ok 1 s' /\
    fired s' = [(101, 0)] /\
    pending s' = [Entry 2 103 0 3].
Proof.
  split; [vm_compute; reflexivity|]. split; [vm_compute; reflexivity|].
  eexists. split; [vm_compute; reflexivity|]. split; vm_compute; reflexivity.
Qed.

(** ** A flush whose callbacks cancel their own timer *)

Lemma find_unique l e :
  NoDup (e_id <$> l) -> e ∈ l ->
  List.find (same_id (e_fn e) (e_dat e)) l = Some e.
Proof.
  intros Hnd Hin.
  destruct (List.find (same_id (e_fn e) (e_dat e)) l) as [x|] eqn:E.
  - apply find_some_id in E as [Hx Hid].
    assert (Hf : x ∈ filter (fun y => e_id y = e_id e) l).
    { apply list_elem_of_filter. split; assumption. }
    rewrite (filter_unique e_id l e Hnd Hin) in Hf.
    apply list_elem_of_singleton in Hf. congruence.
  - apply find_none_id in E. exfalso. apply E.
    apply list_elem_of_fmap. exists e. split; [reflexivity|exact Hin].
Qed.

Lemma due_sub ref e l : e ∈ due ref l -> e ∈ l.
Proof.
  unfold due. intros H. apply list_elem_of_In, filter_In in H as [H _].
  apply list_elem_of_In. exact H.
Qed.

Lemma due_not_due ref e l : e ∈ due ref l -> e ∉ not_due ref l.
Proof.
  unfold due, not_due. intros H1 H2.
  apply list_elem_of_In, filter_In in H1 as [_ H1].
  apply list_elem_of_In, filter_In in H2 as [_ H2].
  rewrite H1 in H2. discriminate.
Qed.

Lemma not_due_sub ref e l : e ∈ not_due ref l -> e ∈ l.
Proof.
  unfold not_due. intros H. apply list_elem_of_In, filter_In in H as [H _].
  apply list_elem_of_In. exact H.
Qed.

Lemma q_dispatch_tame W ref fuel P :
  Double.isnan ref = false ->
  sorted P -> no_nan P ->
  Forall (tame W) (due ref P) ->
  (length (due ref P) < fuel)%nat ->
  forall I b fr t fi cnt,
    NoDup (e_addr <$> (P ++ I)) ->
    NoDup (e_id <$> (P ++ I)) ->
    exists I' fr',
      q_dispatch W fuel ref cnt (Queue P I b fr t fi) =
      Ok (cnt + Z.of_nat (length (due ref P)))
         (Queue (not_due ref P) I' b fr' t (fi ++ (e_id <$> due ref P))) /\
      rev (e_addr <$> I') ++ fr' ≡ₚ
      (e_addr <$> due ref P) ++ rev (e_addr <$> I) ++ fr.
Proof.
  intros Href. revert fuel.
  induction P as [|e P IH]; intros fuel Hs Hn Hcode Hfuel I b fr t fi cnt Hnd Hid.
  - destruct fuel as [|fuel]; [simpl in Hfuel; lia|]. exists I, fr. simpl.
    rewrite Z.add_0_r, app_nil_r. split; reflexivity.
  - destruct fuel as [|fuel]; [lia|]. cbn [q_dispatch q_pending].
    destruct (ref <? e_wakeup e)%float eqn:Hlt.
    + destruct (due_none ref e P Hs Hn Hlt) as [-> ->]. exists I, fr. simpl.
      rewrite Z.add_0_r, app_nil_r. split; reflexivity.
    + assert (Hdue : (e_wakeup e <=? ref)%float = true).
      { rewrite leb_not_gt, Hlt; [reflexivity| |exact Href].
        apply Forall_cons in Hn as [Hn _]. exact Hn. }
      assert (Hd : due ref (e :: P) = e :: due ref P).
      { unfold due. simpl. rewrite Hdue. reflexivity. }
      assert (Hnd' : not_due ref (e :: P) = not_due ref P).
      { unfold not_due. simpl. rewrite Hdue. reflexivity. }
      rewrite Hd in Hcode, Hfuel |- *. rewrite Hnd'.
      apply Forall_cons in Hcode as [Hc Hcode].
      apply sorted_cons in Hs as [_ Hs]. apply Forall_cons in Hn as [_ Hn].
      unfold bind at 1. unfold q_fire. unfold bind at 1.
      cbn [q_pending q_inflight q_brk q_freed q_ticks q_fired].
      assert (Hnd0 := Hnd). assert (Hid0 := Hid).
      change ((e :: P) ++ I) with (e :: (P ++ I)) in Hnd, Hid.
      rewrite fmap_cons in Hnd. rewrite fmap_cons in Hid.
      apply NoDup_cons in Hnd as [Ha Hnd]. apply NoDup_cons in Hid as [Hi Hid].
      assert (HndP : NoDup (e_addr <$> ([] ++ e :: P))).
      { change ([] ++ e :: P) with (e :: P). rewrite fmap_cons. apply NoDup_cons.
        rewrite fmap_app in Ha. rewrite fmap_app in Hnd.
        apply not_elem_of_app in Ha as [HaP _]. apply NoDup_app in Hnd as [H _].
        split; assumption. }
      rewrite fmap_app in Ha. apply not_elem_of_app in Ha as [HaP HaI].
      change (e :: P) with ([] ++ e :: P).
      rewrite (drop_at _ _ _ HndP).
      rewrite (drop_notin _ _ HaI). simpl app.
      assert (Hperm : forall (T : Type) (f : entry -> T),
                 f <$> (P ++ e :: I) ≡ₚ f e :: (f <$> (P ++ I))).
      { intros T f. rewrite <- Permutation_middle. reflexivity. }
      destruct Hc as [Hc|Hc].
      * rewrite Hc. cbn [q_run]. unfold ret.
        destruct (IH fuel Hs Hn Hcode ltac:(simpl in Hfuel; lia) (e :: I) b fr t
                     (fi ++ [(e_fn e, e_dat e)]) (cnt + 1))
          as (I' & fr' & R & Hp).
        { rewrite Hperm. apply NoDup_cons. split; [|exact Hnd].
          rewrite fmap_app. apply not_elem_of_app. split; assumption. }
        { rewrite Hperm. apply NoDup_cons. split; assumption. }
        exists I', fr'. rewrite R. split.
        -- f_equal; [simpl length; lia|]. f_equal.
           rewrite <- app_assoc. reflexivity.
        -- rewrite Hp. rewrite fmap_cons. simpl rev.
           rewrite <- !app_assoc. simpl.
           rewrite <- !Permutation_middle. reflexivity.
      * unfold cancels_itself in Hc. rewrite Hc. cbn [q_run].
        unfold bind at 1. unfold q_remove_timeout, q_find.
        cbn [q_pending q_inflight q_brk q_freed q_ticks q_fired].
        rewrite (find_unique (P ++ e :: I) e).
        2:{ rewrite Hperm. apply NoDup_cons. split; assumption. }
        2:{ apply elem_of_app. right. apply list_elem_of_here. }
        rewrite (drop_notin _ _ HaP).
        change (e :: I) with ([] ++ e :: I).
        rewrite (drop_at [] e I).
        2:{ change ([] ++ e :: I) with (e :: I). rewrite fmap_cons. apply NoDup_cons. split; [exact HaI|].
            rewrite fmap_app in Hnd. apply NoDup_app in Hnd as (_ & _ & H). exact H. }
        simpl app. unfold ret.
        destruct (IH fuel Hs Hn Hcode ltac:(simpl in Hfuel; lia) I b (e_addr e :: fr) t
                     (fi ++ [(e_fn e, e_dat e)]) (cnt + 1) Hnd Hid)
          as (I' & fr' & R & Hp).
        exists I', fr'. rewrite R. split.
        -- f_equal; [simpl length; lia|]. f_equal.
           rewrite <- app_assoc. reflexivity.
        -- rewrite Hp. simpl.
           rewrite <- !Permutation_middle. reflexivity.
Qed.

(** C6.  A callback that cancels its own timer while [libt_flush] runs
    it (the other callbacks of that pass do nothing or do the same):
    [libt_flush] returns, the timer does not exist afterwards
    ([libt_timeout_exist] returns 0), and its record was released exactly
    once: its address occurs once among the released ones and is no
    longer allocated. *)
Theorem cancel_in_callback (W : world) (s : state) (fuel : nat) (e : entry) :
  wf s ->
  Double.isnan (clock W (ticks s) + 0.001)%float = false ->
  no_nan (pending s) ->
  Forall (tame W) (due (clock W (ticks s) + 0.001)%float (pending s)) ->
  (length (due (clock W (ticks s) + 0.001)%float (pending s)) <= fuel)%nat ->
  e ∈ due (clock W (ticks s) + 0.001)%float (pending s) ->
  cancels_itself W e ->
  exists s',
    libt_flush W fuel s =
    Ok (Z.of_nat (length (due (clock W (ticks s) + 0.001)%float (pending s)))) s' /\
    libt_timeout_exist (e_fn e) (e_dat e) s' = Ok 0 s' /\
    count_occ Nat.eq_dec (freed s') (e_addr e) = 1%nat /\
    heap s' !! (e_addr e) = None /\
    (e_addr e ∉ freed s) /\
    wf s'.
Proof.
  intros Hw Href Hn Hcode Hfuel Hin Hself.
  pose proof (via_view _ _ s (refines_flush W fuel) Hw) as H.
  destruct Hw as [Hh Hg]. assert (Hw : wf s) by (split; assumption).
  destruct (q_dispatch_tame W _ (S fuel) (pending s) Href (good_sorted _ Hg) Hn Hcode
              ltac:(apply Nat.lt_succ_r; exact Hfuel)
              (inflight s) (brk s) (freed s) (S (ticks s)) (fired s) 0
              (good_addrs _ Hg) (good_ids _ Hg)) as (I' & fr' & R & Hp).
  unfold q_flush, q_now in H. unfold bind at 1 in H.
  cbn [view q_ticks q_pending q_inflight q_brk q_freed q_fired] in H.
  unfold bind at 1 in H. rewrite R in H.
  unfold bind at 1 in H. unfold q_sweep, ret in H.
  cbn [q_ticks q_pending q_inflight q_brk q_freed q_fired] in H.
  destruct H as (s' & Rf & Hv & Hh').
  assert (Hw' : wf s') by (eapply wf_flush; eauto).
  assert (HinP : e ∈ pending s) by (eapply due_sub; exact Hin).
  assert (Hfr : e_addr e ∉ freed s).
  { intros Hf. pose proof (good_freed _ Hg) as HF.
    eapply Forall_forall in HF; [|exact Hf]. destruct HF as [_ HF]. apply HF.
    cbn [view q_pending q_inflight]. rewrite fmap_app. apply elem_of_app. left.
    apply list_elem_of_fmap. exists e. split; [reflexivity|exact HinP]. }
  assert (Hgone : e_addr e ∉ e_addr <$> (pending s' ++ inflight s')).
  { rewrite <- view_pending, <- view_inflight, Hv. cbn [q_pending q_inflight].
    rewrite app_nil_r. intros (x & Hx & Hxin)%list_elem_of_fmap.
    assert (Hxe : x = e).
    { pose proof (good_addrs _ Hg) as Hnd. cbn [view q_pending q_inflight] in Hnd.
      rewrite fmap_app in Hnd. apply NoDup_app in Hnd as (Hnd & _ & _).
      assert (Hf : x ∈ filter (fun y => e_addr y = e_addr e) (pending s)).
      { apply list_elem_of_filter. split; [congruence|].
        eapply not_due_sub. exact Hxin. }
      rewrite (filter_unique e_addr _ e Hnd HinP) in Hf.
      apply list_elem_of_singleton in Hf. exact Hf. }
    subst x. eapply due_not_due; eauto. }
  exists s'. split; [rewrite Z.add_0_l in Rf; exact Rf|]. split; [|split; [|split; [|split]]].
  - pose proof (via_view _ _ s' (refines_exist (e_fn e) (e_dat e)) Hw') as He.
    unfold q_timeout_exist in He. destruct He as (s2 & R2 & Hv2 & _).
    assert (Hnone : q_find (e_fn e) (e_dat e) (view s') = None).
    { unfold q_find. rewrite Hv. cbn [q_pending q_inflight]. rewrite app_nil_r.
      destruct (List.find _ _) as [x|] eqn:E; [|reflexivity]. exfalso.
      apply find_some_id in E as [Hx Hxid].
      assert (Hxe : x = e).
      { pose proof (good_ids _ Hg) as Hnd. cbn [view q_pending q_inflight] in Hnd.
        rewrite fmap_app in Hnd. apply NoDup_app in Hnd as (Hnd & _ & _).
        assert (Hf : x ∈ filter (fun y => e_id y = e_id e) (pending s)).
        { apply list_elem_of_filter. split; [exact Hxid|].
          eapply not_due_sub. exact Hx. }
        rewrite (filter_unique e_id _ e Hnd HinP) in Hf.
        apply list_elem_of_singleton in Hf. exact Hf. }
      subst x. eapply due_not_due; eauto. }
    rewrite Hnone in R2. 
    assert (Hs2 : s2 = s').
    { unfold libt_timeout_exist in R2. apply bind_inv in R2 as (t & s3 & R3 & R4).
      injection R4 as _ <-. 
      pose proof (t_find_spec _ _ _ _ (e_fn e) (e_dat e) (wf_rep _ Hw')) as Hfd.
      rewrite Hfd in R3. injection R3 as _ <-. reflexivity. }
    rewrite Hs2 in R2. exact R2.
  - assert (Hnd : NoDup (freed s')).
    { apply (good_freed_nodup _ (proj2 Hw')). }
    assert (Hmem : e_addr e ∈ freed s').
    { change (freed s') with (q_freed (view s')). rewrite Hv. cbn [q_freed].
      rewrite Hp. apply elem_of_app. left.
      apply list_elem_of_fmap. exists e. split; [reflexivity|exact Hin]. }
    apply NoDup_ListNoDup in Hnd. apply list_elem_of_In in Hmem.
    pose proof (proj1 (NoDup_count_occ Nat.eq_dec (freed s')) Hnd (e_addr e)) as Hle.
    pose proof (proj1 (count_occ_In Nat.eq_dec (freed s') (e_addr e)) Hmem) as Hge.
    lia.
  - destruct (heap s' !! e_addr e) eqn:E; [|reflexivity]. exfalso.
    apply Hgone. pose proof (rep_dom _ _ _ _ (wf_rep _ Hw') (e_addr e)) as Hd.
    rewrite app_nil_r in Hd. apply Hd. rewrite E. eauto.
  - exact Hfr.
  - exact Hw'.
Qed.

Lemma cancel_in_callback_witness :
  exists s',
    libt_flush (W_cancel 2.5) 3 three_timers = Ok 2 s' /\
    libt_timeout_exist 101 0 s' = Ok 0 s' /\
    count_occ Nat.eq_dec (freed s') 0%nat = 1%nat.
Proof.
  pose proof (wf_reach _ _ _ three_timers_reach) as Hw.
  assert (Hn : no_nan (pending three_timers)).
  { rewrite three_timers_pending. repeat constructor. }
  assert (Hd : due (clock (W_cancel 2.5) (ticks three_timers) + 0.001)%float
                   (pending three_timers) = [Entry 0 101 0 1; Entry 1 102 0 2]).
  { rewrite three_timers_pending. vm_compute. reflexivity. }
  assert (Hc : Forall (tame (W_cancel 2.5))
                 (due (clock (W_cancel 2.5) (ticks three_timers) + 0.001)%float
                      (pending three_timers))).
  { rewrite Hd. apply Forall_cons. split; [right; reflexivity|].
    apply Forall_cons. split; [left; reflexivity|]. apply Forall_nil. exact I. }
  assert (Hf : (length (due (clock (W_cancel 2.5) (ticks three_timers) + 0.001)%float
                            (pending three_timers)) <= 3)%nat).
  { rewrite Hd. simpl. lia. }
  assert (Hin : Entry 0 101 0 1 ∈
                due (clock (W_cancel 2.5) (ticks three_timers) + 0.001)%float
                    (pending three_timers)).
  { rewrite Hd. apply list_elem_of_here. }
  destruct (cancel_in_callback (W_cancel 2.5) three_timers 3 (Entry 0 101 0 1)
              Hw eq_refl Hn Hc Hf Hin eq_refl)
    as (s' & R & He & Hcnt & _).
  exists s'. rewrite Hd in R. split; [exact R|]. split; [exact He|exact Hcnt].
Defined.

(** ** A flush whose callback schedules its own timer again *)

(** ** A pass in which one callback schedules its own timer again *)

Lemma insert_sorted_past x r u :
  Forall (fun y => (e_wakeup x <? e_wakeup y)%float = false) r ->
  insert_sorted x (r ++ u) = r ++ insert_sorted x u.
Proof.
  induction r as [|y r IH]; intros Hr; [reflexivity|].
  apply Forall_cons in Hr as [Hy Hr]. simpl. rewrite Hy, (IH Hr). reflexivity.
Qed.

(** A timer that is later than [ref] goes behind those that are not. *)
Lemma later_past ref x r :
  (ref <? e_wakeup x)%float = true ->
  Forall (fun y => (ref <? e_wakeup y)%float = false) r ->
  Forall (fun y => (e_wakeup x <? e_wakeup y)%float = false) r.
Proof.
  intros Hx Hr. apply Forall_forall. intros y Hy.
  eapply Forall_forall in Hr; [|exact Hy].
  destruct (e_wakeup x <? e_wakeup y)%float eqn:E; [|reflexivity].
  rewrite (ltb_trans _ _ _ Hx E) in Hr. discriminate.
Qed.

Lemma NoDup_fmap_perm {A B} (f : A -> B) (l k : list A) :
  l ≡ₚ k -> NoDup (f <$> l) -> NoDup (f <$> k).
Proof. intros H. rewrite H. auto. Qed.

Lemma q_flush_rearm_pass W fuel l1 e l2 I b fr t fi w flags :
  NoDup (e_id <$> ((l1 ++ e :: l2) ++ I)) ->
  NoDup (e_addr <$> ((l1 ++ e :: l2) ++ I)) ->
  Forall (fun x => (clock W t + 0.001 <? e_wakeup x)%float = false) (l1 ++ [e]) ->
  Forall (fun x => quiet (code W (e_fn x) (e_dat x))) l1 ->
  Forall (fun x => quiet (code W (e_fn x) (e_dat x)))
         (ready (clock W t + 0.001)%float l2) ->
  rearms_itself W e w flags ->
  Double.isnan w = false -> has flags LIBT_MOD = true ->
  (forall t1, (t < t1)%nat ->
     (clock W t + 0.001 <?
      new_wakeup flags w (clock W t1) (Some (e_wakeup e)))%float = true) ->
  (length l1 + 1 + length (ready (clock W t + 0.001)%float l2) <= fuel)%nat ->
  exists t1 t', (t < t1)%nat /\ (t1 <= t')%nat /\
    (Forall (fun x => code W (e_fn x) (e_dat x) = Return) l1 -> t1 = S t) /\
    q_flush W fuel (Queue (l1 ++ e :: l2) I b fr t fi) =
    Ok (Z.of_nat (length l1 + 1 + length (ready (clock W t + 0.001)%float l2)))
       (Queue (insert_sorted
                 (with_wakeup (new_wakeup flags w (clock W t1) (Some (e_wakeup e))) e)
                 (waiting (clock W t + 0.001)%float l2))
              [] b
              (rev (e_addr <$> (rev (ready (clock W t + 0.001)%float l2) ++ rev l1 ++ I))
               ++ fr)
              t'
              (fi ++ (e_id <$> l1) ++ [e_id e]
                  ++ (e_id <$> ready (clock W t + 0.001)%float l2))).
Proof.
  intros Hid Hnd Hdue Hq1 Hq2 Hcode Hw Hmod Hnew Hfuel.
  set (ref := (clock W t + 0.001)%float) in *.
  apply Forall_app in Hdue as [Hl1 He]. apply Forall_cons in He as [He _].
  unfold q_flush, q_now. unfold bind at 1.
  cbn [q_ticks q_pending q_inflight q_brk q_freed q_fired]. fold ref.
  unfold bind at 1.
  set (k := (fuel - (length l1 + 1 + length (ready ref l2)))%nat).
  replace (S fuel) with (length l1 + S (length (ready ref l2) + S k))%nat by lia.
  destruct (q_dispatch_pass W ref l1 Hl1 Hq1 (e :: l2) I b fr (S t) fi 0
              (S (length (ready ref l2) + S k))) as (t1 & Ht1 & Hpin & R1).
  { rewrite app_assoc. exact Hnd. }
  rewrite R1. clear R1.
  remember (length (ready ref l2) + S k)%nat as n eqn:En.
  cbn [q_dispatch q_pending]. rewrite He.
  unfold bind at 1. unfold q_fire. unfold bind at 1.
  cbn [q_ticks q_pending q_inflight q_brk q_freed q_fired].
  (* the addresses and identities, [e] first *)
  assert (Hperm : (l1 ++ e :: l2) ++ I ≡ₚ e :: (l2 ++ rev l1 ++ I)).
  { rewrite <- Permutation_rev.
    transitivity ((e :: (l1 ++ l2)) ++ I).
    - apply Permutation_app_tail. symmetry. apply Permutation_middle.
    - simpl. apply perm_skip. rewrite app_assoc. apply Permutation_app_tail.
      apply Permutation_app_comm. }
  assert (Hnd' := NoDup_fmap_perm e_addr _ _ Hperm Hnd).
  assert (Hid' := NoDup_fmap_perm e_id _ _ Hperm Hid).
  rewrite fmap_cons in Hnd'. apply NoDup_cons in Hnd' as [Ha Hnd'].
  rewrite fmap_app in Ha. apply not_elem_of_app in Ha as [Ha2 HaI].
  assert (HdP : drop (e_addr e) (e :: l2) = l2).
  { unfold drop. rewrite filter_cons_False by (intros H; apply H; reflexivity).
    apply drop_notin. exact Ha2. }
  assert (HdI : drop (e_addr e) (e :: rev l1 ++ I) = rev l1 ++ I).
  { unfold drop. rewrite filter_cons_False by (intros H; apply H; reflexivity).
    apply drop_notin. exact HaI. }
  rewrite HdP, (drop_notin _ _ HaI).
  unfold rearms_itself in Hcode. rewrite Hcode. cbn [q_run].
  unfold bind at 1.
  rewrite (q_add_update W w (e_fn e) (e_dat e) flags _ e Hw); [|
    unfold q_find; cbn [q_pending q_inflight]; apply find_unique;
    [ apply (NoDup_fmap_perm e_id (e :: (l2 ++ rev l1 ++ I)));
      [apply Permutation_middle|exact Hid']
    | apply elem_of_app; right; apply list_elem_of_here ] | exact Hmod ].
  cbn [q_ticks q_pending q_inflight q_brk q_freed q_fired].
  rewrite HdI, (drop_notin _ _ Ha2). unfold ret.
  set (e' := with_wakeup (new_wakeup flags w (clock W t1) (Some (e_wakeup e))) e).
  assert (Hlater : (ref <? e_wakeup e')%float = true).
  { apply Hnew. lia. }
  assert (El2 : insert_sorted e' l2 =
                insert_sorted e' (ready ref l2 ++ waiting ref l2)).
  { rewrite <- ready_waiting. reflexivity. }
  rewrite El2.
  rewrite (insert_sorted_past e' _ _ (later_past ref e' _ Hlater (ready_all ref l2))).
  subst n.
  destruct (q_dispatch_pass W ref (ready ref l2) (ready_all ref l2) Hq2
              (insert_sorted e' (waiting ref l2)) (rev l1 ++ I) b fr
              (tick (reads_clock flags (Some (e_wakeup e))) t1)
              ((fi ++ (e_id <$> l1)) ++ [(e_fn e, e_dat e)]) (0 + Z.of_nat (length l1) + 1)
              (S k)) as (t' & Ht' & _ & R2).
  { assert (E2 : l2 ++ rev l1 ++ I =
                 ready ref l2 ++ waiting ref l2 ++ rev l1 ++ I).
    { rewrite (app_assoc (ready ref l2)), <- ready_waiting. reflexivity. }
    assert (Hp2 : e_addr <$> (ready ref l2 ++ insert_sorted e' (waiting ref l2)
                              ++ rev l1 ++ I)
                  ≡ₚ e_addr e :: (e_addr <$> (l2 ++ rev l1 ++ I))).
    { rewrite E2, (insert_sorted_perm e' (waiting ref l2)).
      rewrite !fmap_app. simpl. symmetry. apply Permutation_middle. }
    rewrite Hp2. apply NoDup_cons. split; [|exact Hnd'].
    rewrite fmap_app. apply not_elem_of_app. split; assumption. }
  rewrite R2. clear R2.
  rewrite q_dispatch_stop
    by (cbn [q_pending]; apply insert_head_later; [exact Hlater|apply waiting_head]).
  exists t1, t'. split; [lia|]. split.
  { unfold tick in Ht'. destruct (reads_clock _ _); lia. }
  split; [exact Hpin|].
  unfold bind, q_sweep. cbn [q_ticks q_pending q_inflight q_brk q_freed q_fired].
  f_equal; [lia|]. f_equal. rewrite <- !app_assoc. reflexivity.
Qed.

(** The same on the memory of the C program. *)
Lemma flush_rearm_pass W s fuel l1 e l2 w flags :
  wf s -> pending s = l1 ++ e :: l2 ->
  Forall (fun x => (clock W (ticks s) + 0.001 <? e_wakeup x)%float = false) (l1 ++ [e]) ->
  Forall (fun x => quiet (code W (e_fn x) (e_dat x))) l1 ->
  Forall (fun x => quiet (code W (e_fn x) (e_dat x)))
         (ready (clock W (ticks s) + 0.001)%float l2) ->
  rearms_itself W e w flags ->
  Double.isnan w = false -> has flags LIBT_MOD = true ->
  (forall t1, (ticks s < t1)%nat ->
     (clock W (ticks s) + 0.001 <?
      new_wakeup flags w (clock W t1) (Some (e_wakeup e)))%float = true) ->
  (length l1 + 1 + length (ready (clock W (ticks s) + 0.001)%float l2) <= fuel)%nat ->
  exists s' t1 t', (ticks s < t1)%nat /\
    (Forall (fun x => code W (e_fn x) (e_dat x) = Return) l1 -> t1 = S (ticks s)) /\
    libt_flush W fuel s =
    Ok (Z.of_nat (length l1 + 1 + length (ready (clock W (ticks s) + 0.001)%float l2)))
       s' /\
    view s' =
    Queue (insert_sorted
             (with_wakeup (new_wakeup flags w (clock W t1) (Some (e_wakeup e))) e)
             (waiting (clock W (ticks s) + 0.001)%float l2))
          [] (brk s)
          (rev (e_addr <$> (rev (ready (clock W (ticks s) + 0.001)%float l2)
                            ++ rev l1 ++ inflight s)) ++ freed s)
          t'
          (fired s ++ (e_id <$> l1) ++ [e_id e]
             ++ (e_id <$> ready (clock W (ticks s) + 0.001)%float l2)) /\
    wf s'.
Proof.
  intros Hw HP Hdue Hq1 Hq2 Hcode Hnan Hmod Hnew Hfuel.
  pose proof (via_view _ _ s (refines_flush W fuel) Hw) as H.
  assert (Hg := proj2 Hw).
  assert (Hv : view s = Queue (l1 ++ e :: l2) (inflight s) (brk s) (freed s) (ticks s)
                              (fired s)).
  { unfold view. rewrite HP. reflexivity. }
  rewrite Hv in H.
  destruct (q_flush_rearm_pass W fuel l1 e l2 (inflight s) (brk s) (freed s) (ticks s)
              (fired s) w flags) as (t1 & t' & Ht1 & _ & Hpin & R); try assumption.
  - pose proof (good_ids _ Hg) as G. rewrite Hv in G. exact G.
  - pose proof (good_addrs _ Hg) as G. rewrite Hv in G. exact G.
  - rewrite R in H. destruct H as (s' & R' & Hv' & Hh).
    exists s', t1, t'. split; [exact Ht1|]. split; [exact Hpin|].
    split; [exact R'|]. split; [exact Hv'|].
    eapply wf_flush; eauto.
Qed.

Lemma timers_of_unique e e' s :
  wf s -> e' ∈ pending s ++ inflight s -> e_id e' = e_id e ->
  timers_of e s = [e'].
Proof.
  intros Hw Hin Hid. unfold timers_of. rewrite <- Hid.
  apply filter_unique; [|exact Hin].
  pose proof (good_ids _ (proj2 Hw)) as G. exact G.
Qed.

Lemma insert_sorted_in e l : e ∈ insert_sorted e l.
Proof.
  induction l as [|x l IH]; simpl; [apply list_elem_of_here|].
  destruct (e_wakeup e <? e_wakeup x)%float; [apply list_elem_of_here|].
  apply list_elem_of_further. exact IH.
Qed.

(** C4, as the code has it.  A call of [libt_add_timeoutx] with LIBT_MOD
    and LIBT_REPEAT for an existing timer gives it the wakeup time
    [old + w], or [now + w] when [old + w] is earlier than the current
    time [now], and the identity keeps exactly one timer.  When a ready
    timer, anywhere among the ready timers, has a callback that does so
    for its own identity, and the callbacks of the other ready timers
    only ask the library, [libt_flush] returns after one callback for
    each ready timer, and the identity ends with exactly one timer,
    pending at that wakeup time, with [now] a reading of the clock after
    that of [libt_flush] (the very next one when the callbacks invoked
    before it just return), provided that time lies after the reference
    time of the pass for every such reading. *)
Theorem repeat_rearm (W : world) (s : state) (e : entry) (w : float) (flags : Z) :
  wf s ->
  Double.isnan w = false ->
  has flags LIBT_MOD = true ->
  has flags LIBT_REPEAT = true ->
  let ref0 := (clock W (ticks s) + 0.001)%float in
  (e ∈ pending s ++ inflight s ->
   exists s',
     libt_add_timeoutx W w (e_fn e) (e_dat e) flags s = Ok 0 s' /\
     timers_of e s' =
     [with_wakeup (repeat_time (clock W (ticks s)) (e_wakeup e) w) e] /\
     repeat_time (clock W (ticks s)) (e_wakeup e) w =
     (if (e_wakeup e + w <? clock W (ticks s))%float
      then (clock W (ticks s) + w)%float else (e_wakeup e + w)%float)) /\
  (forall l1 l2 fuel,
     pending s = l1 ++ e :: l2 ->
     Forall (fun x => (ref0 <? e_wakeup x)%float = false) (l1 ++ [e]) ->
     Forall (fun x => quiet (code W (e_fn x) (e_dat x))) (l1 ++ ready ref0 l2) ->
     rearms_itself W e w flags ->
     (forall t1, (ticks s < t1)%nat ->
        (ref0 <? repeat_time (clock W t1) (e_wakeup e) w)%float = true) ->
     (length l1 + 1 + length (ready ref0 l2) <= fuel)%nat ->
     exists s' t1,
       (ticks s < t1)%nat /\
       (Forall (fun x => code W (e_fn x) (e_dat x) = Return) l1 -> t1 = S (ticks s)) /\
       libt_flush W fuel s = Ok (Z.of_nat (length l1 + 1 + length (ready ref0 l2))) s' /\
       fired s' = fired s ++ (e_id <$> l1) ++ [e_id e] ++ (e_id <$> ready ref0 l2) /\
       timers_of e s' =
       [with_wakeup (repeat_time (clock W t1) (e_wakeup e) w) e] /\
       with_wakeup (repeat_time (clock W t1) (e_wakeup e) w) e ∈ pending s').
Proof.
  intros Hw Hnan Hmod Hrep ref0.
  assert (Hnew : forall now, new_wakeup flags w now (Some (e_wakeup e)) =
                             repeat_time now (e_wakeup e) w).
  { intros now. unfold new_wakeup. rewrite Hrep. reflexivity. }
  split.
  - intros Hin.
    pose proof (via_view _ _ s (refines_add W w (e_fn e) (e_dat e) flags) Hw) as H.
    assert (Hf : q_find (e_fn e) (e_dat e) (view s) = Some e).
    { unfold q_find. apply find_unique; [|exact Hin]. apply (good_ids _ (proj2 Hw)). }
    rewrite (q_add_update W w _ _ flags _ e Hnan Hf Hmod) in H.
    destruct H as (s' & R & Hv & Hh). exists s'. split; [exact R|].
    assert (Hw' : wf s') by (eapply wf_add; eauto).
    split; [|reflexivity].
    apply timers_of_unique; [exact Hw'| |reflexivity].
    rewrite <- view_pending, <- view_inflight, Hv. cbn [q_pending q_inflight view q_ticks].
    rewrite Hnew. apply elem_of_app. left. apply insert_sorted_in.
  - intros l1 l2 fuel HP Hdue Hq Hcode Hlater Hfuel.
    apply Forall_app in Hq as [Hq1 Hq2].
    destruct (flush_rearm_pass W s fuel l1 e l2 w flags Hw HP Hdue Hq1 Hq2 Hcode Hnan Hmod)
      as (s' & t1 & t' & Ht1 & Hpin & R & Hv & Hw').
    { intros t1 Ht1. rewrite Hnew. apply Hlater. exact Ht1. }
    { exact Hfuel. }
    exists s', t1. split; [exact Ht1|]. split; [exact Hpin|]. split; [exact R|].
    rewrite Hnew in Hv.
    assert (Hin : with_wakeup (repeat_time (clock W t1) (e_wakeup e) w) e ∈ pending s').
    { rewrite <- view_pending, Hv. cbn [q_pending]. apply insert_sorted_in. }
    split; [change (fired s') with (q_fired (view s')); rewrite Hv; reflexivity|].
    split; [|exact Hin].
    apply timers_of_unique; [exact Hw'| |reflexivity].
    apply elem_of_app. left. exact Hin.
Qed.

Lemma one_timer_reach : do_calls (W_idle 0) one_call init = Ok tt one_timer.
Proof. vm_compute. reflexivity. Qed.

Lemma one_timer_pending : pending one_timer = [Entry 0 7 0 5.0005].
Proof. vm_compute. reflexivity. Qed.

Lemma one_timer_inflight : inflight one_timer = [].
Proof. vm_compute. reflexivity. Qed.

Lemma repeat_rearm_witness :
  (exists s',
     libt_add_timeoutx (W_repeat 7) 5 7 0 (Z.lor LIBT_MOD LIBT_REPEAT) one_timer = Ok 0 s' /\
     timers_of (Entry 0 7 0 5.0005) s' = [Entry 0 7 0 (5.0005 + 5)]) /\
  (exists s',
     libt_flush (W_rearm 2.5) 3 three_timers = Ok 2 s' /\
     fired s' = [(101, 0); (102, 0)] /\
     timers_of (Entry 1 102 0 2) s' = [Entry 1 102 0 (2 + 5)]).
Proof.
  split.
  - pose proof (wf_reach _ _ _ one_timer_reach) as Hw.
    destruct (repeat_rearm (W_repeat 7) one_timer (Entry 0 7 0 5.0005) 5
                (Z.lor LIBT_MOD LIBT_REPEAT) Hw eq_refl eq_refl eq_refl) as [Ha _].
    destruct Ha as (s' & R & Ht & _).
    { rewrite one_timer_pending, one_timer_inflight. apply list_elem_of_here. }
    exists s'. split; [exact R|exact Ht].
  - pose proof (wf_reach _ _ _ three_timers_reach) as Hw.
    destruct (repeat_rearm (W_rearm 2.5) three_timers (Entry 1 102 0 2) 5
                (Z.lor LIBT_MOD LIBT_REPEAT) Hw eq_refl eq_refl eq_refl) as [_ Hb].
    destruct (Hb [Entry 0 101 0 1] [Entry 2 103 0 3] 3%nat three_timers_pending)
      as (s' & t1 & _ & _ & R & Hf & Ht & _).
    + repeat (apply Forall_cons; split; [reflexivity|]). apply Forall_nil. exact I.
    + apply Forall_cons. split; [apply quiet_return|apply Forall_nil; exact I].
    + reflexivity.
    + intros t1 _. reflexivity.
    + cbn [clock W_rearm]. vm_compute. lia.
    + exists s'. split; [exact R|]. split; [|exact Ht].
      rewrite Hf. vm_compute. reflexivity.
Defined.

(** C4 as stated fails: with the clock at 10, a timer due at 5.0005 whose
    callback schedules it again with LIBT_REPEAT and 5 gets 10.0005, which
    is within the reference time 10.001 of the same pass: the callback
    runs a second time, and the timer ends at 15.0005, which is neither
    the original wakeup time plus 5 nor the current time plus 5. *)
Lemma repeat_rearm_counterexample :
  exists s',
    libt_flush (W_repeat 10) 2 one_timer = Ok 2 s' /\
    fired s' = [(7, 0); (7, 0)] /\
    pending s' = [Entry 0 7 0 (5.0005 + 5 + 5)] /\
    (5.0005 + 5 + 5 =? 5.0005 + 5)%float = false /\
    (5.0005 + 5 + 5 =? 10 + 5)%float = false /\
    (5.0005 + 5 <? 10)%float = false.
Proof.
  eexists. split; [vm_compute; reflexivity|].
  repeat split; vm_compute; reflexivity.
Qed.

(** C5, as the code has it.  [libt_add_timeoutx] finds a timer of the
    identity also among the timers in flight, and with LIBT_MOD it takes
    that very record out of the timers in flight and puts it, with its new
    wakeup time, among the pending ones: nothing is allocated and nothing
    of it stays in flight.  When a ready timer has a callback that
    schedules its own identity again, the callbacks of the other ready
    timers only ask the library, and the new wakeup time is after the
    reference time of the pass (for every reading of the clock after
    that of [libt_flush]), [libt_flush] invokes one callback for each
    ready timer, the timer pending afterwards is the record that was
    fired, at the same address, nothing was allocated, and the final
    sweep of [libt_flush] releases the records of the other timers it
    fired but not that one. *)
Theorem rearm_reuses_record (W : world) (s : state) (e : entry) (w : float) (flags : Z) :
  wf s ->
  Double.isnan w = false ->
  has flags LIBT_MOD = true ->
  let ref0 := (clock W (ticks s) + 0.001)%float in
  (e ∈ inflight s ->
   exists s',
     libt_add_timeoutx W w (e_fn e) (e_dat e) flags s = Ok 0 s' /\
     pending s' =
     insert_sorted
       (with_wakeup (new_wakeup flags w (clock W (ticks s)) (Some (e_wakeup e))) e)
       (pending s) /\
     inflight s' = drop (e_addr e) (inflight s) /\
     (e_addr e ∉ e_addr <$> inflight s') /\
     brk s' = brk s /\ freed s' = freed s) /\
  (forall l1 l2 fuel,
     pending s = l1 ++ e :: l2 ->
     Forall (fun x => (ref0 <? e_wakeup x)%float = false) (l1 ++ [e]) ->
     Forall (fun x => quiet (code W (e_fn x) (e_dat x))) (l1 ++ ready ref0 l2) ->
     rearms_itself W e w flags ->
     (forall t1, (ticks s < t1)%nat ->
        (ref0 <? new_wakeup flags w (clock W t1) (Some (e_wakeup e)))%float = true) ->
     (length l1 + 1 + length (ready ref0 l2) <= fuel)%nat ->
     exists s' t1,
       (ticks s < t1)%nat /\
       (Forall (fun x => code W (e_fn x) (e_dat x) = Return) l1 -> t1 = S (ticks s)) /\
       libt_flush W fuel s = Ok (Z.of_nat (length l1 + 1 + length (ready ref0 l2))) s' /\
       fired s' = fired s ++ (e_id <$> l1) ++ [e_id e] ++ (e_id <$> ready ref0 l2) /\
       pending s' =
       insert_sorted
         (with_wakeup (new_wakeup flags w (clock W t1) (Some (e_wakeup e))) e)
         (waiting ref0 l2) /\
       inflight s' = [] /\
       brk s' = brk s /\
       freed s' = rev (e_addr <$> inflight s) ++ (e_addr <$> l1)
                  ++ (e_addr <$> ready ref0 l2) ++ freed s /\
       (e_addr e ∉ freed s') /\
       pay s' (e_addr e) =
       Some (e_fn e, e_dat e, new_wakeup flags w (clock W t1) (Some (e_wakeup e)))).
Proof.
  intros Hw Hnan Hmod ref0. split.
  - intros Hin.
    pose proof (via_view _ _ s (refines_add W w (e_fn e) (e_dat e) flags) Hw) as H.
    assert (Hf : q_find (e_fn e) (e_dat e) (view s) = Some e).
    { unfold q_find. apply find_unique; [apply (good_ids _ (proj2 Hw))|].
      apply elem_of_app. right. exact Hin. }
    rewrite (q_add_update W w _ _ flags _ e Hnan Hf Hmod) in H.
    destruct H as (s' & R & Hv & Hh). exists s'. split; [exact R|].
    assert (HaP : e_addr e ∉ e_addr <$> pending s).
    { pose proof (good_addrs _ (proj2 Hw)) as G. cbn [view q_pending q_inflight] in G.
      rewrite fmap_app in G. apply NoDup_app in G as (_ & G & _).
      intros HP. apply (G _ HP). apply list_elem_of_fmap.
      exists e. split; [reflexivity|exact Hin]. }
    split; [rewrite <- view_pending, Hv; cbn [q_pending view q_ticks];
            rewrite (drop_notin _ _ HaP); reflexivity|].
    split; [rewrite <- view_inflight, Hv; reflexivity|].
    split; [rewrite <- view_inflight, Hv; cbn [q_inflight view]; apply drop_addr|].
    split.
    + change (brk s') with (q_brk (view s')). rewrite Hv. reflexivity.
    + change (freed s') with (q_freed (view s')). rewrite Hv. reflexivity.
  - intros l1 l2 fuel HP Hdue Hq Hcode Hlater Hfuel.
    apply Forall_app in Hq as [Hq1 Hq2].
    destruct (flush_rearm_pass W s fuel l1 e l2 w flags Hw HP Hdue Hq1 Hq2 Hcode Hnan Hmod
                Hlater Hfuel) as (s' & t1 & t' & Ht1 & Hpin & R & Hv & Hw').
    exists s', t1. split; [exact Ht1|]. split; [exact Hpin|]. split; [exact R|].
    assert (Hin : with_wakeup (new_wakeup flags w (clock W t1) (Some (e_wakeup e))) e
                  ∈ pending s').
    { rewrite <- view_pending, Hv. cbn [q_pending]. apply insert_sorted_in. }
    split; [change (fired s') with (q_fired (view s')); rewrite Hv; reflexivity|].
    split; [rewrite <- view_pending, Hv; reflexivity|].
    split; [rewrite <- view_inflight, Hv; reflexivity|].
    split; [change (brk s') with (q_brk (view s')); rewrite Hv; reflexivity|].
    split.
    { change (freed s') with (q_freed (view s')). rewrite Hv. cbn [q_freed].
      rewrite !fmap_app, !rev_app_distr, !fmap_rev, !rev_involutive, <- !app_assoc.
      reflexivity. }
    split.
    + intros Hfr. pose proof (good_freed _ (proj2 Hw')) as G.
      change (q_freed (view s')) with (freed s') in G.
      eapply Forall_forall in G; [|exact Hfr]. destruct G as [_ G]. apply G.
      rewrite view_pending, view_inflight. apply list_elem_of_fmap.
      exists (with_wakeup (new_wakeup flags w (clock W t1) (Some (e_wakeup e))) e).
      split; [reflexivity|]. apply elem_of_app. left. exact Hin.
    + pose proof (rep_live s' _ _ _
                    (with_wakeup (new_wakeup flags w (clock W t1) (Some (e_wakeup e))) e)
                    (wf_rep _ Hw')) as Hp.
      apply Hp. apply elem_of_app. left. exact Hin.
Qed.

Lemma rearm_reuses_record_witness :
  exists s',
    libt_flush (W_rearm 2.5) 3 three_timers = Ok 2 s' /\
    pending s' = [Entry 2 103 0 3; Entry 1 102 0 (2 + 5)] /\
    inflight s' = [] /\
    brk s' = 3%nat /\ freed s' = [0%nat].
Proof.
  pose proof (wf_reach _ _ _ three_timers_reach) as Hw.
  destruct (rearm_reuses_record (W_rearm 2.5) three_timers (Entry 1 102 0 2) 5
              (Z.lor LIBT_MOD LIBT_REPEAT) Hw eq_refl eq_refl) as [_ Hb].
  destruct (Hb [Entry 0 101 0 1] [Entry 2 103 0 3] 3%nat three_timers_pending)
    as (s' & t1 & _ & _ & R & _ & H1 & H2 & H3 & H4 & _).
  - repeat (apply Forall_cons; split; [reflexivity|]). apply Forall_nil. exact I.
  - apply Forall_cons. split; [apply quiet_return|apply Forall_nil; exact I].
  - reflexivity.
  - intros t1 _. reflexivity.
  - cbn [clock W_rearm]. vm_compute. lia.
  - exists s'. split; [exact R|]. split; [exact H1|]. split; [exact H2|].
    split; [rewrite H3|rewrite H4]; vm_compute; reflexivity.
Defined.

(** C5 as stated fails: a timer whose callback schedules its own identity
    again.  After [libt_flush] the pending timer is the record at address
    0, the one that was fired; no second record was ever allocated (the
    allocator still stands at 1), and nothing was released: there was no
    remnant in flight for the final sweep to free. *)
Lemma rearm_counterexample :
  exists s',
    libt_flush (W_repeat 7) 1 one_timer = Ok 1 s' /\
    pending one_timer = [Entry 0 7 0 5.0005] /\
    pending s' = [Entry 0 7 0 (5.0005 + 5)] /\
    brk s' = 1%nat /\
    freed s' = [].
Proof.
  eexists. split; [vm_compute; reflexivity|].
  repeat split; vm_compute; reflexivity.
Qed.

(** ** [libt_get_waittime] *)

Lemma digits2_bound (m : positive) : Z.pos m < 2 ^ Z.pos (digits2_pos m).
Proof.
  induction m as [m IH|m IH|]; simpl digits2_pos.
  - rewrite Pos2Z.inj_succ, Z.pow_succ_r by lia. lia.
  - rewrite Pos2Z.inj_succ, Z.pow_succ_r by lia. lia.
  - simpl. lia.
Qed.

(** The mantissa of a [double] has at most 53 bits. *)
Lemma mantissa_bound (x : float) s m e :
  Prim2SF x = S754_finite s m e -> Z.pos m < 2 ^ 53.
Proof.
  intros H. pose proof (Prim2SF_valid x) as Hv. rewrite H in Hv.
  unfold valid_binary, bounded, canonical_mantissa, fexp in Hv.
  apply andb_true_iff in Hv as [Hc _]. apply Z.eqb_eq in Hc.
  pose proof (digits2_bound m) as Hd.
  assert (Hle : Z.pos (digits2_pos m) <= 53) by (unfold prec in Hc; lia).
  eapply Z.lt_le_trans; [exact Hd|]. apply Z.pow_le_mono_r; lia.
Qed.

(** [Double.to_Z] discards the fractional part: of a positive [double]
    [m * 2^(-p)] it gives the integer [z] with [z <= m * 2^(-p) < z + 1]. *)
Lemma to_Z_truncates (x : float) m p z :
  Prim2SF x = S754_finite false m (Z.neg p) ->
  Double.to_Z x = Some z ->
  z * 2 ^ Z.pos p <= Z.pos m < (z + 1) * 2 ^ Z.pos p.
Proof.
  intros H. unfold Double.to_Z. rewrite H. intros [= <-].
  rewrite Z.shiftr_div_pow2 by lia.
  assert (Hp : 0 < 2 ^ Z.pos p) by (apply Z.pow_pos_nonneg; lia).
  pose proof (Z.div_mod (Z.pos m) (2 ^ Z.pos p) ltac:(lia)) as Hdm.
  pose proof (Z.mod_pos_bound (Z.pos m) (2 ^ Z.pos p) Hp) as Hb.
  nia.
Qed.

(** A [double] above 0 and not above [MAXRESULT] has an integer part, in
    that range. *)
Lemma to_Z_range (x : float) :
  Double.isnan x = false ->
  (x <=? 0)%float = false ->
  (Double.of_Z MAXRESULT <? x)%float = false ->
  exists z, Double.to_Z x = Some z /\ 0 <= z <= MAXRESULT.
Proof.
  intros Hn Hle Hlt.
  assert (Hnn : Prim2SF x <> S754_nan).
  { intros H. apply isnan_spec in H. congruence. }
  rewrite leb_spec in Hle. rewrite ltb_spec in Hlt.
  assert (H0 : Prim2SF 0 = S754_zero false) by reflexivity.
  assert (HM : Prim2SF (Double.of_Z MAXRESULT) =
               S754_finite false 9007199246352384 (-23)) by (vm_compute; reflexivity).
  rewrite H0 in Hle. rewrite HM in Hlt.
  unfold Double.to_Z.
  destruct (Prim2SF x) as [s|s| |s m e] eqn:E.
  - destruct s; discriminate.
  - destruct s; discriminate.
  - congruence.
  - destruct s; [discriminate|].
    pose proof (mantissa_bound x _ _ _ E) as Hm.
    unfold SFltb, SFcompare in Hlt.
    eexists. split; [reflexivity|].
    assert (HMAX : MAXRESULT = 1073741823) by reflexivity. rewrite HMAX.
    destruct (Z.compare_spec (-23) e) as [He|He|He]; [|discriminate|].
    + subst e. rewrite Z.shiftr_div_pow2 by lia.
      split; [apply Z.div_pos; lia|].
      assert (Hc : (m <= 9007199246352384)%positive).
      { intros Hgt. apply Pos.compare_gt_iff in Hgt.
        apply Pos.compare_lt_iff in Hgt. unfold Pos.compare in Hgt.
        rewrite Hgt in Hlt. discriminate. }
      change (2 ^ 23) with 8388608.
      apply Pos2Z.pos_le_pos in Hc. clear -Hc.
      apply Z.div_le_upper_bound; [lia|]. lia.
    + destruct e as [|q|q]; try lia.
      rewrite Z.shiftr_div_pow2 by lia.
      assert (Hp : 0 < 2 ^ Z.pos q) by (apply Z.pow_pos_nonneg; lia).
      split; [apply Z.div_pos; lia|].
      assert (H24 : 24 <= Z.pos q) by lia.
      apply Z.div_le_upper_bound; [lia|].
      assert (H : 2 ^ 24 <= 2 ^ Z.pos q) by (apply Z.pow_le_mono_r; lia).
      change (2 ^ 53) with 9007199254740992 in Hm.
      change (2 ^ 24) with 16777216 in H.
      clear -Hm H. generalize dependent (2 ^ Z.pos q). intros X HX. lia.
Qed.

(** C8, as the code has it.  [libt_get_waittime] returns -1 exactly when
    no timer is pending.  Otherwise, with
    [tmp = (next wakeup - now) * 1000] a number, it returns 0 when
    [tmp <= 0], [MAXRESULT], a quarter of the largest [unsigned], when
    [tmp] is above it, and else [tmp] with its fractional part discarded
    (not rounded); the result lies between 0 and [MAXRESULT], and the
    queue is as before. *)
Theorem waittime_truncates (W : world) (s : state) :
  wf s ->
  (forall r s', libt_get_waittime W s = Ok r s' -> (r = -1 <-> pending s = [])) /\
  (pending s = [] -> libt_get_waittime W s = Ok (-1) s) /\
  (forall e P,
     pending s = e :: P ->
     Double.isnan ((e_wakeup e - clock W (ticks s)) * 1000)%float = false ->
     exists r s',
       libt_get_waittime W s = Ok r s' /\
       waittime_of ((e_wakeup e - clock W (ticks s)) * 1000)%float = Some r /\
       0 <= r <= MAXRESULT /\
       pending s' = pending s /\ inflight s' = inflight s) /\
  MAXRESULT = 1073741823 /\
  (forall x m p z,
     Prim2SF x = S754_finite false m (Z.neg p) ->
     Double.to_Z x = Some z ->
     z * 2 ^ Z.pos p <= Z.pos m < (z + 1) * 2 ^ Z.pos p).
Proof.
  intros Hw.
  pose proof (via_view _ _ s (refines_get_waittime W) Hw) as H.
  unfold q_get_waittime in H. cbn [view q_pending] in H.
  split; [|split; [|split; [|split]]].
  - intros r s' R. destruct (pending s) as [|e P] eqn:HP.
    + destruct H as (s1 & R1 & _). rewrite R in R1. injection R1 as -> _.
      split; reflexivity.
    + split; [|discriminate]. intros ->. exfalso.
      unfold q_now in H. unfold bind at 1 in H. cbn [q_ticks] in H.
      destruct (_ <=? 0)%float eqn:Hle.
      { destruct H as (s1 & R1 & _). rewrite R in R1. discriminate. }
      destruct (Double.of_Z MAXRESULT <? _)%float eqn:Hlt.
      { destruct H as (s1 & R1 & _). rewrite R in R1. discriminate. }
      match type of Hle with
      | (?t <=? 0)%float = false => destruct (Double.isnan t) eqn:Hn
      end.
      { apply isnan_spec in Hn. unfold Double.to_Z in H. rewrite Hn in H.
        unfold fault in H. rewrite R in H. discriminate. }
      destruct (to_Z_range _ Hn Hle Hlt) as (z & Hz & Hr).
      rewrite Hz in H.
      assert (Hb : (INT_MIN <=? z) && (z <=? INT_MAX) = true).
      { assert (MAXRESULT = 1073741823) by reflexivity.
        unfold INT_MIN, INT_MAX. apply andb_true_iff. split; apply Z.leb_le; lia. }
      rewrite Hb in H. destruct H as (s1 & R1 & _). rewrite R in R1.
      injection R1 as <- _. lia.
  - intros HP. rewrite HP in H. destruct H as (s1 & R1 & Hv & _).
    assert (s1 = s); [|subst; exact R1].
    unfold libt_get_waittime in R1.
    rewrite (bind_ok _ _ _ _ _ (eq_refl : get_timers s = Ok (timers s) s)) in R1.
    rewrite (rep_timers _ _ _ _ (wf_rep _ Hw)), HP in R1. simpl in R1.
    injection R1 as <-. reflexivity.
  - intros e P HP Hn. rewrite HP in H.
    unfold q_now in H. unfold bind at 1 in H.
    cbn [view q_ticks q_pending q_inflight q_brk q_freed q_fired] in H.
    unfold waittime_of.
    destruct (_ <=? 0)%float eqn:Hle.
    { destruct H as (s1 & R1 & Hv & _). exists 0, s1. split; [exact R1|].
      split; [reflexivity|]. split; [change MAXRESULT with 1073741823; lia|].
      rewrite <- (view_pending s1), <- (view_inflight s1), Hv. cbn [q_pending q_inflight view].
      rewrite ?HP. split; reflexivity. }
    destruct (Double.of_Z MAXRESULT <? _)%float eqn:Hlt.
    { destruct H as (s1 & R1 & Hv & _). exists MAXRESULT, s1. split; [exact R1|].
      split; [reflexivity|]. split; [change MAXRESULT with 1073741823; lia|].
      rewrite <- (view_pending s1), <- (view_inflight s1), Hv. cbn [q_pending q_inflight view].
      rewrite ?HP. split; reflexivity. }
    destruct (to_Z_range _ Hn Hle Hlt) as (z & Hz & Hr).
    rewrite Hz in H.
    assert (Hb : (INT_MIN <=? z) && (z <=? INT_MAX) = true).
    { assert (MAXRESULT = 1073741823) by reflexivity.
      unfold INT_MIN, INT_MAX. apply andb_true_iff. split; apply Z.leb_le; lia. }
    rewrite Hb in H. destruct H as (s1 & R1 & Hv & _). exists z, s1.
    split; [exact R1|]. split; [exact Hz|]. split; [exact Hr|].
    rewrite <- (view_pending s1), <- (view_inflight s1), Hv. cbn [q_pending q_inflight view].
    rewrite ?HP. split; reflexivity.
  - reflexivity.
  - exact to_Z_truncates.
Qed.

Lemma waittime_truncates_witness :
  exists s', libt_get_waittime (W_idle 0.5) three_timers = Ok 500 s'.
Proof.
  pose proof (wf_reach _ _ _ three_timers_reach) as Hw.
  destruct (waittime_truncates (W_idle 0.5) three_timers Hw) as (_ & _ & H & _).
  destruct (H _ _ three_timers_pending eq_refl) as (r & s' & R & Hr & _).
  exists s'. vm_compute in Hr. injection Hr as <-. exact R.
Defined.

(** C8 as stated fails: with the clock at 0 and a timer due at 0.0019,
    [(next wakeup - now) * 1000] is 1.9 and [libt_get_waittime] returns
    1; rounding gives 2, the nearer integer. *)
Lemma waittime_counterexample :
  exists s',
    libt_get_waittime (W_idle 0) soon_timer = Ok 1 s' /\
    pending soon_timer = [Entry 0 7 0 0.0019] /\
    ((0.0019 - 0) * 1000 =? 1.9)%float = true /\
    (2 - 1.9 <? 1.9 - 1)%float = true.
Proof.
  eexists. split; [vm_compute; reflexivity|].
  repeat split; vm_compute; reflexivity.
Qed.

(** ** [libt_timetointerval4] *)








(** * Further properties of the code *)

(** ** The list primitives on well-formed states *)

Lemma rep_lists s P I D : rep s P I D -> pending s = P /\ inflight s = I.
Proof.
  intros Hrep. unfold pending, inflight.
  rewrite (rep_timers _ _ _ _ Hrep), (rep_tmptimers _ _ _ _ Hrep).
  rewrite (walk_spec s _ _ _ (rep_P _ _ _ _ Hrep) (rep_length_P _ _ _ _ Hrep)).
  rewrite (walk_spec s _ _ _ (rep_I _ _ _ _ Hrep) (rep_length_I _ _ _ _ Hrep)).
  split; reflexivity.
Qed.

Lemma wf_rep_at s P : wf s -> pending s = P -> rep s P (inflight s) [].
Proof. intros Hw <-. apply wf_rep. exact Hw. Qed.

(** [t_del] of a record that is in no list leaves the memory as it is. *)
Lemma t_del_idle s e : detached s e -> t_del (e_ptr e) s = Ok tt s.
Proof.
  intros (Hn & Hp & _). unfold nxt, prv, e_ptr in *.
  destruct (heap s !! e_addr e) as [t|] eqn:Ht; [|discriminate].
  simpl in Hn, Hp. injection Hn as Hn. injection Hp as Hp.
  unfold t_del, get_next, get_prev, load, set_prev, set_next, store, bind, ret,
    nxt, cell, set_heap.
  rewrite Ht. simpl. rewrite Hn. simpl. rewrite Ht. rewrite Hp. simpl.
  rewrite Ht. simpl. rewrite lookup_insert_eq. simpl.
  f_equal. destruct s as [tm tt' h b fr tk fi]. simpl in *. f_equal.
  rewrite insert_insert_eq. apply insert_id. rewrite Ht.
  destruct t as [n p f d w]. simpl in *. subst. reflexivity.
Qed.

(** X1.  [t_del] takes a pending timer out of its list: the timers
    before and after it stay linked in their order, the timers in flight
    are not touched, and the record ends up in no list, with both its
    links NULL and its contents kept.  On a record that is in no list
    [t_del] changes nothing. *)
Theorem t_del_unlinks (s : state) (l1 l2 : list entry) (e : entry) :
  wf s ->
  pending s = l1 ++ e :: l2 ->
  exists s',
    t_del (e_ptr e) s = Ok tt s' /\
    pending s' = l1 ++ l2 /\
    inflight s' = inflight s /\
    detached s' e /\
    (forall a, pay s' a = pay s a) /\
    t_del (e_ptr e) s' = Ok tt s'.
Proof.
  intros Hw HP. pose proof (wf_rep_at s _ Hw HP) as Hrep.
  destruct (rep_del_P _ _ _ _ _ _ Hrep) as (s' & R & Hrep' & Hpay & _).
  destruct (rep_lists _ _ _ _ Hrep') as [H1 H2].
  assert (Hd : detached s' e).
  { pose proof (rep_D _ _ _ _ Hrep') as HD. apply Forall_cons in HD as [HD _]. exact HD. }
  exists s'. repeat split; try assumption; try apply Hd.
  apply t_del_idle. exact Hd.
Qed.

Lemma t_del_unlinks_witness :
  exists s',
    t_del (NODE 1) three_timers = Ok tt s' /\
    pending s' = [Entry 0 101 0 1; Entry 2 103 0 3].
Proof.
  pose proof (wf_reach _ _ _ three_timers_reach) as Hw.
  destruct (t_del_unlinks three_timers [Entry 0 101 0 1] [Entry 2 103 0 3]
              (Entry 1 102 0 2) Hw three_timers_pending)
    as (s' & R & HP & _).
  exists s'. split; [exact R|exact HP].
Defined.

(** X2.  [t_add] moves a pending timer, wherever it stands, to the head
    of the list it is given: to the head of the timers in flight, or to
    the head of the pending timers; the other timers keep their lists
    and their order. *)
Theorem t_add_moves_to_head (s : state) (l1 l2 : list entry) (e : entry) :
  wf s ->
  pending s = l1 ++ e :: l2 ->
  (exists s',
     t_add (e_ptr e) (FAKE TMPTIMERS) s = Ok tt s' /\
     pending s' = l1 ++ l2 /\
     inflight s' = e :: inflight s) /\
  (exists s',
     t_add (e_ptr e) (FAKE TIMERS) s = Ok tt s' /\
     pending s' = e :: l1 ++ l2 /\
     inflight s' = inflight s).
Proof.
  intros Hw HP. pose proof (wf_rep_at s _ Hw HP) as Hrep. split.
  - destruct (rep_move _ _ _ _ _ _ Hrep) as (s' & R & Hrep' & _).
    destruct (rep_lists _ _ _ _ Hrep') as [H1 H2].
    exists s'. repeat split; assumption.
  - destruct (rep_del_P _ _ _ _ _ _ Hrep) as (s1 & R1 & Hrep1 & _).
    change (l1 ++ l2) with ([] ++ (l1 ++ l2)) in Hrep1.
    destruct (rep_link_P _ _ _ _ _ _ Hrep1) as (s' & R & Hrep' & _).
    destruct (rep_lists _ _ _ _ Hrep') as [H1 H2].
    exists s'. split; [|split; assumption].
    rewrite t_add_unfold. rewrite (bind_ok _ _ _ _ _ R1). exact R.
Qed.

Lemma t_add_moves_to_head_witness :
  exists s',
    t_add (NODE 1) (FAKE TIMERS) three_timers = Ok tt s' /\
    pending s' = [Entry 1 102 0 2; Entry 0 101 0 1; Entry 2 103 0 3].
Proof.
  pose proof (wf_reach _ _ _ three_timers_reach) as Hw.
  destruct (t_add_moves_to_head three_timers [Entry 0 101 0 1] [Entry 2 103 0 3]
              (Entry 1 102 0 2) Hw three_timers_pending)
    as (_ & s' & R & HP & _).
  exists s'. split; [exact R|exact HP].
Defined.

(** X3.  [t_find] returns the first record with the given callback and
    argument, looking through the pending timers and then through the
    timers in flight, and NULL when there is none; it changes nothing. *)
Theorem t_find_first (s : state) (f d : Z) :
  wf s ->
  t_find f d s =
  Ok (found (List.find (same_id f d) (pending s ++ inflight s))) s /\
  (found (List.find (same_id f d) (pending s ++ inflight s)) = NULL <->
   (f, d) ∉ e_id <$> (pending s ++ inflight s)).
Proof.
  intros Hw. split; [apply t_find_spec with (D := []); apply wf_rep; exact Hw|].
  destruct (List.find _ _) as [e|] eqn:E; simpl.
  - split; [discriminate|]. intros Hn. exfalso. apply Hn.
    apply find_id_iff. rewrite E. eauto.
  - split; [|reflexivity]. intros _. apply find_none_id. exact E.
Qed.

Lemma t_find_first_witness :
  t_find 102 0 three_timers = Ok (NODE 1) three_timers /\
  t_find 104 0 three_timers = Ok NULL three_timers.
Proof.
  pose proof (wf_reach _ _ _ three_timers_reach) as Hw.
  split.
  - pose proof (proj1 (t_find_first three_timers 102 0 Hw)) as H.
    rewrite three_timers_pending, three_timers_inflight in H. exact H.
  - pose proof (proj1 (t_find_first three_timers 104 0 Hw)) as H.
    rewrite three_timers_pending, three_timers_inflight in H. exact H.
Defined.

(** ** Scheduling and cancelling *)

Lemma drop_insert_sorted e l :
  NoDup (e_addr <$> l) -> e_addr e ∉ e_addr <$> l ->
  drop (e_addr e) (insert_sorted e l) = l.
Proof.
  intros Hnd Ha. destruct (insert_sorted_split e l) as (l1 & l2 & Hl & Hins & _).
  rewrite Hins. subst l. apply drop_at.
  assert (Hperm : e_addr <$> (l1 ++ e :: l2) ≡ₚ e_addr e :: (e_addr <$> (l1 ++ l2))).
  { rewrite <- Permutation_middle. reflexivity. }
  rewrite Hperm. apply NoDup_cons. split; assumption.
Qed.

(** X4.  [libt_remove_timeout] always returns.  Where no timer has the
    given callback and argument it changes nothing.  Otherwise the timer
    is taken out of the list it is in, pending or in flight, and its
    record is released; the other timers keep their lists and their
    order.  Either way no timer of that identity exists afterwards. *)
Theorem remove_timeout_spec (s : state) (f d : Z) :
  wf s ->
  exists s',
    libt_remove_timeout f d s = Ok tt s' /\
    wf s' /\
    match List.find (same_id f d) (pending s ++ inflight s) with
    | None => s' = s
    | Some e =>
        pending s' = drop (e_addr e) (pending s) /\
        inflight s' = drop (e_addr e) (inflight s) /\
        freed s' = e_addr e :: freed s /\
        heap s' !! (e_addr e) = None /\
        brk s' = brk s
    end /\
    libt_timeout_exist f d s' = Ok 0 s'.
Proof.
  intros Hw.
  pose proof (via_view _ _ s (refines_remove f d) Hw) as H.
  unfold q_remove_timeout, q_find in H. cbn [view q_pending q_inflight] in H.
  assert (Hex : forall s', wf s' ->
            (f, d) ∉ e_id <$> (pending s' ++ inflight s') ->
            libt_timeout_exist f d s' = Ok 0 s').
  { intros s' Hw' Hno. unfold libt_timeout_exist.
    rewrite (bind_ok _ _ _ _ _ (t_find_spec _ _ _ _ f d (wf_rep _ Hw'))).
    destruct (List.find (same_id f d) (pending s' ++ inflight s')) as [x|] eqn:E;
      [|reflexivity].
    exfalso. apply Hno. apply find_id_iff. rewrite E. eauto. }
  destruct (List.find (same_id f d) (pending s ++ inflight s)) as [e|] eqn:E.
  - destruct H as (s' & R & Hv & Hh). exists s'.
    assert (Hw' : wf s') by (eapply wf_remove; eauto).
    apply find_some_id in E as [Hin Hid].
    assert (HP : pending s' = drop (e_addr e) (pending s)).
    { rewrite <- view_pending, Hv. reflexivity. }
    assert (HI : inflight s' = drop (e_addr e) (inflight s)).
    { rewrite <- view_inflight, Hv. reflexivity. }
    assert (Hgone : e_addr e ∉ e_addr <$> (pending s' ++ inflight s')).
    { rewrite HP, HI, <- drop_app. apply drop_addr. }
    split; [exact R|]. split; [exact Hw'|]. split.
    + split; [exact HP|]. split; [exact HI|]. split.
      { change (freed s') with (q_freed (view s')). rewrite Hv. reflexivity. }
      split.
      { destruct (heap s' !! e_addr e) eqn:Eh; [|reflexivity]. exfalso.
        apply Hgone. pose proof (rep_dom _ _ _ _ (wf_rep _ Hw') (e_addr e)) as Hd.
        rewrite app_nil_r in Hd. apply Hd. rewrite Eh. eauto. }
      change (brk s') with (q_brk (view s')). rewrite Hv. reflexivity.
    + apply Hex; [exact Hw'|]. rewrite HP, HI, <- drop_app.
      intros (x & Hx & Hxin)%list_elem_of_fmap.
      assert (Hxl : x ∈ pending s ++ inflight s) by (eapply drop_sub; exact Hxin).
      assert (Hxe : x = e).
      { pose proof (good_ids _ (proj2 Hw)) as Hnd.
        cbn [view q_pending q_inflight] in Hnd.
        assert (Hf : x ∈ filter (fun y => e_id y = e_id e) (pending s ++ inflight s)).
        { apply list_elem_of_filter. split; [congruence|exact Hxl]. }
        rewrite (filter_unique e_id _ e Hnd Hin) in Hf.
        apply list_elem_of_singleton in Hf. exact Hf. }
      subst x. apply (drop_addr (e_addr e) (pending s ++ inflight s)).
      apply list_elem_of_fmap. exists e. split; [reflexivity|exact Hxin].
  - destruct H as (s' & R & Hv & Hh).
    assert (Hs : s' = s).
    { unfold libt_remove_timeout in R.
      rewrite (bind_ok _ _ _ _ _ (t_find_spec _ _ _ _ f d (wf_rep _ Hw))) in R.
      rewrite E in R. simpl in R. injection R as <-. reflexivity. }
    subst s'. exists s. split; [exact R|]. split; [exact Hw|]. split; [reflexivity|].
    apply Hex; [exact Hw|]. apply find_none_id. exact E.
Qed.

Lemma remove_timeout_spec_witness :
  exists s',
    libt_remove_timeout 102 0 three_timers = Ok tt s' /\
    pending s' = [Entry 0 101 0 1; Entry 2 103 0 3] /\
    freed s' = [1%nat].
Proof.
  pose proof (wf_reach _ _ _ three_timers_reach) as Hw.
  destruct (remove_timeout_spec three_timers 102 0 Hw) as (s' & R & _ & H & _).
  rewrite three_timers_pending, three_timers_inflight in H.
  destruct H as (HP & _ & HF & _).
  exists s'. split; [exact R|]. split; [exact HP|]. rewrite HF. vm_compute. reflexivity.
Defined.

(** The records of a list are determined, links included, by the list. *)
Lemma chain_cell s s' q l x :
  chain s q l -> chain s' q l -> x ∈ l ->
  heap s !! e_addr x = heap s' !! e_addr x /\ is_Some (heap s !! e_addr x).
Proof.
  revert q. induction l as [|e l IH]; intros q Hc Hc' Hx; [inversion Hx|].
  destruct Hc as (H1 & H2 & H3 & H4). destruct Hc' as (H1' & H2' & H3' & H4').
  apply elem_of_cons in Hx as [->|Hx]; [|exact (IH _ H4 H4' Hx)].
  assert (Hn : nxt s (e_ptr e) = nxt s' (e_ptr e)).
  { destruct l as [|y l]; cbn [chain] in H4, H4'.
    - rewrite H4, H4'. reflexivity.
    - destruct H4 as [H4 _]. destruct H4' as [H4' _]. rewrite H4, H4'. reflexivity. }
  unfold nxt, prv, pay, e_ptr in *.
  destruct (heap s !! e_addr e) as [[n p f d w]|]; [|discriminate].
  destruct (heap s' !! e_addr e) as [[n' p' f' d' w']|]; [|discriminate].
  simpl in *. split; [|eauto]. congruence.
Qed.

Lemma rep_heap_unique s s' P I :
  rep s P I [] -> rep s' P I [] -> heap s' = heap s.
Proof.
  intros Hrep Hrep'. apply map_eq. intros a.
  destruct (decide (a ∈ e_addr <$> (P ++ I ++ []))) as [Hin|Hout].
  - apply list_elem_of_fmap in Hin as (x & -> & Hx).
    rewrite app_nil_r in Hx. apply elem_of_app in Hx as [Hx|Hx].
    + symmetry.
      apply (chain_cell s s' _ _ x (rep_P _ _ _ _ Hrep) (rep_P _ _ _ _ Hrep') Hx).
    + symmetry.
      apply (chain_cell s s' _ _ x (rep_I _ _ _ _ Hrep) (rep_I _ _ _ _ Hrep') Hx).
  - destruct (heap s !! a) eqn:E1.
    { exfalso. apply Hout. apply (rep_dom _ _ _ _ Hrep). rewrite E1. eauto. }
    destruct (heap s' !! a) eqn:E2; [|reflexivity].
    exfalso. apply Hout. apply (rep_dom _ _ _ _ Hrep'). rewrite E2. eauto.
Qed.

(** X5.  Scheduling a timer for an identity that has none and cancelling
    it again leaves the pending timers and the timers in flight exactly
    as they were, and the memory as well, links included; the record
    that was allocated in between is the one that is released. *)
Theorem add_remove_roundtrip (W : world) (s : state) (w : float) (f d flags : Z) :
  wf s ->
  Double.isnan w = false ->
  has flags LIBT_ADD = true ->
  (f, d) ∉ e_id <$> (pending s ++ inflight s) ->
  exists s1 s2,
    libt_add_timeoutx W w f d flags s = Ok 0 s1 /\
    libt_remove_timeout f d s1 = Ok tt s2 /\
    pending s2 = pending s /\
    inflight s2 = inflight s /\
    brk s2 = S (brk s) /\
    freed s2 = brk s :: freed s /\
    heap s2 = heap s.
Proof.
  intros Hw Hn Ha Hno.
  pose proof (via_view _ _ s (refines_add W w f d flags) Hw) as H.
  assert (Hf : q_find f d (view s) = None).
  { unfold q_find. cbn [view q_pending q_inflight].
    destruct (List.find _ _) as [x|] eqn:E; [|reflexivity].
    exfalso. apply Hno. apply find_id_iff. rewrite E. eauto. }
  rewrite (q_add_create W w f d flags _ Hn Hf Ha) in H.
  destruct H as (s1 & R1 & Hv1 & Hh1).
  assert (Hw1 : wf s1) by (eapply wf_add; eauto).
  assert (Hrep := wf_rep _ Hw).
  assert (HbP : brk s ∉ e_addr <$> pending s).
  { apply (rep_fresh s _ _ _ (pending s) Hrep). intros x Hx.
    apply elem_of_app. left. exact Hx. }
  assert (HbI : brk s ∉ e_addr <$> inflight s).
  { apply (rep_fresh s _ _ _ (inflight s) Hrep). intros x Hx.
    apply elem_of_app. right. apply elem_of_app. left. exact Hx. }
  cbn [view q_pending q_inflight q_brk q_freed q_ticks q_fired] in Hv1.
  rewrite (drop_notin _ _ HbP), (drop_notin _ _ HbI) in Hv1.
  set (e := Entry (brk s) f d (new_wakeup flags w (clock W (ticks s)) None)) in *.
  pose proof (via_view _ _ s1 (refines_remove f d) Hw1) as H.
  unfold q_remove_timeout, q_find in H. rewrite Hv1 in H.
  cbn [q_pending q_inflight q_brk q_freed q_ticks q_fired] in H.
  assert (Hfind : List.find (same_id f d) (insert_sorted e (pending s) ++ inflight s)
                  = Some e).
  { apply (find_unique _ e).
    - pose proof (good_ids _ (proj2 Hw1)) as G. rewrite Hv1 in G. exact G.
    - apply elem_of_app. left. apply insert_sorted_in. }
  rewrite Hfind in H. destruct H as (s2 & R2 & Hv2 & Hh2).
  change (e_addr e) with (brk s) in Hv2.
  assert (HdP : drop (brk s) (insert_sorted e (pending s)) = pending s).
  { apply (drop_insert_sorted e); [|exact HbP]. apply (rep_nodup_P _ _ _ _ Hrep). }
  rewrite HdP, (drop_notin _ _ HbI) in Hv2.
  exists s1, s2. split; [exact R1|]. split; [exact R2|].
  split; [rewrite <- view_pending, Hv2; reflexivity|].
  split; [rewrite <- view_inflight, Hv2; reflexivity|].
  split; [change (brk s2) with (q_brk (view s2)); rewrite Hv2; reflexivity|].
  split; [change (freed s2) with (q_freed (view s2)); rewrite Hv2; reflexivity|].
  assert (Hw2 : wf s2) by (eapply wf_remove; eauto).
  assert (Hrep2 := wf_rep _ Hw2).
  assert (HP2 : pending s2 = pending s) by (rewrite <- view_pending, Hv2; reflexivity).
  assert (HI2 : inflight s2 = inflight s) by (rewrite <- view_inflight, Hv2; reflexivity).
  rewrite HP2, HI2 in Hrep2.
  exact (rep_heap_unique s s2 _ _ Hrep Hrep2).
Qed.

Lemma add_remove_roundtrip_witness :
  exists s1 s2,
    libt_add_timeoutx (W_idle 2.5) 1.5 104 0 LIBT_ADD three_timers = Ok 0 s1 /\
    libt_remove_timeout 104 0 s1 = Ok tt s2 /\
    pending s2 = pending three_timers /\
    heap s2 = heap three_timers.
Proof.
  pose proof (wf_reach _ _ _ three_timers_reach) as Hw.
  assert (Hno : (104, 0) ∉ e_id <$> (pending three_timers ++ inflight three_timers)).
  { rewrite three_timers_pending, three_timers_inflight. vm_compute.
    intros H. repeat (apply elem_of_cons in H as [H|H]; [discriminate|]).
    inversion H. }
  destruct (add_remove_roundtrip (W_idle 2.5) three_timers 1.5 104 0 LIBT_ADD
              Hw eq_refl eq_refl Hno)
    as (s1 & s2 & R1 & R2 & HP & _ & _ & _ & HH).
  exists s1, s2. repeat split; assumption.
Defined.

(** ** What [libt_flush] leaves behind *)

(** X6.  Whatever the callbacks do, when [libt_flush] returns: no timer
    is left in flight; no timer is pending, or the first pending one is
    later than the reference time of the pass, so that no pending timer
    whose wakeup time is a number is due; the value returned is the
    number of callbacks that were invoked; and the queue is well-formed
    again. *)
Theorem flush_settles (W : world) (fuel : nat) (s s' : state) (n : Z) :
  wf s ->
  libt_flush W fuel s = Ok n s' ->
  wf s' /\
  inflight s' = [] /\
  head_later (clock W (ticks s) + 0.001)%float (pending s') /\
  (no_nan (pending s') -> due (clock W (ticks s) + 0.001)%float (pending s') = []) /\
  Z.of_nat (length (fired s')) = Z.of_nat (length (fired s)) + n.
Proof.
  intros Hw R.
  assert (Hw' : wf s') by (eapply wf_flush; eauto).
  destruct (via_view_inv _ _ _ _ _ (refines_flush W fuel) Hw R) as [Hq _].
  remember (view s') as v eqn:Ev.
  unfold q_flush in Hq.
  apply bind_inv in Hq as (now & q1 & H1 & H2). injection H1 as <- <-.
  apply bind_inv in H2 as (cnt & q2 & H2 & H3).
  apply bind_inv in H3 as (u & q3 & H3 & H4).
  injection H3 as <- <-. injection H4 as -> Hv. subst v.
  apply q_dispatch_settles in H2 as (Hl & k & Hc & Hf).
  cbn [q_fired view q_ticks] in Hf, Hl.
  assert (HP : pending s' = q_pending q2).
  { rewrite <- view_pending, <- Hv. reflexivity. }
  assert (HF : fired s' = q_fired q2).
  { change (fired s') with (q_fired (view s')). rewrite <- Hv. reflexivity. }
  split; [exact Hw'|].
  split; [rewrite <- view_inflight, <- Hv; reflexivity|].
  split; [rewrite HP; exact Hl|]. split.
  - intros Hn. rewrite HP in Hn |- *.
    destruct (q_pending q2) as [|e P] eqn:E; [reflexivity|].
    apply (due_none _ e P); [|exact Hn|exact Hl].
    pose proof (good_sorted _ (proj2 Hw')) as Hs.
    rewrite view_pending, HP in Hs. exact Hs.
  - rewrite HF, Hf. lia.
Qed.

Lemma flush_settles_witness :
  inflight three_flushed = [] /\
  head_later (2.5 + 0.001)%float (pending three_flushed).
Proof.
  pose proof (wf_reach _ _ _ three_timers_reach) as Hw.
  assert (R : libt_flush (W_idle 2.5) 3 three_timers = Ok 2 three_flushed).
  { vm_compute. reflexivity. }
  destruct (flush_settles (W_idle 2.5) 3 three_timers three_flushed 2 Hw R)
    as (_ & H1 & H2 & _).
  split; [exact H1|exact H2].
Defined.

(** ** Memory safety *)

Lemma safe_ret {A} (a : A) : safe (ret a).
Proof. intros q. discriminate. Qed.

Lemma safe_bind {A B} (m : MQ A) (k : A -> MQ B) :
  safe m -> (forall a, safe (k a)) -> safe (bind m k).
Proof.
  intros Hm Hk q. unfold bind. specialize (Hm q).
  destruct (m q) as [a q'| |]; [apply Hk|congruence|discriminate].
Qed.

Section Safety.

Variable W : world.
Hypothesis callbacks : forall f d, no_waittime (code W f d).

Lemma safe_now : safe (q_now W).
Proof. intros q. discriminate. Qed.

Lemma safe_add w f d flags : safe (q_add_timeoutx W w f d flags).
Proof.
  intros q. unfold q_add_timeoutx.
  destruct (Double.isnan w); [discriminate|].
  destruct (q_find f d q) as [e|].
  - destruct (negb (has flags LIBT_MOD)); [discriminate|].
    destruct (has flags LIBT_REPEAT); [|destruct (has flags LIBT_RELATIVE)];
      discriminate.
  - destruct (negb (has flags LIBT_ADD)); [discriminate|].
    destruct (has flags (Z.lor LIBT_RELATIVE LIBT_REPEAT)); discriminate.
Qed.

Lemma safe_remove f d : safe (q_remove_timeout f d).
Proof. intros q. unfold q_remove_timeout. destruct (q_find f d q); discriminate. Qed.

Lemma safe_exist f d : safe (q_timeout_exist f d).
Proof. intros q. discriminate. Qed.

Lemma safe_next_wakeup : safe q_next_wakeup.
Proof. intros q. unfold q_next_wakeup. destruct (q_pending q); discriminate. Qed.

Lemma safe_run p : no_waittime p -> safe (q_run W p).
Proof.
  induction 1 as [|w f d flags k _ IH|f d k _ IH|f d k _ IH|k _ IH|k _ IH]; simpl.
  - apply safe_ret.
  - apply safe_bind; [apply safe_add|exact IH].
  - apply safe_bind; [apply safe_remove|intros _; exact IH].
  - apply safe_bind; [apply safe_exist|exact IH].
  - apply safe_bind; [apply safe_next_wakeup|exact IH].
  - apply safe_bind; [apply safe_now|exact IH].
Qed.

Lemma safe_fire e : safe (q_fire W e).
Proof.
  unfold q_fire. apply safe_bind; [intros q; discriminate|].
  intros _. apply safe_run. apply callbacks.
Qed.

Lemma safe_dispatch fuel ref cnt : safe (q_dispatch W fuel ref cnt).
Proof.
  revert cnt. induction fuel as [|fuel IH]; intros cnt q; [discriminate|].
  simpl. destruct (q_pending q) as [|e P]; [discriminate|].
  destruct (ref <? e_wakeup e)%float; [discriminate|].
  apply (safe_bind (q_fire W e)); [apply safe_fire|]. intros _. apply IH.
Qed.

Lemma safe_flush fuel : safe (q_flush W fuel).
Proof.
  unfold q_flush. apply safe_bind; [apply safe_now|]. intros now.
  apply safe_bind; [apply safe_dispatch|]. intros cnt.
  apply safe_bind; [intros q; discriminate|]. intros _. apply safe_ret.
Qed.

Lemma safe_do_call c : c <> GetWaittime -> safe (q_do_call W c).
Proof.
  intros Hc. destruct c; simpl; try congruence.
  - apply safe_bind; [apply safe_add|intros; apply safe_ret].
  - apply safe_remove.
  - apply safe_bind; [apply safe_exist|intros; apply safe_ret].
  - apply safe_bind; [apply safe_next_wakeup|intros; apply safe_ret].
  - apply safe_bind; [apply safe_now|intros; apply safe_ret].
  - apply safe_bind; [apply safe_flush|intros; apply safe_ret].
Qed.

Lemma safe_do_calls cs : GetWaittime ∉ cs -> safe (q_do_calls W cs).
Proof.
  induction cs as [|c cs IH]; intros Hcs; simpl; [apply safe_ret|].
  apply not_elem_of_cons in Hcs as [Hc Hcs].
  apply safe_bind; [apply safe_do_call; congruence|]. intros _. apply IH. exact Hcs.
Qed.

End Safety.

(** X9.  Memory safety, as long as every allocation succeeds.  The
    code uses the result of [malloc] unchecked, and [malloc0] here always
    hands out a record; on that proviso, starting from a well-formed
    queue, whatever sequence of the exported functions the application
    calls and whatever the callbacks do with the library in turn
    ([libt_get_waittime] set aside, whose conversion to [int] is not
    defined for every [double]), the run never dereferences NULL or a
    released record and never releases a record twice: it does not end
    in a fault. *)
Theorem calls_never_fault (W : world) (cs : list call) (s : state) :
  wf s ->
  (forall f d, no_waittime (code W f d)) ->
  GetWaittime ∉ cs ->
  do_calls W cs s <> Fault.
Proof.
  intros Hw Hcb Hcs R.
  pose proof (via_view _ _ s (refines_do_calls W cs) Hw) as H.
  pose proof (safe_do_calls W Hcb cs Hcs (view s)) as Hs.
  destruct (q_do_calls W cs (view s)) as [a q'| |].
  - destruct H as (s' & R' & _). congruence.
  - congruence.
  - congruence.
Qed.

Lemma calls_never_fault_witness :
  do_calls (W_cancel 2.5) [Flush 3; Remove 103 0; Flush 1] three_timers <> Fault.
Proof.
  apply calls_never_fault.
  - exact (wf_reach _ _ _ three_timers_reach).
  - intros f d. simpl. destruct (f =? 101); repeat constructor.
  - intros H. repeat (apply elem_of_cons in H as [H|H]; [discriminate|]).
    inversion H.
Defined.

(** ** [libt_cleanup] *)

Lemma chain_follows s q l :
  chain s q l -> exists h, nxt s q = Some h /\ follows s h l.
Proof.
  revert q. induction l as [|e l IH]; intros q Hc.
  - exists NULL. split; [exact Hc|reflexivity].
  - destruct Hc as (H1 & H2 & H3 & H4). exists (e_ptr e). split; [exact H1|].
    split; [reflexivity|].
    destruct (IH _ H4) as (h & Hh & Hf).
    unfold nxt, e_ptr in Hh.
    destruct (heap s !! e_addr e) as [t|] eqn:Ht; [|discriminate].
    exists t. split; [reflexivity|]. simpl in Hh. injection Hh as ->. exact Hf.
Qed.

Lemma follows_frame s s' h l :
  (forall x, x ∈ l -> heap s' !! e_addr x = heap s !! e_addr x) ->
  follows s h l -> follows s' h l.
Proof.
  revert h. induction l as [|e l IH]; intros h Hfr Hf; [exact Hf|].
  destruct Hf as (Hh & t & Ht & Hf). split; [exact Hh|].
  exists t. split.
  - rewrite Hfr; [exact Ht|apply list_elem_of_here].
  - apply IH; [|exact Hf]. intros x Hx. apply Hfr. apply list_elem_of_further. exact Hx.
Qed.

Lemma released_lookup l h a :
  released l h !! a = if decide (a ∈ e_addr <$> l) then None else h !! a.
Proof.
  revert h. induction l as [|e l IH]; intros h; [reflexivity|].
  change (released (e :: l) h) with (released l (delete (e_addr e) h)).
  rewrite IH. rewrite fmap_cons.
  destruct (decide (a = e_addr e)) as [->|Hne].
  - rewrite lookup_delete_eq.
    rewrite (decide_True (P := e_addr e ∈ e_addr e :: (e_addr <$> l)))
      by apply list_elem_of_here.
    destruct (decide _); reflexivity.
  - rewrite lookup_delete_ne by congruence.
    destruct (decide (a ∈ e_addr <$> l)) as [Hin|Hout].
    + rewrite decide_True by (apply list_elem_of_further; exact Hin). reflexivity.
    + rewrite decide_False; [reflexivity|].
      intros [H|H]%elem_of_cons; [congruence|contradiction].
Qed.

Lemma cleanup_timers_spec l : forall s fuel,
  follows s (timers s) l ->
  NoDup (e_addr <$> l) ->
  (length l < fuel)%nat ->
  cleanup_timers fuel s =
  Ok tt (State NULL (tmptimers s) (released l (heap s)) (brk s)
               (rev (e_addr <$> l) ++ freed s) (ticks s) (fired s)).
Proof.
  induction l as [|e l IH]; intros s fuel Hf Hnd Hfuel.
  - destruct fuel as [|fuel]; [simpl in Hfuel; lia|].
    simpl in Hf. simpl. unfold get_timers, bind. rewrite Hf. simpl.
    unfold ret. f_equal. destruct s; simpl in *; subst; reflexivity.
  - destruct fuel as [|fuel]; [simpl in Hfuel; lia|].
    destruct Hf as (Hh & t & Ht & Hf).
    rewrite fmap_cons in Hnd. apply NoDup_cons in Hnd as [Ha Hnd].
    cbn [cleanup_timers]. unfold get_timers. unfold bind at 1. rewrite Hh.
    cbn [is_null e_ptr].
    assert (Hn : nxt s (NODE (e_addr e)) = Some (next t)).
    { unfold nxt. rewrite Ht. reflexivity. }
    rewrite (bind_ok _ _ _ _ _ (get_next_ok _ _ _ Hn)).
    rewrite (bind_ok _ _ _ _ _
               (eq_refl : set_next (FAKE TIMERS) (next t) s =
                          Ok tt (State (next t) (tmptimers s) (heap s) (brk s) (freed s)
                                       (ticks s) (fired s)))).
    assert (Hfree : free (NODE (e_addr e))
                      (State (next t) (tmptimers s) (heap s) (brk s) (freed s) (ticks s) (fired s)) =
                    Ok tt (State (next t) (tmptimers s) (delete (e_addr e) (heap s)) (brk s)
                                 (e_addr e :: freed s) (ticks s) (fired s))).
    { unfold free. cbn [heap]. rewrite Ht. reflexivity. }
    rewrite (bind_ok _ _ _ _ _ Hfree).
    rewrite IH; cbn [heap timers tmptimers brk freed ticks fired].
    + f_equal. f_equal. rewrite fmap_cons. simpl. rewrite <- app_assoc. reflexivity.
    + apply (follows_frame s); [|exact Hf]. intros x Hx. simpl.
      apply lookup_delete_ne. intros Heq. apply Ha. rewrite Heq.
      apply list_elem_of_fmap. exists x. split; [reflexivity|exact Hx].
    + exact Hnd.
    + simpl in Hfuel. lia.
Qed.

Lemma cleanup_tmptimers_spec l : forall s fuel,
  follows s (tmptimers s) l ->
  NoDup (e_addr <$> l) ->
  (length l < fuel)%nat ->
  cleanup_tmptimers fuel s =
  Ok tt (State (timers s) NULL (released l (heap s)) (brk s)
               (rev (e_addr <$> l) ++ freed s) (ticks s) (fired s)).
Proof.
  induction l as [|e l IH]; intros s fuel Hf Hnd Hfuel.
  - destruct fuel as [|fuel]; [simpl in Hfuel; lia|].
    simpl in Hf. simpl. unfold get_tmptimers, bind. rewrite Hf. simpl.
    unfold ret. f_equal. destruct s; simpl in *; subst; reflexivity.
  - destruct fuel as [|fuel]; [simpl in Hfuel; lia|].
    destruct Hf as (Hh & t & Ht & Hf).
    rewrite fmap_cons in Hnd. apply NoDup_cons in Hnd as [Ha Hnd].
    cbn [cleanup_tmptimers]. unfold get_tmptimers. unfold bind at 1. rewrite Hh.
    cbn [is_null e_ptr].
    assert (Hn : nxt s (NODE (e_addr e)) = Some (next t)).
    { unfold nxt. rewrite Ht. reflexivity. }
    rewrite (bind_ok _ _ _ _ _ (get_next_ok _ _ _ Hn)).
    rewrite (bind_ok _ _ _ _ _
               (eq_refl : set_next (FAKE TMPTIMERS) (next t) s =
                          Ok tt (State (timers s) (next t) (heap s) (brk s) (freed s)
                                       (ticks s) (fired s)))).
    assert (Hfree : free (NODE (e_addr e))
                      (State (timers s) (next t) (heap s) (brk s) (freed s) (ticks s) (fired s)) =
                    Ok tt (State (timers s) (next t) (delete (e_addr e) (heap s)) (brk s)
                                 (e_addr e :: freed s) (ticks s) (fired s))).
    { unfold free. cbn [heap]. rewrite Ht. reflexivity. }
    rewrite (bind_ok _ _ _ _ _ Hfree).
    rewrite IH; cbn [heap timers tmptimers brk freed ticks fired].
    + f_equal. f_equal. rewrite fmap_cons. simpl. rewrite <- app_assoc. reflexivity.
    + apply (follows_frame s); [|exact Hf]. intros x Hx. simpl.
      apply lookup_delete_ne. intros Heq. apply Ha. rewrite Heq.
      apply list_elem_of_fmap. exists x. split; [reflexivity|exact Hx].
    + exact Hnd.
    + simpl in Hfuel. lia.
Qed.

(** X7.  [libt_cleanup] releases every record, the pending timers first
    and then those in flight, each exactly once, and leaves both lists
    empty and no record allocated: the initial state, but for the
    bookkeeping of the memory allocator and the clock.  (It never
    reads a [prev] member, which dangle while it runs.) *)
Theorem cleanup_releases_all (s : state) :
  wf s ->
  exists s',
    libt_cleanup s = Ok tt s' /\
    timers s' = NULL /\ tmptimers s' = NULL /\
    heap s' = ∅ /\
    freed s' =
    rev (e_addr <$> inflight s) ++ rev (e_addr <$> pending s) ++ freed s /\
    NoDup (freed s') /\
    pending s' = [] /\ inflight s' = [] /\
    wf s'.
Proof.
  intros Hw. assert (Hrep := wf_rep _ Hw). assert (Hg := proj2 Hw).
  destruct (chain_follows _ _ _ (rep_P _ _ _ _ Hrep)) as (h & Hh & Hf).
  destruct (chain_follows _ _ _ (rep_I _ _ _ _ Hrep)) as (h' & Hh' & Hf').
  simpl in Hh, Hh'. injection Hh as <-. injection Hh' as <-.
  pose proof (rep_nodup _ _ _ _ Hrep) as Hnd. rewrite app_nil_r, fmap_app in Hnd.
  apply NoDup_app in Hnd as (HndP & Hdisj & HndI).
  unfold libt_cleanup.
  rewrite (bind_ok _ _ _ _ _ (eq_refl : get_brk s = Ok (brk s) s)).
  rewrite (bind_ok _ _ _ _ _
             (cleanup_timers_spec (pending s) s (S (brk s)) Hf HndP
                ltac:(pose proof (rep_length_P _ _ _ _ Hrep); lia))).
  set (s1 := State NULL (tmptimers s) (released (pending s) (heap s)) (brk s)
                   (rev (e_addr <$> pending s) ++ freed s) (ticks s) (fired s)).
  assert (Hf1 : follows s1 (tmptimers s1) (inflight s)).
  { apply (follows_frame s); [|exact Hf']. intros x Hx. simpl.
    rewrite released_lookup. rewrite decide_False; [reflexivity|].
    intros Hin. apply (Hdisj _ Hin).
    apply list_elem_of_fmap. exists x. split; [reflexivity|exact Hx]. }
  rewrite (cleanup_tmptimers_spec (inflight s) s1 (S (brk s)) Hf1 HndI)
    by (pose proof (rep_length_I _ _ _ _ Hrep); lia).
  cbn [s1 heap timers tmptimers brk freed ticks fired].
  set (s2 := State _ _ _ _ _ _ _).
  assert (Hheap : heap s2 = ∅).
  { apply map_eq. intros a. rewrite lookup_empty. cbn [s2 heap].
    rewrite !released_lookup.
    destruct (decide (a ∈ e_addr <$> inflight s)); [reflexivity|].
    destruct (decide (a ∈ e_addr <$> pending s)); [reflexivity|].
    destruct (heap s !! a) eqn:E; [|reflexivity]. exfalso.
    pose proof (rep_dom _ _ _ _ Hrep a) as Hd. rewrite app_nil_r, fmap_app in Hd.
    rewrite E in Hd. specialize (Hd ltac:(eauto)).
    apply elem_of_app in Hd as [Hd|Hd]; contradiction. }
  assert (Hfreed : NoDup (freed s2)).
  { cbn [s2 freed]. 
    pose proof (good_freed _ Hg) as HF. pose proof (good_freed_nodup _ Hg) as HFn.
    cbn [view q_freed q_pending q_inflight q_brk] in HF, HFn.
    assert (Hperm : rev (e_addr <$> inflight s) ++ rev (e_addr <$> pending s) ++ freed s
                    ≡ₚ (e_addr <$> (pending s ++ inflight s)) ++ freed s).
    { rewrite <- !Permutation_rev, fmap_app, app_assoc.
      rewrite (Permutation_app_comm (e_addr <$> inflight s)). reflexivity. }
    rewrite Hperm. apply NoDup_app. split; [apply (good_addrs _ Hg)|]. split; [|exact HFn].
    intros a Ha Hfa. eapply Forall_forall in HF; [|exact Hfa]. apply HF. exact Ha. }
  assert (Hrep2 : rep s2 [] [] []).
  { split; simpl; try reflexivity.
    - apply Forall_nil. exact I.
    - apply NoDup_nil. exact I.
    - intros a [t Ht]. change (heap s2 !! a = Some t) in Ht.
      rewrite Hheap, lookup_empty in Ht. discriminate.
    - intros a Ha. inversion Ha. }
  destruct (rep_lists _ _ _ _ Hrep2) as [HP2 HI2].
  exists s2. split; [reflexivity|]. split; [reflexivity|]. split; [reflexivity|].
  split; [exact Hheap|]. split; [reflexivity|]. split; [exact Hfreed|].
  split; [exact HP2|]. split; [exact HI2|].
  split.
  - unfold view. rewrite HP2, HI2. split; [exact Hrep2|reflexivity].
  - unfold view. rewrite HP2, HI2. split; simpl.
    + apply NoDup_nil. exact I.
    + apply NoDup_nil. exact I.
    + apply Forall_nil. exact I.
    + apply Forall_forall. intros a Ha. split; [|intros H; inversion H].
      apply elem_of_app in Ha as [Ha|Ha].
      * apply (rep_brk _ _ _ _ Hrep). rewrite app_nil_r, fmap_app.
        apply elem_of_app. right. apply list_elem_of_In, in_rev, list_elem_of_In. exact Ha.
      * apply elem_of_app in Ha as [Ha|Ha].
        -- apply (rep_brk _ _ _ _ Hrep). rewrite app_nil_r, fmap_app.
           apply elem_of_app. left. apply list_elem_of_In, in_rev, list_elem_of_In. exact Ha.
        -- pose proof (good_freed _ Hg) as HF.
           eapply Forall_forall in HF; [|exact Ha]. apply HF.
    + exact Hfreed.
    + apply SSorted_nil.
Qed.

Lemma cleanup_releases_all_witness :
  exists s',
    libt_cleanup three_timers = Ok tt s' /\
    heap s' = ∅ /\ freed s' = [2%nat; 1%nat; 0%nat].
Proof.
  pose proof (wf_reach _ _ _ three_timers_reach) as Hw.
  destruct (cleanup_releases_all three_timers Hw)
    as (s' & R & _ & _ & HH & HF & _).
  exists s'. split; [exact R|]. split; [exact HH|].
  rewrite HF, three_timers_pending, three_timers_inflight. vm_compute. reflexivity.
Defined.

(** ** Every record is accounted for *)

Lemma accounted_init : accounted q_init.
Proof. unfold accounted, ledger. simpl. reflexivity. Qed.

Lemma accounted_ticks q t fi :
  accounted q ->
  accounted (Queue (q_pending q) (q_inflight q) (q_brk q) (q_freed q) t fi).
Proof. intros H. exact H. Qed.

Lemma accounted_arm_existing q e w t fi :
  good q -> accounted q -> e ∈ live q ->
  accounted (Queue (insert_sorted (with_wakeup w e) (drop (e_addr e) (q_pending q)))
                   (drop (e_addr e) (q_inflight q)) (q_brk q) (q_freed q) t fi).
Proof.
  intros Hg Ha Hin. unfold accounted, ledger in *. cbn [q_pending q_inflight q_freed q_brk].
  rewrite <- Ha. apply Permutation_app_tail.
  rewrite (drop_perm e _ (good_addrs _ Hg) Hin).
  rewrite fmap_app, insert_sorted_perm, !fmap_cons, drop_app, fmap_app. reflexivity.
Qed.

Lemma accounted_arm_new q f d w t fi :
  good q -> accounted q ->
  accounted (Queue (insert_sorted (Entry (q_brk q) f d w) (drop (q_brk q) (q_pending q)))
                   (drop (q_brk q) (q_inflight q)) (S (q_brk q)) (q_freed q) t fi).
Proof.
  intros Hg Ha. unfold accounted, ledger in *. cbn [q_pending q_inflight q_freed q_brk].
  assert (Hfresh : q_brk q ∉ e_addr <$> (q_pending q ++ q_inflight q)).
  { intros (x & Hx & Hin)%list_elem_of_fmap.
    pose proof (good_brk _ Hg) as Hb. eapply Forall_forall in Hb; [|exact Hin]. lia. }
  rewrite <- drop_app, (drop_notin _ _ Hfresh) || idtac.
  rewrite fmap_app in Hfresh. apply not_elem_of_app in Hfresh as [HP HI].
  rewrite (drop_notin _ _ HP), (drop_notin _ _ HI).
  rewrite seq_S, <- Ha. simpl.
  rewrite fmap_app, insert_sorted_perm, fmap_cons. simpl.
  rewrite <- fmap_app. rewrite <- Permutation_cons_append. reflexivity.
Qed.

Lemma accounted_remove q e t fi :
  good q -> accounted q -> e ∈ live q ->
  accounted (Queue (drop (e_addr e) (q_pending q)) (drop (e_addr e) (q_inflight q))
                   (q_brk q) (e_addr e :: q_freed q) t fi).
Proof.
  intros Hg Ha Hin. unfold accounted, ledger in *. cbn [q_pending q_inflight q_freed q_brk].
  rewrite <- Ha.
  rewrite (drop_perm e (q_pending q ++ q_inflight q) (good_addrs _ Hg) Hin).
  rewrite <- drop_app, fmap_cons. rewrite <- Permutation_middle. reflexivity.
Qed.

Lemma accounted_fire q e P t fi :
  good q -> accounted q -> q_pending q = e :: P ->
  accounted (Queue (drop (e_addr e) (q_pending q)) (e :: drop (e_addr e) (q_inflight q))
                   (q_brk q) (q_freed q) t fi).
Proof.
  intros Hg Ha HP. unfold accounted, ledger in *. cbn [q_pending q_inflight q_freed q_brk].
  rewrite <- Ha. apply Permutation_app_tail.
  assert (Hin : e ∈ q_pending q ++ q_inflight q).
  { rewrite HP. apply list_elem_of_here. }
  rewrite (drop_perm e _ (good_addrs _ Hg) Hin).
  rewrite drop_app, !fmap_app, !fmap_cons, fmap_app. symmetry. apply Permutation_middle.
Qed.

Lemma accounted_sweep q :
  accounted q ->
  accounted (Queue (q_pending q) [] (q_brk q)
                   (rev (e_addr <$> q_inflight q) ++ q_freed q) (q_ticks q) (q_fired q)).
Proof.
  intros Ha. unfold accounted, ledger in *. cbn [q_pending q_inflight q_freed q_brk].
  rewrite <- Ha. rewrite app_nil_r, fmap_app, <- Permutation_rev, <- app_assoc.
  reflexivity.
Qed.

Section Accounting.

Variable W : world.

Lemma q_add_sound w f d flags q r q' :
  sound q -> q_add_timeoutx W w f d flags q = Ok r q' -> sound q'.
Proof.
  intros [Hg Ha] R. split; [eapply q_add_good; eauto|]. revert R.
  unfold q_add_timeoutx.
  destruct (Double.isnan w); [intros [= <- <-]; exact Ha|].
  unfold q_find. destruct (List.find _ _) as [e|] eqn:Hfind.
  - apply find_some_id in Hfind as [Hin Hid].
    destruct (negb (has flags LIBT_MOD)); [intros [= <- <-]; exact Ha|].
    destruct (has flags LIBT_REPEAT); [|destruct (has flags LIBT_RELATIVE)];
      intros [= <- <-]; apply accounted_arm_existing; assumption.
  - destruct (negb (has flags LIBT_ADD)); [intros [= <- <-]; exact Ha|].
    destruct (has flags (Z.lor LIBT_RELATIVE LIBT_REPEAT));
      intros [= <- <-]; apply (accounted_arm_new q); assumption.
Qed.

Lemma q_remove_sound f d q r q' :
  sound q -> q_remove_timeout f d q = Ok r q' -> sound q'.
Proof.
  intros [Hg Ha] R. split; [eapply q_remove_good; eauto|]. revert R.
  unfold q_remove_timeout, q_find.
  destruct (List.find _ _) as [e|] eqn:Hfind; [|intros [= <- <-]; exact Ha].
  apply find_some_id in Hfind as [Hin Hid].
  intros [= <- <-]. apply accounted_remove; assumption.
Qed.

Lemma q_get_waittime_sound q r q' :
  sound q -> q_get_waittime W q = Ok r q' -> sound q'.
Proof.
  intros [Hg Ha] R. split; [eapply q_get_waittime_good; eauto|]. revert R.
  unfold q_get_waittime.
  destruct (q_pending q) as [|e P]; [intros [= <- <-]; exact Ha|].
  unfold q_now. unfold bind. simpl.
  destruct (_ <=? 0)%float; [intros [= <- <-]; exact Ha|].
  destruct (_ <? _)%float; [intros [= <- <-]; exact Ha|].
  destruct (Double.to_Z _) as [z|]; [|discriminate].
  destruct (_ && _); [|discriminate].
  intros [= <- <-]. exact Ha.
Qed.

Lemma q_run_sound p q r q' : sound q -> q_run W p q = Ok r q' -> sound q'.
Proof.
  revert q. induction p as [|w f d flags k IH|f d k IH|f d k IH|k IH|k IH|k IH];
    intros q Hs; simpl.
  - intros [= <- <-]. exact Hs.
  - intros (a & q1 & H1 & H2)%bind_inv. eapply IH; [|exact H2].
    eapply q_add_sound; eauto.
  - intros (a & q1 & H1 & H2)%bind_inv. eapply IH; [|exact H2].
    eapply q_remove_sound; eauto.
  - intros (a & q1 & H1 & H2)%bind_inv. eapply IH; [|exact H2].
    injection H1 as <- <-. exact Hs.
  - intros (a & q1 & H1 & H2)%bind_inv. eapply IH; [|exact H2].
    unfold q_next_wakeup in H1. destruct (q_pending q); injection H1 as <- <-; exact Hs.
  - intros (a & q1 & H1 & H2)%bind_inv. eapply IH; [|exact H2].
    eapply q_get_waittime_sound; eauto.
  - intros (a & q1 & H1 & H2)%bind_inv. eapply IH; [|exact H2].
    injection H1 as <- <-. destruct Hs as [Hg Ha].
    split; [apply good_ticks; exact Hg|exact Ha].
Qed.

Lemma q_dispatch_sound fuel now cnt q r q' :
  sound q -> q_dispatch W fuel now cnt q = Ok r q' -> sound q'.
Proof.
  revert cnt q. induction fuel as [|fuel IH]; intros cnt q Hs; [discriminate|].
  simpl. destruct (q_pending q) as [|e P] eqn:HP; [intros [= <- <-]; exact Hs|].
  destruct (now <? e_wakeup e)%float; [intros [= <- <-]; exact Hs|].
  intros (a & q1 & H1 & H2)%bind_inv. eapply IH; [|exact H2].
  unfold q_fire in H1. apply bind_inv in H1 as (u & q0 & H0 & H1).
  injection H0 as <- <-. eapply q_run_sound; [|exact H1].
  destruct Hs as [Hg Ha]. split.
  - eapply good_fire; eauto.
  - eapply accounted_fire; eauto.
Qed.

Lemma q_flush_sound fuel q r q' :
  sound q -> q_flush W fuel q = Ok r q' -> sound q' /\ q_inflight q' = [].
Proof.
  intros Hs. unfold q_flush.
  intros (now & q1 & H1 & H2)%bind_inv. injection H1 as <- <-.
  apply bind_inv in H2 as (cnt & q2 & H2 & H3).
  apply bind_inv in H3 as (u & q3 & H3 & H4).
  injection H3 as <- <-. injection H4 as <- <-.
  split; [|reflexivity].
  assert (Hs2 : sound q2).
  { eapply q_dispatch_sound; [|exact H2]. destruct Hs as [Hg Ha].
    split; [apply good_ticks; exact Hg|exact Ha]. }
  destruct Hs2 as [Hg2 Ha2]. split; [apply good_sweep; exact Hg2|].
  apply accounted_sweep. exact Ha2.
Qed.

Lemma q_add_idle w f d flags q r q' :
  q_inflight q = [] -> q_add_timeoutx W w f d flags q = Ok r q' -> q_inflight q' = [].
Proof.
  intros HI. unfold q_add_timeoutx.
  destruct (Double.isnan w); [intros [= <- <-]; exact HI|].
  destruct (q_find f d q) as [e|].
  - destruct (negb (has flags LIBT_MOD)); [intros [= <- <-]; exact HI|].
    destruct (has flags LIBT_REPEAT); [|destruct (has flags LIBT_RELATIVE)];
      intros [= <- <-]; simpl; rewrite HI; reflexivity.
  - destruct (negb (has flags LIBT_ADD)); [intros [= <- <-]; exact HI|].
    destruct (has flags (Z.lor LIBT_RELATIVE LIBT_REPEAT));
      intros [= <- <-]; simpl; rewrite HI; reflexivity.
Qed.

Lemma q_remove_idle f d q r q' :
  q_inflight q = [] -> q_remove_timeout f d q = Ok r q' -> q_inflight q' = [].
Proof.
  intros HI. unfold q_remove_timeout.
  destruct (q_find f d q); intros [= <- <-]; simpl; rewrite HI; reflexivity.
Qed.

Lemma q_get_waittime_idle q r q' :
  q_inflight q = [] -> q_get_waittime W q = Ok r q' -> q_inflight q' = [].
Proof.
  intros HI. unfold q_get_waittime.
  destruct (q_pending q) as [|e P]; [intros [= <- <-]; exact HI|].
  unfold q_now. unfold bind. simpl.
  destruct (_ <=? 0)%float; [intros [= <- <-]; exact HI|].
  destruct (_ <? _)%float; [intros [= <- <-]; exact HI|].
  destruct (Double.to_Z _) as [z|]; [|discriminate].
  destruct (_ && _); [|discriminate].
  intros [= <- <-]. exact HI.
Qed.

(** Between two calls of the application nothing is in flight. *)
Lemma q_do_call_sound c q r q' :
  sound q -> q_inflight q = [] -> q_do_call W c q = Ok r q' ->
  sound q' /\ q_inflight q' = [].
Proof.
  intros Hs HI. destruct c; simpl.
  - intros (a & q1 & H1 & H2)%bind_inv. injection H2 as <- <-.
    split; [eapply q_add_sound; eauto|eapply q_add_idle; eauto].
  - intros R. split; [eapply q_remove_sound; eauto|eapply q_remove_idle; eauto].
  - intros (a & q1 & H1 & H2)%bind_inv. injection H2 as <- <-.
    injection H1 as <- <-. split; assumption.
  - intros (a & q1 & H1 & H2)%bind_inv. injection H2 as <- <-.
    unfold q_next_wakeup in H1.
    destruct (q_pending q); injection H1 as <- <-; split; assumption.
  - intros (a & q1 & H1 & H2)%bind_inv. injection H2 as <- <-.
    split; [eapply q_get_waittime_sound; eauto|eapply q_get_waittime_idle; eauto].
  - intros (a & q1 & H1 & H2)%bind_inv. injection H2 as <- <-.
    injection H1 as <- <-. split; [|exact HI].
    destruct Hs as [Hg Ha]. split; [apply good_ticks; exact Hg|exact Ha].
  - intros (a & q1 & H1 & H2)%bind_inv. injection H2 as <- <-.
    eapply q_flush_sound; eauto.
Qed.

Lemma q_do_calls_sound cs q r q' :
  sound q -> q_inflight q = [] -> q_do_calls W cs q = Ok r q' ->
  sound q' /\ q_inflight q' = [].
Proof.
  revert q. induction cs as [|c cs IH]; intros q Hs HI; simpl.
  - intros [= <- <-]. split; assumption.
  - intros (a & q1 & H1 & H2)%bind_inv.
    destruct (q_do_call_sound _ _ _ _ Hs HI H1) as [Hs1 HI1].
    eapply IH; eauto.
Qed.

End Accounting.

(** X8.  In every state the application can bring about, between two of
    its calls: no timer is in flight; the records allocated so far, with
    the addresses 0 to [brk - 1], are each either a pending timer or
    released, not both and none twice; and the records still allocated
    are exactly the pending timers.  So no record leaks, and the number
    of records allocated is the number of pending timers plus the number
    of records released. *)
Theorem reachable_accounted (W : world) (cs : list call) (s : state) :
  do_calls W cs init = Ok tt s ->
  inflight s = [] /\
  (e_addr <$> pending s) ++ freed s ≡ₚ seq 0 (brk s) /\
  (forall a, is_Some (heap s !! a) <-> a ∈ e_addr <$> pending s) /\
  brk s = (length (pending s) + length (freed s))%nat.
Proof.
  intros R. pose proof (wf_reach W cs s R) as Hw.
  destruct (via_view_inv _ _ _ _ _ (refines_do_calls W cs) wf_init R) as [Hq _].
  assert (Hinit : view init = q_init) by (apply holds_view; exact holds_init).
  rewrite Hinit in Hq.
  destruct (q_do_calls_sound W cs q_init tt (view s)
              (conj good_init accounted_init) eq_refl Hq) as [[_ Ha] HI].
  rewrite view_inflight in HI. unfold accounted, ledger in Ha.
  cbn [view q_pending q_inflight q_freed q_brk] in Ha.
  rewrite HI, app_nil_r in Ha.
  split; [exact HI|]. split; [exact Ha|]. split.
  - intros a. pose proof (wf_rep _ Hw) as Hrep. rewrite HI in Hrep. split.
    + intros Hsome. pose proof (rep_dom _ _ _ _ Hrep a Hsome) as Hd.
      rewrite !app_nil_r in Hd. exact Hd.
    + intros (x & -> & Hx)%list_elem_of_fmap. apply heap_pay.
      rewrite (rep_live _ _ _ _ x Hrep); [eauto|].
      apply elem_of_app. left. exact Hx.
  - apply Permutation_length in Ha.
    rewrite length_app, length_fmap, length_seq in Ha. lia.
Qed.

Lemma reachable_accounted_witness :
  inflight three_timers = [] /\ brk three_timers = 3%nat.
Proof.
  destruct (reachable_accounted (W_idle 2.5) three_calls three_timers three_timers_reach)
    as (HI & _ & _ & Hb).
  split; [exact HI|]. rewrite Hb, three_timers_pending. vm_compute. reflexivity.
Defined.

(** ** The wakeup time a call stores *)

(** X10.  [libt_add_timeoutx] with LIBT_ADD for an identity that has no
    timer allocates one record, the next fresh address, and puts it in
    its sorted place among the pending timers.  Its wakeup time is the
    argument, taken as absolute, unless LIBT_RELATIVE or LIBT_REPEAT is
    set: then the current time is added, and only then is the clock
    read.  Nothing is released and the timers in flight stay. *)
Theorem schedule_new_timer (W : world) (s : state) (w : float) (f d flags : Z) :
  wf s ->
  Double.isnan w = false ->
  has flags LIBT_ADD = true ->
  (f, d) ∉ e_id <$> (pending s ++ inflight s) ->
  exists s',
    libt_add_timeoutx W w f d flags s = Ok 0 s' /\
    pending s' =
    insert_sorted
      (Entry (brk s) f d
         (if has flags (Z.lor LIBT_RELATIVE LIBT_REPEAT)
          then (w + clock W (ticks s))%float else w))
      (pending s) /\
    inflight s' = inflight s /\
    brk s' = S (brk s) /\
    freed s' = freed s /\
    ticks s' = (if has flags (Z.lor LIBT_RELATIVE LIBT_REPEAT)
                then S (ticks s) else ticks s) /\
    wf s'.
Proof.
  intros Hw Hn Ha Hno.
  pose proof (via_view _ _ s (refines_add W w f d flags) Hw) as H.
  assert (Hf : q_find f d (view s) = None).
  { unfold q_find. cbn [view q_pending q_inflight].
    destruct (List.find _ _) as [x|] eqn:E; [|reflexivity].
    exfalso. apply Hno. apply find_id_iff. rewrite E. eauto. }
  rewrite (q_add_create W w f d flags _ Hn Hf Ha) in H.
  destruct H as (s' & R & Hv & Hh).
  assert (Hrep := wf_rep _ Hw).
  assert (HbP : brk s ∉ e_addr <$> pending s).
  { apply (rep_fresh s _ _ _ (pending s) Hrep). intros x Hx.
    apply elem_of_app. left. exact Hx. }
  assert (HbI : brk s ∉ e_addr <$> inflight s).
  { apply (rep_fresh s _ _ _ (inflight s) Hrep). intros x Hx.
    apply elem_of_app. right. apply elem_of_app. left. exact Hx. }
  cbn [view q_pending q_inflight q_brk q_freed q_ticks q_fired] in Hv.
  rewrite (drop_notin _ _ HbP), (drop_notin _ _ HbI) in Hv.
  unfold new_wakeup, reads_clock, tick in Hv.
  exists s'. split; [exact R|].
  split; [rewrite <- view_pending, Hv; reflexivity|].
  split; [rewrite <- view_inflight, Hv; reflexivity|].
  split; [change (brk s') with (q_brk (view s')); rewrite Hv; reflexivity|].
  split; [change (freed s') with (q_freed (view s')); rewrite Hv; reflexivity|].
  split; [change (ticks s') with (q_ticks (view s')); rewrite Hv; reflexivity|].
  eapply wf_add; eauto.
Qed.

Lemma schedule_new_timer_witness :
  exists s',
    libt_add_timeoutx (W_idle 2.5) 0.25 104 0 (Z.lor LIBT_ADD LIBT_RELATIVE) three_timers
    = Ok 0 s' /\
    pending s' =
    [Entry 0 101 0 1; Entry 1 102 0 2; Entry 3 104 0 (0.25 + 2.5); Entry 2 103 0 3].
Proof.
  pose proof (wf_reach _ _ _ three_timers_reach) as Hw.
  assert (Hno : (104, 0) ∉ e_id <$> (pending three_timers ++ inflight three_timers)).
  { rewrite three_timers_pending, three_timers_inflight. vm_compute.
    intros H. repeat (apply elem_of_cons in H as [H|H]; [discriminate|]).
    inversion H. }
  destruct (schedule_new_timer (W_idle 2.5) three_timers 0.25 104 0
              (Z.lor LIBT_ADD LIBT_RELATIVE) Hw eq_refl eq_refl Hno)
    as (s' & R & HP & _).
  exists s'. split; [exact R|]. rewrite HP, three_timers_pending.
  vm_compute. reflexivity.
Defined.

(** X11.  [libt_add_timeoutx] with LIBT_MOD and without LIBT_REPEAT for
    an existing timer, pending or in flight: the timer gets the argument
    as its wakeup time, plus the current time if LIBT_RELATIVE is set,
    and goes to its sorted place among the pending timers; the clock is
    read only for LIBT_RELATIVE, and nothing is allocated or released. *)
Theorem reschedule_timer (W : world) (s : state) (e : entry) (w : float) (flags : Z) :
  wf s ->
  e ∈ pending s ++ inflight s ->
  Double.isnan w = false ->
  has flags LIBT_MOD = true ->
  has flags LIBT_REPEAT = false ->
  exists s',
    libt_add_timeoutx W w (e_fn e) (e_dat e) flags s = Ok 0 s' /\
    pending s' =
    insert_sorted
      (with_wakeup (if has flags LIBT_RELATIVE
                    then (w + clock W (ticks s))%float else w) e)
      (drop (e_addr e) (pending s)) /\
    inflight s' = drop (e_addr e) (inflight s) /\
    brk s' = brk s /\
    freed s' = freed s /\
    ticks s' = (if has flags LIBT_RELATIVE then S (ticks s) else ticks s) /\
    wf s'.
Proof.
  intros Hw Hin Hn Hm Hr.
  pose proof (via_view _ _ s (refines_add W w (e_fn e) (e_dat e) flags) Hw) as H.
  assert (Hf : q_find (e_fn e) (e_dat e) (view s) = Some e).
  { unfold q_find. apply find_unique; [|exact Hin]. apply (good_ids _ (proj2 Hw)). }
  rewrite (q_add_update W w _ _ flags _ e Hn Hf Hm) in H.
  destruct H as (s' & R & Hv & Hh).
  unfold new_wakeup, reads_clock, tick in Hv. rewrite Hr in Hv.
  cbn [view q_pending q_inflight q_brk q_freed q_ticks q_fired orb] in Hv.
  exists s'. split; [exact R|].
  split; [rewrite <- view_pending, Hv; reflexivity|].
  split; [rewrite <- view_inflight, Hv; reflexivity|].
  split; [change (brk s') with (q_brk (view s')); rewrite Hv; reflexivity|].
  split; [change (freed s') with (q_freed (view s')); rewrite Hv; reflexivity|].
  split; [change (ticks s') with (q_ticks (view s')); rewrite Hv; reflexivity|].
  eapply wf_add; eauto.
Qed.

Lemma reschedule_timer_witness :
  exists s',
    libt_add_timeoutx (W_idle 2.5) 5 101 0 LIBT_MOD three_timers = Ok 0 s' /\
    pending s' = [Entry 1 102 0 2; Entry 2 103 0 3; Entry 0 101 0 5].
Proof.
  pose proof (wf_reach _ _ _ three_timers_reach) as Hw.
  assert (Hin : Entry 0 101 0 1 ∈ pending three_timers ++ inflight three_timers).
  { rewrite three_timers_pending. apply list_elem_of_here. }
  destruct (reschedule_timer (W_idle 2.5) three_timers (Entry 0 101 0 1) 5 LIBT_MOD
              Hw Hin eq_refl eq_refl eq_refl)
    as (s' & R & HP & _).
  exists s'. split; [exact R|]. rewrite HP, three_timers_pending.
  vm_compute. reflexivity.
Defined.

(** ** A wakeup time that is not a number *)

(** X12.  The test of [libt_add_timeoutx] for a NaN covers its argument
    only.  With LIBT_REPEAT the sum of the old wakeup time and the
    argument is stored even when it is not a number (an infinite wakeup
    time and the opposite infinity), and [libt_get_waittime] then has no
    defined result when that timer is the first: the [double] it
    converts to [int] is not a number. *)
Theorem nan_wakeup_stored (W : world) (s : state) (e : entry) (w : float) (flags : Z) :
  wf s ->
  (e ∈ pending s ++ inflight s ->
   Double.isnan w = false ->
   has flags LIBT_MOD = true ->
   has flags LIBT_REPEAT = true ->
   Double.isnan (e_wakeup e + w)%float = true ->
   exists s',
     libt_add_timeoutx W w (e_fn e) (e_dat e) flags s = Ok 0 s' /\
     timers_of e s' = [with_wakeup (e_wakeup e + w)%float e]) /\
  (forall P,
     pending s = e :: P ->
     Double.isnan ((e_wakeup e - clock W (ticks s)) * 1000)%float = true ->
     libt_get_waittime W s = Fault).
Proof.
  intros Hw. split.
  - intros Hin Hn Hm Hr Hnan.
    pose proof (via_view _ _ s (refines_add W w (e_fn e) (e_dat e) flags) Hw) as H.
    assert (Hf : q_find (e_fn e) (e_dat e) (view s) = Some e).
    { unfold q_find. apply find_unique; [|exact Hin]. apply (good_ids _ (proj2 Hw)). }
    rewrite (q_add_update W w _ _ flags _ e Hn Hf Hm) in H.
    destruct H as (s' & R & Hv & Hh).
    assert (Hw' : wf s') by (eapply wf_add; eauto).
    assert (Hnew : new_wakeup flags w (clock W (q_ticks (view s))) (Some (e_wakeup e))
                   = (e_wakeup e + w)%float).
    { unfold new_wakeup, repeat_time. rewrite Hr.
      assert (Hlt : (e_wakeup e + w <? clock W (q_ticks (view s)))%float = false).
      { apply ltb_nan_l. exact Hnan. }
      rewrite Hlt. reflexivity. }
    rewrite Hnew in Hv.
    exists s'. split; [exact R|].
    apply timers_of_unique; [exact Hw'| |reflexivity].
    rewrite <- view_pending, <- view_inflight, Hv. cbn [q_pending q_inflight].
    apply elem_of_app. left. apply insert_sorted_in.
  - intros P HP Hnan.
    pose proof (via_view _ _ s (refines_get_waittime W) Hw) as H.
    unfold q_get_waittime in H. cbn [view q_pending] in H. rewrite HP in H.
    unfold q_now in H. unfold bind at 1 in H.
    cbn [view q_ticks q_pending q_inflight q_brk q_freed q_fired] in H.
    assert (Hle : ((e_wakeup e - clock W (ticks s)) * 1000 <=? 0)%float = false).
    { rewrite leb_spec. apply isnan_spec in Hnan. rewrite Hnan. reflexivity. }
    assert (Hlt : (Double.of_Z MAXRESULT <? (e_wakeup e - clock W (ticks s)) * 1000)%float
                  = false).
    { apply ltb_nan_r. exact Hnan. }
    rewrite Hle, Hlt in H. apply isnan_spec in Hnan.
    unfold Double.to_Z in H. rewrite Hnan in H. exact H.
Qed.

Lemma nan_wakeup_stored_witness :
  (exists s',
     libt_add_timeoutx (W_idle 0) neg_infinity 7 0 (Z.lor LIBT_MOD LIBT_REPEAT) inf_timer
     = Ok 0 s' /\
     timers_of (Entry 0 7 0 infinity) s' = [Entry 0 7 0 (infinity + neg_infinity)]) /\
  libt_get_waittime (W_idle 0) nan_timer = Fault.
Proof.
  split.
  - assert (Hr : do_calls (W_idle 0) inf_call init = Ok tt inf_timer).
    { vm_compute. reflexivity. }
    pose proof (wf_reach _ _ _ Hr) as Hw.
    assert (HP : pending inf_timer = [Entry 0 7 0 infinity]) by (vm_compute; reflexivity).
    assert (Hin : Entry 0 7 0 infinity ∈ pending inf_timer ++ inflight inf_timer).
    { rewrite HP. apply list_elem_of_here. }
    destruct (nan_wakeup_stored (W_idle 0) inf_timer (Entry 0 7 0 infinity) neg_infinity
                (Z.lor LIBT_MOD LIBT_REPEAT) Hw) as [H _].
    destruct (H Hin eq_refl eq_refl eq_refl eq_refl) as (s' & R & Ht).
    exists s'. split; [exact R|exact Ht].
  - assert (Hr : do_calls (W_idle 0) nan_calls init = Ok tt nan_timer).
    { vm_compute. reflexivity. }
    pose proof (wf_reach _ _ _ Hr) as Hw.
    assert (HP : pending nan_timer = [Entry 0 7 0 nan]) by (vm_compute; reflexivity).
    destruct (nan_wakeup_stored (W_idle 0) nan_timer (Entry 0 7 0 nan) 0 0 Hw) as [_ H].
    exact (H [] HP eq_refl).
Defined.

(** ** Flushing twice *)

Lemma due_not_due_nil ref l : due ref (not_due ref l) = [].
Proof.
  unfold due, not_due. induction l as [|x l IH]; [reflexivity|].
  simpl. destruct (e_wakeup x <=? ref)%float eqn:E; simpl; [exact IH|].
  rewrite E. exact IH.
Qed.

Lemma not_due_idem ref l : not_due ref (not_due ref l) = not_due ref l.
Proof.
  unfold not_due. induction l as [|x l IH]; [reflexivity|].
  simpl. destruct (e_wakeup x <=? ref)%float eqn:E; simpl; [exact IH|].
  rewrite E. simpl. rewrite IH. reflexivity.
Qed.

Lemma no_nan_not_due ref l : no_nan l -> no_nan (not_due ref l).
Proof.
  unfold no_nan, not_due. intros H. apply Forall_forall. intros x Hx.
  apply list_elem_of_In, filter_In in Hx as [Hx _].
  eapply Forall_forall in H; [exact H|]. apply list_elem_of_In. exact Hx.
Qed.

(** A flush whose callbacks leave the queue alone, on the lists. *)
Lemma flush_inert W s fuel :
  wf s ->
  Double.isnan (clock W (ticks s) + 0.001)%float = false ->
  no_nan (pending s) ->
  Forall (fun e => code W (e_fn e) (e_dat e) = Return)
         (due (clock W (ticks s) + 0.001)%float (pending s)) ->
  (length (due (clock W (ticks s) + 0.001)%float (pending s)) <= fuel)%nat ->
  exists s',
    libt_flush W fuel s =
    Ok (Z.of_nat (length (due (clock W (ticks s) + 0.001)%float (pending s)))) s' /\
    view s' =
    Queue (not_due (clock W (ticks s) + 0.001)%float (pending s)) [] (brk s)
          (rev (e_addr <$> (rev (due (clock W (ticks s) + 0.001)%float (pending s))
                            ++ inflight s)) ++ freed s)
          (S (ticks s))
          (fired s ++ (e_id <$> due (clock W (ticks s) + 0.001)%float (pending s))) /\
    wf s'.
Proof.
  intros Hw Href Hn Hcode Hfuel.
  pose proof (via_view _ _ s (refines_flush W fuel) Hw) as H.
  unfold q_flush, q_now in H. unfold bind at 1 in H.
  cbn [view q_ticks q_pending q_inflight q_brk q_freed q_fired] in H.
  unfold bind at 1 in H.
  rewrite (q_dispatch_inert W _ (S fuel) (pending s) Href) in H.
  - unfold bind at 1 in H. unfold q_sweep, ret in H.
    cbn [q_ticks q_pending q_inflight q_brk q_freed q_fired] in H.
    destruct H as (s' & R & Hv & Hh). exists s'. rewrite Z.add_0_l in R.
    split; [exact R|]. split; [exact Hv|]. eapply wf_flush; eauto.
  - apply Hw.
  - exact Hn.
  - exact Hcode.
  - apply Nat.lt_succ_r. exact Hfuel.
  - apply (good_addrs _ (proj2 Hw)).
Qed.

(** X13.  A second [libt_flush], at the same clock reading, after one
    whose callbacks left the queue alone: it invokes no callback,
    returns 0, and neither the pending timers nor the released records
    change. *)
Theorem flush_twice (W : world) (s : state) (fuel fuel' : nat) :
  wf s ->
  inflight s = [] ->
  Double.isnan (clock W (ticks s) + 0.001)%float = false ->
  no_nan (pending s) ->
  Forall (fun e => code W (e_fn e) (e_dat e) = Return)
         (due (clock W (ticks s) + 0.001)%float (pending s)) ->
  (length (due (clock W (ticks s) + 0.001)%float (pending s)) <= fuel)%nat ->
  clock W (S (ticks s)) = clock W (ticks s) ->
  exists n s1 s2,
    libt_flush W fuel s = Ok n s1 /\
    libt_flush W fuel' s1 = Ok 0 s2 /\
    pending s2 = pending s1 /\
    inflight s2 = [] /\
    fired s2 = fired s1 /\
    freed s2 = freed s1 /\
    heap s2 = heap s1.
Proof.
  intros Hw HI Href Hn Hcode Hfuel Hclock.
  destruct (flush_inert W s fuel Hw Href Hn Hcode Hfuel) as (s1 & R1 & Hv1 & Hw1).
  assert (HP1 : pending s1 = not_due (clock W (ticks s) + 0.001)%float (pending s)).
  { rewrite <- view_pending, Hv1. reflexivity. }
  assert (HI1 : inflight s1 = []).
  { rewrite <- view_inflight, Hv1. reflexivity. }
  assert (HT1 : ticks s1 = S (ticks s)).
  { change (ticks s1) with (q_ticks (view s1)). rewrite Hv1. reflexivity. }
  assert (Hd : due (clock W (ticks s1) + 0.001)%float (pending s1) = []).
  { rewrite HT1, Hclock, HP1. apply due_not_due_nil. }
  destruct (flush_inert W s1 fuel' Hw1) as (s2 & R2 & Hv2 & Hw2).
  - rewrite HT1, Hclock. exact Href.
  - rewrite HP1. apply no_nan_not_due. exact Hn.
  - rewrite Hd. apply Forall_nil. exact I.
  - rewrite Hd. simpl. lia.
  - rewrite Hd in R2, Hv2. simpl in R2, Hv2. rewrite HI1 in Hv2. simpl in Hv2.
    rewrite app_nil_r in Hv2.
    assert (HP2 : pending s2 = pending s1).
    { rewrite <- view_pending, Hv2. cbn [q_pending].
      rewrite HT1, Hclock, HP1. apply not_due_idem. }
    assert (HI2 : inflight s2 = []).
    { rewrite <- view_inflight, Hv2. reflexivity. }
    eexists. exists s1, s2. split; [exact R1|]. split; [exact R2|].
    split; [exact HP2|]. split; [exact HI2|].
    split; [change (fired s2) with (q_fired (view s2)); rewrite Hv2; reflexivity|].
    split; [change (freed s2) with (q_freed (view s2)); rewrite Hv2; reflexivity|].
    pose proof (wf_rep _ Hw1) as Hrep1. pose proof (wf_rep _ Hw2) as Hrep2.
    rewrite HP2, HI2 in Hrep2. rewrite HI1 in Hrep1.
    exact (rep_heap_unique s1 s2 _ _ Hrep1 Hrep2).
Qed.

Lemma flush_twice_witness :
  exists n s1 s2,
    libt_flush (W_idle 2.5) 3 three_timers = Ok n s1 /\
    libt_flush (W_idle 2.5) 0 s1 = Ok 0 s2 /\
    pending s2 = pending s1.
Proof.
  pose proof (wf_reach _ _ _ three_timers_reach) as Hw.
  assert (Hn : no_nan (pending three_timers)).
  { rewrite three_timers_pending. repeat constructor. }
  assert (Hc : Forall (fun e => code (W_idle 2.5) (e_fn e) (e_dat e) = Return)
                 (due (clock (W_idle 2.5) (ticks three_timers) + 0.001)%float
                      (pending three_timers))).
  { apply Forall_forall. reflexivity. }
  assert (Hf : (length (due (clock (W_idle 2.5) (ticks three_timers) + 0.001)%float
                            (pending three_timers)) <= 3)%nat).
  { rewrite three_timers_pending. vm_compute. lia. }
  assert (Hclk : clock (W_idle 2.5) (S (ticks three_timers)) =
                 clock (W_idle 2.5) (ticks three_timers)).
  { cbn [clock W_idle]. reflexivity. }
  assert (Href : Double.isnan (clock (W_idle 2.5) (ticks three_timers) + 0.001)%float
                 = false).
  { cbn [clock W_idle]. reflexivity. }
  destruct (flush_twice (W_idle 2.5) three_timers 3 0 Hw three_timers_inflight
              Href Hn Hc Hf Hclk)
    as (n & s1 & s2 & R1 & R2 & HP & _).
  exists n, s1, s2. split; [exact R1|]. split; [exact R2|exact HP].
Defined.

(** ** The links of the records *)

(** X14.  After any sequence of calls of the exported functions on the
    empty queue, whatever the callbacks did, the two lists are properly
    doubly linked: [s.timers] and [s.tmptimers] point to the first record of
    their list, or are NULL; the [next] member of a record points to the
    record after it, or is NULL; its [prev] member points to the record
    before it, or, for the first record, to the fake element laid over
    the root pointer.  So [t->prev->next] is [t] for every linked record,
    as [t_del] needs. *)
Theorem lists_doubly_linked (W : world) (cs : list call) (s : state) :
  do_calls W cs init = Ok tt s ->
  timers s = head_ptr (pending s) /\
  tmptimers s = head_ptr (inflight s) /\
  (forall l1 x l2,
     pending s = l1 ++ x :: l2 ->
     heap s !! (e_addr x) =
     Some (Timer (head_ptr l2) (last_ptr (FAKE TIMERS) l1)
                 (e_fn x) (e_dat x) (e_wakeup x)) /\
     nxt s (last_ptr (FAKE TIMERS) l1) = Some (e_ptr x)) /\
  (forall l1 x l2,
     inflight s = l1 ++ x :: l2 ->
     heap s !! (e_addr x) =
     Some (Timer (head_ptr l2) (last_ptr (FAKE TMPTIMERS) l1)
                 (e_fn x) (e_dat x) (e_wakeup x)) /\
     nxt s (last_ptr (FAKE TMPTIMERS) l1) = Some (e_ptr x)).
Proof.
  intros R. pose proof (wf_reach _ _ _ R) as Hw. assert (Hrep := wf_rep _ Hw).
  assert (Hcell : forall q l1 x l2, chain s q (l1 ++ x :: l2) ->
            heap s !! (e_addr x) =
            Some (Timer (head_ptr l2) (last_ptr q l1) (e_fn x) (e_dat x) (e_wakeup x)) /\
            nxt s (last_ptr q l1) = Some (e_ptr x)).
  { intros q l1 x l2 Hc.
    destruct (chain_at _ _ _ _ _ Hc) as (H1 & H2 & H3 & H4 & _).
    split; [|exact H1].
    unfold nxt, prv, pay, e_ptr, e_pay in *.
    destruct (heap s !! e_addr x) as [[n p f d w]|]; [|discriminate].
    simpl in *. congruence. }
  split; [exact (rep_timers _ _ _ _ Hrep)|].
  split; [exact (rep_tmptimers _ _ _ _ Hrep)|].
  split.
  - intros l1 x l2 HP. apply Hcell. rewrite <- HP. exact (rep_P _ _ _ _ Hrep).
  - intros l1 x l2 HI. apply Hcell. rewrite <- HI. exact (rep_I _ _ _ _ Hrep).
Qed.

Lemma lists_doubly_linked_witness :
  heap three_timers !! 1%nat = Some (Timer (NODE 2) (NODE 0) 102 0 2) /\
  heap three_timers !! 0%nat = Some (Timer (NODE 1) (FAKE TIMERS) 101 0 1).
Proof.
  destruct (lists_doubly_linked _ _ _ three_timers_reach) as (_ & _ & H & _).
  split.
  - exact (proj1 (H [Entry 0 101 0 1] (Entry 1 102 0 2) [Entry 2 103 0 3]
                    three_timers_pending)).
  - exact (proj1 (H [] (Entry 0 101 0 1) [Entry 1 102 0 2; Entry 2 103 0 3]
                    three_timers_pending)).
Defined.

(** ** A wall time that is not a number *)

Lemma isnan_sub_l (x y : float) : Double.isnan x = true -> Double.isnan (x - y) = true.
Proof.
  intros H%isnan_spec. apply isnan_spec. rewrite sub_spec, H.
  destruct (Prim2SF y) as [| | |]; reflexivity.
Qed.

Lemma isnan_sub_r (x y : float) : Double.isnan y = true -> Double.isnan (x - y) = true.
Proof.
  intros H%isnan_spec. apply isnan_spec. rewrite sub_spec, H.
  destruct (Prim2SF x) as [| | |]; reflexivity.
Qed.

Lemma isnan_fmod_l (x y : float) :
  Double.isnan x = true -> Double.isnan (Double.fmod x y) = true.
Proof.
  intros H%isnan_spec. unfold Double.fmod. rewrite H.
  destruct (Prim2SF y) as [| | |]; reflexivity.
Qed.

(** X15.  [libt_walltime] returns NaN when the time of day cannot be
    read.  Given a wall time that is not a number,
    [libt_timetointerval4] returns NaN for an interval below 1.5 hours,
    without skipping; from 1.5 hours on it converts the wall time to a
    [time_t], which has no defined value. *)
Theorem timetointerval4_nan_walltime (gmtoff : Z -> Z) (fuel : nat)
    (walltime interval offset pad : float) :
  Double.isnan walltime = true ->
  ((3600 * 1.5 <=? interval)%float = false ->
   exists v,
     libt_timetointerval4 gmtoff (S fuel) walltime interval offset pad = Some v /\
     Double.isnan v = true) /\
  ((3600 * 1.5 <=? interval)%float = true ->
   libt_timetointerval4 gmtoff (S fuel) walltime interval offset pad = None) /\
  Double.isnan (libt_walltime None) = true.
Proof.
  intros Hn. split; [|split; [|reflexivity]]; intros Hi.
  - cbn [libt_timetointerval4]. rewrite Hi. cbn [mbind option_bind].
    assert (Hv : Double.isnan
                   (interval - Double.fmod (walltime - offset) interval)%float = true).
    { apply isnan_sub_r, isnan_fmod_l, isnan_sub_l. exact Hn. }
    rewrite (ltb_nan_l _ _ Hv). eexists. split; [reflexivity|exact Hv].
  - cbn [libt_timetointerval4]. rewrite Hi.
    unfold time_t_of_double, Double.to_Z. apply isnan_spec in Hn. rewrite Hn.
    reflexivity.
Qed.

Lemma timetointerval4_nan_walltime_witness :
  (exists v, libt_timetointerval4 (fun _ => 0) 1 (libt_walltime None) 60 0 0.001 = Some v /\
             Double.isnan v = true) /\
  libt_timetointerval4 (fun _ => 0) 1 (libt_walltime None) 86400 0 0.001 = None.
Proof.
  destruct (timetointerval4_nan_walltime (fun _ => 0) 0 (libt_walltime None) 60 0 0.001
              eq_refl) as (H1 & _ & _).
  destruct (timetointerval4_nan_walltime (fun _ => 0) 0 (libt_walltime None) 86400 0 0.001
              eq_refl) as (_ & H2 & _).
  split; [exact (H1 eq_refl)|exact (H2 eq_refl)].
Defined.

(** ** A callback that schedules its timer again without LIBT_MOD *)

Lemma exist_absent s f d :
  wf s -> (f, d) ∉ e_id <$> (pending s ++ inflight s) ->
  libt_timeout_exist f d s = Ok 0 s.
Proof.
  intros Hw Hno. unfold libt_timeout_exist.
  rewrite (bind_ok _ _ _ _ _ (t_find_spec _ _ _ _ f d (wf_rep _ Hw))).
  destruct (List.find (same_id f d) (pending s ++ inflight s)) as [x|] eqn:E;
    [|reflexivity].
  exfalso. apply Hno. apply find_id_iff. rewrite E. eauto.
Qed.

Lemma q_flush_rearm_denied W fuel e P I b fr t fi w flags :
  NoDup (e_id <$> ((e :: P) ++ I)) ->
  NoDup (e_addr <$> ((e :: P) ++ I)) ->
  (clock W t + 0.001 <? e_wakeup e)%float = false ->
  rearms_itself W e w flags ->
  has flags LIBT_MOD = false ->
  head_later (clock W t + 0.001)%float P ->
  q_flush W (S fuel) (Queue (e :: P) I b fr t fi) =
  Ok 1 (Queue P [] b (rev (e_addr <$> (e :: I)) ++ fr) (S t) (fi ++ [e_id e])).
Proof.
  intros Hid Hnd Hdue Hcode Hmod HP.
  unfold q_flush, q_now. unfold bind at 1.
  cbn [q_ticks q_pending q_inflight q_brk q_freed q_fired].
  unfold bind at 1. remember (S fuel) as n eqn:En.
  cbn [q_dispatch q_pending]. rewrite Hdue.
  unfold bind at 1. unfold q_fire. unfold bind at 1.
  cbn [q_ticks q_pending q_inflight q_brk q_freed q_fired].
  change ((e :: P) ++ I) with (e :: (P ++ I)) in Hid, Hnd.
  assert (Hid0 := Hid).
  rewrite fmap_cons in Hnd. apply NoDup_cons in Hnd as [Ha Hnd].
  rewrite fmap_app in Ha. apply not_elem_of_app in Ha as [HaP HaI].
  assert (HdP : drop (e_addr e) (e :: P) = P).
  { unfold drop. rewrite filter_cons_False by (intros H; apply H; reflexivity).
    apply drop_notin. exact HaP. }
  rewrite HdP, (drop_notin _ _ HaI).
  unfold rearms_itself in Hcode. rewrite Hcode. cbn [q_run].
  unfold bind at 1.
  assert (Hadd : exists r,
            q_add_timeoutx W w (e_fn e) (e_dat e) flags
              (Queue P (e :: I) b fr (S t) (fi ++ [(e_fn e, e_dat e)])) =
            Ok r (Queue P (e :: I) b fr (S t) (fi ++ [(e_fn e, e_dat e)]))).
  { destruct (Double.isnan w) eqn:Hw.
    - exists (- EINVAL). apply q_add_nan. exact Hw.
    - exists (- EPERM). apply (q_add_eperm W w _ _ flags _ e Hw); [|exact Hmod].
      unfold q_find. cbn [q_pending q_inflight]. apply find_unique.
      + rewrite <- Permutation_middle. exact Hid0.
      + apply elem_of_app. right. apply list_elem_of_here. }
  destruct Hadd as (r & ->). unfold ret. subst n.
  rewrite q_dispatch_stop by exact HP. reflexivity.
Qed.

(** X16.  A callback that schedules its own identity again without
    LIBT_MOD while [libt_flush] runs it: the timer is found among the
    timers in flight, so the call fails and changes nothing, and the
    final sweep of [libt_flush] releases the record.  The timer is gone:
    scheduling from the own callback needs LIBT_MOD. *)
Theorem rearm_without_mod (W : world) (s : state) (fuel : nat) (e : entry)
    (P : list entry) (w : float) (flags : Z) :
  wf s ->
  pending s = e :: P ->
  inflight s = [] ->
  (clock W (ticks s) + 0.001 <? e_wakeup e)%float = false ->
  rearms_itself W e w flags ->
  has flags LIBT_MOD = false ->
  head_later (clock W (ticks s) + 0.001)%float P ->
  exists s',
    libt_flush W (S fuel) s = Ok 1 s' /\
    pending s' = P /\
    inflight s' = [] /\
    freed s' = e_addr e :: freed s /\
    libt_timeout_exist (e_fn e) (e_dat e) s' = Ok 0 s'.
Proof.
  intros Hw HP HI Hdue Hcode Hmod Hl.
  pose proof (via_view _ _ s (refines_flush W (S fuel)) Hw) as H.
  assert (Hg := proj2 Hw).
  assert (Hv : view s = Queue (e :: P) [] (brk s) (freed s) (ticks s) (fired s)).
  { unfold view. rewrite HP, HI. reflexivity. }
  rewrite Hv in H.
  assert (Hids : NoDup (e_id <$> ((e :: P) ++ []))).
  { pose proof (good_ids _ Hg) as G. rewrite Hv in G. exact G. }
  rewrite (q_flush_rearm_denied W fuel e P [] (brk s) (freed s) (ticks s) (fired s) w flags)
    in H; try assumption.
  - destruct H as (s' & R & Hv' & Hh).
    assert (Hw' : wf s') by (eapply wf_flush; eauto).
    assert (HP' : pending s' = P) by (rewrite <- view_pending, Hv'; reflexivity).
    assert (HI' : inflight s' = []) by (rewrite <- view_inflight, Hv'; reflexivity).
    exists s'. split; [exact R|]. split; [exact HP'|]. split; [exact HI'|].
    split; [change (freed s') with (q_freed (view s')); rewrite Hv'; reflexivity|].
    apply exist_absent; [exact Hw'|]. rewrite HP', HI', app_nil_r.
    rewrite app_nil_r, fmap_cons in Hids. apply NoDup_cons in Hids as [Hno _].
    exact Hno.
  - pose proof (good_addrs _ Hg) as G. rewrite Hv in G. exact G.
Qed.

Lemma rearm_without_mod_witness :
  exists s',
    libt_flush (W_add_only 7) 1 one_timer = Ok 1 s' /\
    pending s' = [] /\
    libt_timeout_exist 7 0 s' = Ok 0 s'.
Proof.
  pose proof (wf_reach _ _ _ one_timer_reach) as Hw.
  destruct (rearm_without_mod (W_add_only 7) one_timer 0 (Entry 0 7 0 5.0005) [] 5
              LIBT_ADD Hw one_timer_pending one_timer_inflight eq_refl eq_refl eq_refl I)
    as (s' & R & HP & _ & _ & He).
  exists s'. split; [exact R|]. split; [exact HP|exact He].
Defined.

(** ** A callback that schedules a timer that is already due *)

Lemma insert_sorted_head x l :
  head_later (e_wakeup x) l -> insert_sorted x l = x :: l.
Proof.
  destruct l as [|y l]; simpl; [reflexivity|]. intros ->. reflexivity.
Qed.

Lemma find_absent f d l :
  (f, d) ∉ e_id <$> l -> List.find (same_id f d) l = None.
Proof.
  intros Hno. destruct (List.find (same_id f d) l) as [x|] eqn:E; [|reflexivity].
  exfalso. apply Hno. apply find_id_iff. rewrite E. eauto.
Qed.

Lemma q_flush_spawn W fuel e P b fr t fi w f d flags :
  NoDup (e_addr <$> (e :: P)) ->
  Forall (fun x => (e_addr x < b)%nat) (e :: P) ->
  (f, d) ∉ e_id <$> (e :: P) ->
  (clock W t + 0.001 <? e_wakeup e)%float = false ->
  code W (e_fn e) (e_dat e) = CallAdd w f d flags (fun _ => Return) ->
  code W f d = Return ->
  Double.isnan w = false ->
  has flags LIBT_ADD = true ->
  has flags (Z.lor LIBT_RELATIVE LIBT_REPEAT) = false ->
  (clock W t + 0.001 <? w)%float = false ->
  head_later w P ->
  head_later (clock W t + 0.001)%float P ->
  q_flush W (S (S fuel)) (Queue (e :: P) [] b fr t fi) =
  Ok 2 (Queue P [] (S b) (e_addr e :: b :: fr) (S t) (fi ++ [e_id e; (f, d)])).
Proof.
  intros Hnd Hb Hno Hdue Hcode Hcode2 Hw Hadd Habs Hdue2 HwP HP.
  rewrite fmap_cons in Hnd. apply NoDup_cons in Hnd as [Ha Hnd].
  assert (HbP : b ∉ e_addr <$> P).
  { intros (x & -> & Hx)%list_elem_of_fmap. apply Forall_cons in Hb as [_ Hb].
    eapply Forall_forall in Hb; [|exact Hx]. lia. }
  assert (Hbe : e_addr e <> b).
  { apply Forall_cons in Hb as [Hb _]. lia. }
  unfold q_flush, q_now. unfold bind at 1.
  cbn [q_ticks q_pending q_inflight q_brk q_freed q_fired].
  unfold bind at 1. remember (S fuel) as m eqn:Em. remember (S m) as n eqn:En.
  cbn [q_dispatch q_pending]. rewrite Hdue.
  unfold bind at 1. unfold q_fire. unfold bind at 1.
  cbn [q_ticks q_pending q_inflight q_brk q_freed q_fired].
  assert (HdP : drop (e_addr e) (e :: P) = P).
  { unfold drop. rewrite filter_cons_False by (intros H; apply H; reflexivity).
    apply drop_notin. exact Ha. }
  rewrite HdP. change (drop (e_addr e) []) with (@nil entry).
  rewrite Hcode. cbn [q_run]. unfold bind at 1.
  rewrite (q_add_create W w f d flags _ Hw); [| |exact Hadd].
  2:{ unfold q_find. cbn [q_pending q_inflight]. apply find_absent.
      rewrite fmap_app. rewrite fmap_cons in Hno.
      apply not_elem_of_cons in Hno as [H1 H2].
      apply not_elem_of_app. split; [exact H2|].
      simpl. intros H. apply elem_of_cons in H as [H|H]; [congruence|inversion H]. }
  cbn [q_ticks q_pending q_inflight q_brk q_freed q_fired].
  unfold new_wakeup, reads_clock, tick. rewrite Habs.
  rewrite (drop_notin _ _ HbP).
  assert (HdI : drop b [e] = [e]).
  { unfold drop. rewrite filter_cons_True by exact Hbe. reflexivity. }
  rewrite HdI.
  rewrite (insert_sorted_head (Entry b f d w) P HwP).
  unfold ret. subst n.
  cbn [q_dispatch q_pending e_wakeup]. rewrite Hdue2.
  unfold bind at 1. unfold q_fire. unfold bind at 1.
  cbn [q_ticks q_pending q_inflight q_brk q_freed q_fired e_addr e_fn e_dat].
  assert (HdP2 : drop b (Entry b f d w :: P) = P).
  { unfold drop. rewrite filter_cons_False by (intros H; apply H; reflexivity).
    apply drop_notin. exact HbP. }
  rewrite HdP2, HdI. rewrite Hcode2. cbn [q_run]. unfold ret. subst m.
  rewrite q_dispatch_stop by exact HP.
  unfold bind, q_sweep.
  cbn [q_ticks q_pending q_inflight q_brk q_freed q_fired].
  rewrite <- app_assoc. reflexivity.
Qed.

(** X17.  A timer that a callback schedules while [libt_flush] runs, and
    that is due at the reference time of the pass, fires in the same
    pass: [libt_flush] looks at the head of the pending timers anew after
    every callback.  Its callback is invoked after the one that scheduled
    it, it counts in the value returned, and its record is released at
    the end with the other. *)
Theorem callback_schedules_due_timer (W : world) (s : state) (fuel : nat)
    (e : entry) (P : list entry) (w : float) (f d flags : Z) :
  wf s ->
  pending s = e :: P ->
  inflight s = [] ->
  (clock W (ticks s) + 0.001 <? e_wakeup e)%float = false ->
  code W (e_fn e) (e_dat e) = CallAdd w f d flags (fun _ => Return) ->
  code W f d = Return ->
  Double.isnan w = false ->
  has flags LIBT_ADD = true ->
  has flags (Z.lor LIBT_RELATIVE LIBT_REPEAT) = false ->
  (f, d) ∉ e_id <$> pending s ->
  (clock W (ticks s) + 0.001 <? w)%float = false ->
  head_later w P ->
  head_later (clock W (ticks s) + 0.001)%float P ->
  exists s',
    libt_flush W (S (S fuel)) s = Ok 2 s' /\
    fired s' = fired s ++ [e_id e; (f, d)] /\
    pending s' = P /\
    inflight s' = [] /\
    freed s' = e_addr e :: brk s :: freed s /\
    brk s' = S (brk s).
Proof.
  intros Hw HP HI Hdue Hcode Hcode2 Hn Hadd Habs Hno Hdue2 HwP Hl.
  pose proof (via_view _ _ s (refines_flush W (S (S fuel))) Hw) as H.
  assert (Hg := proj2 Hw).
  assert (Hv : view s = Queue (e :: P) [] (brk s) (freed s) (ticks s) (fired s)).
  { unfold view. rewrite HP, HI. reflexivity. }
  rewrite Hv in H.
  rewrite (q_flush_spawn W fuel e P (brk s) (freed s) (ticks s) (fired s) w f d flags)
    in H; try assumption.
  - destruct H as (s' & R & Hv' & Hh). exists s'. split; [exact R|].
    split; [change (fired s') with (q_fired (view s')); rewrite Hv'; reflexivity|].
    split; [rewrite <- view_pending, Hv'; reflexivity|].
    split; [rewrite <- view_inflight, Hv'; reflexivity|].
    split; [change (freed s') with (q_freed (view s')); rewrite Hv'; reflexivity|].
    change (brk s') with (q_brk (view s')). rewrite Hv'. reflexivity.
  - pose proof (good_addrs _ Hg) as G. rewrite Hv in G.
    cbn [q_pending q_inflight] in G. rewrite app_nil_r in G. exact G.
  - pose proof (good_brk _ Hg) as G. rewrite Hv in G.
    cbn [q_pending q_inflight q_brk] in G. rewrite app_nil_r in G. exact G.
  - rewrite <- HP. exact Hno.
Qed.

Lemma callback_schedules_due_timer_witness :
  exists s',
    libt_flush (W_spawn 10) 2 one_timer = Ok 2 s' /\
    fired s' = fired one_timer ++ [(7, 0); (8, 0)] /\
    pending s' = [].
Proof.
  pose proof (wf_reach _ _ _ one_timer_reach) as Hw.
  assert (Hno : (8, 0) ∉ e_id <$> pending one_timer).
  { rewrite one_timer_pending. vm_compute.
    intros H. repeat (apply elem_of_cons in H as [H|H]; [discriminate|]).
    inversion H. }
  assert (Hdue : (clock (W_spawn 10) (ticks one_timer) + 0.001 <?
                  e_wakeup (Entry 0 7 0 5.0005))%float = false).
  { cbn [clock W_spawn e_wakeup]. reflexivity. }
  assert (Hdue2 : (clock (W_spawn 10) (ticks one_timer) + 0.001 <? 6)%float = false).
  { cbn [clock W_spawn]. reflexivity. }
  destruct (callback_schedules_due_timer (W_spawn 10) one_timer 0 (Entry 0 7 0 5.0005)
              [] 6 8 0 LIBT_ADD Hw one_timer_pending one_timer_inflight Hdue
              eq_refl eq_refl eq_refl eq_refl eq_refl Hno Hdue2 I I)
    as (s' & R & HF & HP & _).
  exists s'. split; [exact R|]. split; [exact HF|exact HP].
Defined.
